(* ===== verification/_CoqProject ===== *)
-Q . S2P
Prelude.v
Ranges.v
Takeover.v
Cstr.v
Parse.v
Config.v
Scanf.v
Request.v
Netsnap.v
Files.v
Daemon.v
Vigil.v
Fdt.v
FdtBytes.v
FdtWrite.v
HostTree.v
Elfcore.v
Dump.v
Cpio.v
Madt.v
Crashinfo.v
Devname.v
Takeable.v
Dt.v
Machine.v
Mkfs.v
Pci.v
Reset.v
Devtree.v
Memory.v
Ops.v
System.v
Arm.v
Freeze.v
Upgrade.v
Rtnl.v
Netlink.v
Vmlinux.v
Image.v
Standby.v
Sockets.v
Console.v
Syscalls.v
Startup.v
Process.v
Command.v
