(* ===== verification/Prelude.v ===== *)
(** * kmorph: verification development

    kmorph replaces the kernel of a machine without rebooting it.  On the
    running kernel (the predecessor) the command [kmorph] arms a successor: a
    second kernel booted on a few CPUs and some memory of the same machine.
    In the successor the daemon [kmorphd] watches the predecessor.  When it
    falls silent, or hands the machine over, the daemon fences it, takes its
    devices, CPUs and memory, and dumps that memory first if told to.  The
    two sides talk through a multikernel filesystem (device tree overlays), a
    host tree in the successor's boot tree, and requests on a socket.

    ** The program and the files

    The files follow the source; each definition carries the name of the C
    function it translates, loops are fixpoints beside their function.

    - [Prelude]: machine integers, errno, results, the allocator, tactics,
      loops by their rounds ([ends]).
    - [Cstr], [Scanf]: the C string and number functions the source calls.
    - [Ranges]: lib/ranges.c.  [Parse], [Config]: lib/parse.c, lib/config.c.
    - [Takeover]: kmorphd/takeover.c, the state machine, over a class
      [TakeoverOps] for [struct takeover_ops]; the protocol it refines.
    - [Request], [Netsnap]: lib/request.c, the text part of lib/netsnap.c.
    - [Files]: lib/file.c and the class [Files] through which the rest reads.
    - [Daemon]: kmorphd/main.c (event loop and handlers) and lib/probe.c.
      [Vigil]: what every run of that loop keeps, and why it fences.
    - [Fdt]: the part of the vendored libfdt that is used, at the level of
      tags, and lib/fdtutil.c.  [FdtBytes]: a blob as bytes and libfdt's
      reader on them, lib/fdt/fdt.c and fdt_ro.c.  [FdtWrite]: the writer on
      the bytes of its buffer, lib/fdt/fdt_sw.c and [fdt_pack].
    - [HostTree]: lib/host_tree.c.  [Dt]: lib/dt.c.
    - [Elfcore], [Dump]: lib/elfcore.c, lib/dump.c.
    - [Cpio], [Madt]: lib/cpio.c, lib/madt.c.
    - [Takeable], [Devtree], [Memory]: lib/takeable.c, lib/devtree.c,
      lib/iomem.c and lib/memblock.c.  [Crashinfo], [Devname]:
      lib/crashinfo.c, lib/devname.c.
    - [Machine]: the kernel and hardware as the history of what was done to
      them, with an oracle that answers from that history.  [Mkfs], [Pci]:
      lib/mkfs.c, lib/pci.c on it.
    - [Ops]: kmorphd/ops.c, the takeover operations on that machine.
      [Reset]: its device resets, interleaved by any schedule.
    - [System]: [Takeover] driving [Ops], fed what main.c feeds it.
    - [Arm], [Freeze], [Upgrade]: kmorph/arm.c, freeze.c, and upgrade.c with
      watch.c and client.c, the predecessor's commands.
    - [Rtnl], [Netlink]: lib/rtnl.c and the netlink part of lib/netsnap.c.
    - [Vmlinux], [Image]: lib/vmlinux.c with lib/elf.c, and kmorph/image.c.
    - [Standby]: kmorphd/standby.c and init.c.  [Console]: kmorphd/console.c.
    - [Sockets]: the sockets, the timer and two ioctls as system calls:
      lib/vsock.c, lib/probe.c, the socket of lib/rtnl.c and kmorph/client.c,
      the listener and the timer of kmorphd/main.c.
    - [Syscalls]: lib/mksys.c and lib/log.c.
    - [Startup]: the rest of kmorphd/main.c.  [Process]: the descriptors and
      signals of its process.  [Command]: kmorph/main.c.

    ** What the theorems show

    - The takeover ([Takeover], [Daemon], [Vigil], [System], [Ops]): the state
      machine and the whole daemon refine a protocol in which nothing is taken
      before a fence succeeded and nothing reaped without its dump.  The
      daemon fences after as many silences as configured since the last sign
      of life, and not later, or after a handover it accepted.  Over the
      modelled operations, for every kernel that could answer: no overlay,
      register or file is written before the fence; every address handed over
      is RAM of the host tree, not reserved and not already this kernel's;
      with a dump configured it was dumped before, unless a live predecessor
      handed over, which forgoes the dump; an IOMMU is claimed only
      when every device behind it is quiet, however the children that reset
      the devices side by side interleave or die.
    - Memory ([Ranges], [Takeable], [Memory], [Devtree]): range sets denote
      sets of addresses through any history of operations; what is takeable
      is exactly the machine minus what is owned or reserved.
    - Messages ([Fdt], [FdtBytes], [FdtWrite], [HostTree], [Dt]): a build
      always ends; the bytes it leaves in the buffer are those of the blob its
      tags stand for, and libfdt's reader finds in them the tree that was
      written; on arbitrary bytes every loop of the reader comes to its return
      and stays inside the blob; the successor reads from the overlay the
      CPUs, memory, crash information and devices of the host tree (not the
      bases of their IOMMUs); overlays and baselines say exactly what was
      asked.
    - The dump ([Elfcore], [Dump]): a dump that returns 0 is an ELF core that
      holds the memory byte for byte, on a file with holes or through a pipe.
    - Formats ([Cpio], [Madt], [Request], [Netsnap], [Config], [Parse]):
      round trips and exact acceptance; a network snapshot reads back when no
      two of its links share a PCI function and is refused when they do.
    - Arming and the predecessor ([Arm], [Freeze], [Upgrade]): what is started
      is what was prepared; disarming stops before it removes; the upgrade
      thaws whatever it froze, and freezes the writable filesystems on block
      devices as long as their lines fit its buffers; the watcher leaves the
      successor with the current network identity as long as no reply is
      lost.
    - The network ([Rtnl], [Netlink]): dumps are read whatever datagrams they
      come in; the requests that restore a link say what was collected of it.
    - The kernel and the image ([Vmlinux], [Image]): the ELF image is cut out
      exactly; the archive unpacks to the daemon and the login program; the
      file is replaced whole or not at all.  Two readers of program headers
      can be led outside their buffer, which is proved with the files that do
      it.
    - Processes ([Standby], [Startup], [Process], [Console], [Sockets]): a
      standby image that does not become the root leaves every mount where it
      was; main runs an armed daemon on the configuration and identity it
      found; with its standard descriptors open, the parent that waits exits
      by what the daemon reported, 0 once the machine was taken over, and the
      daemon behind it holds the only write end of their pipe; the functions
      of [Sockets] leave open exactly what they return.
    - The two sides together ([Command], [Startup], [Daemon]): status prints
      the state of the daemon that answered; an accepted handover is the
      accepting daemon's; the network identity and the configuration survive
      their way through files.

    ** Conventions, bounds and fuel

    Integers are [Z] with the wrap-around of their width written out ([u64],
    [u32]).  A C string is the list of its bytes without the NUL.  A function
    that returns 0 or [-errno] returns a [result]; allocation can fail
    ([Alloc]), and theorems that need memory assume [AllocOk].  Loops that are
    not structural take fuel from a measure of their input (the length of the
    text, the bytes left in units of the loop's step); each such function has
    a lemma or a theorem that the fuel suffices, so results are shown to be
    reached; for libfdt's reader, whose loops end on arbitrary bytes, it is
    that the rounds themselves come to a return ([FdtBytes.reader_terminates]).  The writer's blob is a list of tags with its string table and
    header fields, every size check of it on the byte sizes; [FdtBytes.flatten]
    is its bytes, and [tree_of], on which the readers of blobs work, is what
    the reader of the bytes sees ([FdtBytes.reads]).  Short reads and writes,
    interrupted calls and failing calls are scripts or oracles, and theorems
    quantify over them.

    ** Not modelled

    What the terminal and the session mean to the login program: [Console]
    and [Standby] keep those calls as steps in a trace.  The vendored libfdt
    (lib/fdt) is modelled as far as it is called: its read-write, phandle and
    address parts never are.  A mount is a path in a flat table: a mount
    inside a moved one keeps its own entry, which is where it is again once
    the move is undone. *)

From Stdlib Require Export ZArith Lia.
From stdpp Require Export base tactics list numbers strings option sorting sets gmap.

#[global] Open Scope Z_scope.

(** ** Machine integers *)

(** [uint64_t] arithmetic wraps modulo 2^64, [unsigned int] modulo 2^32. *)
Abbreviation two64 := 18446744073709551616 (only parsing).
Abbreviation two32 := 4294967296 (only parsing).

Definition u64 (x : Z) : Z := x mod two64.
Definition u32 (x : Z) : Z := x mod two32.
Definition UINT64_MAX : Z := two64 - 1.
Definition UINT32_MAX : Z := two32 - 1.
Definition is_u64 (x : Z) : Prop := 0 <= x < two64.

Lemma u64_small x : 0 <= x < two64 -> u64 x = x.
Proof. intros H. unfold u64. apply Z.mod_small. lia. Qed.

Lemma u32_small x : 0 <= x < two32 -> u32 x = x.
Proof. intros H. unfold u32. apply Z.mod_small. lia. Qed.

Lemma u64_range x : 0 <= u64 x < two64.
Proof. unfold u64. apply Z.mod_pos_bound. lia. Qed.

Lemma u32_range x : 0 <= u32 x < two32.
Proof. unfold u32. apply Z.mod_pos_bound. lia. Qed.

(** The overflow test [end < base] of the source: the 64-bit sum of two
    64-bit values is below its first operand exactly when it wrapped. *)
Lemma u64_add_wraps x y :
  is_u64 x -> is_u64 y -> (u64 (x + y) < x <-> two64 <= x + y).
Proof.
  unfold is_u64, u64. intros Hx Hy. split; intros H.
  - destruct (Z.lt_ge_cases (x + y) two64) as [L|L]; [|lia].
    rewrite Z.mod_small in H; lia.
  - rewrite <- (Z_mod_plus_full (x + y) (-1)).
    rewrite Z.mod_small; lia.
Qed.

(** ** errno values (Linux, asm-generic) *)

Definition EPERM : Z := 1.
Definition ENOENT : Z := 2.
Definition EINTR : Z := 4.
Definition EIO : Z := 5.
Definition E2BIG : Z := 7.
Definition ENOEXEC : Z := 8.
Definition ENOMEM : Z := 12.
Definition EBUSY : Z := 16.
Definition EEXIST : Z := 17.
Definition ENODEV : Z := 19.
Definition EINVAL : Z := 22.
Definition EFBIG : Z := 27.
Definition ENOSPC : Z := 28.
Definition ERANGE : Z := 34.
Definition ETIME : Z := 62.
Definition EOPNOTSUPP : Z := 95.
Definition ECONNRESET : Z := 104.
Definition ETIMEDOUT : Z := 110.
Definition EHOSTDOWN : Z := 112.

(** ** Results: a function returning 0 or [-errno] *)

Inductive result (A : Type) : Type :=
| Ok (a : A)
| Err (e : Z).
Arguments Ok {A} a.
Arguments Err {A} e.

Definition is_ok {A} (r : result A) : bool :=
  match r with Ok _ => true | Err _ => false end.

(** The [int] such a function returns. *)
Definition ret_int {A} (r : result A) : Z :=
  match r with Ok _ => 0 | Err e => - e end.

Declare Scope result_scope.
Delimit Scope result_scope with result.
Notation "'let?' p := c1 'in' c2" :=
  (match c1 with Ok p => c2 | Err e => Err e end)
  (at level 10, p pattern, c1 at level 200, c2 at level 200) : result_scope.
#[global] Open Scope result_scope.

(** ** The allocator

    [malloc], [realloc], [calloc] and [strdup] may fail.  Every model that
    allocates is parameterised by whether an allocation of that many bytes
    succeeds. *)
Class Alloc := alloc : Z -> bool.

Definition alloc_always : Alloc := fun _ => true.
Definition alloc_never : Alloc := fun _ => false.

Class AllocOk `{Alloc} : Prop := alloc_ok : forall n, alloc n = true.

#[export] Instance alloc_always_ok : @AllocOk alloc_always.
Proof. intros n. reflexivity. Qed.

(** ** Tactics *)

(** Case analysis on the innermost boolean test or match of the goal. *)
Ltac case_bool :=
  match goal with
  | |- context [if ?b then _ else _] => destruct b eqn:?
  | H : context [if ?b then _ else _] |- _ => destruct b eqn:?
  end.

(** Turns every boolean comparison in the context into its proposition. *)
Ltac b2p :=
  repeat match goal with
  | H : _ && _ = true |- _ => apply andb_prop in H; destruct H
  | H : _ && _ = false |- _ => apply andb_false_iff in H
  | H : _ || _ = true |- _ => apply orb_prop in H
  | H : _ || _ = false |- _ => apply orb_false_elim in H; destruct H
  | H : negb _ = true |- _ => apply negb_true_iff in H
  | H : negb _ = false |- _ => apply negb_false_iff in H
  | H : (_ <? _) = true |- _ => apply Z.ltb_lt in H
  | H : (_ <? _) = false |- _ => apply Z.ltb_ge in H
  | H : (_ <=? _) = true |- _ => apply Z.leb_le in H
  | H : (_ <=? _) = false |- _ => apply Z.leb_gt in H
  | H : (_ =? _) = true |- _ => apply Z.eqb_eq in H
  | H : (_ =? _) = false |- _ => apply Z.eqb_neq in H
  end.

Create HintDb kmorph discriminated.

(** ** Loops that end

    A loop by its rounds: [step] goes on with [inl] or stops with [inr].
    [ends n x r] says that it stops from [x] with [r] after at most [n]
    rounds; running out of rounds is no way to end. *)
Section Loops.
Context {X R : Type} (step : X -> X + R).

Inductive ends : nat -> X -> R -> Prop :=
| ends_now n x r : step x = inr r -> ends (S n) x r
| ends_later n x y r : step x = inl y -> ends n y r -> ends (S n) x r.

(** A function with fuel that takes these rounds ends with its result, while
    [P], which no state has without fuel left, holds of the fuel and the
    state. *)
Lemma ends_with_fuel (f : nat -> X -> R) (P : nat -> X -> Prop) :
  (forall n x, f (S n) x = match step x with inl y => f n y | inr r => r end) ->
  (forall x, ~ P O x) -> (forall n x y, P (S n) x -> step x = inl y -> P n y) ->
  forall n x, P n x -> ends n x (f n x).
Proof.
  intros Hf H0 Hs n. induction n as [|n IH]; intros x Hx; [by apply H0 in Hx|]. rewrite Hf.
  destruct (step x) as [y|r] eqn:E; [|by apply ends_now]. eapply ends_later; [done|]. by apply IH, (Hs _ x).
Qed.

End Loops.
