(* ===== verification/Ranges.v ===== *)
(** * lib/ranges.c: sets of physical address ranges

    [struct rangeset] is a growable array of ranges, sorted, disjoint and
    non-adjacent; the list [rs_r] holds its first [count] entries and
    [rs_cap] its allocated capacity.  The index loops of the source are
    kept as index loops; the number of iterations left is bounded by the
    number of entries, which is the fuel each is given. *)

From S2P Require Import Prelude.

Record range := Range { r_base : Z; r_size : Z }.

#[export] Instance range_eq_dec : EqDecision range.
Proof. solve_decision. Defined.

Record rangeset := Rangeset { rs_r : list range; rs_cap : nat }.

Definition rs_count (s : rangeset) : nat := length (rs_r s).
Definition RANGESET_INIT : rangeset := Rangeset [] 0.

(** [sizeof(struct range)] *)
Definition sizeof_range : Z := 16.

Definition range_end (r : range) : Z := u64 (r_base r + r_size r).

Section Operations.
Context `{Alloc}.

Definition rangeset_insert (s : rangeset) (at_ : nat) (base size : Z) : result unit * rangeset :=
  let put cap := Rangeset (take at_ (rs_r s) ++ Range base size :: drop at_ (rs_r s)) cap in
  if (rs_count s =? rs_cap s)%nat then
    let cap := if (rs_cap s =? 0)%nat then 8%nat else (rs_cap s * 2)%nat in
    if alloc (Z.of_nat cap * sizeof_range) then (Ok tt, put cap) else (Err ENOMEM, s)
  else (Ok tt, put (rs_cap s)).

Definition rangeset_remove (s : rangeset) (at_ : nat) : rangeset :=
  Rangeset (take at_ (rs_r s) ++ drop (S at_) (rs_r s)) (rs_cap s).

(** [while (i < s->count && range_end(&s->r[i]) < base) i++;] *)
Fixpoint add_skip (fuel : nat) (s : rangeset) (base : Z) (i : nat) : nat :=
  match fuel with
  | O => i
  | S fuel =>
      match rs_r s !! i with
      | Some r => if range_end r <? base then add_skip fuel s base (S i) else i
      | None => i
      end
  end.

(** Swallow every range touching [base, end) into it. *)
Fixpoint add_swallow (fuel : nat) (s : rangeset) (i : nat) (base end_ : Z) : rangeset * Z * Z :=
  match fuel with
  | O => (s, base, end_)
  | S fuel =>
      match rs_r s !! i with
      | Some r =>
          if r_base r <=? end_ then
            let base' := if r_base r <? base then r_base r else base in
            let end' := if end_ <? range_end r then range_end r else end_ in
            add_swallow fuel (rangeset_remove s i) i base' end'
          else (s, base, end_)
      | None => (s, base, end_)
      end
  end.

Definition rangeset_add (s : rangeset) (base size : Z) : result unit * rangeset :=
  let end_ := u64 (base + size) in
  if (size =? 0) || (end_ <? base) then (Err EINVAL, s) else
  let i := add_skip (rs_count s) s base 0 in
  let '(s, base, end_) := add_swallow (rs_count s) s i base end_ in
  rangeset_insert s i base (u64 (end_ - base)).

Fixpoint subtract_loop (fuel : nat) (s : rangeset) (base end_ : Z) (i : nat)
    : result unit * rangeset :=
  match fuel with
  | O => (Ok tt, s)
  | S fuel =>
      match rs_r s !! i with
      | None => (Ok tt, s)
      | Some r =>
          let rend := range_end r in
          let set r' := Rangeset (<[i := r']> (rs_r s)) (rs_cap s) in
          if (rend <=? base) || (end_ <=? r_base r) then subtract_loop fuel s base end_ (S i)
          else if (r_base r <? base) && (end_ <? rend) then
            match rangeset_insert s (S i) end_ (u64 (rend - end_)) with
            | (Ok _, s') =>
                (Ok tt, Rangeset (<[i := Range (r_base r) (u64 (base - r_base r))]> (rs_r s'))
                                 (rs_cap s'))
            | (Err e, s') => (Err e, s')
            end
          else if r_base r <? base then
            subtract_loop fuel (set (Range (r_base r) (u64 (base - r_base r)))) base end_ (S i)
          else if end_ <? rend then
            subtract_loop fuel (set (Range end_ (u64 (rend - end_)))) base end_ (S i)
          else subtract_loop fuel (rangeset_remove s i) base end_ i
      end
  end.

Definition rangeset_subtract (s : rangeset) (base size : Z) : result unit * rangeset :=
  let end_ := u64 (base + size) in
  if (size =? 0) || (end_ <? base) then (Err EINVAL, s)
  else subtract_loop (rs_count s) s base end_ 0.

Fixpoint subtract_each (s : rangeset) (minus : list range) : result unit * rangeset :=
  match minus with
  | [] => (Ok tt, s)
  | m :: minus =>
      match rangeset_subtract s (r_base m) (r_size m) with
      | (Ok _, s) => subtract_each s minus
      | (Err e, s) => (Err e, s)
      end
  end.

Definition rangeset_subtract_set (s minus : rangeset) : result unit * rangeset :=
  subtract_each s (rs_r minus).

Definition rangeset_free (s : rangeset) : rangeset := RANGESET_INIT.

Fixpoint add_each (dst : rangeset) (src : list range) : result unit * rangeset :=
  match src with
  | [] => (Ok tt, dst)
  | r :: src =>
      match rangeset_add dst (r_base r) (r_size r) with
      | (Ok _, dst) => add_each dst src
      | (Err e, dst) => (Err e, dst)
      end
  end.

Definition rangeset_copy (dst src : rangeset) : result unit * rangeset :=
  add_each (rangeset_free dst) (rs_r src).

Fixpoint align_each (l : list range) (block : Z) (out : rangeset) : result unit * rangeset :=
  match l with
  | [] => (Ok tt, out)
  | r :: l =>
      let base := u64 (u64 (r_base r + block - 1) / block * block) in
      let end_ := range_end r / block * block in
      if end_ <=? base then align_each l block out
      else
        match rangeset_add out base (u64 (end_ - base)) with
        | (Ok _, out) => align_each l block out
        | (Err e, out) => (Err e, out)
        end
  end.

Definition rangeset_align (s : rangeset) (block : Z) (out : rangeset) : result unit * rangeset :=
  if block =? 0 then (Err EINVAL, out) else align_each (rs_r s) block out.

End Operations.

Definition rangeset_contains (s : rangeset) (base size : Z) : bool :=
  existsb (fun r => (r_base r <=? base) && (u64 (base + size) <=? range_end r)) (rs_r s).

Definition rangeset_total (s : rangeset) : Z :=
  foldl (fun total r => u64 (total + r_size r)) 0 (rs_r s).

(** [struct rangelist]: ranges in the order given, never merged. *)
Definition rangelist : Type := list range.

Definition rangelist_add `{Alloc} (l : rangelist) (base size : Z) : result unit * rangelist :=
  if alloc ((Z.of_nat (length l) + 1) * sizeof_range)
  then (Ok tt, l ++ [Range base size]) else (Err ENOMEM, l).

(** ** Denotation and invariant *)

(** The addresses a list of ranges holds. *)
Definition in_range (r : range) (x : Z) : Prop := r_base r <= x < r_base r + r_size r.
Definition mem (l : list range) (x : Z) : Prop := Exists (fun r => in_range r x) l.
Definition rs_mem (s : rangeset) (x : Z) : Prop := mem (rs_r s) x.

(** Sorted, non-overlapping, non-adjacent, every range non-empty and
    ending below 2^64; [lo] is the end of what comes before. *)
Fixpoint wf_from (lo : Z) (l : list range) : Prop :=
  match l with
  | [] => True
  | r :: l => lo < r_base r /\ 0 < r_size r /\ r_base r + r_size r < two64
              /\ wf_from (r_base r + r_size r) l
  end.

(** The invariant of [struct rangeset]; the array holds its entries. *)
Definition rs_wf (s : rangeset) : Prop :=
  wf_from (-1) (rs_r s) /\ (rs_count s <= rs_cap s)%nat.

(** The end of the last range of [l], or [lo]. *)
Fixpoint last_end (lo : Z) (l : list range) : Z :=
  match l with [] => lo | r :: l => last_end (r_base r + r_size r) l end.

(** Reference definitions on lists that the array loops compute. *)
Fixpoint merge_list (base end_ : Z) (l : list range) : list range :=
  match l with
  | [] => [Range base (end_ - base)]
  | r :: t =>
      if r_base r <=? end_
      then merge_list (Z.min (r_base r) base) (Z.max (r_base r + r_size r) end_) t
      else Range base (end_ - base) :: l
  end.

Fixpoint add_list (base end_ : Z) (l : list range) : list range :=
  match l with
  | [] => [Range base (end_ - base)]
  | r :: t =>
      if r_base r + r_size r <? base then r :: add_list base end_ t
      else merge_list base end_ l
  end.

Definition sub_one (base end_ : Z) (r : range) : list range :=
  let rend := r_base r + r_size r in
  if (rend <=? base) || (end_ <=? r_base r) then [r]
  else (if r_base r <? base then [Range (r_base r) (base - r_base r)] else [])
       ++ (if end_ <? rend then [Range end_ (rend - end_)] else []).

Definition sub_list (base end_ : Z) (l : list range) : list range :=
  concat (map (sub_one base end_) l).

(** Two sets of the same addresses. *)
Definition same_mem (l1 l2 : list range) : Prop := forall x, mem l1 x <-> mem l2 x.

#[export] Instance same_mem_equiv : Equivalence same_mem.
Proof. unfold same_mem. split; red; firstorder. Qed.

#[export] Instance mem_proper : Proper (same_mem ==> (=) ==> iff) mem.
Proof. intros l1 l2 Hl x y ->. apply Hl. Qed.

(** ** Lemmas *)

Lemma mem_nil x : mem [] x <-> False.
Proof. unfold mem. rewrite Exists_nil. done. Qed.

Lemma mem_cons r l x : mem (r :: l) x <-> in_range r x \/ mem l x.
Proof. unfold mem. rewrite Exists_cons. done. Qed.

Lemma mem_app l1 l2 x : mem (l1 ++ l2) x <-> mem l1 x \/ mem l2 x.
Proof. unfold mem. rewrite Exists_app. done. Qed.

Create Rewrite HintDb ranges.
#[export] Hint Rewrite mem_nil mem_cons mem_app : ranges.

Lemma wf_from_weaken lo lo' l : lo' <= lo -> wf_from lo l -> wf_from lo' l.
Proof. destruct l; simpl; [done|]. intros ? (? & ? & ? & ?). repeat split; auto; lia. Qed.

Lemma wf_from_app lo l1 l2 :
  wf_from lo (l1 ++ l2) <-> wf_from lo l1 /\ wf_from (last_end lo l1) l2.
Proof. revert lo. induction l1 as [|r l1 IH]; intros lo; simpl; [tauto|]. rewrite IH. tauto. Qed.

Lemma wf_from_mem lo l x : wf_from lo l -> mem l x -> lo < x < two64.
Proof.
  revert lo. induction l as [|r l IH]; intros lo; simpl; rewrite ?mem_nil, ?mem_cons; [done|].
  intros (? & ? & ? & Hl) [[? ?]|Hx]; [lia|]. apply (IH _ Hl) in Hx. lia.
Qed.

(** The representation is canonical: two well-formed lists of the same
    addresses are the same list. *)
Lemma wf_from_unique lo lo' l l' :
  wf_from lo l -> wf_from lo' l' -> (forall x, mem l x <-> mem l' x) -> l = l'.
Proof.
  revert lo lo' l'. induction l as [|r l IH]; intros lo lo' [|r' l'] W W' E; simpl in *.
  - done.
  - exfalso. apply (mem_nil (r_base r')), E, mem_cons. left. unfold in_range. lia.
  - exfalso. apply (mem_nil (r_base r)), E, mem_cons. left. unfold in_range. lia.
  - destruct W as (H1 & H2 & H3 & H4), W' as (K1 & K2 & K3 & K4).
    assert (Low : forall x, mem (r :: l) x -> r_base r <= x /\ x <> r_base r + r_size r).
    { intros x. rewrite mem_cons. unfold in_range. intros [?|M]; [lia|]. apply (wf_from_mem _ _ _ H4) in M. lia. }
    assert (Low' : forall x, mem (r' :: l') x -> r_base r' <= x /\ x <> r_base r' + r_size r').
    { intros x. rewrite mem_cons. unfold in_range. intros [?|M]; [lia|]. apply (wf_from_mem _ _ _ K4) in M. lia. }
    assert (In : forall x, in_range r x -> r_base r' <= x /\ x <> r_base r' + r_size r').
    { intros x M. apply Low', E, mem_cons. by left. }
    assert (In' : forall x, in_range r' x -> r_base r <= x /\ x <> r_base r + r_size r).
    { intros x M. apply Low, E, mem_cons. by left. }
    unfold in_range in *.
    assert (r_base r = r_base r').
    { pose proof (In (r_base r)). pose proof (In' (r_base r')). lia. }
    assert (r_size r = r_size r').
    { pose proof (In (r_base r' + r_size r')). pose proof (In' (r_base r + r_size r)). lia. }
    assert (r = r') as -> by (destruct r, r'; simpl in *; congruence). f_equal.
    apply (IH _ _ _ H4 K4). intros x. specialize (E x). rewrite !mem_cons in E. unfold in_range in E.
    split; intros M; [pose proof (wf_from_mem _ _ _ H4 M)|pose proof (wf_from_mem _ _ _ K4 M)]; destruct E as [E1 E2];
      [destruct (E1 (or_intror M))|destruct (E2 (or_intror M))]; done || lia.
Qed.

Lemma wf_from_ends lo l : wf_from lo l -> Forall (fun r => lo < r_base r /\ 0 < r_size r
  /\ r_base r + r_size r < two64) l.
Proof.
  revert lo. induction l as [|r l IH]; intros lo; simpl; constructor; [intuition|].
  destruct H as (? & ? & ? & Hl). apply IH in Hl.
  eapply Forall_impl; [exact Hl|]. simpl. intros; lia.
Qed.

Lemma last_end_ge lo l : wf_from lo l -> lo <= last_end lo l.
Proof.
  revert lo. induction l as [|r l IH]; intros lo; simpl; [lia|].
  intros (? & ? & ? & Hl). apply IH in Hl. lia.
Qed.

Lemma range_end_wf r : 0 <= r_base r -> 0 < r_size r -> r_base r + r_size r < two64 ->
  range_end r = r_base r + r_size r.
Proof. intros. unfold range_end. apply u64_small. lia. Qed.

(** *** The list definitions: invariant and denotation *)

(** The first range left by the skip loop does not end before [base]. *)
Definition touches (base : Z) (l : list range) : Prop :=
  match l with [] => True | r :: _ => base <= r_base r + r_size r end.

Lemma merge_list_spec lo base end_ l :
  -1 <= lo < base -> base < end_ < two64 -> wf_from lo l -> touches base l ->
  wf_from lo (merge_list base end_ l)
  /\ forall x, mem (merge_list base end_ l) x <-> base <= x < end_ \/ mem l x.
Proof.
  revert lo base end_.
  induction l as [|r l IH]; intros lo base end_ Hlo He Hwf Ht; simpl in *.
  - split; [simpl; repeat split; lia|]. intros x. rewrite mem_cons, mem_nil.
    unfold in_range; simpl. lia.
  - destruct Hwf as (H1 & H2 & H3 & H4). case_bool; b2p.
    + destruct (IH lo (Z.min (r_base r) base) (Z.max (r_base r + r_size r) end_))
        as [W M]; [lia|lia|eapply wf_from_weaken; [|exact H4]; lia| |].
      { destruct l; simpl in *; [done|lia]. }
      split; [exact W|]. intros x. rewrite M, mem_cons. unfold in_range.
      enough (Z.min (r_base r) base <= x < Z.max (r_base r + r_size r) end_ <->
              base <= x < end_ \/ r_base r <= x < r_base r + r_size r) by tauto. lia.
    + split; [simpl; repeat split; auto; lia|]. intros x. rewrite mem_cons.
      unfold in_range; simpl. rewrite Z.add_sub_assoc, Z.add_comm, Z.add_simpl_r. tauto.
Qed.

Lemma add_list_spec lo base end_ l :
  -1 <= lo < base -> base < end_ < two64 -> wf_from lo l ->
  wf_from lo (add_list base end_ l)
  /\ forall x, mem (add_list base end_ l) x <-> base <= x < end_ \/ mem l x.
Proof.
  intros Hlo He. revert lo Hlo.
  induction l as [|r l IH]; intros lo Hlo Hwf; [by apply (merge_list_spec lo base end_ [])|].
  cbn [add_list]. case_bool; b2p; [|by apply merge_list_spec].
  destruct Hwf as (H1 & H2 & H3 & H4). destruct (IH (r_base r + r_size r)) as [W M]; [lia|done|].
  split; [simpl; auto|]. intros x. rewrite !mem_cons, M. tauto.
Qed.

Lemma sub_one_mem base end_ r x :
  base < end_ -> mem (sub_one base end_ r) x <-> in_range r x /\ ~ (base <= x < end_).
Proof.
  intros He. unfold sub_one, in_range.
  repeat case_bool; b2p; autorewrite with ranges; unfold in_range; simpl; lia.
Qed.

Lemma sub_list_mem base end_ l x :
  base < end_ -> mem (sub_list base end_ l) x <-> mem l x /\ ~ (base <= x < end_).
Proof.
  intros He. unfold sub_list. induction l as [|r l IH]; simpl; autorewrite with ranges; [tauto|].
  rewrite IH, sub_one_mem by done. tauto.
Qed.

Lemma sub_one_wf lo base end_ r :
  base < end_ -> wf_from lo [r] ->
  wf_from lo (sub_one base end_ r) /\ last_end lo (sub_one base end_ r) <= r_base r + r_size r.
Proof.
  intros He (H1 & H2 & H3 & _). unfold sub_one.
  repeat case_bool; b2p; simpl; repeat split; lia.
Qed.

Lemma sub_list_wf lo base end_ l :
  base < end_ -> wf_from lo l -> wf_from lo (sub_list base end_ l).
Proof.
  intros He. revert lo. unfold sub_list. induction l as [|r l IH]; intros lo Hl; simpl; [done|].
  rewrite (wf_from_app lo [r] l : wf_from lo (r :: l) <-> _) in Hl. destruct Hl as [Hr Hl].
  destruct (sub_one_wf lo base end_ r He Hr) as [W E].
  apply wf_from_app. split; [exact W|]. eapply wf_from_weaken; [exact E|]. apply IH, Hl.
Qed.

(** Nothing to subtract from ranges past the end. *)
Lemma sub_list_past lo base end_ l :
  end_ <= lo + 1 -> wf_from lo l -> sub_list base end_ l = l.
Proof.
  unfold sub_list. revert lo. induction l as [|r l IH]; intros lo He Hl; [done|].
  destruct Hl as (H1 & H2 & H3 & H4). simpl. rewrite (IH (r_base r + r_size r)) by (auto; lia).
  unfold sub_one. destruct (Z.leb_spec end_ (r_base r)); [|lia]. by rewrite orb_true_r.
Qed.

(** *** The array loops compute the list definitions *)

Lemma rangeset_remove_app pre r suf cap :
  rangeset_remove (Rangeset (pre ++ r :: suf) cap) (length pre) = Rangeset (pre ++ suf) cap.
Proof.
  unfold rangeset_remove. simpl. rewrite take_app_length.
  rewrite drop_app_ge by lia. by replace (S (length pre) - length pre)%nat with 1%nat by lia.
Qed.

Lemma add_skip_app fuel pre suf cap base :
  wf_from (-1) (pre ++ suf) -> (length suf <= fuel)%nat ->
  exists pre' suf', pre ++ suf = pre' ++ suf'
    /\ add_skip fuel (Rangeset (pre ++ suf) cap) base (length pre) = length pre'
    /\ forall end_, pre ++ add_list base end_ suf = pre' ++ merge_list base end_ suf'.
Proof.
  revert fuel pre. induction suf as [|r suf IH]; intros fuel pre Hwf Hf.
  - exists pre, []. repeat split. destruct fuel; simpl; [done|].
    by rewrite lookup_app_r, Nat.sub_diag by lia.
  - destruct fuel as [|fuel]; simpl in Hf; [lia|].
    simpl. rewrite lookup_app_r, Nat.sub_diag by lia. simpl.
    assert (Hr := Hwf). apply wf_from_ends, Forall_app in Hr as [_ Hr].
    inversion_clear Hr as [|? ? (? & ? & ?) _].
    rewrite range_end_wf by lia. case_bool.
    + destruct (IH fuel (pre ++ [r])) as (p & q & E & S & L);
        [by rewrite <- app_assoc|lia|].
      rewrite <- app_assoc in E. exists p, q. repeat split; [exact E| |].
      * rewrite <- S, length_app, <- app_assoc. simpl. by rewrite Nat.add_1_r.
      * intros e. rewrite <- L, <- app_assoc. done.
    + exists pre, (r :: suf). done.
Qed.

Lemma add_swallow_app fuel pre suf cap base end_ :
  wf_from (-1) (pre ++ suf) -> (length suf <= fuel)%nat -> 0 <= base < end_ -> end_ < two64 ->
  exists suf' base' end',
    add_swallow fuel (Rangeset (pre ++ suf) cap) (length pre) base end_
      = (Rangeset (pre ++ suf') cap, base', end')
    /\ merge_list base end_ suf = Range base' (end' - base') :: suf'
    /\ 0 <= base' < end' /\ end' < two64
    /\ (suf' = suf \/ (length suf' < length suf)%nat).
Proof.
  revert fuel base end_. induction suf as [|r suf IH]; intros fuel base end_ Hwf Hf Hb He.
  - exists [], base, end_. repeat split; [|lia..|by left]. destruct fuel; simpl; [done|].
    by rewrite lookup_app_r, Nat.sub_diag by lia.
  - destruct fuel as [|fuel]; simpl in Hf; [lia|].
    simpl. rewrite lookup_app_r, Nat.sub_diag by lia. simpl.
    assert (Hr := Hwf). apply wf_from_app in Hr as [Hpre (H1 & H2 & H3 & H4)].
    assert (-1 <= last_end (-1) pre) by (by apply last_end_ge).
    rewrite range_end_wf by lia. case_bool; b2p.
    + rewrite rangeset_remove_app.
      replace (if r_base r <? base then r_base r else base) with (Z.min (r_base r) base)
        by (case_bool; b2p; lia).
      replace (if end_ <? r_base r + r_size r then r_base r + r_size r else end_)
        with (Z.max (r_base r + r_size r) end_) by (case_bool; b2p; lia).
      destruct (IH fuel (Z.min (r_base r) base) (Z.max (r_base r + r_size r) end_))
        as (q & b & e & E & M & ? & ? & L); [|lia..|].
      { apply wf_from_app. split; [done|]. eapply wf_from_weaken; [|exact H4]. lia. }
      exists q, b, e. repeat split; auto; [lia..|]. right. destruct L as [->|]; lia.
    + exists (r :: suf), base, end_. repeat split; auto; lia.
Qed.

(** Inserting between [pre] and [suf]: the entry lands there, or the
    array is full, cannot grow and is left as it was. *)
Lemma rangeset_insert_app `{Alloc} pre suf cap base size :
  (length (pre ++ suf) <= cap)%nat ->
  (exists cap', rangeset_insert (Rangeset (pre ++ suf) cap) (length pre) base size
     = (Ok tt, Rangeset (pre ++ Range base size :: suf) cap')
     /\ (S (length (pre ++ suf)) <= cap')%nat)
  \/ (length (pre ++ suf) = cap /\ ~ AllocOk /\
      rangeset_insert (Rangeset (pre ++ suf) cap) (length pre) base size
      = (Err ENOMEM, Rangeset (pre ++ suf) cap)).
Proof.
  intros Hc. unfold rangeset_insert, rs_count. cbn [rs_r rs_cap].
  rewrite take_app_length, drop_app_length.
  destruct (Nat.eqb_spec (length (pre ++ suf)) cap) as [E|E];
    [|left; exists cap; split; [done|lia]].
  destruct (alloc _) eqn:A.
  - left. eexists. split; [done|]. destruct (Nat.eqb_spec cap 0); lia.
  - right. repeat split; auto. intros Hok. rewrite Hok in A. done.
Qed.

(** [rangeset_add] on a well-formed set is [add_list], or nothing on a
    failed allocation. *)
Lemma rangeset_add_list `{Alloc} s base size :
  rs_wf s -> is_u64 base -> is_u64 size -> size <> 0 -> base + size < two64 ->
  (exists cap, rangeset_add s base size = (Ok tt, Rangeset (add_list base (base + size) (rs_r s)) cap)
    /\ (length (add_list base (base + size) (rs_r s)) <= cap)%nat)
  \/ (~ AllocOk /\ rangeset_add s base size = (Err ENOMEM, s)).
Proof.
  intros [Hwf Hcap] Hb Hs Hs0 Hlt. unfold is_u64 in *. unfold rangeset_add.
  rewrite u64_small by lia.
  destruct (Z.eqb_spec size 0); [lia|]. destruct (Z.ltb_spec (base + size) base); [lia|].
  cbn [orb]. destruct s as [l cap]. cbn [rs_r rs_cap rs_count] in *.
  destruct (add_skip_app (length l) [] l cap base) as (pre & suf & Hl & S & L); [done|done|].
  cbn [app length] in Hl, S, L. subst l. unfold rs_count in *. cbn [rs_r] in *. rewrite S.
  destruct (add_swallow_app (length (pre ++ suf)) pre suf cap base (base + size))
    as (q & b & e & E & M & Hbe & He & Hq); [done|rewrite length_app; lia|lia|lia|].
  rewrite E, (L (base + size)), M, (u64_small (e - b)) by lia.
  rewrite !length_app in *. simpl.
  destruct (rangeset_insert_app pre q cap b (e - b)) as [(c & R & Hc)|(Hc & Hn & R)].
  - rewrite length_app. destruct Hq as [->|]; lia.
  - left. exists c. rewrite length_app in Hc. split; [done|lia].
  - right. rewrite length_app in Hc. destruct Hq as [->|]; [|lia]. done.
Qed.

Lemma insert_mid (pre suf : list range) r r' :
  <[length pre := r']> (pre ++ r :: suf) = pre ++ r' :: suf.
Proof. rewrite insert_app_r_alt by lia. by rewrite Nat.sub_diag. Qed.

(** One step of the loop past an entry it keeps. *)
Lemma subtract_loop_next `{Alloc} fuel pre r suf cap base end_ :
  subtract_loop fuel (Rangeset (pre ++ r :: suf) cap) base end_ (S (length pre))
  = subtract_loop fuel (Rangeset ((pre ++ [r]) ++ suf) cap) base end_ (length (pre ++ [r])).
Proof. by rewrite <- app_assoc, length_app, Nat.add_1_r. Qed.

(** Once the loop is past [base] no range is split and it cannot fail. *)
Lemma subtract_loop_past `{Alloc} fuel lo pre suf cap base end_ :
  wf_from lo suf -> -1 <= lo -> base <= lo + 1 -> base < end_ -> (length suf <= fuel)%nat ->
  subtract_loop fuel (Rangeset (pre ++ suf) cap) base end_ (length pre)
  = (Ok tt, Rangeset (pre ++ sub_list base end_ suf) cap).
Proof.
  unfold sub_list. revert fuel lo pre.
  induction suf as [|r suf IH]; intros fuel lo pre Hwf Hlo Hb He Hf.
  - destruct fuel; cbn; [done|]. by rewrite lookup_app_r, Nat.sub_diag by lia.
  - destruct fuel as [|fuel]; simpl in Hf; [lia|].
    cbn [subtract_loop rs_r rs_cap]. rewrite lookup_app_r, Nat.sub_diag by lia. cbn [lookup list_lookup].
    destruct Hwf as (H1 & H2 & H3 & H4). rewrite range_end_wf by lia.
    assert (IH' := fun p => IH fuel (r_base r + r_size r) p H4 ltac:(lia) ltac:(lia) He ltac:(lia)).
    cbn [map concat]. unfold sub_one at 1.
    destruct (Z.leb_spec (r_base r + r_size r) base); [lia|].
    destruct (Z.leb_spec end_ (r_base r)); cbn [orb].
    { by rewrite subtract_loop_next, IH', <- app_assoc. }
    destruct (Z.ltb_spec (r_base r) base); [lia|]. cbn [andb app].
    destruct (Z.ltb_spec end_ (r_base r + r_size r)).
    + rewrite insert_mid, u64_small, subtract_loop_next, IH', <- app_assoc by lia. done.
    + by rewrite rangeset_remove_app, IH'.
Qed.

Lemma sub_list_length_past lo base end_ l :
  wf_from lo l -> base <= lo + 1 -> (length (sub_list base end_ l) <= length l)%nat.
Proof.
  unfold sub_list. revert lo. induction l as [|r l IH]; intros lo Hl Hb; simpl; [lia|].
  destruct Hl as (H1 & H2 & H3 & H4). apply IH in H4; [|lia]. rewrite length_app.
  enough (length (sub_one base end_ r) <= 1)%nat by lia.
  unfold sub_one. repeat case_bool; b2p; simpl; lia.
Qed.

(** The loop at a range that overlaps [base, end). *)
Lemma subtract_loop_overlap `{Alloc} fuel pre r suf cap base end_ :
  wf_from (-1) (r :: suf) -> 0 <= base < end_ -> end_ < two64 ->
  base < r_base r + r_size r -> r_base r < end_ ->
  (length suf <= fuel)%nat -> (length (pre ++ r :: suf) <= cap)%nat ->
  (exists cap', subtract_loop (S fuel) (Rangeset (pre ++ r :: suf) cap) base end_ (length pre)
      = (Ok tt, Rangeset (pre ++ sub_list base end_ (r :: suf)) cap')
      /\ (length (pre ++ sub_list base end_ (r :: suf)) <= cap')%nat)
  \/ (~ AllocOk /\ subtract_loop (S fuel) (Rangeset (pre ++ r :: suf) cap) base end_ (length pre)
      = (Err ENOMEM, Rangeset (pre ++ r :: suf) cap)).
Proof.
  intros (H1 & H2 & H3 & H4) Hb He Hov1 Hov2 Hf Hc.
  assert (Hpast := fun p => subtract_loop_past fuel (r_base r + r_size r) p suf cap base end_
                     H4 ltac:(lia) ltac:(lia) ltac:(lia) Hf).
  assert (Hlen := sub_list_length_past (r_base r + r_size r) base end_ suf H4 ltac:(lia)).
  unfold sub_list. cbn [map concat]. fold (sub_list base end_ suf). unfold sub_one at 1 2.
  cbn [subtract_loop rs_r rs_cap]. rewrite lookup_app_r, Nat.sub_diag by lia. cbn [lookup list_lookup].
  rewrite range_end_wf by lia. rewrite length_app in Hc. simpl in Hc.
  destruct (Z.leb_spec (r_base r + r_size r) base); [lia|].
  destruct (Z.leb_spec end_ (r_base r)); [lia|]. cbn [orb].
  destruct (Z.ltb_spec (r_base r) base) as [Lb|Lb];
    destruct (Z.ltb_spec end_ (r_base r + r_size r)) as [Le|Le]; cbn [andb app].
  - rewrite (sub_list_past (r_base r + r_size r)), !u64_small by (auto; lia).
    replace (S (length pre)) with (length (pre ++ [r])) by (rewrite length_app; simpl; lia).
    replace (pre ++ r :: suf) with ((pre ++ [r]) ++ suf) by (by rewrite <- app_assoc).
    destruct (rangeset_insert_app (pre ++ [r]) suf cap end_ (r_base r + r_size r - end_))
      as [(c & E & L)|(_ & Hn & E)]; rewrite ?E; cbn [rs_r rs_cap]; [..|by right].
    + rewrite !length_app. simpl. lia.
    + left. exists c. rewrite <- app_assoc. cbn [app]. rewrite insert_mid. split; [done|].
      rewrite !length_app in *. simpl in *. lia.
  - rewrite insert_mid, u64_small, subtract_loop_next, Hpast, <- app_assoc by lia.
    left. exists cap. rewrite length_app. simpl. split; [done|lia].
  - rewrite insert_mid, u64_small, subtract_loop_next, Hpast, <- app_assoc by lia.
    left. exists cap. rewrite length_app. simpl. split; [done|lia].
  - rewrite rangeset_remove_app, Hpast. left. exists cap. rewrite length_app. split; [done|lia].
Qed.

Lemma subtract_loop_app `{Alloc} fuel lo pre suf cap base end_ :
  wf_from lo suf -> -1 <= lo -> 0 <= base < end_ -> end_ < two64 ->
  (length suf <= fuel)%nat -> (length (pre ++ suf) <= cap)%nat ->
  (exists cap', subtract_loop fuel (Rangeset (pre ++ suf) cap) base end_ (length pre)
      = (Ok tt, Rangeset (pre ++ sub_list base end_ suf) cap')
      /\ (length (pre ++ sub_list base end_ suf) <= cap')%nat)
  \/ (~ AllocOk /\ subtract_loop fuel (Rangeset (pre ++ suf) cap) base end_ (length pre)
      = (Err ENOMEM, Rangeset (pre ++ suf) cap)).
Proof.
  revert fuel lo pre. induction suf as [|r suf IH]; intros fuel lo pre Hwf Hlo Hb He Hf Hc.
  { left. exists cap. split; [|done]. destruct fuel; cbn; [done|].
    by rewrite lookup_app_r, Nat.sub_diag by lia. }
  destruct fuel as [|fuel]; simpl in Hf; [lia|].
  assert (Hw := Hwf). destruct Hw as (H1 & H2 & H3 & H4).
  destruct (Z.le_gt_cases (r_base r + r_size r) base) as [Hl|Hl];
    [|destruct (Z.le_gt_cases end_ (r_base r))].
  3: { apply subtract_loop_overlap; auto; [|lia..]. eapply wf_from_weaken; [|exact Hwf]. lia. }
  - cbn [subtract_loop rs_r rs_cap]. rewrite lookup_app_r, Nat.sub_diag by lia.
    cbn [lookup list_lookup]. rewrite range_end_wf by lia.
    rewrite (proj2 (Z.leb_le _ _) Hl). cbn [orb]. rewrite subtract_loop_next.
    replace (sub_list base end_ (r :: suf)) with (r :: sub_list base end_ suf)
      by (unfold sub_list; cbn; unfold sub_one at 2; by rewrite (proj2 (Z.leb_le _ _) Hl)).
    destruct (IH fuel (r_base r + r_size r) (pre ++ [r]))
      as [(c & E & L)|[Hn E]]; [exact H4|lia..| | |].
    + rewrite <- app_assoc. exact Hc.
    + left. exists c. rewrite E, <- app_assoc. split; [done|]. by rewrite <- app_assoc in L.
    + right. rewrite E, <- app_assoc. done.
  - left. exists cap.
    rewrite (subtract_loop_past _ (r_base r - 1)), (sub_list_past (r_base r - 1)); simpl; auto;
      repeat split; auto; lia.
Qed.

(** [rangeset_subtract] on a well-formed set is [sub_list], or nothing on
    a failed allocation. *)
Lemma rangeset_subtract_list `{Alloc} s base size :
  rs_wf s -> is_u64 base -> is_u64 size -> size <> 0 -> base + size < two64 ->
  (exists cap, rangeset_subtract s base size
      = (Ok tt, Rangeset (sub_list base (base + size) (rs_r s)) cap)
    /\ (length (sub_list base (base + size) (rs_r s)) <= cap)%nat)
  \/ (~ AllocOk /\ rangeset_subtract s base size = (Err ENOMEM, s)).
Proof.
  intros [Hwf Hcap] Hb Hs Hs0 Hlt. unfold is_u64 in *. unfold rangeset_subtract.
  rewrite u64_small by lia.
  destruct (Z.eqb_spec size 0); [lia|]. destruct (Z.ltb_spec (base + size) base); [lia|].
  cbn [orb]. destruct s as [l cap].
  apply (subtract_loop_app (length l) (-1) [] l cap base (base + size)); auto; lia.
Qed.

(** *** Whole intervals and whole blocks *)

(** An interval covered by a well-formed set lies inside one range. *)
Lemma wf_interval_in_one lo l a b :
  wf_from lo l -> a < b -> (forall y, a <= y < b -> mem l y) ->
  Exists (fun r => r_base r <= a /\ b <= r_base r + r_size r) l.
Proof.
  revert lo. induction l as [|r l IH]; intros lo Hwf Hab Hc.
  { specialize (Hc a ltac:(lia)). by rewrite mem_nil in Hc. }
  destruct Hwf as (H1 & H2 & H3 & H4).
  assert (Ha := Hc a ltac:(lia)). rewrite mem_cons in Ha. destruct Ha as [Ha|Ha]; unfold in_range in Ha.
  - apply Exists_cons_hd. split; [lia|].
    destruct (Z.le_gt_cases b (r_base r + r_size r)) as [|Hgt]; [done|exfalso].
    specialize (Hc (r_base r + r_size r) ltac:(lia)). rewrite mem_cons in Hc.
    destruct Hc as [Hc|Hc]; [unfold in_range in Hc; lia|].
    apply (wf_from_mem _ _ _ H4) in Hc. lia.
  - apply Exists_cons_tl, (IH _ H4 Hab). intros y Hy.
    apply (wf_from_mem _ _ _ H4) in Ha. specialize (Hc y Hy).
    rewrite mem_cons in Hc. destruct Hc as [Hc|Hc]; [unfold in_range in Hc; lia|done].
Qed.

Lemma ceil_le b blk q : 0 < blk -> (b + blk - 1) / blk <= q <-> b <= q * blk.
Proof.
  intros Hb. split; intros H.
  - assert (b + blk - 1 < blk * ((b + blk - 1) / blk) + blk)
      by (pose proof (Z.mul_succ_div_gt (b + blk - 1) blk Hb); lia).
    nia.
  - apply Z.lt_succ_r. apply Z.div_lt_upper_bound; nia.
Qed.

Lemma mul_le_div k blk x : 0 < blk -> k * blk <= x <-> k <= x / blk.
Proof.
  intros Hb. split; intros H; [apply Z.div_le_lower_bound; lia|].
  pose proof (Z.mul_div_le x blk Hb). nia.
Qed.

(** [x] is in the aligned part of [b, e) iff its whole block is in [b, e). *)
Lemma aligned_block b e blk x :
  0 < blk ->
  ((b + blk - 1) / blk * blk <= x < e / blk * blk
   <-> b <= x / blk * blk /\ (x / blk + 1) * blk <= e).
Proof.
  intros Hb. rewrite (mul_le_div (x / blk + 1)) by done.
  rewrite mul_le_div, ceil_le by done.
  enough (x < e / blk * blk <-> x / blk + 1 <= e / blk) by tauto.
  split; intros H.
  - apply Z.le_succ_l, Z.div_lt_upper_bound; lia.
  - pose proof (Z.mul_succ_div_gt x blk Hb). nia.
Qed.

(** [x]'s whole block lies in [r]. *)
Definition block_in (blk : Z) (r : range) (x : Z) : Prop :=
  r_base r <= x / blk * blk /\ (x / blk + 1) * blk <= r_base r + r_size r.

Lemma whole_block_iff lo l blk x :
  0 < blk -> wf_from lo l ->
  (forall y, y / blk = x / blk -> mem l y) <-> Exists (fun r => block_in blk r x) l.
Proof.
  intros Hb Hwf. split.
  - intros Hall. apply (wf_interval_in_one lo); auto; [nia|].
    intros y Hy. apply Hall. symmetry. apply Z.div_unique_pos with (y - x / blk * blk); lia.
  - intros He y Hy. unfold mem. eapply Exists_impl; [exact He|]. intros r [H1 H2].
    unfold in_range. rewrite <- Hy in *.
    pose proof (Z.mul_div_le y blk Hb). pose proof (Z.mul_succ_div_gt y blk Hb). lia.
Qed.

(** ** Theorems *)

(** What one addition or subtraction guarantees: the invariant holds
    afterwards; success means exactly the set operation [upd]; failure
    leaves the set alone and is one of the two the source returns. *)
Definition set_op_ok `{Alloc} (upd : Z -> Prop) (s : rangeset) (base size : Z)
    (out : result unit * rangeset) : Prop :=
  rs_wf out.2 /\
  match out.1 with
  | Ok _ => size <> 0 /\ base + size < two64 /\ forall x, rs_mem out.2 x <-> upd x
  | Err e => out.2 = s /\ ((e = EINVAL /\ (size = 0 \/ two64 <= base + size))
                           \/ (e = ENOMEM /\ ~ AllocOk))
  end.

Lemma set_op_einval `{Alloc} upd s base size :
  rs_wf s -> is_u64 base -> is_u64 size -> size = 0 \/ two64 <= base + size ->
  (size =? 0) || (u64 (base + size) <? base) = true /\ set_op_ok upd s base size (Err EINVAL, s).
Proof.
  intros Hwf Hb Hs Hc. split.
  - destruct Hc as [->|Hc]; [done|]. apply orb_true_intro. right.
    apply Z.ltb_lt, u64_add_wraps; auto.
  - split; [done|]. split; [done|]. by left.
Qed.

Lemma set_op_cases base size : {size = 0 \/ two64 <= base + size} + {size <> 0 /\ base + size < two64}.
Proof.
  destruct (Z.eq_dec size 0); [left; lia|].
  destruct (Z_lt_le_dec (base + size) two64); [right|left]; lia.
Qed.

Lemma rangeset_add_ok `{Alloc} s base size :
  rs_wf s -> is_u64 base -> is_u64 size ->
  set_op_ok (fun x => rs_mem s x \/ base <= x < base + size) s base size (rangeset_add s base size).
Proof.
  intros Hwf Hb Hs. destruct (set_op_cases base size) as [Hc|[H0 Hc]].
  - destruct (set_op_einval (fun x => rs_mem s x \/ base <= x < base + size) s base size)
      as [E O]; auto. unfold rangeset_add. by rewrite E.
  - destruct (rangeset_add_list s base size) as [(cap & -> & L)|[Hn ->]]; auto.
    2: { split; [done|]. split; [done|]. by right. }
    unfold is_u64 in *. destruct Hwf as [Hwf _].
    destruct (add_list_spec (-1) base (base + size) (rs_r s)) as [W M]; [lia..|done|].
    split; [by split|]. split; [exact H0|]. split; [exact Hc|].
    intros x. unfold rs_mem. cbn [rs_r snd]. rewrite M. tauto.
Qed.

Lemma rangeset_subtract_ok `{Alloc} s base size :
  rs_wf s -> is_u64 base -> is_u64 size ->
  set_op_ok (fun x => rs_mem s x /\ ~ (base <= x < base + size)) s base size
            (rangeset_subtract s base size).
Proof.
  intros Hwf Hb Hs. destruct (set_op_cases base size) as [Hc|[H0 Hc]].
  - destruct (set_op_einval (fun x => rs_mem s x /\ ~ (base <= x < base + size)) s base size)
      as [E O]; auto. unfold rangeset_subtract. by rewrite E.
  - destruct (rangeset_subtract_list s base size) as [(cap & -> & L)|[Hn ->]]; auto.
    2: { split; [done|]. split; [done|]. by right. }
    unfold is_u64 in *. destruct Hwf as [Hwf _].
    split; [split; [apply sub_list_wf; [lia|done]|done]|]. split; [exact H0|]. split; [exact Hc|].
    intros x. unfold rs_mem. cbn [rs_r snd]. apply sub_list_mem. lia.
Qed.

(** *** Refinement: any history of calls *)

Inductive rs_call := CallAdd (base size : Z) | CallSubtract (base size : Z).

Definition call_run (a : Alloc) (s : rangeset) (c : rs_call) : result unit * rangeset :=
  match c with
  | CallAdd base size => @rangeset_add a s base size
  | CallSubtract base size => @rangeset_subtract a s base size
  end.

Definition call_args (c : rs_call) : Prop :=
  match c with CallAdd base size | CallSubtract base size => is_u64 base /\ is_u64 size end.

(** The abstract set after a call that returned 0. *)
Definition call_spec (c : rs_call) (P : Z -> Prop) (x : Z) : Prop :=
  match c with
  | CallAdd base size => P x \/ base <= x < base + size
  | CallSubtract base size => P x /\ ~ (base <= x < base + size)
  end.

(** Runs the calls, each under an allocator of its own, beside the
    abstract set, which follows only the calls that returned 0. *)
Fixpoint replay (calls : list (Alloc * rs_call)) (s : rangeset) (P : Z -> Prop)
    : rangeset * (Z -> Prop) :=
  match calls with
  | [] => (s, P)
  | (a, c) :: calls =>
      let '(ret, s') := call_run a s c in
      replay calls s' (if is_ok ret then call_spec c P else P)
  end.

Lemma call_run_ok (a : Alloc) s c P :
  rs_wf s -> call_args c -> (forall x, rs_mem s x <-> P x) ->
  set_op_ok (call_spec c P) s
    (match c with CallAdd b _ | CallSubtract b _ => b end)
    (match c with CallAdd _ n | CallSubtract _ n => n end) (call_run a s c).
Proof.
  intros Hwf Hc HP. destruct c as [b n|b n]; destruct Hc as [Hb Hn]; simpl.
  - destruct (rangeset_add_ok s b n Hwf Hb Hn) as [W R]. split; [exact W|].
    destruct (rangeset_add s b n).1; [|done]. destruct R as (? & ? & R).
    repeat split; auto; rewrite R, HP; auto.
  - destruct (rangeset_subtract_ok s b n Hwf Hb Hn) as [W R]. split; [exact W|].
    destruct (rangeset_subtract s b n).1; [|done]. destruct R as (? & ? & R).
    split; [done|]. split; [done|]. intros x. rewrite R, HP. done.
Qed.

(** C30: any history of [rangeset_add] and [rangeset_subtract] calls, with
    any pattern of allocation failures, keeps the array sorted, disjoint,
    non-adjacent, free of overflow and within its capacity, and the
    addresses it holds are exactly those of the abstract set that follows
    the calls which returned 0. *)
Theorem rangeset_history_refines calls s P :
  rs_wf s -> (forall x, rs_mem s x <-> P x) -> Forall (fun ac => call_args ac.2) calls ->
  let '(s', P') := replay calls s P in rs_wf s' /\ forall x, rs_mem s' x <-> P' x.
Proof.
  revert s P. induction calls as [|[a c] calls IH]; intros s P Hwf HP Hc; simpl; [done|].
  inversion_clear Hc as [|? ? Hc' Hcs]. simpl in Hc'.
  destruct (call_run_ok a s c P) as [W R]; auto.
  destruct (call_run a s c) as [[u|e] s']; simpl in *.
  - destruct R as (_ & _ & R). by apply IH.
  - destruct R as [-> _]. by apply IH.
Qed.

Lemma rangeset_history_refines_witness :
  let calls := [(alloc_always, CallAdd 0 16); (alloc_always, CallAdd 32 16);
                (alloc_never, CallAdd 100 8); (alloc_never, CallAdd 14 20);
                (alloc_never, CallSubtract 8 8); (alloc_always, CallAdd 18446744073709551615 1)] in
  (replay calls RANGESET_INIT (fun _ => False)).1
    = Rangeset [Range 0 8; Range 16 32; Range 100 8] 8
  /\ let '(s', P') := replay calls RANGESET_INIT (fun _ => False) in
     rs_wf s' /\ forall x, rs_mem s' x <-> P' x.
Proof.
  split; [reflexivity|]. apply rangeset_history_refines.
  - split; [exact I|]. unfold rs_count. simpl. lia.
  - intros x. apply mem_nil.
  - repeat constructor; simpl; lia.
Defined.

Lemma set_op_returns `{AllocOk} upd s base size out :
  set_op_ok upd s base size out ->
  if decide (size <> 0 /\ base + size < two64) then out.1 = Ok tt else out = (Err EINVAL, s).
Proof.
  intros [_ R]. destruct out as [[[]|e] s']; simpl in *; case_decide as D; try done.
  - destruct R as (? & ? & _). tauto.
  - destruct R as [_ [[_ R]|[_ R]]]; [lia|done].
  - destruct R as [-> [[-> _]|[_ R]]]; done.
Qed.

(** With memory to spare, [rangeset_add] and [rangeset_subtract] return
    0 exactly when the range is neither empty nor runs past 2^64 - 1, and
    [-EINVAL] with the set unchanged otherwise. *)
Theorem rangeset_op_returns `{AllocOk} s base size :
  rs_wf s -> is_u64 base -> is_u64 size ->
  if decide (size <> 0 /\ base + size < two64)
  then (rangeset_add s base size).1 = Ok tt /\ (rangeset_subtract s base size).1 = Ok tt
  else rangeset_add s base size = (Err EINVAL, s) /\ rangeset_subtract s base size = (Err EINVAL, s).
Proof.
  intros Hwf Hb Hs.
  assert (A := set_op_returns _ _ _ _ _ (rangeset_add_ok s base size Hwf Hb Hs)).
  assert (B := set_op_returns _ _ _ _ _ (rangeset_subtract_ok s base size Hwf Hb Hs)).
  case_decide; split; assumption.
Qed.

Lemma rangeset_op_returns_witness :
  @rangeset_add alloc_always RANGESET_INIT 18446744073709547520 4096 = (Err EINVAL, RANGESET_INIT)
  /\ @rangeset_subtract alloc_always RANGESET_INIT 18446744073709547520 4096
     = (Err EINVAL, RANGESET_INIT).
Proof.
  apply (@rangeset_op_returns alloc_always alloc_always_ok RANGESET_INIT 18446744073709547520 4096);
    unfold is_u64, rs_wf, rs_count; simpl; lia.
Defined.

Lemma subtract_each_ok `{Alloc} minus s :
  rs_wf s -> Forall (fun m => is_u64 (r_base m) /\ 0 < r_size m /\ r_base m + r_size m < two64) minus ->
  rs_wf (subtract_each s minus).2 /\
  match (subtract_each s minus).1 with
  | Ok _ => forall x, rs_mem (subtract_each s minus).2 x <-> rs_mem s x /\ ~ mem minus x
  | Err e => e = ENOMEM /\ ~ AllocOk
  end.
Proof.
  revert s. induction minus as [|m minus IH]; intros s Hwf Hm; simpl.
  { split; [done|]. intros x. rewrite mem_nil. tauto. }
  inversion_clear Hm as [|? ? (Hb & H0 & Hend) Hms].
  destruct (rangeset_subtract_ok s (r_base m) (r_size m)) as [W R];
    [done|done|unfold is_u64 in *; lia|].
  destruct (rangeset_subtract s (r_base m) (r_size m)) as [[[]|e] s']; simpl in *.
  - destruct R as (_ & _ & R), (IH s' W Hms) as [W' R']. split; [exact W'|].
    destruct (subtract_each s' minus).1; [|exact R']. intros y.
    rewrite R', R, mem_cons. unfold in_range. tauto.
  - split; [exact W|]. destruct R as (_ & [[_ ?]|R]); [lia|exact R].
Qed.

Lemma wf_from_args lo l : -1 <= lo -> wf_from lo l ->
  Forall (fun m => is_u64 (r_base m) /\ 0 < r_size m /\ r_base m + r_size m < two64) l.
Proof.
  intros Hlo Hl. eapply Forall_impl; [exact (wf_from_ends _ _ Hl)|].
  unfold is_u64. simpl. intros; lia.
Qed.

Lemma rangeset_subtract_set_ok `{Alloc} s minus :
  rs_wf s -> rs_wf minus ->
  rs_wf (rangeset_subtract_set s minus).2 /\
  match (rangeset_subtract_set s minus).1 with
  | Ok _ => forall x, rs_mem (rangeset_subtract_set s minus).2 x <-> rs_mem s x /\ ~ rs_mem minus x
  | Err e => e = ENOMEM /\ ~ AllocOk
  end.
Proof.
  intros Hs [Hm _]. apply subtract_each_ok; [done|]. by apply (wf_from_args (-1)).
Qed.

(** Adding past the end of everything appends. *)
Lemma add_list_append lo base end_ l :
  wf_from lo l -> last_end lo l < base -> base < end_ ->
  add_list base end_ l = l ++ [Range base (end_ - base)].
Proof.
  revert lo. induction l as [|r l IH]; intros lo Hl Hb He; [done|]. simpl in *.
  destruct Hl as (H1 & H2 & H3 & H4). assert (L := last_end_ge _ _ H4).
  destruct (Z.ltb_spec (r_base r + r_size r) base); [|lia]. f_equal. by apply (IH _ H4).
Qed.

Lemma add_each_ok `{Alloc} l dst :
  rs_wf dst -> wf_from (last_end (-1) (rs_r dst)) l ->
  rs_wf (add_each dst l).2 /\
  match (add_each dst l).1 with
  | Ok _ => rs_r (add_each dst l).2 = rs_r dst ++ l
  | Err e => e = ENOMEM /\ ~ AllocOk
  end.
Proof.
  revert dst. induction l as [|r l IH]; intros dst Hd Hl; simpl; [by rewrite app_nil_r|].
  destruct Hl as (H1 & H2 & H3 & H4). assert (Hd' := Hd). destruct Hd' as [Hw Hc].
  assert (L := last_end_ge _ _ Hw).
  destruct (rangeset_add_list dst (r_base r) (r_size r)) as [(cap & -> & C)|[Hn ->]];
    unfold is_u64; auto; try lia; [|done].
  rewrite (add_list_append (-1)) in * by (auto; lia).
  rewrite Z.add_simpl_l in *. replace (Range (r_base r) (r_size r)) with r in * by (by destruct r).
  assert (W : rs_wf (Rangeset (rs_r dst ++ [r]) cap)).
  { split; [|exact C]. apply wf_from_app. simpl. auto. }
  destruct (IH _ W) as [W' R].
  { cbn [rs_r]. enough (last_end (-1) (rs_r dst ++ [r]) = r_base r + r_size r) as -> by done.
    clear. generalize (-1). induction (rs_r dst) as [|q t IHt]; intros z; simpl; auto. }
  split; [exact W'|]. destruct (add_each _ l).1; [|done]. rewrite R. cbn [rs_r].
  by rewrite <- app_assoc.
Qed.

Lemma align_each_ok `{Alloc} l blk out lo :
  rs_wf out -> wf_from lo l -> -1 <= lo -> 0 < blk ->
  Forall (fun r => r_base r + blk <= two64) l ->
  rs_wf (align_each l blk out).2 /\
  match (align_each l blk out).1 with
  | Ok _ => forall x, rs_mem (align_each l blk out).2 x
                      <-> rs_mem out x \/ Exists (fun r => block_in blk r x) l
  | Err e => e = ENOMEM /\ ~ AllocOk
  end.
Proof.
  intros Ho Hl Hlo Hb. revert out lo Ho Hl Hlo.
  induction l as [|r l IH]; intros out lo Ho Hl Hlo Hbs; simpl.
  { split; [done|]. intros x. rewrite Exists_nil. tauto. }
  destruct Hl as (H1 & H2 & H3 & H4). inversion_clear Hbs as [|? ? Hr Hrs].
  assert (C : forall x, block_in blk r x <-> _) by (intros; symmetry; by apply aligned_block).
  rewrite range_end_wf, (u64_small (r_base r + blk - 1)) by lia.
  set (b := (r_base r + blk - 1) / blk * blk) in *.
  set (e := (r_base r + r_size r) / blk * blk) in *.
  assert (Hbd : 0 <= b <= r_base r + blk - 1).
  { split; [apply Z.mul_nonneg_nonneg; [apply Z.div_pos|]; lia|].
    unfold b. rewrite Z.mul_comm. apply Z.mul_div_le. lia. }
  assert (Hed : e <= r_base r + r_size r)
    by (unfold e; rewrite Z.mul_comm; apply Z.mul_div_le; lia).
  rewrite (u64_small b) by lia. destruct (Z.leb_spec e b) as [Heb|Heb].
  - destruct (IH out (r_base r + r_size r)) as [W R]; auto; [lia|]. split; [exact W|].
    destruct (align_each l blk out).1; [|done]. intros x. rewrite R, Exists_cons, C.
    enough (~ (b <= x < e)) by tauto. lia.
  - rewrite u64_small by lia.
    destruct (rangeset_add_ok out b (e - b)) as [W R]; unfold is_u64; auto; try lia.
    destruct (rangeset_add out b (e - b)) as [[[]|er] out']; simpl in *.
    + destruct R as (_ & _ & R), (IH out' (r_base r + r_size r)) as [W' R']; auto; [lia|].
      split; [exact W'|]. destruct (align_each l blk out').1; [|done].
      intros x. rewrite R', R, Exists_cons, C, Zplus_minus. tauto.
    + split; [done|]. destruct R as [_ [[_ R]|R]]; [lia|exact R].
Qed.

Lemma rangeset_align_ok `{Alloc} s blk out :
  rs_wf s -> rs_wf out -> 0 < blk -> Forall (fun r => r_base r + blk <= two64) (rs_r s) ->
  rs_wf (rangeset_align s blk out).2 /\
  match (rangeset_align s blk out).1 with
  | Ok _ => forall x, rs_mem (rangeset_align s blk out).2 x
                      <-> rs_mem out x \/ forall y, y / blk = x / blk -> rs_mem s y
  | Err e => e = ENOMEM /\ ~ AllocOk
  end.
Proof.
  intros [Hs _] Ho Hb Hall. unfold rangeset_align.
  destruct (Z.eqb_spec blk 0); [lia|].
  destruct (align_each_ok (rs_r s) blk out (-1)) as [W R]; auto; [lia|].
  split; [exact W|]. destruct (align_each _ _ _).1; [|done].
  intros x. rewrite R, <- (whole_block_iff (-1)) by done. done.
Qed.

(** [rangeset_align] into an empty set yields exactly the addresses
    whose whole block lies inside [s]: nothing outside [s] is rounded in
    and no complete block is lost. *)
Theorem rangeset_align_correct `{AllocOk} s blk :
  rs_wf s -> 0 < blk -> Forall (fun r => r_base r + blk <= two64) (rs_r s) ->
  let '(ret, out) := rangeset_align s blk RANGESET_INIT in
  ret = Ok tt /\ rs_wf out /\
  forall x, rs_mem out x <-> forall y, y / blk = x / blk -> rs_mem s y.
Proof.
  intros Hs Hb Hall.
  destruct (rangeset_align_ok s blk RANGESET_INIT) as [W R]; auto.
  { split; [exact I|]. unfold rs_count. simpl. lia. }
  destruct (rangeset_align s blk RANGESET_INIT) as [[[]|e] out]; simpl in *; [|tauto].
  repeat split; auto; try apply W. intros M. apply R in M as [M|M]; [by apply mem_nil in M|done].
  intros. apply R. by right.
Qed.

Lemma rangeset_align_correct_witness :
  let s := Rangeset [Range 1000 9000; Range 12288 4096; Range 20000 100] 8 in
  let '(ret, out) := @rangeset_align alloc_always s 4096 RANGESET_INIT in
  out = Rangeset [Range 4096 4096; Range 12288 4096] 8 /\ ret = Ok tt /\ rs_wf out /\
  forall x, rs_mem out x <-> forall y, y / 4096 = x / 4096 -> rs_mem s y.
Proof.
  split; [reflexivity|].
  apply (@rangeset_align_correct alloc_always alloc_always_ok
           (Rangeset [Range 1000 9000; Range 12288 4096; Range 20000 100] 8) 4096).
  - unfold rs_wf, rs_count; simpl; lia.
  - lia.
  - repeat constructor; simpl; lia.
Defined.

(** [rangeset_contains] answers whether every address of a non-empty
    interval is in the set, even though it looks for one range only. *)
Theorem rangeset_contains_correct s base size :
  rs_wf s -> 0 <= base -> 0 < size -> base + size < two64 ->
  rangeset_contains s base size = true <-> forall x, base <= x < base + size -> rs_mem s x.
Proof.
  intros [Hs _] Hb H0 Hlt. unfold rangeset_contains.
  assert (Hu := wf_from_args (-1) _ ltac:(lia) Hs). rewrite Forall_forall in Hu.
  rewrite existsb_exists, u64_small by lia. split.
  - intros (r & Hin & Hr) x Hx. apply list_elem_of_In in Hin. destruct (Hu r Hin) as (? & ? & ?).
    unfold is_u64 in *. rewrite range_end_wf in Hr by lia. b2p. unfold rs_mem, mem.
    apply Exists_exists. exists r. split; [done|]. unfold in_range. lia.
  - intros Hall. assert (He := wf_interval_in_one _ _ base (base + size) Hs ltac:(lia) Hall).
    apply Exists_exists in He as (r & Hin & H1 & H2). exists r. split; [by apply list_elem_of_In|].
    destruct (Hu r Hin) as (? & ? & ?).
    unfold is_u64 in *. rewrite range_end_wf by lia.
    apply andb_true_intro. split; apply Z.leb_le; lia.
Qed.

Lemma rangeset_contains_correct_witness :
  let s := Rangeset [Range 0 4096; Range 8192 4096] 8 in
  (rangeset_contains s 8192 4096 = true <-> forall x, 8192 <= x < 8192 + 4096 -> rs_mem s x)
  /\ rangeset_contains s 8192 4096 = true /\ rangeset_contains s 0 8192 = false.
Proof.
  split; [|split; reflexivity].
  apply rangeset_contains_correct; unfold rs_wf, rs_count; simpl; lia.
Defined.

(** The exact sum of the sizes. *)
Definition sum_sizes (l : list range) : Z := foldr (fun r acc => r_size r + acc) 0 l.

Lemma sum_sizes_bound lo l : wf_from lo l -> -1 <= lo -> 0 <= sum_sizes l /\ lo + sum_sizes l <= last_end lo l.
Proof.
  revert lo. induction l as [|r l IH]; intros lo Hl Hlo; simpl; [lia|].
  destruct Hl as (H1 & H2 & H3 & H4). apply IH in H4; lia.
Qed.

Lemma last_end_bound lo l : wf_from lo l -> lo < two64 -> last_end lo l < two64.
Proof.
  revert lo. induction l as [|r l IH]; intros lo Hl Hlo; simpl; [done|].
  destruct Hl as (H1 & H2 & H3 & H4). by apply IH.
Qed.

Lemma sum_sizes_nonneg l : Forall (fun r => 0 < r_size r) l -> 0 <= sum_sizes l.
Proof. induction 1; [done|]. unfold sum_sizes in *. simpl. lia. Qed.

(** [rangeset_total] of a well-formed set never wraps: it is the exact
    sum of the sizes, which is below 2^64. *)
Theorem rangeset_total_exact s :
  rs_wf s -> rangeset_total s = sum_sizes (rs_r s) /\ sum_sizes (rs_r s) < two64.
Proof.
  intros [Hs _]. assert (B := sum_sizes_bound _ _ Hs ltac:(lia)).
  assert (L := last_end_bound _ _ Hs ltac:(lia)).
  assert (S : sum_sizes (rs_r s) < two64).
  { destruct (rs_r s) as [|r l]; [done|]. destruct Hs as (H1 & H2 & H3 & H4).
    assert (C := sum_sizes_bound _ _ H4 ltac:(lia)). unfold sum_sizes in *. simpl in *. lia. }
  split; [|done].
  enough (G : forall l acc, 0 <= acc -> acc + sum_sizes l < two64 -> Forall (fun r => 0 < r_size r) l ->
      foldl (fun total r => u64 (total + r_size r)) acc l = acc + sum_sizes l).
  { unfold rangeset_total. rewrite G; [lia..|].
    eapply Forall_impl; [exact (wf_from_ends _ _ Hs)|]. simpl. intros; lia. }
  clear. induction l as [|r l IH]; intros acc Ha Hb Hp; simpl in *; [lia|].
  inversion_clear Hp.
  assert (0 <= sum_sizes l) by (by apply sum_sizes_nonneg).
  rewrite u64_small, IH by (auto; lia). lia.
Qed.

Lemma rangeset_total_exact_witness :
  let s := Rangeset [Range 0 4096; Range 8192 18446744073709543423] 8 in
  rangeset_total s = 18446744073709547519 /\
  (rangeset_total s = sum_sizes (rs_r s) /\ sum_sizes (rs_r s) < two64).
Proof.
  split; [reflexivity|]. apply rangeset_total_exact; unfold rs_wf, rs_count; simpl; lia.
Defined.

(** [rangeset_subtract_set] removes exactly the addresses of [minus];
    [rangeset_copy] makes [dst] hold the same ranges as [src], whatever it
    held before; both return 0 when memory suffices. *)
Theorem rangeset_set_ops_correct `{AllocOk} s minus dst :
  rs_wf s -> rs_wf minus ->
  (let '(ret, s') := rangeset_subtract_set s minus in
   ret = Ok tt /\ rs_wf s' /\ forall x, rs_mem s' x <-> rs_mem s x /\ ~ rs_mem minus x)
  /\ (let '(ret, d') := rangeset_copy dst s in ret = Ok tt /\ rs_wf d' /\ rs_r d' = rs_r s).
Proof.
  intros Hs Hm. split.
  - destruct (rangeset_subtract_set_ok s minus) as [W R]; auto.
    destruct (rangeset_subtract_set s minus) as [[[]|e] s']; simpl in *; [done|tauto].
  - unfold rangeset_copy, rangeset_free. destruct Hs as [Hs _].
    destruct (add_each_ok (rs_r s) RANGESET_INIT) as [W R]; [|done|].
    { split; [exact I|]. unfold rs_count. simpl. lia. }
    destruct (add_each RANGESET_INIT (rs_r s)) as [[[]|e] d']; simpl in *; [done|tauto].
Qed.

Lemma rangeset_set_ops_correct_witness :
  let s := Rangeset [Range 0 65536; Range 131072 65536] 8 in
  let m := Rangeset [Range 4096 4096; Range 61440 73728] 8 in
  (@rangeset_subtract_set alloc_always s m).2
    = Rangeset [Range 0 4096; Range 8192 53248; Range 135168 61440] 8
  /\ rs_wf (@rangeset_subtract_set alloc_always s m).2.
Proof.
  split; [reflexivity|].
  destruct (@rangeset_set_ops_correct alloc_always alloc_always_ok
    (Rangeset [Range 0 65536; Range 131072 65536] 8)
    (Rangeset [Range 4096 4096; Range 61440 73728] 8) RANGESET_INIT) as [A _];
    try (unfold rs_wf, rs_count; simpl; lia).
  exact (proj1 (proj2 A)).
Defined.
