(* ===== verification/Takeover.v ===== *)
(** * kmorphd/takeover.c: the takeover state machine

    [struct takeover] is the record [takeover]; its [ops] table and [ctx]
    pointer are the class [TakeoverOps], a table of effects on a world [W].
    Every handler takes the record and the world and returns both. *)

From S2P Require Import Prelude.

Inductive takeover_state :=
| TK_ARMED | TK_SUSPECT | TK_FENCING | TK_FENCE_FAILED | TK_FENCED | TK_TAKEN_OVER.

#[export] Instance takeover_state_eq_dec : EqDecision takeover_state.
Proof. solve_decision. Defined.

(** The enumerators' values, for [state >= TK_FENCING]. *)
Definition state_index (s : takeover_state) : Z :=
  match s with
  | TK_ARMED => 0 | TK_SUSPECT => 1 | TK_FENCING => 2
  | TK_FENCE_FAILED => 3 | TK_FENCED => 4 | TK_TAKEN_OVER => 5
  end.

Inductive takeover_event := TK_EV_PROBE_ALIVE | TK_EV_PROBE_SILENT | TK_EV_REQUEST.

#[export] Instance takeover_event_eq_dec : EqDecision takeover_event.
Proof. solve_decision. Defined.

Record takeover := Takeover {
  tk_state : takeover_state;
  probe_timeouts : Z;
  fence_retries : Z;
  silent : Z;
  fence_attempts : Z;
  last_error : Z
}.

Class TakeoverOps (W : Type) := {
  op_fence : W -> Z * W;
  op_adopt : W -> Z * W;
  op_preserve : W -> Z * W;
  op_reap : W -> Z * W;
  on_state : takeover -> takeover_state -> W -> W
}.

Definition takeover_init (timeouts retries : Z) : takeover :=
  Takeover TK_ARMED timeouts retries 0 0 0.

Definition with_state (t : takeover) (s : takeover_state) : takeover :=
  Takeover s (probe_timeouts t) (fence_retries t) (silent t) (fence_attempts t) (last_error t).
Definition with_silent (t : takeover) (n : Z) : takeover :=
  Takeover (tk_state t) (probe_timeouts t) (fence_retries t) n (fence_attempts t) (last_error t).
Definition with_attempts (t : takeover) (n : Z) : takeover :=
  Takeover (tk_state t) (probe_timeouts t) (fence_retries t) (silent t) n (last_error t).
Definition with_error (t : takeover) (e : Z) : takeover :=
  Takeover (tk_state t) (probe_timeouts t) (fence_retries t) (silent t) (fence_attempts t) e.

Section Machine.
Context {W : Type} `{TakeoverOps W}.

Definition set_state (t : takeover) (s : takeover_state) (w : W) : takeover * W :=
  let t := with_state t s in (t, on_state t s w).

(** Runs one operation and records its result. *)
Definition step (t : takeover) (op : W -> Z * W) (w : W) : Z * takeover * W :=
  let '(ret, w) := op w in (ret, with_error t ret, w).

(** Once fenced, a failed adoption is retried on a later event. *)
Definition continue_takeover (t : takeover) (w : W) : takeover * W :=
  let '(ret, t, w) := step t op_adopt w in
  if negb (ret =? 0) then (t, w) else
  let '(ret, t, w) := step t op_preserve w in
  let '(t, w) := if ret =? 0 then let '(_, t, w) := step t op_reap w in (t, w) else (t, w) in
  set_state t TK_TAKEN_OVER w.

Definition begin_takeover (t : takeover) (w : W) : takeover * W :=
  let '(t, w) := set_state t TK_FENCING w in
  let t := with_attempts t (u32 (fence_attempts t + 1)) in
  let '(ret, t, w) := step t op_fence w in
  if negb (ret =? 0) then set_state t TK_FENCE_FAILED w else
  let '(t, w) := set_state t TK_FENCED w in
  continue_takeover t w.

Definition handle_watching (t : takeover) (ev : takeover_event) (w : W) : takeover * W :=
  match ev with
  | TK_EV_PROBE_ALIVE =>
      let t := with_silent t 0 in
      if decide (tk_state t = TK_ARMED) then (t, w) else set_state t TK_ARMED w
  | TK_EV_PROBE_SILENT =>
      let t := with_silent t (u32 (silent t + 1)) in
      if probe_timeouts t <=? silent t then begin_takeover t w
      else if decide (tk_state t = TK_SUSPECT) then (t, w) else set_state t TK_SUSPECT w
  | TK_EV_REQUEST =>
      if decide (tk_state t = TK_ARMED) then begin_takeover t w else (t, w)
  end.

Definition takeover_handle (t : takeover) (ev : takeover_event) (w : W) : takeover * W :=
  match tk_state t with
  | TK_ARMED | TK_SUSPECT => handle_watching t ev w
  | TK_FENCE_FAILED =>
      if negb (bool_decide (ev = TK_EV_PROBE_ALIVE)) && (fence_attempts t <=? fence_retries t)
      then begin_takeover t w else (t, w)
  | TK_FENCED => continue_takeover t w
  | TK_FENCING | TK_TAKEN_OVER => (t, w)
  end.

(** A sequence of events, oldest first. *)
Fixpoint takeover_run (t : takeover) (evs : list takeover_event) (w : W) : takeover * W :=
  match evs with
  | [] => (t, w)
  | ev :: evs => let '(t, w) := takeover_handle t ev w in takeover_run t evs w
  end.

End Machine.

Definition takeover_state_name (s : takeover_state) : string :=
  match s with
  | TK_ARMED => "ARMED"
  | TK_SUSPECT => "SUSPECT"
  | TK_FENCING => "FENCING"
  | TK_FENCE_FAILED => "FENCE_FAILED"
  | TK_FENCED => "FENCED"
  | TK_TAKEN_OVER => "TAKEN_OVER"
  end.

(** ** The recording world

    Every operation answers from an oracle that sees the whole history, so
    a statement about all oracles is a statement about all behaviours of
    the kernel interfaces behind the ops table.  The history lists the
    calls with what each returned, oldest first. *)

Inductive opcall := CFence (ret : Z) | CAdopt (ret : Z) | CPreserve (ret : Z) | CReap (ret : Z)
                  | CState (s : takeover_state).

Record oracle := Oracle {
  ans_fence : list opcall -> Z;
  ans_adopt : list opcall -> Z;
  ans_preserve : list opcall -> Z;
  ans_reap : list opcall -> Z
}.

Definition recording (o : oracle) : TakeoverOps (list opcall) := {|
  op_fence := fun h => (ans_fence o h, h ++ [CFence (ans_fence o h)]);
  op_adopt := fun h => (ans_adopt o h, h ++ [CAdopt (ans_adopt o h)]);
  op_preserve := fun h => (ans_preserve o h, h ++ [CPreserve (ans_preserve o h)]);
  op_reap := fun h => (ans_reap o h, h ++ [CReap (ans_reap o h)]);
  on_state := fun _ s h => h ++ [CState s]
|}.

(** The daemon's life: the record and history after a list of events. *)
Definition life (o : oracle) (timeouts retries : Z) (evs : list takeover_event)
    : takeover * list opcall :=
  @takeover_run _ (recording o) (takeover_init timeouts retries) evs [].

(** ** Abstract specification: the protocol of calls

    The phases of a takeover and the only calls each allows. *)

Inductive phase :=
| PWatch (suspect : bool) | PFencing | PFenceOk | PFenceBad | PFailed
| PFenced | PAdopted | PPreserved | PFinishing | POver.

Inductive pstep : phase -> opcall -> phase -> Prop :=
| ps_suspect : pstep (PWatch false) (CState TK_SUSPECT) (PWatch true)
| ps_armed : pstep (PWatch true) (CState TK_ARMED) (PWatch false)
| ps_begin b : pstep (PWatch b) (CState TK_FENCING) PFencing
| ps_fence_ok : pstep PFencing (CFence 0) PFenceOk
| ps_fence_bad e : e <> 0 -> pstep PFencing (CFence e) PFenceBad
| ps_failed : pstep PFenceBad (CState TK_FENCE_FAILED) PFailed
| ps_retry : pstep PFailed (CState TK_FENCING) PFencing
| ps_fenced : pstep PFenceOk (CState TK_FENCED) PFenced
| ps_adopt_bad e : e <> 0 -> pstep PFenced (CAdopt e) PFenced
| ps_adopt_ok : pstep PFenced (CAdopt 0) PAdopted
| ps_preserve_bad e : e <> 0 -> pstep PAdopted (CPreserve e) PFinishing
| ps_preserve_ok : pstep PAdopted (CPreserve 0) PPreserved
| ps_reap e : pstep PPreserved (CReap e) PFinishing
| ps_over : pstep PFinishing (CState TK_TAKEN_OVER) POver.

(** Histories the protocol allows. *)
Inductive path : phase -> list opcall -> phase -> Prop :=
| path_nil p : path p [] p
| path_snoc p h q c r : path p h q -> pstep q c r -> path p (h ++ [c]) r.

(** The phase a state rests in between two events. *)
Definition rest_phase (s : takeover_state) : phase :=
  match s with
  | TK_ARMED => PWatch false
  | TK_SUSPECT => PWatch true
  | TK_FENCING => PFencing
  | TK_FENCE_FAILED => PFailed
  | TK_FENCED => PFenced
  | TK_TAKEN_OVER => POver
  end.

(** ** Logged operations

    An implementation of the operations whose world keeps the list of the
    calls made: what every theorem about call sequences needs of it. *)
Class LoggedOps (W : Type) `{TakeoverOps W} := {
  log : W -> list opcall;
  log_fence w : log (op_fence w).2 = log w ++ [CFence (op_fence w).1];
  log_adopt w : log (op_adopt w).2 = log w ++ [CAdopt (op_adopt w).1];
  log_preserve w : log (op_preserve w).2 = log w ++ [CPreserve (op_preserve w).1];
  log_reap w : log (op_reap w).2 = log w ++ [CReap (op_reap w).1];
  log_state t s w : log (on_state t s w) = log w ++ [CState s]
}.

#[export] Instance recording_logged o : @LoggedOps _ (recording o).
Proof. by refine {| log := fun h : list opcall => h |}. Defined.

Create HintDb takeover.
#[export] Hint Constructors pstep path : takeover.

Section Protocol.
Context {W : Type} `{LoggedOps W}.

Definition follows (h0 : phase) (out : takeover * W) : Prop :=
  path h0 (log out.2) (rest_phase (tk_state out.1)) /\ tk_state out.1 <> TK_FENCING.

(** One logged call extends the history by one protocol step. *)
Lemma path_log p (w w' : W) q c r :
  path p (log w) q -> log w' = log w ++ [c] -> pstep q c r -> path p (log w') r.
Proof. intros Hp -> Hs. eauto with takeover. Qed.

Lemma continue_follows p t (w : W) :
  tk_state t = TK_FENCED -> path p (log w) PFenced -> follows p (continue_takeover t w).
Proof.
  intros Ht Hp. unfold continue_takeover, step, set_state.
  assert (L1 := log_adopt w). destruct (op_adopt w) as [r1 w1]. cbn in L1.
  destruct (Z.eqb_spec r1 0) as [->|E]; cbn [negb].
  2: { split; cbn; rewrite Ht; [|done]. by eapply path_log; [exact Hp|exact L1|constructor]. }
  assert (path p (log w1) PAdopted) as H1 by (eapply path_log; [exact Hp|exact L1|constructor]).
  assert (L2 := log_preserve w1). destruct (op_preserve w1) as [r2 w2]. cbn in L2.
  destruct (Z.eqb_spec r2 0) as [->|E].
  - assert (path p (log w2) PPreserved) as H2 by (eapply path_log; [exact H1|exact L2|constructor]).
    assert (L3 := log_reap w2). destruct (op_reap w2) as [r3 w3]. cbn in L3.
    assert (path p (log w3) PFinishing) as H3 by (eapply path_log; [exact H2|exact L3|constructor]).
    split; [|done]. cbn. eapply path_log; [exact H3|apply log_state|constructor].
  - assert (path p (log w2) PFinishing) as H2 by (by eapply path_log; [exact H1|exact L2|constructor]).
    split; [|done]. cbn. eapply path_log; [exact H2|apply log_state|constructor].
Qed.

Lemma begin_follows p t (w : W) :
  (exists q, path p (log w) q /\ pstep q (CState TK_FENCING) PFencing) -> follows p (begin_takeover t w).
Proof.
  intros (q & Hp & Hq). unfold begin_takeover, step, set_state. set (w1 := on_state _ TK_FENCING w).
  assert (path p (log w1) PFencing) as H1 by (eapply path_log; [exact Hp|apply log_state|done]).
  assert (L2 := log_fence w1). destruct (op_fence w1) as [r w2]. cbn in L2.
  destruct (Z.eqb_spec r 0) as [->|E]; cbn [negb].
  - assert (path p (log w2) PFenceOk) as H2 by (eapply path_log; [exact H1|exact L2|constructor]).
    apply continue_follows; [done|]. eapply path_log; [exact H2|apply log_state|constructor].
  - assert (path p (log w2) PFenceBad) as H2 by (by eapply path_log; [exact H1|exact L2|constructor]).
    split; [|done]. cbn. eapply path_log; [exact H2|apply log_state|constructor].
Qed.

Lemma handle_follows p t ev (w : W) : follows p (t, w) -> follows p (takeover_handle t ev w).
Proof.
  intros [Hp Hr]. unfold takeover_handle, handle_watching, set_state. cbn in Hp, Hr.
  assert (forall s', rest_phase (tk_state t) = rest_phase s' ->
            forall t', tk_state t' = s' -> s' <> TK_FENCING -> follows p (t', w)) as Hsame.
  { intros s' Es t' Et Hn. split; cbn; rewrite Et; [by rewrite <- Es|done]. }
  assert (forall s' t' c, tk_state t' = s' -> c = CState s' -> pstep (rest_phase (tk_state t)) c (rest_phase s') ->
            s' <> TK_FENCING -> follows p (t', on_state t' s' w)) as Hmove.
  { intros s' t' c Et -> Hs Hn. split; cbn; rewrite Et; [|done]. eapply path_log; [exact Hp|apply log_state|done]. }
  destruct (tk_state t) eqn:Hs; [| |done|..].
  - destruct ev; cbn [tk_state with_silent]; rewrite ?Hs; cbn.
    + by apply (Hsame TK_ARMED).
    + case_bool; [apply begin_follows; eauto with takeover|]. by apply (Hmove TK_SUSPECT _ (CState TK_SUSPECT)); [..|constructor|].
    + apply begin_follows. eauto with takeover.
  - destruct ev; cbn [tk_state with_silent]; rewrite ?Hs; cbn.
    + by apply (Hmove TK_ARMED _ (CState TK_ARMED)); [..|constructor|].
    + case_bool; [apply begin_follows; eauto with takeover|]. by apply (Hsame TK_SUSPECT).
    + by apply (Hsame TK_SUSPECT).
  - case_bool; [apply begin_follows; eauto with takeover|]. by apply (Hsame TK_FENCE_FAILED).
  - by apply continue_follows.
  - by apply (Hsame TK_TAKEN_OVER).
Qed.

Lemma run_follows p t evs (w : W) : follows p (t, w) -> follows p (takeover_run t evs w).
Proof.
  revert t w. induction evs as [|ev evs IH]; intros t w Hf; simpl; [done|].
  apply (handle_follows p t ev w) in Hf. destruct (takeover_handle t ev w). by apply IH.
Qed.

End Protocol.

Lemma life_follows o timeouts retries evs :
  path (PWatch false) (life o timeouts retries evs).2 (rest_phase (tk_state (life o timeouts retries evs).1))
  /\ tk_state (life o timeouts retries evs).1 <> TK_FENCING.
Proof.
  apply (@run_follows _ (recording o) (recording_logged o)). split; simpl; [constructor|done].
Qed.

(** C17: every history of kmorphd's state machine, for any events and any
    behaviour of the kernel operations, is one the takeover protocol
    allows, and between events the machine rests in the phase its state
    names; it never rests in FENCING. *)
Theorem takeover_refines_protocol o timeouts retries evs :
  let '(t, h) := life o timeouts retries evs in
  path (PWatch false) h (rest_phase (tk_state t)) /\ tk_state t <> TK_FENCING.
Proof.
  assert (F := life_follows o timeouts retries evs).
  destruct (life o timeouts retries evs) as [t h]. exact F.
Qed.

Lemma path_nil_inv p q : path p [] q -> p = q.
Proof.
  intros Hp. remember [] as h eqn:E. destruct Hp as [|p h q c r]; [done|].
  by destruct (app_cons_not_nil h [] c).
Qed.

Lemma path_snoc_inv p h c q : path p (h ++ [c]) q -> exists m, path p h m /\ pstep m c q.
Proof.
  intros Hp. remember (h ++ [c]) as l eqn:E. destruct Hp as [|p h' m c' r Hp Hs].
  - by destruct (app_cons_not_nil h [] c).
  - apply app_inj_tail in E as [-> ->]. eauto.
Qed.

Lemma path_app_inv p h1 h2 q : path p (h1 ++ h2) q -> exists m, path p h1 m /\ path m h2 q.
Proof.
  revert q. induction h2 as [|c h2 IH] using rev_ind; intros q Hp.
  { rewrite app_nil_r in Hp. eauto with takeover. }
  rewrite app_assoc in Hp. apply path_snoc_inv in Hp as (m & Hp & Hs).
  apply IH in Hp as (m' & ? & ?). eauto with takeover.
Qed.

Lemma path_cons_inv p c h q : path p (c :: h) q -> exists m, pstep p c m /\ path m h q.
Proof.
  intros Hp. apply (path_app_inv p [c] h) in Hp as (m & H1 & H2). exists m. split; [|done].
  apply (path_snoc_inv p []) in H1 as (m' & E & Hs). by apply path_nil_inv in E as ->.
Qed.

(** The phases entered by a successful fence. *)
Definition fenced_phase (p : phase) : bool :=
  match p with
  | PFenceOk | PFenced | PAdopted | PPreserved | PFinishing | POver => true
  | _ => false
  end.

Lemma path_fenced p h q :
  path p h q -> fenced_phase p = false -> fenced_phase q = true -> CFence 0 ∈ h.
Proof.
  induction 1 as [|p h q c r Hp IH Hs]; intros H0 H1; [congruence|]. apply elem_of_app.
  destruct (fenced_phase q) eqn:E; [left; auto|]. right.
  inversion Hs; subst; simpl in *; try discriminate. by apply list_elem_of_singleton.
Qed.

Lemma path_fenced_closed p h q : path p h q -> fenced_phase p = true -> fenced_phase q = true.
Proof.
  induction 1 as [|p h q c r Hp IH Hs]; intros Hf; [done|]. specialize (IH Hf).
  inversion Hs; subst; simpl in *; done.
Qed.

Lemma path_no_refence p h q r : path p h q -> fenced_phase p = true -> CFence r ∉ h.
Proof.
  intros Hp. enough (fenced_phase p = true -> fenced_phase q = true /\ CFence r ∉ h) by tauto.
  induction Hp as [|p h q c r' Hp IH Hs]; intros H0; [split; [done|apply not_elem_of_nil]|].
  destruct (IH H0) as [Hq Hn].
  split; [inversion Hs; subst; simpl in *; done|].
  rewrite elem_of_app, list_elem_of_singleton. intros [?|<-]; [done|].
  inversion Hs; subst; simpl in *; discriminate.
Qed.

(** The operations that touch the predecessor's resources. *)
Definition takes (c : opcall) : bool :=
  match c with CAdopt _ | CPreserve _ | CReap _ => true | _ => false end.

(** The predecessor's CPUs, memory and devices are touched only once a
    fence has confirmed every CPU stopped: before any adopt, preserve or
    reap call the fence has returned 0, and it is never issued again. *)
Theorem fenced_before_taking o timeouts retries evs h1 c h2 :
  (life o timeouts retries evs).2 = h1 ++ c :: h2 -> takes c = true ->
  CFence 0 ∈ h1 /\ forall r, CFence r ∉ h2.
Proof.
  intros E Hc. assert (F := proj1 (life_follows o timeouts retries evs)). rewrite E in F.
  apply path_app_inv in F as (m & Hp & Hq). apply path_cons_inv in Hq as (m' & Hs & Hq).
  assert (fenced_phase m = true /\ fenced_phase m' = true) as [Hm Hm']
    by (inversion Hs; subst; done).
  split; [by apply (path_fenced _ _ _ Hp)|]. intros r. by apply (path_no_refence _ _ _ _ Hq).
Qed.

Definition oracle_ok : oracle :=
  Oracle (fun _ => 0) (fun _ => 0) (fun _ => 0) (fun _ => 0).

Lemma fenced_before_taking_witness :
  exists h1 h2, (life oracle_ok 2 3 [TK_EV_PROBE_SILENT; TK_EV_PROBE_SILENT]).2
                = h1 ++ CAdopt 0 :: h2
                /\ (CFence 0 ∈ h1 /\ forall r, CFence r ∉ h2).
Proof.
  exists [CState TK_SUSPECT; CState TK_FENCING; CFence 0; CState TK_FENCED],
         [CPreserve 0; CReap 0; CState TK_TAKEN_OVER].
  split; [reflexivity|].
  apply (fenced_before_taking oracle_ok 2 3 [TK_EV_PROBE_SILENT; TK_EV_PROBE_SILENT] _ (CAdopt 0));
    reflexivity.
Defined.

(** Memory held back for the dump is reclaimed only right after the
    dump succeeded: a reap call directly follows a preserve that returned
    0, so a failed dump leaves the memory unclaimed. *)
Theorem reap_only_after_dump o timeouts retries evs h1 r h2 :
  (life o timeouts retries evs).2 = h1 ++ CReap r :: h2 ->
  exists h0, h1 = h0 ++ [CPreserve 0].
Proof.
  intros E. assert (F := proj1 (life_follows o timeouts retries evs)). rewrite E in F.
  apply path_app_inv in F as (m & Hp & Hq). apply path_cons_inv in Hq as (m' & Hs & Hq).
  inversion Hs; subst. inversion Hp as [|? h q c ? Hh Hs']; subst.
  inversion Hs'; subst. by exists h.
Qed.

Lemma reap_only_after_dump_witness :
  exists h1 h2, (life oracle_ok 1 3 [TK_EV_PROBE_SILENT]).2 = h1 ++ CReap 0 :: h2
                /\ exists h0, h1 = h0 ++ [CPreserve 0].
Proof.
  exists [CState TK_FENCING; CFence 0; CState TK_FENCED; CAdopt 0; CPreserve 0],
         [CState TK_TAKEN_OVER].
  split; [reflexivity|].
  apply (reap_only_after_dump oracle_ok 1 3 [TK_EV_PROBE_SILENT] _ 0 [CState TK_TAKEN_OVER]).
  reflexivity.
Defined.

(** ** The fence is tried a bounded number of times *)

Definition is_fence (c : opcall) : bool := match c with CFence _ => true | _ => false end.
Definition fences (h : list opcall) : Z := Z.of_nat (length (List.filter is_fence h)).

Lemma fences_snoc h c : fences (h ++ [c]) = fences h + (if is_fence c then 1 else 0).
Proof. unfold fences. rewrite List.filter_app, length_app. simpl. destruct (is_fence c); simpl; lia. Qed.

(** While watching no fence was tried; after that at most [retries + 1],
    all counted. *)
Definition fence_inv (retries : Z) (out : takeover * list opcall) : Prop :=
  fence_retries out.1 = retries /\ fence_attempts out.1 = fences out.2
  /\ 0 <= fence_attempts out.1 <= retries + 1
  /\ (tk_state out.1 = TK_ARMED \/ tk_state out.1 = TK_SUSPECT -> fence_attempts out.1 = 0).

Section FenceBound.
Context (o : oracle) (retries : Z) (Hretries : 0 <= retries < UINT32_MAX).
#[local] Instance ops2 : TakeoverOps (list opcall) := recording o.

Lemma continue_fence_inv t h :
  tk_state t = TK_FENCED -> fence_inv retries (t, h) -> fence_inv retries (continue_takeover t h).
Proof.
  unfold fence_inv, continue_takeover, step, set_state. simpl. intros Hs (H1 & H2 & H3 & _).
  repeat (case_bool; simpl); rewrite !fences_snoc; simpl; rewrite ?Hs;
    (split; [done|]); (split; [lia|]); (split; [lia|]); intros [?|?]; discriminate.
Qed.

Lemma begin_fence_inv t h :
  fence_retries t = retries -> fence_attempts t = fences h -> 0 <= fence_attempts t <= retries ->
  fence_inv retries (begin_takeover t h).
Proof.
  intros H1 H2 H3. unfold UINT32_MAX in *.
  unfold begin_takeover, step, set_state. simpl. rewrite (u32_small (fence_attempts t + 1)) by lia.
  case_bool; simpl; [|apply continue_fence_inv; [done|]]; unfold fence_inv; simpl;
    rewrite !fences_snoc; simpl;
    (split; [done|]); (split; [lia|]); (split; [lia|]); intros [?|?]; discriminate.
Qed.

Lemma handle_fence_inv t ev h :
  fence_inv retries (t, h) -> fence_inv retries (takeover_handle t ev h).
Proof.
  intros Hi. assert (Hi' := Hi). destruct Hi' as (H1 & H2 & H3 & H4). simpl in *.
  unfold takeover_handle, handle_watching.
  destruct (tk_state t) eqn:Hs; [| |done|..|done].
  1, 2: destruct ev; simpl; rewrite ?Hs; simpl; repeat case_bool;
    try (apply begin_fence_inv; simpl; auto; specialize (H4 ltac:(auto)); lia);
    unfold fence_inv, set_state; simpl; rewrite ?fences_snoc; simpl; rewrite ?Hs, ?Z.add_0_r;
    repeat split; auto; lia.
  - case_bool; [|done]. b2p. apply begin_fence_inv; auto; lia.
  - by apply continue_fence_inv.
Qed.

Lemma run_fence_inv t evs h :
  fence_inv retries (t, h) -> fence_inv retries (takeover_run t evs h).
Proof.
  revert t h. induction evs as [|ev evs IH]; intros t h Hf; simpl; [done|].
  apply (handle_fence_inv t ev h) in Hf. destruct (takeover_handle t ev h). by apply IH.
Qed.

End FenceBound.

(** However long the machine runs and whatever the kernel answers, the
    fence is issued at most [fence_retries + 1] times. *)
Theorem fence_attempts_bounded o timeouts retries evs :
  0 <= retries < UINT32_MAX -> fences (life o timeouts retries evs).2 <= retries + 1.
Proof.
  intros Hr. destruct (run_fence_inv o retries Hr (takeover_init timeouts retries) evs [])
    as (_ & H2 & H3 & _).
  - unfold fence_inv. simpl. repeat split; auto; lia.
  - unfold life, ops2 in *. lia.
Qed.

Definition oracle_lost_cpu : oracle :=
  Oracle (fun _ => -EIO) (fun _ => 0) (fun _ => 0) (fun _ => 0).

Lemma fence_attempts_bounded_witness :
  fences (life oracle_lost_cpu 1 2 (repeat TK_EV_PROBE_SILENT 10)).2 = 3
  /\ fences (life oracle_lost_cpu 1 2 (repeat TK_EV_PROBE_SILENT 10)).2 <= 2 + 1.
Proof. split; [reflexivity|]. apply fence_attempts_bounded. unfold UINT32_MAX. lia. Defined.

(** ** Detection: when the machine is taken *)

(** Silences since the last answer. *)
Definition run_step (n : Z) (ev : takeover_event) : Z :=
  match ev with TK_EV_PROBE_ALIVE => 0 | TK_EV_PROBE_SILENT => n + 1 | TK_EV_REQUEST => n end.
Definition silent_run (evs : list takeover_event) : Z := foldl run_step 0 evs.

(** At some point [timeouts] probes in a row went unanswered. *)
Definition went_silent (timeouts : Z) (evs : list takeover_event) : Prop :=
  exists p q, evs = p ++ q /\ timeouts <= silent_run p.

Definition watching (s : takeover_state) : bool :=
  match s with TK_ARMED | TK_SUSPECT => true | _ => false end.

Lemma takeover_run_app {W} `{TakeoverOps W} t evs1 evs2 w :
  takeover_run t (evs1 ++ evs2) w
  = let '(t, w) := takeover_run t evs1 w in takeover_run t evs2 w.
Proof.
  revert t w. induction evs1 as [|ev evs1 IH]; intros t w; simpl; [done|].
  destruct (takeover_handle t ev w). apply IH.
Qed.

Lemma went_silent_snoc timeouts evs ev :
  went_silent timeouts (evs ++ [ev]) <-> went_silent timeouts evs \/ timeouts <= silent_run (evs ++ [ev]).
Proof.
  split.
  - intros (p & q & E & L). destruct q as [|c q _] using rev_ind.
    + rewrite app_nil_r in E. subst p. by right.
    + rewrite app_assoc in E. apply app_inj_tail in E as [-> _]. left. by exists p, q.
  - intros [(p & q & -> & L)|L]; [exists p, (q ++ [ev])|exists (evs ++ [ev]), []].
    + by rewrite app_assoc. + by rewrite app_nil_r.
Qed.

Section Detection.
Context (o : oracle) (timeouts : Z).
#[local] Instance ops3 : TakeoverOps (list opcall) := recording o.

(** The takeover has begun. *)
Definition begun (out : takeover * list opcall) : Prop :=
  watching (tk_state out.1) = false /\ 0 < fences out.2.

Lemma continue_begun t h : watching (tk_state t) = false -> 0 < fences h -> begun (continue_takeover t h).
Proof.
  intros Hw Hf. unfold continue_takeover, step, set_state. simpl.
  repeat (case_bool; simpl); split; simpl; rewrite ?fences_snoc; simpl; auto; lia.
Qed.

Lemma begin_begun t h : begun (begin_takeover t h).
Proof.
  assert (0 <= fences h) by (unfold fences; lia).
  unfold begin_takeover, step, set_state. simpl. case_bool; simpl.
  - split; simpl; [done|]. rewrite !fences_snoc. simpl. lia.
  - apply continue_begun; [done|]. rewrite !fences_snoc. simpl. lia.
Qed.

Lemma handle_begun t ev h : begun (t, h) -> begun (takeover_handle t ev h).
Proof.
  intros [Hw Hf]. simpl in *. unfold takeover_handle.
  destruct (tk_state t) eqn:Hs; try discriminate; try (split; simpl; rewrite ?Hs; done).
  - case_bool; [apply begin_begun|]. split; simpl; rewrite ?Hs; done.
  - apply continue_begun; [by rewrite Hs|done].
Qed.

Definition detect_inv (evs : list takeover_event) (out : takeover * list opcall) : Prop :=
  (begun out /\ went_silent timeouts evs) \/
  (watching (tk_state out.1) = true /\ fences out.2 = 0 /\ probe_timeouts out.1 = timeouts
   /\ silent out.1 = silent_run evs /\ 0 <= silent_run evs < timeouts
   /\ ~ went_silent timeouts evs).

Lemma detect_step evs ev t h :
  1 <= timeouts <= UINT32_MAX -> ev <> TK_EV_REQUEST ->
  detect_inv evs (t, h) -> detect_inv (evs ++ [ev]) (takeover_handle t ev h).
Proof.
  intros Ht Hev [[Hb Hs]|(Hw & Hf & Hp & Hsil & Hr & Hns)]; simpl in *.
  { left. split; [by apply handle_begun|]. apply went_silent_snoc. by left. }
  assert (Hrun : silent_run (evs ++ [ev]) = run_step (silent_run evs) ev)
    by (unfold silent_run; by rewrite foldl_app).
  assert (takeover_handle t ev h = handle_watching t ev h) as ->
    by (unfold takeover_handle; destruct (tk_state t); done).
  unfold UINT32_MAX in *. destruct ev; [| |done]; simpl in *.
  - right. assert (~ went_silent timeouts (evs ++ [TK_EV_PROBE_ALIVE]))
      by (rewrite went_silent_snoc, Hrun; intros [?|?]; [done|lia]).
    unfold set_state. case_decide as D; simpl; rewrite ?fences_snoc; simpl; repeat split; auto; lia.
  - rewrite u32_small by lia. unfold set_state. rewrite Hp, Hsil.
    destruct (Z.leb_spec timeouts (silent_run evs + 1)).
    + left. split; [apply begin_begun|]. apply went_silent_snoc. right. lia.
    + right. assert (~ went_silent timeouts (evs ++ [TK_EV_PROBE_SILENT]))
        by (rewrite went_silent_snoc, Hrun; intros [?|?]; [done|lia]).
      case_decide as D; simpl; rewrite ?fences_snoc; simpl; repeat split; auto; lia.
Qed.

End Detection.

Lemma life_snoc o timeouts retries evs ev :
  life o timeouts retries (evs ++ [ev])
  = let '(t, h) := life o timeouts retries evs in @takeover_handle _ (recording o) t ev h.
Proof.
  unfold life. rewrite takeover_run_app. destruct (takeover_run _ evs []) as [t h]. simpl.
  by destruct (takeover_handle t ev h).
Qed.

Lemma life_detect o timeouts retries evs :
  1 <= timeouts <= UINT32_MAX -> TK_EV_REQUEST ∉ evs ->
  detect_inv timeouts evs (life o timeouts retries evs).
Proof.
  intros Ht. induction evs as [|ev evs IH] using rev_ind; intros Hn.
  - right. simpl. repeat split; auto; unfold silent_run; simpl; try lia.
    intros (p & q & E & L). symmetry in E. apply app_eq_nil in E as [-> _].
    unfold silent_run in L. simpl in L. lia.
  - rewrite not_elem_of_app, list_elem_of_singleton in Hn. destruct Hn as [Hn Hev].
    rewrite life_snoc. specialize (IH Hn). destruct (life o timeouts retries evs) as [t h].
    apply detect_step; auto.
Qed.

(** With no handover requested, kmorphd leaves the watching states and
    fences the predecessor exactly when [probe_timeouts] probes in a row
    went unanswered; any answer in between starts the count again. *)
Theorem fence_iff_silent o timeouts retries evs :
  1 <= timeouts <= UINT32_MAX -> TK_EV_REQUEST ∉ evs ->
  0 < fences (life o timeouts retries evs).2 <-> went_silent timeouts evs.
Proof.
  intros Ht Hn. destruct (life_detect o timeouts retries evs Ht Hn)
    as [[[_ Hf] Hs]|(_ & Hf & _ & _ & _ & Hs)]; split; auto; intros; [lia|done].
Qed.

Lemma fence_iff_silent_witness :
  let evs := [TK_EV_PROBE_SILENT; TK_EV_PROBE_ALIVE; TK_EV_PROBE_SILENT; TK_EV_PROBE_SILENT] in
  fences (life oracle_ok 3 0 evs).2 = 0 /\
  (0 < fences (life oracle_ok 3 0 evs).2 <-> went_silent 3 evs).
Proof.
  split; [reflexivity|]. apply fence_iff_silent; [unfold UINT32_MAX; lia|].
  apply (bool_decide_unpack _). reflexivity.
Defined.

(** With fence and adoption succeeding, an event leaves the machine
    watching or done. *)
Lemma life_watching_or_over o timeouts retries evs :
  (forall h, ans_fence o h = 0) -> (forall h, ans_adopt o h = 0) ->
  watching (tk_state (life o timeouts retries evs).1) = true
  \/ tk_state (life o timeouts retries evs).1 = TK_TAKEN_OVER.
Proof.
  intros Hf Ha. induction evs as [|ev evs IH] using rev_ind; [by left|].
  rewrite life_snoc. destruct (life o timeouts retries evs) as [t h]. simpl in IH.
  assert (B : forall t h, tk_state (@begin_takeover _ (recording o) t h).1 = TK_TAKEN_OVER).
  { intros t' h'. unfold begin_takeover, continue_takeover, step, set_state. simpl.
    rewrite Hf. simpl. rewrite Ha. simpl. by case_bool. }
  unfold takeover_handle, handle_watching, set_state.
  destruct (tk_state t) eqn:Hs; destruct IH as [IH|IH]; try discriminate; [..|by right];
    destruct ev; simpl; rewrite ?Hs; simpl; repeat case_bool; rewrite ?B; simpl; rewrite ?Hs; auto.
Qed.

(** C23: when fence and adoption succeed, the takeover completes as soon as
    the predecessor is declared dead: a run of [probe_timeouts] silences
    ends in TAKEN_OVER, whatever becomes of the dump and the reap. *)
Theorem silence_takes_over o timeouts retries evs :
  1 <= timeouts <= UINT32_MAX -> TK_EV_REQUEST ∉ evs -> went_silent timeouts evs ->
  (forall h, ans_fence o h = 0) -> (forall h, ans_adopt o h = 0) ->
  tk_state (life o timeouts retries evs).1 = TK_TAKEN_OVER.
Proof.
  intros Ht Hn Hs Hf Ha. destruct (life_watching_or_over o timeouts retries evs Hf Ha); [|done].
  destruct (life_detect o timeouts retries evs Ht Hn) as [[[? _] _]|(_ & _ & _ & _ & _ & ?)];
    [congruence|done].
Qed.

Lemma silence_takes_over_witness :
  let o := Oracle (fun _ => 0) (fun _ => 0) (fun _ => -EIO) (fun _ => 0) in
  let evs := [TK_EV_PROBE_ALIVE; TK_EV_PROBE_SILENT; TK_EV_PROBE_SILENT; TK_EV_PROBE_ALIVE] in
  tk_state (life o 2 3 evs).1 = TK_TAKEN_OVER.
Proof.
  apply silence_takes_over; try reflexivity; try (unfold UINT32_MAX; lia).
  - apply (bool_decide_unpack _). reflexivity.
  - exists [TK_EV_PROBE_ALIVE; TK_EV_PROBE_SILENT; TK_EV_PROBE_SILENT], [TK_EV_PROBE_ALIVE].
    split; [reflexivity|]. unfold silent_run. simpl. lia.
Defined.

(** ** One event issues at most one fence, in any logged world *)

Section OneFence.
Context {W : Type} `{LoggedOps W}.

Lemma continue_fences t (w : W) :
  fences (log (continue_takeover t w).2) = fences (log w)
  /\ (watching (tk_state t) = false -> watching (tk_state (continue_takeover t w).1) = false).
Proof.
  unfold continue_takeover, step, set_state.
  assert (L1 := log_adopt w). destruct (op_adopt w) as [r1 w1]. cbn in L1.
  destruct (r1 =? 0); cbn [negb]; [|cbn; by rewrite L1, fences_snoc, Z.add_0_r].
  assert (L2 := log_preserve w1). destruct (op_preserve w1) as [r2 w2]. cbn in L2.
  assert (L3 := log_reap w2). destruct (op_reap w2) as [r3 w3]. cbn in L3.
  destruct (r2 =? 0); cbn; rewrite log_state, ?L3, L2, L1, !fences_snoc; cbn; (split; [lia|done]).
Qed.

Lemma begin_fences t (w : W) :
  fences (log (begin_takeover t w).2) = fences (log w) + 1
  /\ watching (tk_state (begin_takeover t w).1) = false.
Proof.
  unfold begin_takeover, step, set_state. set (w1 := on_state _ TK_FENCING w).
  assert (log w1 = log w ++ [CState TK_FENCING]) as L1 by apply log_state.
  assert (L2 := log_fence w1). destruct (op_fence w1) as [r w2]. cbn in L2.
  destruct (r =? 0); cbn [negb].
  - match goal with |- context [continue_takeover ?t ?w] => destruct (continue_fences t w) as [E1 E2] end.
    rewrite E1, E2 by done. rewrite log_state, L2, L1, !fences_snoc. cbn. split; [lia|done].
  - cbn. rewrite log_state, L2, L1, !fences_snoc. cbn. split; [lia|done].
Qed.

Lemma handle_fences t ev (w : W) :
  let out := takeover_handle t ev w in
  fences (log w) <= fences (log out.2) <= fences (log w) + 1
  /\ (watching (tk_state out.1) = true -> watching (tk_state t) = true /\ fences (log out.2) = fences (log w)).
Proof.
  assert (Hb := fun t => begin_fences t w). assert (Hc := continue_fences t w).
  cbv zeta. unfold takeover_handle, handle_watching, set_state.
  destruct (tk_state t) eqn:Hs; try (cbn; rewrite Hs; split; [lia|done]).
  1, 2: destruct ev; cbn [tk_state with_silent]; rewrite ?Hs; cbn [decide]; repeat case_bool; repeat case_decide; try done;
    try (match goal with |- context [begin_takeover ?t ?w] => destruct (Hb t) as [-> ->] end; split; [lia|done]);
    cbn; rewrite ?log_state, ?fences_snoc; cbn; rewrite ?Hs; split; try lia; intros _; (split; [done|lia]).
  - case_bool; [|cbn; rewrite Hs; split; [lia|done]].
    destruct (Hb t) as [-> ->]. split; [lia|done].
  - destruct Hc as [-> Hc]. split; [lia|]. rewrite Hc by done. done.
Qed.

End OneFence.

(** ** What the operations leave alone, an event leaves alone *)

Section Frame.
Context {W : Type} `{TakeoverOps W} (R : W -> W -> Prop) `{!Reflexive R} `{!Transitive R}.
Hypothesis R_fence : forall w, R w (op_fence w).2.
Hypothesis R_adopt : forall w, R w (op_adopt w).2.
Hypothesis R_preserve : forall w, R w (op_preserve w).2.
Hypothesis R_reap : forall w, R w (op_reap w).2.
Hypothesis R_state : forall t s w, R w (on_state t s w).

Lemma continue_frame t w : R w (continue_takeover t w).2.
Proof using Transitive0 R_adopt R_preserve R_reap R_state.
  unfold continue_takeover, step, set_state.
  assert (L1 := R_adopt w). destruct (op_adopt w) as [r1 w1]. destruct (r1 =? 0); cbn [negb]; [|done].
  assert (L2 := R_preserve w1). destruct (op_preserve w1) as [r2 w2].
  assert (L3 := R_reap w2). destruct (op_reap w2) as [r3 w3]. cbn in *.
  destruct (r2 =? 0); cbn; etrans; [exact L1| |exact L1|]; (etrans; [exact L2|]); [etrans; [exact L3|]|]; done.
Qed.

Lemma begin_frame t w : R w (begin_takeover t w).2.
Proof using All.
  unfold begin_takeover, step, set_state. set (w1 := on_state _ TK_FENCING w).
  assert (R w w1) as L1 by apply R_state. assert (L2 := R_fence w1).
  destruct (op_fence w1) as [r w2]. cbn in L2. destruct (r =? 0); cbn [negb].
  - etrans; [exact L1|]. etrans; [exact L2|]. etrans; [|apply continue_frame]. apply R_state.
  - etrans; [exact L1|]. etrans; [exact L2|]. apply R_state.
Qed.

Lemma handle_frame t ev w : R w (takeover_handle t ev w).2.
Proof using All.
  unfold takeover_handle, handle_watching, set_state.
  destruct (tk_state t); [destruct ev| destruct ev|..]; repeat case_bool; repeat case_decide; cbn;
    first [reflexivity | apply R_state | apply begin_frame | apply continue_frame].
Qed.

End Frame.

(** States from FENCING on, and [state >= TK_FENCING]. *)
Lemma watching_index s : watching s = negb (2 <=? state_index s).
Proof. by destruct s. Qed.

(** ** A machine that still watches has taken nothing *)

Lemma watching_phase s : watching s = true -> fenced_phase (rest_phase s) = false.
Proof. by destruct s. Qed.

Lemma unfenced_takes_nothing p h q c :
  path p h q -> fenced_phase q = false -> takes c = true -> c ∉ h.
Proof.
  intros Hp Hq Hc (h1 & h2 & ->)%list_elem_of_split.
  apply path_app_inv in Hp as (m & _ & Hp). apply path_cons_inv in Hp as (m' & Hs & Hp).
  assert (fenced_phase m' = true) as Hf by (inversion Hs; subst; done).
  apply path_fenced_closed in Hp; [|done]. congruence.
Qed.

(** The number of times TAKEN_OVER was announced. *)
Definition is_over (c : opcall) : bool := match c with CState TK_TAKEN_OVER => true | _ => false end.
Definition overs (h : list opcall) : nat := length (List.filter is_over h).

Lemma overs_snoc h c : overs (h ++ [c]) = (overs h + (if is_over c then 1 else 0))%nat.
Proof. unfold overs. rewrite List.filter_app, length_app. simpl. by destruct (is_over c). Qed.

Definition over_phase (p : phase) : bool := match p with POver => true | _ => false end.

Lemma path_overs p h q :
  path p h q -> over_phase p = false -> overs h = if over_phase q then 1%nat else 0%nat.
Proof.
  induction 1 as [|p h q c r Hp IH Hs]; intros Hf; [by rewrite Hf|].
  rewrite overs_snoc, (IH Hf). inversion Hs; subst; done.
Qed.
