(* ===== verification/Cstr.v ===== *)
(** * The C library's characters, strings and numbers

    A character is its code, a [Z] in 0..255; a C string is the list of
    its characters up to the terminating NUL, so reading at the end of the
    list reads 0.  The functions are those of the C locale that the
    sources call: [isdigit] and friends, [strtoull], [strncmp], [strchr],
    and the number conversions of [snprintf]. *)

From S2P Require Import Prelude.
From Stdlib Require Export Ascii.
From Stdlib Require String.

Abbreviation cstr := (list Z) (only parsing).

Definition ch (a : ascii) : Z := Z.of_N (N_of_ascii a).
Definition str (s : string) : list Z := map ch (String.list_ascii_of_string s).

(** [*s] and [s[n]] *)
Definition c0 (s : list Z) : Z := match s with c :: _ => c | [] => 0 end.
Definition cn (s : list Z) (n : nat) : Z := c0 (drop n s).

Definition isdigit (c : Z) : bool := (48 <=? c) && (c <=? 57).
Definition isupper (c : Z) : bool := (65 <=? c) && (c <=? 90).
Definition islower (c : Z) : bool := (97 <=? c) && (c <=? 122).
Definition isspace (c : Z) : bool := (c =? 32) || ((9 <=? c) && (c <=? 13)).
Definition isxdigit (c : Z) : bool :=
  isdigit c || ((65 <=? c) && (c <=? 70)) || ((97 <=? c) && (c <=? 102)).
Definition toupper (c : Z) : Z := if islower c then c - 32 else c.

(** [strcmp(a, b) == 0] and [strncmp(a, b, strlen(b)) == 0] *)
Definition streq (a b : list Z) : bool := bool_decide (a = b).
Fixpoint starts (b a : list Z) : bool :=
  match b, a with
  | [], _ => true
  | y :: b, x :: a => (x =? y) && starts b a
  | _ :: _, [] => false
  end.

(** [while (isspace(s[0])) s++] *)
Fixpoint skip_space (s : list Z) : list Z :=
  match s with c :: t => if isspace c then skip_space t else s | [] => [] end.

(** [while (end > s && isspace(end[-1])) end--] *)
Definition drop_space_end (s : list Z) : list Z := rev (skip_space (rev s)).

(** [strchr]: the part before the first [c] and the part from it on *)
Fixpoint split_at (c : Z) (s : list Z) : list Z * option (list Z) :=
  match s with
  | [] => ([], None)
  | x :: t => if x =? c then ([], Some s)
              else let '(a, b) := split_at c t in (x :: a, b)
  end.

(** [strstr]: the part before the first [w] and the part from it on *)
Fixpoint strstr (s w : list Z) : option (list Z * list Z) :=
  if starts w s then Some ([], s)
  else match s with
       | [] => None
       | c :: s => match strstr s w with Some (a, b) => Some (c :: a, b) | None => None end
       end.

(** The C string at the front of a buffer. *)
Definition cstr_of (buf : list Z) : list Z := (split_at 0 buf).1.

(** ** [strtoull] *)

Definition digit_val (c : Z) : Z :=
  if isdigit c then c - 48
  else if islower c then c - 87
  else if isupper c then c - 55
  else 99.

(** Digits of the base from the front: value so far, and the rest. *)
Fixpoint digits (base acc : Z) (s : list Z) : Z * list Z :=
  match s with
  | c :: t => if digit_val c <? base then digits base (acc * base + digit_val c) t else (acc, s)
  | [] => (acc, [])
  end.

Definition has_digit (base : Z) (s : list Z) : bool :=
  match s with c :: _ => digit_val c <? base | [] => false end.

(** Value, rest and whether [errno] became [ERANGE]; a string without a
    number yields 0 and is not consumed; a minus sign negates modulo 2^64. *)
Definition strtoull (base : Z) (s : list Z) : Z * list Z * bool :=
  let t := skip_space s in
  let '(neg, t) := if c0 t =? ch "-" then (true, drop 1 t)
                   else if c0 t =? ch "+" then (false, drop 1 t) else (false, t) in
  let t := if (base =? 16) && (c0 t =? ch "0") && (toupper (cn t 1) =? ch "X")
              && has_digit 16 (drop 2 t) then drop 2 t else t in
  if negb (has_digit base t) then (0, s, false) else
  let '(v, rest) := digits base 0 t in
  if UINT64_MAX <? v then (UINT64_MAX, rest, true)
  else (if neg then u64 (- v) else v, rest, false).

(** ** Number conversions of [snprintf] *)

Definition digit_char (d : Z) : Z := if d <? 10 then 48 + d else 87 + d.

(** Digits of [n] in [base] before [acc]; 64 digits hold any 64-bit value. *)
Fixpoint num_fuel (base : Z) (fuel : nat) (n : Z) (acc : list Z) : list Z :=
  match fuel with
  | O => acc
  | S fuel =>
      let acc := digit_char (n mod base) :: acc in
      if n / base =? 0 then acc else num_fuel base fuel (n / base) acc
  end.

(** [%llu] and [%llx] *)
Definition dec (n : Z) : list Z := num_fuel 10 64 n [].
Definition hex (n : Z) : list Z := num_fuel 16 64 n [].
(** [%0<w>x] *)
Definition hexpad (w : nat) (v : Z) : list Z :=
  let d := hex v in replicate (w - length d) (ch "0") ++ d.
(** [%d] *)
Definition dec_int (n : Z) : list Z := if n <? 0 then ch "-" :: dec (- n) else dec n.

(** [snprintf(buf, len, ...)]: what the buffer then holds; without room it
    is not written. *)
Definition snprintf (buf : list Z) (len : Z) (s : list Z) : list Z :=
  if len =? 0 then buf else take (Z.to_nat (len - 1)) s.

(** ** Lemmas *)

Lemma starts_spec b a : starts b a = true <-> exists t, a = b ++ t.
Proof.
  revert a. induction b as [|y b IH]; intros a; simpl; [split; eauto|].
  destruct a as [|x a]; [split; [done|]; by intros (t & ?)|].
  rewrite andb_true_iff, Z.eqb_eq, IH. split.
  - intros (-> & t & ->). by exists t.
  - intros (t & [= -> ->]). eauto.
Qed.

(** [strstr] finds the first occurrence. *)
Lemma strstr_spec s w :
  match strstr s w with
  | Some (a, b) => exists t, b = w ++ t /\ s = a ++ b /\ forall a' t', s = a' ++ w ++ t' -> (length a <= length a')%nat
  | None => forall a' t', s <> a' ++ w ++ t'
  end.
Proof.
  induction s as [|c s IH]; cbn [strstr]; destruct (starts w _) eqn:S;
    [apply starts_spec in S as [t E]; exists t; split; [done|]; split; [done|]; intros; cbn; lia| |
     apply starts_spec in S as [t E]; exists t; split; [done|]; split; [done|]; intros; cbn; lia|].
  - intros [|x a'] t' E; [|done]. cbn [app] in E. rewrite E, (proj2 (starts_spec w _)) in S by eauto. done.
  - assert (Tl : forall a' t', c :: s = a' ++ w ++ t' -> exists a'', a' = c :: a'' /\ s = a'' ++ w ++ t').
    { intros [|x a'] t' E; [|injection E as <- E; eauto]. cbn [app] in E. rewrite E, (proj2 (starts_spec w _)) in S by eauto. done. }
    destruct (strstr s w) as [[a b]|].
    + destruct IH as (t & -> & E & M). exists t. split; [done|]. split; [by rewrite E|].
      intros a' t' E'. destruct (Tl _ _ E') as (a'' & -> & Es). cbn. specialize (M _ _ Es). lia.
    + intros a' t' E'. destruct (Tl _ _ E') as (a'' & -> & Es). by apply (IH a'' t').
Qed.

Lemma digit_char_val d : 0 <= d < 16 -> digit_val (digit_char d) = d.
Proof.
  intros H. unfold digit_char, digit_val, isdigit, islower, isupper.
  repeat case_bool; b2p; lia.
Qed.

Lemma digits_app base acc ds rest :
  Forall (fun c => digit_val c < base) ds -> has_digit base rest = false ->
  digits base acc (ds ++ rest) = (foldl (fun a c => a * base + digit_val c) acc ds, rest).
Proof.
  intros Hd Hr. revert acc. induction Hd as [|c ds Hc Hds IH]; intros acc; simpl.
  - destruct rest as [|c t]; simpl in *; [done|]. by rewrite Hr.
  - rewrite (proj2 (Z.ltb_lt _ _) Hc). apply IH.
Qed.

Lemma num_fuel_spec base fuel n acc :
  1 < base <= 16 -> 0 <= n < base ^ Z.of_nat fuel -> (0 < fuel)%nat ->
  exists d ds, num_fuel base fuel n acc = (d :: ds) ++ acc
    /\ Forall (fun c => digit_val c < base /\ (base = 10 -> isdigit c = true)) (d :: ds)
    /\ forall a, foldl (fun a c => a * base + digit_val c) a (d :: ds)
                 = a * base ^ Z.of_nat (S (length ds)) + n.
Proof.
  intros Hb. revert n acc. induction fuel as [|fuel IH]; intros n acc Hn Hf; [lia|]. simpl.
  assert (Hm := Z.mod_pos_bound n base ltac:(lia)).
  assert (Hdm := Z.div_mod n base ltac:(lia)).
  assert (Hv : digit_val (digit_char (n mod base)) = n mod base) by (apply digit_char_val; lia).
  assert (Hc : digit_val (digit_char (n mod base)) < base
               /\ (base = 10 -> isdigit (digit_char (n mod base)) = true)).
  { split; [lia|]. intros ->. unfold digit_char, isdigit. rewrite (proj2 (Z.ltb_lt _ _)) by lia.
    apply andb_true_intro. split; apply Z.leb_le; lia. }
  destruct (Z.eqb_spec (n / base) 0) as [E|E].
  - exists (digit_char (n mod base)), []. split; [done|]. split; [auto|].
    intros a. simpl. rewrite Hv, Z.pow_1_r. lia.
  - rewrite Nat2Z.inj_succ, Z.pow_succ_r in Hn by lia.
    assert (0 <= n / base) by (apply Z.div_pos; lia).
    assert (n / base < base ^ Z.of_nat fuel) by (apply Z.div_lt_upper_bound; lia).
    destruct fuel as [|fuel']; [simpl in *; lia|].
    destruct (IH (n / base) (digit_char (n mod base) :: acc)) as (d & ds & E1 & F & V); [lia..|].
    exists d, (ds ++ [digit_char (n mod base)]). rewrite E1. split; [by rewrite <- app_comm_cons, <- app_assoc|].
    rewrite app_comm_cons. split; [apply Forall_app; split; [done|auto]|].
    intros a. specialize (V a). simpl in V. simpl foldl. rewrite foldl_app, V. simpl foldl. rewrite Hv, length_app, Nat.add_1_r. simpl length.
    rewrite (Nat2Z.inj_succ (S (length ds))), Z.pow_succ_r by lia. lia.
Qed.

(** A printed number reads back, whatever follows it. *)
Lemma digits_num base n rest :
  1 < base <= 16 -> 0 <= n < base ^ 64 -> has_digit base rest = false ->
  digits base 0 (num_fuel base 64 n [] ++ rest) = (n, rest).
Proof.
  intros Hb Hn Hr. destruct (num_fuel_spec base 64 n [] Hb Hn ltac:(lia)) as (d & ds & E & F & V).
  rewrite E, app_nil_r, digits_app; [by rewrite V, Z.add_0_l| |done].
  eapply Forall_impl; [exact F|]. simpl. tauto.
Qed.

Lemma dec_shape n : 0 <= n < two64 ->
  exists d ds, dec n = d :: ds /\ Forall (fun c => isdigit c = true) (d :: ds).
Proof.
  intros Hn. destruct (num_fuel_spec 10 64 n [] ltac:(lia)) as (d & ds & E & F & _); [|lia|].
  { change (10 ^ Z.of_nat 64) with (10 ^ 64). lia. }
  exists d, ds. unfold dec. rewrite E, app_nil_r. split; [done|].
  eapply Forall_impl; [exact F|]. simpl. intros c [_ H]. by apply H.
Qed.

Lemma isdigit_val c : isdigit c = true -> digit_val c < 10.
Proof. intros H. unfold digit_val. rewrite H. unfold isdigit in H. b2p. lia. Qed.

Lemma digit_val_isdigit c : digit_val c < 10 -> isdigit c = true.
Proof.
  unfold digit_val, isdigit, islower, isupper. repeat case_bool; b2p; try done; lia.
Qed.

Lemma has_digit_c0 s : has_digit 10 s = isdigit (c0 s).
Proof.
  destruct s as [|c t]; [done|]. simpl. apply eq_true_iff_eq. rewrite Z.ltb_lt.
  split; [apply digit_val_isdigit|apply isdigit_val].
Qed.

Lemma isdigit_not_space c : isdigit c = true -> isspace c = false.
Proof. unfold isdigit, isspace. intros. b2p. repeat case_bool; b2p; lia. Qed.

Lemma skip_space_digit s : isdigit (c0 s) = true -> skip_space s = s.
Proof. destruct s as [|c t]; [done|]. simpl. intros H. by rewrite isdigit_not_space. Qed.

(** On a string that starts with a digit, decimal [strtoull] reads the
    digits and saturates. *)
Lemma strtoull_digit s :
  isdigit (c0 s) = true ->
  strtoull 10 s = let '(v, rest) := digits 10 0 s in
                  if UINT64_MAX <? v then (UINT64_MAX, rest, true) else (v, rest, false).
Proof.
  intros H. unfold strtoull. rewrite skip_space_digit by done.
  assert (c0 s <> ch "-" /\ c0 s <> ch "+") as [H1 H2]
    by (unfold isdigit in H; change (ch "-") with 45; change (ch "+") with 43; b2p; lia).
  rewrite (proj2 (Z.eqb_neq _ _) H1), (proj2 (Z.eqb_neq _ _) H2).
  change (10 =? 16) with false. cbn [andb].
  rewrite has_digit_c0, H. cbn [negb]. done.
Qed.

Lemma digits_nonneg base acc s : 0 <= acc -> 0 < base -> 0 <= (digits base acc s).1.
Proof.
  revert acc. induction s as [|c t IH]; intros acc Ha Hb; simpl; [done|]. case_bool; [|done].
  apply IH; [|done]. assert (0 <= digit_val c); [|nia].
  unfold digit_val, isdigit, islower, isupper. repeat case_bool; b2p; lia.
Qed.

(** What is left after the digits is a proper suffix that starts with no
    digit. *)
Lemma digits_rest base acc s :
  exists ds, s = ds ++ (digits base acc s).2 /\ has_digit base (digits base acc s).2 = false
  /\ (has_digit base s = true -> ds <> []).
Proof.
  revert acc. induction s as [|c t IH]; intros acc; simpl.
  { exists []. repeat split; auto. }
  destruct (digit_val c <? base) eqn:E.
  - destruct (IH (acc * base + digit_val c)) as (ds & E1 & E2 & _).
    exists (c :: ds). split; [by rewrite <- app_comm_cons, <- E1|]. split; [done|done].
  - exists []. simpl. split; [done|]. split; [exact E|congruence].
Qed.

(** A C string holds no NUL. *)
Definition cstring (s : list Z) : Prop := Forall (fun c => 0 < c < 256) s.

Lemma c0_nil s : cstring s -> c0 s = 0 -> s = [].
Proof. intros Hs H0. destruct Hs as [|c t Hc Hs]; [done|]. simpl in H0. lia. Qed.

Lemma c0_app_nil s t : s <> [] -> c0 (s ++ t) = c0 s.
Proof. by destruct s. Qed.

Lemma cstring_app s t : cstring (s ++ t) <-> cstring s /\ cstring t.
Proof. apply Forall_app. Qed.

(** The value of a string of decimal digits. *)
Definition dec_value (ds : list Z) : Z := foldl (fun a c => a * 10 + digit_val c) 0 ds.

Definition all_digits (ds : list Z) : Prop := ds <> [] /\ Forall (fun c => isdigit c = true) ds.

Lemma dec_all_digits n : 0 <= n < two64 -> all_digits (dec n) /\ dec_value (dec n) = n.
Proof.
  intros Hn. destruct (num_fuel_spec 10 64 n [] ltac:(lia)) as (d & ds & E & F & V); [|lia|].
  { change (10 ^ Z.of_nat 64) with (10 ^ 64). lia. }
  unfold all_digits, dec_value, dec. rewrite E, app_nil_r, V. split; [split; [done|]|lia].
  eapply Forall_impl; [exact F|]. simpl. intros c [_ H]. by apply H.
Qed.

(** The longest run of digits at the front. *)
Lemma digits_split s :
  exists ds, s = ds ++ (digits 10 0 s).2 /\ Forall (fun c => isdigit c = true) ds
    /\ (digits 10 0 s).1 = dec_value ds /\ isdigit (c0 (digits 10 0 s).2) = false
    /\ (isdigit (c0 s) = true -> ds <> []).
Proof.
  unfold dec_value. generalize 0. induction s as [|c t IH]; intros acc; cbn [digits].
  { exists []. repeat split; auto. }
  destruct (digit_val c <? 10) eqn:E.
  - destruct (IH (acc * 10 + digit_val c)) as (ds & E1 & F & V & D & _).
    exists (c :: ds). split; [by rewrite <- app_comm_cons, <- E1|].
    split; [constructor; [apply digit_val_isdigit; lia|done]|]. split; [exact V|]. by split.
  - exists []. simpl. repeat split; auto.
    + destruct (isdigit c) eqn:D; [|done]. apply isdigit_val in D. lia.
    + intros D. apply isdigit_val in D. lia.
Qed.

Lemma digits_of_app ds rest :
  Forall (fun c => isdigit c = true) ds -> isdigit (c0 rest) = false ->
  digits 10 0 (ds ++ rest) = (dec_value ds, rest).
Proof.
  intros F D. apply digits_app; [|by rewrite has_digit_c0].
  eapply Forall_impl; [exact F|]. apply isdigit_val.
Qed.

(** ** Words and surrounding space *)

Definition spaces (s : list Z) : Prop := Forall (fun c => isspace c = true) s.

Lemma skip_space_split s : exists a, s = a ++ skip_space s /\ spaces a /\ isspace (c0 (skip_space s)) = false.
Proof.
  induction s as [|c t (a & E & Ha & Hs)]; cbn [skip_space].
  { exists []. split_and!; [done|constructor|done]. }
  destruct (isspace c) eqn:C; [|exists []; split_and!; [done|constructor|done]].
  exists (c :: a). split; [by rewrite <- app_comm_cons, <- E|]. split; [by constructor|done].
Qed.

Lemma skip_space_app a s : spaces a -> isspace (c0 s) = false -> skip_space (a ++ s) = s.
Proof.
  intros Ha Hs. induction Ha as [|c a Hc Ha IH]; cbn.
  - destruct s as [|c s]; [done|]. cbn in *. by rewrite Hs.
  - by rewrite Hc.
Qed.

(** [end[-1]]: the last character. *)
Definition clast (s : list Z) : Z := c0 (rev s).

Lemma drop_space_end_split s :
  exists b, s = drop_space_end s ++ b /\ spaces b /\ isspace (clast (drop_space_end s)) = false.
Proof.
  destruct (skip_space_split (rev s)) as (a & E & Ha & Hs). exists (rev a). unfold drop_space_end, clast.
  rewrite <- rev_app_distr, <- E, rev_involutive. split; [done|]. split; [by apply Forall_rev|].
  by rewrite rev_involutive.
Qed.

Lemma drop_space_end_app s b : spaces b -> isspace (clast s) = false -> drop_space_end (s ++ b) = s.
Proof.
  intros Hb Hs. unfold drop_space_end. rewrite rev_app_distr, skip_space_app, rev_involutive; [done| |done].
  by apply Forall_rev.
Qed.

Lemma split_at_spec c s :
  match split_at c s with
  | (a, None) => a = s /\ (c ∉ s)
  | (a, Some r) => s = a ++ r /\ (c ∉ a) /\ exists t, r = c :: t
  end.
Proof.
  induction s as [|x t IH]; cbn [split_at]; [split; [done|apply not_elem_of_nil]|].
  destruct (Z.eqb_spec x c) as [->|Hx].
  { split; [done|]. split; [apply not_elem_of_nil|eauto]. }
  destruct (split_at c t) as [a [r|]].
  - destruct IH as (-> & Ha & Hr). split; [done|]. split; [by apply not_elem_of_cons|done].
  - destruct IH as (-> & Ha). split; [done|]. by apply not_elem_of_cons.
Qed.

Lemma split_at_none c s : c ∉ s -> split_at c s = (s, None).
Proof.
  induction s as [|x t IH]; intros H; cbn; [done|]. apply not_elem_of_cons in H as [H1 H2].
  rewrite (proj2 (Z.eqb_neq _ _)) by congruence. by rewrite IH.
Qed.

Lemma split_at_some c a t : c ∉ a -> split_at c (a ++ c :: t) = (a, Some (c :: t)).
Proof.
  induction a as [|x a IH]; intros H; cbn; [by rewrite Z.eqb_refl|].
  apply not_elem_of_cons in H as [H1 H2]. rewrite (proj2 (Z.eqb_neq _ _)) by congruence. by rewrite IH.
Qed.

(** ** The width of a printed number *)

Lemma num_fuel_length fuel k n acc :
  0 <= n < 10 ^ Z.of_nat k -> (0 < k)%nat -> (length (num_fuel 10 fuel n acc) <= k + length acc)%nat.
Proof.
  revert k n acc. induction fuel as [|fuel IH]; intros k n acc Hn Hk; cbn [num_fuel]; [lia|].
  destruct (Z.eqb_spec (n / 10) 0) as [E|E]; [cbn; lia|].
  destruct k as [|[|k]]; [lia| |].
  { exfalso. apply E, Z.div_small. change (10 ^ Z.of_nat 1) with 10 in Hn. lia. }
  rewrite Nat2Z.inj_succ, Z.pow_succ_r in Hn by lia.
  specialize (IH (S k) (n / 10) (digit_char (n mod 10) :: acc)). cbn [length] in IH.
  assert (0 <= n / 10 < 10 ^ Z.of_nat (S k)) as Hd
    by (split; [apply Z.div_pos; lia|apply Z.div_lt_upper_bound; [lia|apply Hn]]).
  specialize (IH Hd ltac:(lia)). lia.
Qed.

Lemma dec_length k n : 0 <= n < 10 ^ Z.of_nat k -> (0 < k)%nat -> (length (dec n) <= k)%nat.
Proof. intros Hn Hk. assert (H := num_fuel_length 64 k n [] Hn Hk). cbn [length] in H. unfold dec. lia. Qed.

Lemma strtoull_nonneg base s : 0 < base -> 0 <= (strtoull base s).1.1.
Proof.
  intros Hb. unfold strtoull.
  destruct (if c0 (skip_space s) =? ch "-" then _ else _) as [neg t].
  match goal with |- context [negb ?b] => destruct b; cbn [negb]; [|cbn; lia] end.
  match goal with |- context [digits base 0 ?u] => assert (H := digits_nonneg base 0 u ltac:(lia) Hb); destruct (digits base 0 u) as [v r] end.
  cbn in H. case_bool; [cbn; unfold UINT64_MAX; lia|]. cbn. destruct neg; [|done]. apply u64_range.
Qed.

(** The string in a buffer of characters that are not NUL is all of it. *)
Lemma cstr_of_cstring s : cstring s -> cstr_of s = s.
Proof.
  intros Hs. unfold cstr_of. rewrite split_at_none; [done|]. intros Hin.
  unfold cstring in Hs. rewrite Forall_forall in Hs. apply Hs in Hin. lia.
Qed.

(** ** Hexadecimal numbers read back *)

Definition is_hex (ds : list Z) : Prop := ds <> [] /\ Forall (fun c => digit_val c < 16) ds.
Definition hex_value (ds : list Z) : Z := foldl (fun a c => a * 16 + digit_val c) 0 ds.

Lemma hexdigit_facts c : digit_val c < 16 ->
  isspace c = false /\ c <> ch "-" /\ c <> ch "+" /\ toupper c <> ch "X" /\ c <> ch "/" /\ 0 < c < 256 /\ isxdigit c = true.
Proof.
  unfold digit_val, isspace, toupper, isxdigit, isdigit, islower, isupper. change (ch "-") with 45. change (ch "+") with 43.
  change (ch "X") with 88. change (ch "/") with 47.
  repeat case_bool; b2p; intros; repeat split; try lia; try (apply orb_false_iff; split; [lia|apply andb_false_iff; lia]);
    repeat (rewrite ?orb_true_iff, ?andb_true_iff, ?Z.leb_le); lia.
Qed.

Lemma digits_hex ds rest : Forall (fun c => digit_val c < 16) ds -> has_digit 16 rest = false ->
  digits 16 0 (ds ++ rest) = (hex_value ds, rest).
Proof. intros F R. by rewrite digits_app. Qed.

Lemma strtoull_hex ds rest :
  is_hex ds -> hex_value ds <= UINT64_MAX -> has_digit 16 rest = false -> toupper (c0 rest) <> ch "X" ->
  strtoull 16 (ds ++ rest) = (hex_value ds, rest, false).
Proof.
  intros [N F] V R X. destruct ds as [|d ds]; [done|]. pose proof F as F'. apply Forall_cons in F' as [Fd Fs].
  pose proof (hexdigit_facts d Fd) as (S & M & P & _). unfold strtoull.
  cbn [app skip_space]. rewrite S. cbn [c0]. rewrite (proj2 (Z.eqb_neq _ _) M), (proj2 (Z.eqb_neq _ _) P).
  replace (toupper (cn (d :: ds ++ rest) 1) =? ch "X") with false.
  2: { symmetry. apply Z.eqb_neq. unfold cn. change (drop 1 (d :: ds ++ rest)) with (ds ++ rest).
       destruct ds as [|e ds]; [done|]. cbn [app c0]. apply Forall_cons in Fs as [Fe _]. by apply hexdigit_facts. }
  rewrite andb_false_r. cbn [andb has_digit]. rewrite (proj2 (Z.ltb_lt _ _) Fd). cbn [negb].
  rewrite app_comm_cons, digits_hex by done. destruct (Z.ltb_spec UINT64_MAX (hex_value (d :: ds))); [lia|done].
Qed.

Lemma strtoull_0x ds rest :
  is_hex ds -> hex_value ds <= UINT64_MAX -> has_digit 16 rest = false ->
  strtoull 16 (str "0x" ++ ds ++ rest) = (hex_value ds, rest, false).
Proof.
  intros [N F] V R. destruct ds as [|d ds]; [done|]. pose proof F as F'. apply Forall_cons in F' as [Fd Fs].
  assert (E : strtoull 16 (str "0x" ++ (d :: ds) ++ rest)
    = if negb (has_digit 16 (if has_digit 16 ((d :: ds) ++ rest) then (d :: ds) ++ rest else str "0x" ++ (d :: ds) ++ rest))
      then (0, str "0x" ++ (d :: ds) ++ rest, false) else
      let '(v, r) := digits 16 0 (if has_digit 16 ((d :: ds) ++ rest) then (d :: ds) ++ rest else str "0x" ++ (d :: ds) ++ rest) in
      if UINT64_MAX <? v then (UINT64_MAX, r, true) else (v, r, false)) by reflexivity.
  rewrite E. cbn [app has_digit]. rewrite (proj2 (Z.ltb_lt _ _) Fd). cbn [has_digit]. rewrite (proj2 (Z.ltb_lt _ _) Fd). cbn [negb].
  rewrite app_comm_cons, digits_hex by done. destruct (Z.ltb_spec UINT64_MAX (hex_value (d :: ds))); [lia|done].
Qed.

Lemma hex_is_hex n : is_u64 n -> is_hex (hex n) /\ hex_value (hex n) = n.
Proof.
  intros H. destruct (num_fuel_spec 16 64 n [] ltac:(lia)) as (d & ds & E & F & V);
    [unfold is_u64 in H; change (16 ^ Z.of_nat 64) with (16 ^ 64); lia|lia|].
  unfold hex. rewrite E, app_nil_r. split; [split; [done|]|unfold hex_value; by rewrite V].
  eapply Forall_impl; [exact F|]. cbn. tauto.
Qed.

Lemma hexpad_is_hex w n : is_u64 n -> is_hex (hexpad w n) /\ hex_value (hexpad w n) = n.
Proof.
  intros H. destruct (hex_is_hex n H) as [[N F] V]. unfold hexpad. split; [split|].
  - destruct (replicate _ _); [done|done].
  - apply Forall_app. split; [|done]. apply Forall_replicate. vm_compute. done.
  - unfold hex_value in *. rewrite foldl_app.
    replace (foldl _ 0 (replicate (w - length (hex n)) (ch "0"))) with 0; [done|].
    induction (w - length (hex n))%nat as [|k IH]; [done|]. cbn [replicate foldl]. exact IH.
Qed.
