(* ===== verification/Parse.v ===== *)
(** * lib/parse.c: sizes, durations, CPU lists and word lists

    [struct cpulist] and [struct strlist] are the list of their first
    [count] entries; the local [cap] of the growing loops is kept, since a
    failed [realloc] is the only failure of a push. *)

From S2P Require Import Prelude Cstr.


Definition cpulist : Type := list Z.
Definition strlist : Type := list (list Z).

Definition parse_u64_prefix (s : list Z) : result (Z * list Z) :=
  if negb (isdigit (c0 s)) then Err EINVAL else
  let '(v, e, range) := strtoull 10 s in
  if range then Err ERANGE else Ok (v, e).

Definition parse_size (s : list Z) : result Z :=
  let? (v, unit_) := parse_u64_prefix s in
  let c := toupper (c0 unit_) in
  let? shift := (if c =? 0 then Ok 0
                 else if c =? ch "K" then Ok 10
                 else if c =? ch "M" then Ok 20
                 else if c =? ch "G" then Ok 30
                 else if c =? ch "T" then Ok 40
                 else Err EINVAL) in
  let unit_ := if shift =? 0 then unit_
               else let unit_ := drop 1 unit_ in
                    if toupper (c0 unit_) =? ch "B" then drop 1 unit_ else unit_ in
  if negb (c0 unit_ =? 0) then Err EINVAL
  else if negb (shift =? 0) && (Z.shiftr UINT64_MAX shift <? v) then Err ERANGE
  else Ok (u64 (Z.shiftl v shift)).

Definition parse_duration_ms (s : list Z) : result Z :=
  let? (v, unit_) := parse_u64_prefix s in
  let? scale := (if streq unit_ [] || streq unit_ (str "ms") then Ok 1
                 else if streq unit_ (str "s") then Ok 1000
                 else if streq unit_ (str "m") then Ok (60 * 1000)
                 else Err EINVAL) in
  if UINT64_MAX / scale <? v then Err ERANGE else Ok (u64 (v * scale)).

(** [qsort] with [cmp_u64]: ascending order. *)
Definition sort_ids (l : list Z) : list Z := merge_sort Z.le l.

(** [if (n == 0 || l->ids[n - 1] != l->ids[i]) l->ids[n++] = l->ids[i];]:
    the kept entries so far and the one read next. *)
Definition normalize_keep (kept : list Z) (x : Z) : list Z :=
  if match last kept with None => true | Some y => negb (y =? x) end then kept ++ [x] else kept.

Definition cpulist_normalize (l : cpulist) : cpulist := foldl normalize_keep [] (sort_ids l).

Definition cpulist_has (l : cpulist) (id : Z) : bool := existsb (fun x => x =? id) l.

Section Lists.
Context `{Alloc}.

(** The list and the capacity of its array. *)
Definition cpulist_push (l : cpulist) (cap : Z) (id : Z) : result (cpulist * Z) :=
  if Z.of_nat (length l) =? cap then
    let n := if cap =? 0 then 16 else cap * 2 in
    if alloc (n * 8) then Ok (l ++ [id], n) else Err ENOMEM
  else Ok (l ++ [id], cap).

(** [for (id = lo; ; id++) { push; if (id == hi) break; }]: [n] more
    after this one. *)
Fixpoint push_range (n : nat) (l : cpulist) (cap : Z) (id : Z) : result (cpulist * Z) :=
  let? (l, cap) := cpulist_push l cap id in
  match n with
  | O => Ok (l, cap)
  | S n => push_range n l cap (u64 (id + 1))
  end.

(** One item of the list: [lo], [hi] and what follows it. *)
Definition cpulist_item (s : list Z) : result (Z * Z * list Z) :=
  let? (lo, e) := parse_u64_prefix s in
  if c0 e =? ch "-" then
    let? (hi, e) := parse_u64_prefix (drop 1 e) in
    if hi <? lo then Err EINVAL else Ok (lo, hi, e)
  else Ok (lo, lo, e).

(** The [while (s[0])] loop; each turn reads at least a digit. *)
Fixpoint cpulist_loop (fuel : nat) (s : list Z) (l : cpulist) (cap : Z) : result cpulist :=
  match fuel, s with
  | O, _ | _, [] => Ok l
  | S fuel, _ =>
      let? (lo, hi, e) := cpulist_item s in
      let? (l, cap) := push_range (Z.to_nat (hi - lo)) l cap lo in
      if c0 e =? ch "," then cpulist_loop fuel (drop 1 e) l cap
      else if negb (c0 e =? 0) then Err EINVAL
      else cpulist_loop fuel e l cap
  end.

Definition parse_cpulist (s : list Z) : result cpulist :=
  match s with
  | [] => Err EINVAL
  | _ => let? l := cpulist_loop (length s) s [] 0 in Ok (cpulist_normalize l)
  end.

(** One word of [parse_strlist]: the word and what follows it. *)
Definition strlist_word (p : list Z) : list Z * list Z :=
  let start := skip_space p in
  let '(word, rest) := split_at (ch ",") start in
  (drop_space_end word, default [] rest).

Fixpoint strlist_loop (fuel : nat) (p : list Z) (items : strlist) (cap : Z) : result strlist :=
  match fuel, p with
  | O, _ | _, [] => Ok items
  | S fuel, _ =>
      let '(item, p) := strlist_word p in
      if bool_decide (item = []) then Err EINVAL else
      let full := Z.of_nat (length items) =? cap in
      let n := if cap =? 0 then 4 else cap * 2 in
      if full && negb (alloc (n * 8)) then Err EINVAL
      else if negb (alloc (Z.of_nat (length item) + 1)) then Err EINVAL
      else strlist_loop fuel (if c0 p =? ch "," then drop 1 p else p) (items ++ [item])
             (if full then n else cap)
  end.

Definition parse_strlist (s : list Z) : result strlist :=
  match s with [] => Err EINVAL | _ => strlist_loop (length s) s [] 0 end.

End Lists.

(** ** Sizes and durations *)

(** A decimal prefix that fits 64 bits, and what follows it. *)
Lemma parse_u64_prefix_ok s v e :
  parse_u64_prefix s = Ok (v, e) <->
  exists ds, s = ds ++ e /\ all_digits ds /\ isdigit (c0 e) = false
             /\ v = dec_value ds /\ v < two64.
Proof.
  unfold parse_u64_prefix. split.
  - destruct (isdigit (c0 s)) eqn:D; [|done]. cbn [negb]. rewrite strtoull_digit by done.
    destruct (digits_split s) as (ds & E & F & V & Dr & Hn).
    destruct (digits 10 0 s) as [v' e']. cbn in *.
    destruct (Z.ltb_spec UINT64_MAX v'); [done|]. intros [= <- <-].
    exists ds. unfold all_digits, UINT64_MAX in *. repeat split; auto; lia.
  - intros (ds & -> & [Hn F] & D & -> & Hv).
    assert (isdigit (c0 (ds ++ e)) = true) as Hd
      by (rewrite c0_app_nil by done; destruct F; done).
    rewrite Hd. cbn [negb]. rewrite strtoull_digit, digits_of_app by done.
    destruct (Z.ltb_spec UINT64_MAX (dec_value ds)) as [L|L]; [unfold UINT64_MAX in L; lia|done].
Qed.

(** The unit suffixes of a size: none, or a letter and an optional B, in
    either case. *)
Inductive size_unit : list Z -> Z -> Prop :=
| unit_none : size_unit [] 0
| unit_letter c k u :
    (toupper c, k) ∈ [(ch "K", 10); (ch "M", 20); (ch "G", 30); (ch "T", 40)] ->
    u = [] \/ (exists b, u = [b] /\ toupper b = ch "B") ->
    size_unit (c :: u) k.

Lemma size_fits v k :
  0 <= v -> k ∈ [0; 10; 20; 30; 40] -> v < two64 ->
  negb (k =? 0) && (Z.shiftr UINT64_MAX k <? v) = false <-> v * 2 ^ k < two64.
Proof.
  intros Hv Hk. assert (k = 0 \/ k = 10 \/ k = 20 \/ k = 30 \/ k = 40) as D
    by (repeat (apply elem_of_cons in Hk as [->|Hk]; [lia|]); by apply not_elem_of_nil in Hk).
  destruct D as [->|[->|[->|[->| ->]]]];
    match goal with |- context [2 ^ ?k] => let z := eval vm_compute in (2 ^ k) in
      let w := eval vm_compute in (Z.shiftr UINT64_MAX k) in
      change (2 ^ k) with z; change (Z.shiftr UINT64_MAX k) with w end;
    cbn [negb andb Z.eqb]; [lia|..]; rewrite Z.ltb_ge; lia.
Qed.

Lemma dec_value_nonneg ds : Forall (fun c => isdigit c = true) ds -> 0 <= dec_value ds.
Proof.
  unfold dec_value. intros F. enough (forall a, 0 <= a -> 0 <= foldl (fun a c => a * 10 + digit_val c) a ds)
    by (apply H; lia).
  induction F as [|c ds Hc F IH]; intros a Ha; simpl; [done|]. apply IH.
  unfold digit_val. rewrite Hc. unfold isdigit in Hc. b2p. lia.
Qed.

Lemma units_cases a k :
  (a, k) ∈ [(ch "K", 10); (ch "M", 20); (ch "G", 30); (ch "T", 40)] ->
  a = 75 /\ k = 10 \/ a = 77 /\ k = 20 \/ a = 71 /\ k = 30 \/ a = 84 /\ k = 40.
Proof.
  rewrite !elem_of_cons, elem_of_nil. change (ch "K") with 75. change (ch "M") with 77.
  change (ch "G") with 71. change (ch "T") with 84. intros [H|[H|[H|[H|[]]]]]; simplify_eq; lia.
Qed.

Lemma size_unit_c0 u k : size_unit u k -> isdigit (c0 u) = false.
Proof.
  destruct 1 as [|c k u Hc _]; [done|]. simpl. apply units_cases in Hc.
  unfold toupper, islower, isdigit in *. repeat case_bool; b2p; lia.
Qed.

Lemma unit_shift_cases s k :
  (if s =? 0 then Ok 0 else if s =? ch "K" then Ok 10 else if s =? ch "M" then Ok 20
   else if s =? ch "G" then Ok 30 else if s =? ch "T" then Ok 40 else Err EINVAL) = Ok k ->
  s = 0 /\ k = 0 \/ (s, k) ∈ [(ch "K", 10); (ch "M", 20); (ch "G", 30); (ch "T", 40)].
Proof. repeat case_bool; b2p; intros [= <-]; subst; set_solver. Qed.

Lemma toupper_0 c : 0 < c -> toupper c <> 0.
Proof. unfold toupper, islower. case_bool; b2p; lia. Qed.

Lemma c0_pos s : cstring s -> c0 s <> 0 -> exists c t, s = c :: t /\ 0 < c /\ cstring t.
Proof. destruct 1 as [|c t Hc Ht]; [done|]. exists c, t. split; [done|]. split; [lia|done]. Qed.

Lemma toupper_c0_0 s : cstring s -> toupper (c0 s) = 0 -> s = [].
Proof. destruct 1 as [|c t Hc Ht]; [done|]. simpl. intros H. by apply toupper_0 in H; [|lia]. Qed.

(** The unit accepted by [parse_size] after the digits. *)
Lemma parse_unit_ok e k :
  cstring e -> 
  (toupper (c0 e) = 0 /\ k = 0 \/ (toupper (c0 e), k) ∈ [(ch "K", 10); (ch "M", 20); (ch "G", 30); (ch "T", 40)]) ->
  (c0 (if k =? 0 then e else if toupper (c0 (drop 1 e)) =? ch "B" then drop 1 (drop 1 e) else drop 1 e) =? 0) = true <->
  size_unit e k.
Proof.
  intros He [[H0 ->]|Hk].
  - apply toupper_c0_0 in H0 as ->; [|done]. cbn. split; [constructor|done].
  - destruct (Z.eqb_spec k 0) as [->|_].
    { apply units_cases in Hk. lia. }
    destruct He as [|c t Hc Ht].
    { apply units_cases in Hk. cbn in Hk. lia. }
    change (drop 1 (c :: t)) with t. cbn [c0] in Hk. rewrite Z.eqb_eq. split.
    + destruct (Z.eqb_spec (toupper (c0 t)) (ch "B")) as [B|B]; intros H; (apply unit_letter; [done|]).
      * destruct Ht as [|b t' Hb Ht]; [done|]. right. exists b. split; [|done].
        by rewrite (c0_nil t' Ht H).
      * left. by apply c0_nil in H.
    + intros H. inversion H as [|c' k' u Hl Hu]; subst. destruct Hu as [->|(b & -> & B)]; cbn; [done|].
      by rewrite B.
Qed.

Lemma size_unit_shift u k : cstring u -> size_unit u k ->
  (if toupper (c0 u) =? 0 then Ok 0 else if toupper (c0 u) =? ch "K" then Ok 10
   else if toupper (c0 u) =? ch "M" then Ok 20 else if toupper (c0 u) =? ch "G" then Ok 30
   else if toupper (c0 u) =? ch "T" then Ok 40 else Err EINVAL) = Ok k.
Proof.
  intros Hc. destruct 1 as [|c k u Hl _]; [done|]. cbn [c0].
  apply units_cases in Hl as [[-> ->]|[[-> ->]|[[-> ->]|[-> ->]]]]; done.
Qed.

Lemma size_unit_values u k : size_unit u k -> k ∈ [0; 10; 20; 30; 40].
Proof.
  destruct 1 as [|c k u Hl _]; [set_solver|].
  apply units_cases in Hl as [[_ ->]|[[_ ->]|[[_ ->]|[_ ->]]]]; set_solver.
Qed.

(** [parse_size] accepts exactly a run of decimal digits followed by an
    optional K, M, G or T in either case with an optional B, and nothing
    else, provided the scaled value fits in 64 bits; the number of bytes it
    stores is the scaled value. *)
Theorem parse_size_iff s v : cstring s ->
  parse_size s = Ok v <->
  exists ds u k, s = ds ++ u /\ all_digits ds /\ size_unit u k
                 /\ v = dec_value ds * 2 ^ k /\ v < two64.
Proof.
  intros Hs. unfold parse_size. split.
  - destruct (parse_u64_prefix s) as [[n e]|] eqn:E; [|done].
    apply parse_u64_prefix_ok in E as (ds & -> & Hd & Hr & -> & Hlt).
    apply cstring_app in Hs as [_ He].
    match goal with |- context [if toupper (c0 e) =? 0 then Ok 0 else ?x] =>
      destruct (if toupper (c0 e) =? 0 then Ok 0 else x) as [k|] eqn:Ek; [|done] end.
    apply unit_shift_cases in Ek. cbv zeta.
    destruct (c0 _ =? 0) eqn:Eu; cbn [negb]; [|done].
    apply parse_unit_ok in Eu; [|done..].
    destruct (negb (k =? 0) && _) eqn:Ef; [done|]. intros [= <-].
    destruct Hd as [Hn F]. assert (Hp := dec_value_nonneg ds F).
    apply size_fits in Ef; [|done|by eapply size_unit_values|done].
    assert (0 <= 2 ^ k) by (apply Z.pow_nonneg; lia).
    assert (0 <= k) as Hk by (apply size_unit_values in Eu; set_unfold; lia).
    rewrite Z.shiftl_mul_pow2, u64_small by nia. exists ds, e, k. done.
  - intros (ds & u & k & -> & Hd & Hu & -> & Hlt). apply cstring_app in Hs as [_ Hcu].
    destruct Hd as [Hn F]. assert (Hp := dec_value_nonneg ds F).
    assert (Hk := size_unit_values _ _ Hu).
    assert (0 <= k) as Hk0 by (set_unfold; lia).
    assert (1 <= 2 ^ k) by (assert (0 < 2 ^ k) by (apply Z.pow_pos_nonneg; lia); lia).
    rewrite (proj2 (parse_u64_prefix_ok (ds ++ u) (dec_value ds) u)); [|exists ds].
    2:{ split; [done|]. split; [done|]. split; [by eapply size_unit_c0|]. split; [done|nia]. }
    rewrite (size_unit_shift u k) by done. cbv zeta.
    rewrite (proj2 (parse_unit_ok u k Hcu (unit_shift_cases _ _ (size_unit_shift u k Hcu Hu))) Hu). cbn [negb].
    rewrite (proj2 (size_fits _ _ Hp Hk ltac:(nia)) Hlt).
    rewrite Z.shiftl_mul_pow2, u64_small by nia. done.
Qed.

Lemma parse_size_iff_witness :
  cstring (str "16Gb") /\ (parse_size (str "16Gb") = Ok 17179869184 <->
    exists ds u k, str "16Gb" = ds ++ u /\ all_digits ds /\ size_unit u k
                   /\ 17179869184 = dec_value ds * 2 ^ k /\ 17179869184 < two64)
  /\ parse_size (str "16Gb") = Ok 17179869184.
Proof.
  assert (cstring (str "16Gb")) as Hs by (repeat constructor; cbn; lia).
  split; [exact Hs|]. split; [exact (parse_size_iff _ _ Hs)|vm_compute; reflexivity].
Defined.

(** The unit suffixes of a duration, with their milliseconds. *)
Inductive duration_unit : list Z -> Z -> Prop :=
| dur_none : duration_unit [] 1
| dur_ms : duration_unit (str "ms") 1
| dur_s : duration_unit (str "s") 1000
| dur_m : duration_unit (str "m") 60000.

Lemma duration_unit_iff e k :
  (if streq e [] || streq e (str "ms") then Ok 1
   else if streq e (str "s") then Ok 1000
   else if streq e (str "m") then Ok (60 * 1000) else Err EINVAL) = Ok k <-> duration_unit e k.
Proof.
  unfold streq. split.
  - repeat case_bool; intros [= <-];
      repeat match goal with
        | H : _ || _ = true |- _ => apply orb_prop in H as [H|H]
        | H : bool_decide _ = true |- _ => apply bool_decide_eq_true in H; subst
        end; constructor.
  - by destruct 1.
Qed.

(** [parse_duration_ms] accepts exactly decimal digits followed by
    nothing, [ms], [s] or [m], provided the number of milliseconds fits in
    64 bits, and stores that number; the overflow test never rejects a
    duration that fits and never lets one wrap. *)
Theorem parse_duration_ms_iff s v :
  parse_duration_ms s = Ok v <->
  exists ds u k, s = ds ++ u /\ all_digits ds /\ duration_unit u k
                 /\ v = dec_value ds * k /\ v < two64.
Proof.
  assert (Hfit : forall n e k, 0 <= n -> duration_unit e k ->
            (UINT64_MAX / k <? n) = false <-> n * k < two64).
  { intros n e k Hn Hk. unfold UINT64_MAX. rewrite Z.ltb_ge.
    destruct Hk; rewrite ?Z.div_1_r; [lia|lia|change ((two64 - 1) / 1000) with 18446744073709551
                         |change ((two64 - 1) / 60000) with 307445734561825]; lia. }
  unfold parse_duration_ms. split.
  - destruct (parse_u64_prefix s) as [[n e]|] eqn:E; [|done].
    apply parse_u64_prefix_ok in E as (ds & -> & Hd & _ & -> & _).
    match goal with |- context [match ?x with Ok _ => _ | Err _ => _ end] =>
      destruct x as [k|] eqn:Ek; [|done] end.
    apply duration_unit_iff in Ek. case_bool; [done|]. intros [= <-].
    assert (Hp := dec_value_nonneg ds (proj2 Hd)). apply (Hfit _ _ _ Hp Ek) in Heqb.
    exists ds, e, k. rewrite u64_small; [done|]. destruct Ek; lia.
  - intros (ds & u & k & -> & Hd & Hu & -> & Hlt).
    assert (Hp := dec_value_nonneg ds (proj2 Hd)).
    rewrite (proj2 (parse_u64_prefix_ok (ds ++ u) (dec_value ds) u)).
    2:{ exists ds. repeat split; try apply Hd; destruct Hu; (done || lia). }
    rewrite (proj2 (duration_unit_iff u k) Hu), (proj2 (Hfit _ _ _ Hp Hu) Hlt).
    rewrite u64_small; [done|]. destruct Hu; lia.
Qed.

(** ** CPU lists *)

Lemma normalize_fold kept l :
  StronglySorted Z.lt kept -> StronglySorted Z.le l ->
  (forall x y, x ∈ kept -> y ∈ l -> x <= y) ->
  StronglySorted Z.lt (foldl normalize_keep kept l)
  /\ forall x, x ∈ foldl normalize_keep kept l <-> x ∈ kept \/ x ∈ l.
Proof.
  intros Hk Hl. revert kept Hk. induction Hl as [|y l Hl IH Hy]; intros kept Hk Hb.
  { split; [done|]. set_solver. }
  assert (Hyl : forall z, z ∈ l -> y <= z) by (intros z; by apply Forall_forall).
  assert (Hb' : forall x z, x ∈ kept -> z ∈ l -> x <= z) by (intros; apply Hb; [done|by right]).
  cbn [foldl]. unfold normalize_keep at 2 4. destruct (last kept) as [w|] eqn:Ew.
  - apply last_Some in Ew as [k' ->]. destruct (Z.eqb_spec w y) as [->|Hne]; cbn [negb].
    { destruct (IH _ Hk Hb') as [S1 S2]. split; [done|].
      intros x. rewrite S2, !elem_of_app, !elem_of_cons, elem_of_nil. tauto. }
    apply StronglySorted_app in Hk as Hs. destruct Hs as (S1 & _ & _).
    assert (Hlt : forall x, x ∈ k' ++ [w] -> x < y).
    { assert (w < y) by (enough (w <= y) by lia; apply Hb; [apply elem_of_app; right|]; by left).
      intros x [Hx|Hx%list_elem_of_singleton]%elem_of_app; [|by subst].
      specialize (S1 x w Hx (list_elem_of_here _ _)). lia. }
    destruct (IH ((k' ++ [w]) ++ [y])) as [S3 S4].
    { apply StronglySorted_app. split_and!; [|done|by repeat constructor].
      intros x z Hx Hz%list_elem_of_singleton. subst. by apply Hlt. }
    { intros x z [Hx|Hx%list_elem_of_singleton]%elem_of_app Hz; [by apply Hb'|subst; by apply Hyl]. }
    split; [done|]. intros x. rewrite S4, !elem_of_app, !elem_of_cons, elem_of_nil. tauto.
  - apply last_None in Ew as ->. cbn. destruct (IH [y]) as [S1 S2]; [by repeat constructor|set_solver|].
    split; [done|]. intros x. rewrite S2. set_solver.
Qed.

Lemma cpulist_normalize_ok l :
  StronglySorted Z.lt (cpulist_normalize l) /\ forall x, x ∈ cpulist_normalize l <-> x ∈ l.
Proof.
  destruct (normalize_fold [] (sort_ids l)) as [S1 S2]; [constructor| |set_solver|].
  { apply (StronglySorted_merge_sort Z.le). }
  split; [done|]. intros x. rewrite S2. unfold sort_ids. rewrite merge_sort_Permutation. set_solver.
Qed.

(** A strictly ascending list is determined by its elements. *)
Lemma strictly_sorted_unique (l1 l2 : list Z) :
  StronglySorted Z.lt l1 -> StronglySorted Z.lt l2 -> (forall x, x ∈ l1 <-> x ∈ l2) -> l1 = l2.
Proof.
  intros H1. revert l2. induction H1 as [|a l1 H1 IH Ha]; intros l2 H2 E.
  { destruct l2 as [|b l2]; [done|]. set_solver. }
  destruct H2 as [|b l2 H2 Hb]; [set_solver|].
  rewrite Forall_forall in Ha, Hb.
  assert (a = b) as ->.
  { assert (a ∈ b :: l2) as Ea by (apply E; set_solver).
    assert (b ∈ a :: l1) as Eb by (apply E; set_solver).
    apply elem_of_cons in Ea as [?|Ea%Hb]; [done|]. apply elem_of_cons in Eb as [?|Eb%Ha]; [done|]. lia. }
  f_equal. apply IH; [done|]. intros x. specialize (E x). rewrite !elem_of_cons in E.
  split; intros Hx.
  - destruct (proj1 E (or_intror Hx)) as [->|]; [|done]. apply Ha in Hx. lia.
  - destruct (proj2 E (or_intror Hx)) as [->|]; [|done]. apply Hb in Hx. lia.
Qed.

(** The text of one item, [N] or [N-M], with the bounds it denotes. *)
Inductive cpu_item : list Z -> Z -> Z -> Prop :=
| item_one ds : all_digits ds -> dec_value ds < two64 -> cpu_item ds (dec_value ds) (dec_value ds)
| item_range ds1 ds2 :
    all_digits ds1 -> all_digits ds2 -> dec_value ds1 <= dec_value ds2 -> dec_value ds2 < two64 ->
    cpu_item (ds1 ++ ch "-" :: ds2) (dec_value ds1) (dec_value ds2).

(** The text of a list: items separated by commas, the last of which may
    be followed by one. *)
Inductive cpu_text : list Z -> list (Z * Z) -> Prop :=
| text_last t lo hi : cpu_item t lo hi -> cpu_text t [(lo, hi)]
| text_comma t lo hi : cpu_item t lo hi -> cpu_text (t ++ str ",") [(lo, hi)]
| text_more t lo hi rest items :
    cpu_item t lo hi -> cpu_text rest items -> cpu_text (t ++ ch "," :: rest) ((lo, hi) :: items).

Definition expand (p : Z * Z) : list Z := seqZ p.1 (p.2 - p.1 + 1).

Lemma cpu_item_bounds t lo hi : cpu_item t lo hi -> 0 <= lo <= hi /\ hi < two64 /\ t <> [].
Proof.
  destruct 1 as [ds [H1 H2] H|ds1 ds2 [H1 H2] [H3 H4] H5 H6];
    assert (Hp := dec_value_nonneg _ H2); split_and!; try lia; try done. by destruct ds1.
Qed.

Lemma parse_prefix_text ds e :
  all_digits ds -> dec_value ds < two64 -> isdigit (c0 e) = false ->
  parse_u64_prefix (ds ++ e) = Ok (dec_value ds, e).
Proof. intros. apply parse_u64_prefix_ok. exists ds. split_and!; done. Qed.

Lemma cpulist_item_sound s lo hi e :
  cpulist_item s = Ok (lo, hi, e) -> exists t, s = t ++ e /\ cpu_item t lo hi.
Proof.
  unfold cpulist_item. destruct (parse_u64_prefix s) as [[n r]|] eqn:E; [|done].
  apply parse_u64_prefix_ok in E as (ds & -> & Hd & _ & -> & Hlt).
  destruct (Z.eqb_spec (c0 r) (ch "-")) as [Hr|Hr].
  - destruct r as [|c r]; [done|]. cbn in Hr. subst c. change (drop 1 (ch "-" :: r)) with r.
    destruct (parse_u64_prefix r) as [[n r']|] eqn:E; [|done].
    apply parse_u64_prefix_ok in E as (ds2 & -> & Hd2 & _ & -> & Hlt2).
    destruct (Z.ltb_spec (dec_value ds2) (dec_value ds)); [done|]. intros [= <- <- <-].
    exists (ds ++ ch "-" :: ds2). split; [by rewrite <- app_assoc|]. by apply item_range.
  - intros [= <- <- <-]. exists ds. split; [done|]. by apply item_one.
Qed.

Lemma cpulist_item_complete t lo hi e :
  cpu_item t lo hi -> e = [] \/ c0 e = ch "," -> cpulist_item (t ++ e) = Ok (lo, hi, e).
Proof.
  intros Ht He. assert (isdigit (c0 e) = false /\ (c0 e =? ch "-") = false) as [H1 H2]
    by (destruct He as [->|He]; [done|by rewrite He]).
  unfold cpulist_item. destruct Ht as [ds Hd Hlt|ds1 ds2 Hd1 Hd2 Hle Hlt].
  - rewrite parse_prefix_text by done. by rewrite H2.
  - rewrite <- app_assoc, <- app_comm_cons, parse_prefix_text by (done || lia). cbn [c0].
    rewrite Z.eqb_refl. change (drop 1 (ch "-" :: ds2 ++ e)) with (ds2 ++ e).
    rewrite parse_prefix_text by done. by rewrite (proj2 (Z.ltb_ge _ _)).
Qed.

Section CpuLists.
Context `{AllocOk}.

Lemma cpulist_push_ok l cap id : exists cap', cpulist_push l cap id = Ok (l ++ [id], cap').
Proof. unfold cpulist_push. rewrite alloc_ok. repeat case_bool; eauto. Qed.

Lemma push_range_ok n l cap id :
  0 <= id -> id + Z.of_nat n < two64 ->
  exists cap', push_range n l cap id = Ok (l ++ seqZ id (Z.of_nat n + 1), cap').
Proof.
  revert l cap id. induction n as [|n IH]; intros l cap id Hid Hn; cbn [push_range];
    destruct (cpulist_push_ok l cap id) as [c1 ->].
  - exists c1. by rewrite (seqZ_cons id) by lia.
  - rewrite u64_small by lia. destruct (IH (l ++ [id]) c1 (id + 1)) as [c2 ->]; [lia..|].
    exists c2. rewrite <- app_assoc, (seqZ_cons id (Z.of_nat (S n) + 1)) by lia.
    replace (Z.pred (Z.of_nat (S n) + 1)) with (Z.of_nat n + 1) by lia. done.
Qed.

Lemma push_item_ok l cap t lo hi :
  cpu_item t lo hi -> exists cap', push_range (Z.to_nat (hi - lo)) l cap lo = Ok (l ++ expand (lo, hi), cap').
Proof.
  intros Ht. apply cpu_item_bounds in Ht. destruct (push_range_ok (Z.to_nat (hi - lo)) l cap lo) as [c E]; [lia..|].
  exists c. rewrite E. unfold expand. by rewrite Z2Nat.id by lia.
Qed.

Lemma cpulist_loop_sound fuel s l cap r :
  cstring s -> s <> [] -> (length s <= fuel)%nat -> cpulist_loop fuel s l cap = Ok r ->
  exists items, cpu_text s items /\ r = l ++ concat (map expand items).
Proof.
  revert s l cap. induction fuel as [|fuel IH]; intros s l cap Hs Hne Hf; [destruct s; [done|simpl in Hf; lia]|].
  destruct s as [|c s]; [done|]. cbn [cpulist_loop].
  destruct (cpulist_item (c :: s)) as [[[lo hi] e]|] eqn:E; [|done].
  apply cpulist_item_sound in E as (t & E & Ht). destruct (push_item_ok l cap t lo hi Ht) as [c1 ->].
  assert (Hb := cpu_item_bounds _ _ _ Ht). rewrite E in *. apply cstring_app in Hs as [_ He].
  assert (length e <= fuel)%nat as Hle
    by (destruct t as [|c' t]; [tauto|]; cbn in Hf; rewrite length_app in Hf; lia).
  destruct (Z.eqb_spec (c0 e) (ch ",")) as [Ec|Ec].
  - destruct e as [|x e]; [done|]. cbn in Ec. subst x. change (drop 1 (ch "," :: e)) with e.
    destruct e as [|x e].
    { exists [(lo, hi)]. split; [by apply text_comma|]. destruct fuel; cbn in *; simplify_eq; by rewrite app_nil_r. }
    intros Hr. apply IH in Hr as (items & Hi & ->); [|by inversion He|done|cbn in *; lia].
    exists ((lo, hi) :: items). split; [by apply text_more|]. cbn. by rewrite <- app_assoc.
  - destruct (Z.eqb_spec (c0 e) 0) as [Ez|Ez]; [|done]. cbn [negb]. apply c0_nil in Ez as ->; [|done].
    intros Hr. exists [(lo, hi)]. rewrite app_nil_r. split; [by constructor|]. destruct fuel; cbn in *; simplify_eq; by rewrite app_nil_r.
Qed.

Lemma cpulist_loop_complete fuel s items l cap :
  cpu_text s items -> (length s <= fuel)%nat ->
  cpulist_loop fuel s l cap = Ok (l ++ concat (map expand items)).
Proof.
  intros Ht. revert fuel l cap.
  assert (Hstep : forall t lo hi e fuel l cap, cpu_item t lo hi -> e = [] \/ c0 e = ch "," ->
    (length (t ++ e) <= fuel)%nat -> exists fuel' cap', (length e <= fuel')%nat /\
    cpulist_loop fuel (t ++ e) l cap =
      cpulist_loop fuel' (if c0 e =? ch "," then drop 1 e else e) (l ++ expand (lo, hi)) cap').
  { intros t lo hi e fuel l cap Hi He Hf. destruct (cpu_item_bounds _ _ _ Hi) as (_ & _ & Hne).
    rewrite length_app in Hf. destruct t as [|c t]; [done|]. cbn in Hf. destruct fuel as [|fuel]; [lia|].
    destruct (push_item_ok l cap _ lo hi Hi) as [cap' Ep]. exists fuel, cap'. split; [lia|].
    cbn [cpulist_loop app]. rewrite app_comm_cons, (cpulist_item_complete _ lo hi) by done. rewrite Ep.
    destruct He as [->|He]; [done|]. by rewrite He. }
  induction Ht as [t lo hi Hi|t lo hi Hi|t lo hi rest items Hi Hr IH]; intros fuel l cap Hf.
  - destruct (Hstep t lo hi [] fuel l cap) as (f' & c' & _ & E); rewrite ?app_nil_r in *; auto.
    rewrite E. destruct f'; cbn; by rewrite app_nil_r.
  - destruct (Hstep t lo hi (str ",") fuel l cap) as (f' & c' & _ & E); auto.
    rewrite E. destruct f'; cbn; by rewrite app_nil_r.
  - destruct (Hstep t lo hi (ch "," :: rest) fuel l cap) as (f' & c' & Hl & E); auto.
    rewrite E. cbn [c0]. rewrite Z.eqb_refl. change (drop 1 (ch "," :: rest)) with rest.
    rewrite IH by (cbn in Hl; lia). cbn. by rewrite <- app_assoc.
Qed.

Lemma in_expand x items : x ∈ concat (map expand items) <-> Exists (fun p => p.1 <= x <= p.2) items.
Proof.
  induction items as [|p items IH]; cbn; [by rewrite elem_of_nil, Exists_nil|].
  rewrite elem_of_app, IH, Exists_cons. unfold expand. rewrite elem_of_seqZ.
  split; (intros [?|?]; [left; lia|by right]).
Qed.

Lemma cpulist_text_iff s l : cstring s ->
  parse_cpulist s = Ok l <->
  exists items, cpu_text s items /\ StronglySorted Z.lt l
    /\ forall x, x ∈ l <-> Exists (fun p => p.1 <= x <= p.2) items.
Proof.
  intros Hs. unfold parse_cpulist. destruct s as [|c s]; [split; [done|]|].
  { intros (items & Ht & _). inversion Ht; subst; try by destruct t.
    all: match goal with H : cpu_item [] _ _ |- _ => by apply cpu_item_bounds in H as (_ & _ & []) end. }
  split.
  - destruct (cpulist_loop _ _ _ _) as [r|] eqn:E; [|done]. intros [= <-].
    apply cpulist_loop_sound in E as (items & Ht & ->); [|done..].
    destruct (cpulist_normalize_ok ([] ++ concat (map expand items))) as [S1 S2].
    exists items. split_and!; [done..|]. intros x. by rewrite S2, app_nil_l, in_expand.
  - intros (items & Ht & S1 & S2). rewrite (cpulist_loop_complete _ _ items) by done.
    f_equal. destruct (cpulist_normalize_ok ([] ++ concat (map expand items))) as [S3 S4].
    apply strictly_sorted_unique; [done..|]. intros x. by rewrite S4, S2, app_nil_l, in_expand.
Qed.

(** [parse_cpulist] accepts exactly the comma-separated lists of
    numbers and ascending ranges (a trailing comma included), and the list
    it stores is strictly ascending and holds exactly the CPUs some item
    names: sorted, without duplicates, nothing lost and nothing added. *)
Theorem parse_cpulist_iff s l : cstring s ->
  parse_cpulist s = Ok l <->
  exists items, cpu_text s items /\ StronglySorted Z.lt l
    /\ forall x, x ∈ l <-> Exists (fun p => p.1 <= x <= p.2) items.
Proof. apply cpulist_text_iff. Qed.

End CpuLists.

Lemma parse_cpulist_iff_witness :
  (@parse_cpulist alloc_always (str "5,1-3,2") = Ok [1; 2; 3; 5] <->
   exists items, cpu_text (str "5,1-3,2") items /\ StronglySorted Z.lt [1; 2; 3; 5]
    /\ forall x, x ∈ [1; 2; 3; 5] <-> Exists (fun p => p.1 <= x <= p.2) items)
  /\ @parse_cpulist alloc_always (str "5,1-3,2") = Ok [1; 2; 3; 5].
Proof.
  split; [|vm_compute; reflexivity].
  apply (@parse_cpulist_iff alloc_always alloc_always_ok). repeat constructor; cbn; lia.
Defined.

(** ** Word lists *)

(** What [parse_strlist] stores: a word without commas and without space
    around it. *)
Definition clean (w : list Z) : Prop :=
  w <> [] /\ (ch "," ∉ w) /\ isspace (c0 w) = false /\ isspace (clast w) = false.

Inductive word_item : list Z -> list Z -> Prop :=
| word_padded a w b : spaces a -> clean w -> spaces b -> word_item (a ++ w ++ b) w.

Inductive word_text : list Z -> list (list Z) -> Prop :=
| words_last t w : word_item t w -> word_text t [w]
| words_comma t w : word_item t w -> word_text (t ++ str ",") [w]
| words_more t w rest ws :
    word_item t w -> word_text rest ws -> word_text (t ++ ch "," :: rest) (w :: ws).

Lemma spaces_no_comma a : spaces a -> ch "," ∉ a.
Proof. intros H Hc. unfold spaces in H. rewrite Forall_forall in H. by apply H in Hc. Qed.

Lemma word_item_no_comma t w : word_item t w -> (ch "," ∉ t) /\ t <> [].
Proof.
  destruct 1 as [a w b Ha (Hn & Hc & _) Hb]. rewrite !elem_of_app. split.
  - intros [H|[H|H]]; [by apply spaces_no_comma in H|done|by apply spaces_no_comma in H].
  - intros E. apply app_eq_nil in E as [_ E]. by apply app_eq_nil in E as [E _].
Qed.

Lemma strlist_word_complete t w e :
  word_item t w -> e = [] \/ (exists r, e = ch "," :: r) -> strlist_word (t ++ e) = (w, e).
Proof.
  intros [a w' b Ha (Hn & Hc & H1 & H2) Hb] He. unfold strlist_word.
  rewrite <- !app_assoc, skip_space_app; [|done|by rewrite c0_app_nil].
  assert (ch "," ∉ w' ++ b) as Hwb
    by (rewrite elem_of_app; intros [?|?]; [done|by apply (spaces_no_comma b)]).
  rewrite app_assoc. destruct He as [->|[r ->]].
  - rewrite app_nil_r, split_at_none by done. cbn. by rewrite drop_space_end_app.
  - rewrite split_at_some by done. cbn. by rewrite drop_space_end_app.
Qed.

Lemma strlist_word_sound s w e :
  strlist_word s = (w, e) -> w <> [] ->
  exists t, s = t ++ e /\ word_item t w /\ (e = [] \/ exists r, e = ch "," :: r).
Proof.
  unfold strlist_word. destruct (skip_space_split s) as (a & E & Ha & Hs).
  assert (Sp := split_at_spec (ch ",") (skip_space s)).
  destruct (split_at _ _) as [x r]. cbn [default]. intros [= <- <-] Hn.
  destruct (drop_space_end_split x) as (b & Ex & Hb & Hl).
  assert (isspace (c0 x) = false -> ch "," ∉ x -> word_item (a ++ x) (drop_space_end x)) as Hi.
  { intros H1 H2. rewrite Ex at 1. constructor; [done| |done]. split_and!; [done| | |done].
    - intros Hin. apply H2. rewrite Ex. apply elem_of_app. by left.
    - rewrite Ex, c0_app_nil in H1; done. }
  assert (x <> []) as Hx by (intros ->; done).
  destruct r as [r|].
  - destruct Sp as (E2 & Hc & t & ->). exists (a ++ x). split; [rewrite <- app_assoc; cbn; by rewrite <- E2|].
    split; [|eauto]. apply Hi; [|done]. by rewrite E2, c0_app_nil in Hs.
  - destruct Sp as (-> & Hc). exists (a ++ skip_space s). rewrite app_nil_r. split; [done|].
    split; [by apply Hi|by left].
Qed.

Lemma word_text_ne s ws : word_text s ws -> s <> [].
Proof.
  destruct 1 as [t w Hi|t w Hi|t w rest ws' Hi Hr]; [by apply word_item_no_comma in Hi as []|by destruct t..].
Qed.

Section StrLists.
Context `{AllocOk}.

Lemma strlist_loop_step fuel c s items cap :
  exists cap', strlist_loop (S fuel) (c :: s) items cap =
    let '(w, e) := strlist_word (c :: s) in
    if bool_decide (w = []) then Err EINVAL
    else strlist_loop fuel (if c0 e =? ch "," then drop 1 e else e) (items ++ [w]) cap'.
Proof.
  cbn [strlist_loop]. destruct (strlist_word (c :: s)) as [w e].
  eexists. rewrite !alloc_ok. cbn [negb]. rewrite andb_false_r. done.
Qed.

Lemma strlist_loop_iff fuel s items cap r :
  s <> [] -> (length s <= fuel)%nat ->
  strlist_loop fuel s items cap = Ok r <-> exists ws, word_text s ws /\ r = items ++ ws.
Proof.
  revert s items cap. induction fuel as [|fuel IH]; intros s items cap Hne Hf; [destruct s; [done|cbn in Hf; lia]|].
  destruct s as [|c s]; [done|]. destruct (strlist_loop_step fuel c s items cap) as [cap' ->].
  destruct (strlist_word (c :: s)) as [w e] eqn:Ew. split.
  - case_bool_decide as Hw; [done|]. intros Hr.
    apply strlist_word_sound in Ew as (t & E & Ht & He); [|done]. rewrite E in *.
    assert (Hne' := proj2 (word_item_no_comma _ _ Ht)).
    assert (length e <= fuel)%nat by (destruct t; [done|]; rewrite length_app in Hf; cbn in Hf; lia).
    destruct He as [->|[e' ->]].
    + exists [w]. rewrite app_nil_r. split; [by constructor|]. by destruct fuel; injection Hr as <-.
    + cbn [c0] in Hr. rewrite Z.eqb_refl in Hr. change (drop 1 (ch "," :: e')) with e' in Hr.
      destruct e' as [|x e'].
      { exists [w]. split; [by apply words_comma|]. by destruct fuel; injection Hr as <-. }
      apply IH in Hr as (ws & Hws & ->); [|done|cbn in *; lia].
      exists (w :: ws). split; [by apply words_more|]. by rewrite <- app_assoc.
  - intros (ws & Ht & ->).
    assert (forall t w' e', c :: s = t ++ e' -> word_item t w' -> (e' = [] \/ exists r, e' = ch "," :: r) ->
              w' = w /\ e' = e /\ w <> [] /\ (length e' <= fuel)%nat) as Hstep.
    { intros t w' e' E Hi He'. rewrite E, (strlist_word_complete t w' e') in Ew by done.
      injection Ew as -> ->. split_and!; [done..| |].
      - by destruct Hi as [? ? ? ? (? & _) ?].
      - destruct (word_item_no_comma _ _ Hi) as [_ Hn]. destruct t; [done|].
        rewrite E, length_app in Hf. cbn in Hf. lia. }
    inversion Ht as [t w' Hi|t w' Hi E|t w' rest ws' Hi Hr E]; subst.
    + destruct (Hstep _ w' [] (eq_sym (app_nil_r _))) as (-> & <- & Hw & _); [done|by left|].
      rewrite bool_decide_eq_false_2 by done. by destruct fuel.
    + destruct (Hstep _ w' (str ",") (eq_sym E)) as (-> & <- & Hw & _); [done|by right; exists []|].
      rewrite bool_decide_eq_false_2 by done. by destruct fuel.
    + destruct (Hstep _ w' (ch "," :: rest) (eq_sym E)) as (-> & <- & Hw & Hl); [done|eauto|].
      rewrite bool_decide_eq_false_2 by done. cbn [c0]. rewrite Z.eqb_refl.
      change (drop 1 (ch "," :: rest)) with rest. cbn in Hl.
      apply IH; [by apply word_text_ne in Hr|lia|]. exists ws'. by rewrite <- app_assoc.
Qed.

Lemma strlist_text_iff s ws : parse_strlist s = Ok ws <-> word_text s ws.
Proof.
  unfold parse_strlist. destruct s as [|c s].
  { split; [done|]. by intros []%word_text_ne. }
  rewrite strlist_loop_iff by done. split; [by intros (? & ? & ->)|]. intros Ht. by exists ws.
Qed.

(** [parse_strlist] accepts exactly the comma-separated lists of
    non-empty words with optional space around each, and the words it
    stores are the text's, stripped, in order.  The one exception to
    "empty words rejected" is the empty word after a trailing comma. *)
Theorem parse_strlist_iff s ws : parse_strlist s = Ok ws <-> word_text s ws.
Proof. apply strlist_text_iff. Qed.

End StrLists.

Lemma parse_strlist_iff_witness :
  (@parse_strlist alloc_always (str " eth0 , eth1,") = Ok [str "eth0"; str "eth1"]
   <-> word_text (str " eth0 , eth1,") [str "eth0"; str "eth1"])
  /\ @parse_strlist alloc_always (str " eth0 , eth1,") = Ok [str "eth0"; str "eth1"].
Proof.
  split; [|vm_compute; reflexivity]. apply (@parse_strlist_iff alloc_always alloc_always_ok).
Defined.

(** ** Printing lists *)

Fixpoint join (ws : list (list Z)) : list Z :=
  match ws with
  | [] => []
  | [w] => w
  | w :: ws => w ++ ch "," :: join ws
  end.

Definition print_cpulist (l : cpulist) : list Z := join (map dec l).

Lemma dec_cstring n : 0 <= n < two64 -> cstring (dec n).
Proof.
  intros Hn. destruct (dec_all_digits n Hn) as [[_ F] _].
  eapply Forall_impl; [exact F|]. intros c Hc. unfold isdigit in Hc. b2p. lia.
Qed.

Lemma join_cstring ws : Forall cstring ws -> cstring (join ws).
Proof.
  induction 1 as [|w ws Hw Hws IH]; [constructor|]. destruct ws as [|w' ws]; [done|].
  cbn [join]. apply Forall_app. split; [done|]. constructor; [split; reflexivity|done].
Qed.

Lemma print_cpulist_text l :
  l <> [] -> Forall is_u64 l -> cpu_text (print_cpulist l) (map (fun x => (x, x)) l).
Proof.
  unfold print_cpulist. intros Hne Hl. induction Hl as [|x l Hx Hl IH]; [done|].
  assert (cpu_item (dec x) x x) as Hi.
  { destruct (dec_all_digits x Hx) as [Hd Hv]. rewrite <- Hv at 2 3. apply item_one; [done|]. rewrite Hv. apply Hx. }
  destruct l as [|y l]; [by apply text_last|]. cbn [map join]. apply text_more; [done|]. by apply IH.
Qed.

Lemma parse_print_cpulist `{AllocOk} l :
  l <> [] -> Forall is_u64 l -> StronglySorted Z.lt l -> parse_cpulist (print_cpulist l) = Ok l.
Proof.
  intros Hne Hu Hs. apply cpulist_text_iff.
  { apply join_cstring, Forall_map. eapply Forall_impl; [exact Hu|]. apply dec_cstring. }
  exists (map (fun x => (x, x)) l). split; [by apply print_cpulist_text|]. split; [done|].
  intros x. rewrite Exists_exists. split.
  - intros Hx. exists (x, x). split; [|cbn; lia]. by apply (list_elem_of_fmap_2 (fun x => (x, x)) l x).
  - intros (p & (y & -> & Hy)%list_elem_of_fmap & Hp). cbn in Hp. by replace x with y by lia.
Qed.

Lemma join_text ws : ws <> [] -> Forall clean ws -> word_text (join ws) ws.
Proof.
  intros Hne Hl. induction Hl as [|w ws Hw Hl IH]; [done|].
  assert (word_item w w) as Hi.
  { assert (word_item ([] ++ w ++ []) w) as Hi by (constructor; [constructor|done|constructor]).
    by rewrite app_nil_r in Hi. }
  destruct ws as [|w' ws]; [by apply words_last|]. cbn [join]. apply words_more; [done|]. by apply IH.
Qed.

Lemma parse_join `{AllocOk} ws : ws <> [] -> Forall clean ws -> parse_strlist (join ws) = Ok ws.
Proof. intros Hne Hw. by apply strlist_text_iff, join_text. Qed.

Lemma parse_prefix_dec n : is_u64 n -> parse_u64_prefix (dec n) = Ok (n, []).
Proof.
  intros Hn. destruct (dec_all_digits n Hn) as [Hd Hv]. rewrite <- (app_nil_r (dec n)), <- Hv at 1.
  rewrite Hv. rewrite parse_prefix_text; [by rewrite Hv|done| |done]. rewrite Hv. apply Hn.
Qed.

Lemma parse_size_dec n : is_u64 n -> parse_size (dec n) = Ok n.
Proof. intros Hn. unfold parse_size. rewrite parse_prefix_dec by done. cbn. by rewrite u64_small. Qed.

Lemma parse_duration_dec n : is_u64 n -> parse_duration_ms (dec n) = Ok n.
Proof.
  intros Hn. unfold parse_duration_ms. rewrite parse_prefix_dec by done.
  change (streq [] []) with true. cbn [orb]. rewrite Z.mul_1_r, Z.div_1_r, u64_small by done.
  unfold UINT64_MAX. destruct Hn. by rewrite (proj2 (Z.ltb_ge _ _)) by lia.
Qed.
