(* ===== verification/Config.v ===== *)
(** * lib/config.c: the configuration file

    [struct kmorph_config] field by field ([char *] is an optional string),
    the keys [config_set] knows, the line reader and [config_parse] with
    the error text it leaves.  [strerror] is the C library's. *)

From S2P Require Import Prelude Cstr Parse.

Record kmorph_config : Type := mk_config {
  c_name : option (list Z);
  c_cpus : cpulist;
  c_memory : Z;
  c_kernel : option (list Z);
  c_initrd : option (list Z);
  c_cmdline : option (list Z);
  c_devices : strlist;
  c_machine_cpus : cpulist;
  c_modules : strlist;
  c_standby : strlist;
  c_standby_files : strlist;
  c_probe_interval_ms : Z;
  c_probe_timeouts : Z;
  c_fence_retries : Z;
  c_dump : option (list Z);
  c_reset_devices : bool;
  c_console : option (list Z);
  c_console_baud : Z;
  c_console_login : option (list Z);
  c_text : option (list Z)
}.

(** [c->field = v] *)
Definition with_name v c := mk_config v (c_cpus c) (c_memory c) (c_kernel c) (c_initrd c) (c_cmdline c) (c_devices c) (c_machine_cpus c) (c_modules c) (c_standby c) (c_standby_files c) (c_probe_interval_ms c) (c_probe_timeouts c) (c_fence_retries c) (c_dump c) (c_reset_devices c) (c_console c) (c_console_baud c) (c_console_login c) (c_text c).
Definition with_cpus v c := mk_config (c_name c) v (c_memory c) (c_kernel c) (c_initrd c) (c_cmdline c) (c_devices c) (c_machine_cpus c) (c_modules c) (c_standby c) (c_standby_files c) (c_probe_interval_ms c) (c_probe_timeouts c) (c_fence_retries c) (c_dump c) (c_reset_devices c) (c_console c) (c_console_baud c) (c_console_login c) (c_text c).
Definition with_memory v c := mk_config (c_name c) (c_cpus c) v (c_kernel c) (c_initrd c) (c_cmdline c) (c_devices c) (c_machine_cpus c) (c_modules c) (c_standby c) (c_standby_files c) (c_probe_interval_ms c) (c_probe_timeouts c) (c_fence_retries c) (c_dump c) (c_reset_devices c) (c_console c) (c_console_baud c) (c_console_login c) (c_text c).
Definition with_kernel v c := mk_config (c_name c) (c_cpus c) (c_memory c) v (c_initrd c) (c_cmdline c) (c_devices c) (c_machine_cpus c) (c_modules c) (c_standby c) (c_standby_files c) (c_probe_interval_ms c) (c_probe_timeouts c) (c_fence_retries c) (c_dump c) (c_reset_devices c) (c_console c) (c_console_baud c) (c_console_login c) (c_text c).
Definition with_initrd v c := mk_config (c_name c) (c_cpus c) (c_memory c) (c_kernel c) v (c_cmdline c) (c_devices c) (c_machine_cpus c) (c_modules c) (c_standby c) (c_standby_files c) (c_probe_interval_ms c) (c_probe_timeouts c) (c_fence_retries c) (c_dump c) (c_reset_devices c) (c_console c) (c_console_baud c) (c_console_login c) (c_text c).
Definition with_cmdline v c := mk_config (c_name c) (c_cpus c) (c_memory c) (c_kernel c) (c_initrd c) v (c_devices c) (c_machine_cpus c) (c_modules c) (c_standby c) (c_standby_files c) (c_probe_interval_ms c) (c_probe_timeouts c) (c_fence_retries c) (c_dump c) (c_reset_devices c) (c_console c) (c_console_baud c) (c_console_login c) (c_text c).
Definition with_devices v c := mk_config (c_name c) (c_cpus c) (c_memory c) (c_kernel c) (c_initrd c) (c_cmdline c) v (c_machine_cpus c) (c_modules c) (c_standby c) (c_standby_files c) (c_probe_interval_ms c) (c_probe_timeouts c) (c_fence_retries c) (c_dump c) (c_reset_devices c) (c_console c) (c_console_baud c) (c_console_login c) (c_text c).
Definition with_machine_cpus v c := mk_config (c_name c) (c_cpus c) (c_memory c) (c_kernel c) (c_initrd c) (c_cmdline c) (c_devices c) v (c_modules c) (c_standby c) (c_standby_files c) (c_probe_interval_ms c) (c_probe_timeouts c) (c_fence_retries c) (c_dump c) (c_reset_devices c) (c_console c) (c_console_baud c) (c_console_login c) (c_text c).
Definition with_modules v c := mk_config (c_name c) (c_cpus c) (c_memory c) (c_kernel c) (c_initrd c) (c_cmdline c) (c_devices c) (c_machine_cpus c) v (c_standby c) (c_standby_files c) (c_probe_interval_ms c) (c_probe_timeouts c) (c_fence_retries c) (c_dump c) (c_reset_devices c) (c_console c) (c_console_baud c) (c_console_login c) (c_text c).
Definition with_standby v c := mk_config (c_name c) (c_cpus c) (c_memory c) (c_kernel c) (c_initrd c) (c_cmdline c) (c_devices c) (c_machine_cpus c) (c_modules c) v (c_standby_files c) (c_probe_interval_ms c) (c_probe_timeouts c) (c_fence_retries c) (c_dump c) (c_reset_devices c) (c_console c) (c_console_baud c) (c_console_login c) (c_text c).
Definition with_standby_files v c := mk_config (c_name c) (c_cpus c) (c_memory c) (c_kernel c) (c_initrd c) (c_cmdline c) (c_devices c) (c_machine_cpus c) (c_modules c) (c_standby c) v (c_probe_interval_ms c) (c_probe_timeouts c) (c_fence_retries c) (c_dump c) (c_reset_devices c) (c_console c) (c_console_baud c) (c_console_login c) (c_text c).
Definition with_probe_interval_ms v c := mk_config (c_name c) (c_cpus c) (c_memory c) (c_kernel c) (c_initrd c) (c_cmdline c) (c_devices c) (c_machine_cpus c) (c_modules c) (c_standby c) (c_standby_files c) v (c_probe_timeouts c) (c_fence_retries c) (c_dump c) (c_reset_devices c) (c_console c) (c_console_baud c) (c_console_login c) (c_text c).
Definition with_probe_timeouts v c := mk_config (c_name c) (c_cpus c) (c_memory c) (c_kernel c) (c_initrd c) (c_cmdline c) (c_devices c) (c_machine_cpus c) (c_modules c) (c_standby c) (c_standby_files c) (c_probe_interval_ms c) v (c_fence_retries c) (c_dump c) (c_reset_devices c) (c_console c) (c_console_baud c) (c_console_login c) (c_text c).
Definition with_fence_retries v c := mk_config (c_name c) (c_cpus c) (c_memory c) (c_kernel c) (c_initrd c) (c_cmdline c) (c_devices c) (c_machine_cpus c) (c_modules c) (c_standby c) (c_standby_files c) (c_probe_interval_ms c) (c_probe_timeouts c) v (c_dump c) (c_reset_devices c) (c_console c) (c_console_baud c) (c_console_login c) (c_text c).
Definition with_dump v c := mk_config (c_name c) (c_cpus c) (c_memory c) (c_kernel c) (c_initrd c) (c_cmdline c) (c_devices c) (c_machine_cpus c) (c_modules c) (c_standby c) (c_standby_files c) (c_probe_interval_ms c) (c_probe_timeouts c) (c_fence_retries c) v (c_reset_devices c) (c_console c) (c_console_baud c) (c_console_login c) (c_text c).
Definition with_reset_devices v c := mk_config (c_name c) (c_cpus c) (c_memory c) (c_kernel c) (c_initrd c) (c_cmdline c) (c_devices c) (c_machine_cpus c) (c_modules c) (c_standby c) (c_standby_files c) (c_probe_interval_ms c) (c_probe_timeouts c) (c_fence_retries c) (c_dump c) v (c_console c) (c_console_baud c) (c_console_login c) (c_text c).
Definition with_console v c := mk_config (c_name c) (c_cpus c) (c_memory c) (c_kernel c) (c_initrd c) (c_cmdline c) (c_devices c) (c_machine_cpus c) (c_modules c) (c_standby c) (c_standby_files c) (c_probe_interval_ms c) (c_probe_timeouts c) (c_fence_retries c) (c_dump c) (c_reset_devices c) v (c_console_baud c) (c_console_login c) (c_text c).
Definition with_console_baud v c := mk_config (c_name c) (c_cpus c) (c_memory c) (c_kernel c) (c_initrd c) (c_cmdline c) (c_devices c) (c_machine_cpus c) (c_modules c) (c_standby c) (c_standby_files c) (c_probe_interval_ms c) (c_probe_timeouts c) (c_fence_retries c) (c_dump c) (c_reset_devices c) (c_console c) v (c_console_login c) (c_text c).
Definition with_console_login v c := mk_config (c_name c) (c_cpus c) (c_memory c) (c_kernel c) (c_initrd c) (c_cmdline c) (c_devices c) (c_machine_cpus c) (c_modules c) (c_standby c) (c_standby_files c) (c_probe_interval_ms c) (c_probe_timeouts c) (c_fence_retries c) (c_dump c) (c_reset_devices c) (c_console c) (c_console_baud c) v (c_text c).
Definition with_text v c := mk_config (c_name c) (c_cpus c) (c_memory c) (c_kernel c) (c_initrd c) (c_cmdline c) (c_devices c) (c_machine_cpus c) (c_modules c) (c_standby c) (c_standby_files c) (c_probe_interval_ms c) (c_probe_timeouts c) (c_fence_retries c) (c_dump c) (c_reset_devices c) (c_console c) (c_console_baud c) (c_console_login c) v.

(** The struct zeroed by [memset]. *)
Definition config_zero : kmorph_config :=
  mk_config None [] 0 None None None [] [] [] [] [] 0 0 0 None false None 0 None None.

Section Config.
Context `{Alloc}.
Variable strerror : Z -> list Z.

(** [strdup]: a copy, or [NULL] *)
Definition strdup (s : list Z) : option (list Z) :=
  if alloc (Z.of_nat (length s) + 1) then Some s else None.

Definition config_defaults : kmorph_config :=
  let c := config_zero in
  let c := with_name (strdup (str "successor")) c in
  let c := with_probe_interval_ms 100 c in
  let c := with_probe_timeouts 5 c in
  let c := with_fence_retries 3 c in
  let c := with_console_baud 115200 c in
  with_reset_devices true c.

(** The new value of the field and the return code. *)
Definition set_string (value : list Z) : option (list Z) * result unit :=
  match value with
  | [] => (None, Ok tt)
  | _ => match strdup value with
         | Some v => (Some v, Ok tt)
         | None => (None, Err ENOMEM)
         end
  end.

(** [unsigned long] is 64 bits wide; [errno] is not looked at, but the
    saturated value is out of range. *)
Definition set_uint (dst : Z) (value : list Z) (min : Z) : Z * result unit :=
  if negb (isdigit (c0 value)) then (dst, Err EINVAL) else
  let '(v, e, _) := strtoull 10 value in
  if negb (c0 e =? 0) || (v <? min) || (UINT32_MAX <? v) then (dst, Err EINVAL)
  else (v, Ok tt).

Definition set_bool (dst : bool) (value : list Z) : bool * result unit :=
  if streq value (str "yes") then (true, Ok tt)
  else if streq value (str "no") then (false, Ok tt)
  else (dst, Err EINVAL).

(** A list field: freed, then parsed unless the value is empty; a failed
    parse leaves it empty. *)
Definition set_list {A} (parse : list Z -> result (list A)) (value : list Z) : list A * result unit :=
  match value with
  | [] => ([], Ok tt)
  | _ => match parse value with Ok l => (l, Ok tt) | Err e => ([], Err e) end
  end.

(** A number field, kept when the parse fails. *)
Definition set_number (parse : list Z -> result Z) (dst : Z) (value : list Z) : Z * result unit :=
  match parse value with Ok v => (v, Ok tt) | Err e => (dst, Err e) end.

(** Store the first component, return the second. *)
Definition store {A} (set : A -> kmorph_config -> kmorph_config) (c : kmorph_config)
    (r : A * result unit) : kmorph_config * result unit := (set r.1 c, r.2).

Definition config_set (c : kmorph_config) (key value : list Z) : kmorph_config * result unit :=
  if streq key (str "name") then
    match value with [] => (c, Err EINVAL) | _ => store with_name c (set_string value) end
  else if streq key (str "cpus") then store with_cpus c (set_list parse_cpulist value)
  else if streq key (str "memory") then store with_memory c (set_number parse_size (c_memory c) value)
  else if streq key (str "kernel") then store with_kernel c (set_string value)
  else if streq key (str "initrd") then store with_initrd c (set_string value)
  else if streq key (str "cmdline") then store with_cmdline c (set_string value)
  else if streq key (str "machine_cpus") then store with_machine_cpus c (set_list parse_cpulist value)
  else if streq key (str "devices") then store with_devices c (set_list parse_strlist value)
  else if streq key (str "modules") then store with_modules c (set_list parse_strlist value)
  else if streq key (str "standby") then store with_standby c (set_list parse_strlist value)
  else if streq key (str "standby_files") then store with_standby_files c (set_list parse_strlist value)
  else if streq key (str "probe_interval") then
    store with_probe_interval_ms c (set_number parse_duration_ms (c_probe_interval_ms c) value)
  else if streq key (str "probe_timeouts") then
    store with_probe_timeouts c (set_uint (c_probe_timeouts c) value 1)
  else if streq key (str "fence_retries") then
    store with_fence_retries c (set_uint (c_fence_retries c) value 0)
  else if streq key (str "dump") then store with_dump c (set_string value)
  else if streq key (str "reset_devices") then
    store with_reset_devices c (set_bool (c_reset_devices c) value)
  else if streq key (str "console") then store with_console c (set_string value)
  else if streq key (str "console_baud") then
    store with_console_baud c (set_uint (c_console_baud c) value 1)
  else if streq key (str "console_login") then store with_console_login c (set_string value)
  else (c, Err ENOENT).

Definition trim (s : list Z) : list Z := drop_space_end (skip_space s).

(** The message [config_parse_line] leaves for a failed [config_set]. *)
Definition set_message (lineno : Z) (key : list Z) (e : Z) : list Z :=
  if e =? ENOENT then
    str "line " ++ dec_int lineno ++ str ": unknown key '" ++ key ++ str "'"
  else
    str "line " ++ dec_int lineno ++ str ": bad value for '" ++ key ++ str "': " ++ strerror e.

Definition config_parse_line (c : kmorph_config) (line : list Z) (lineno : Z)
    (err : list Z) (errlen : Z) : kmorph_config * list Z * result unit :=
  let line := trim line in
  if (c0 line =? 0) || (c0 line =? ch "#") then (c, err, Ok tt) else
  match split_at (ch "=") line with
  | (_, None) =>
      (c, snprintf err errlen (str "line " ++ dec_int lineno ++ str ": expected key = value"), Err EINVAL)
  | (key, Some eq) =>
      let key := trim key in
      let value := trim (drop 1 eq) in
      match config_set c key value with
      | (c, Ok _) => (c, err, Ok tt)
      | (c, Err e) => (c, snprintf err errlen (set_message lineno key e), Err e)
      end
  end.

Definition config_free (c : kmorph_config) : kmorph_config := config_zero.

(** The [for] loop of [config_parse]: each turn but the last eats a
    newline. *)
Fixpoint config_lines (fuel : nat) (c : kmorph_config) (line : list Z) (lineno : Z)
    (err : list Z) (errlen : Z) : kmorph_config * list Z * result unit :=
  match fuel with
  | O => (c, err, Ok tt)
  | S fuel =>
      let '(l, next) := split_at 10 line in
      let lineno := lineno + 1 in
      match config_parse_line c l lineno err errlen with
      | (c, err, Ok _) =>
          match next with
          | Some next => config_lines fuel c (drop 1 next) lineno err errlen
          | None => (c, err, Ok tt)
          end
      | r => r
      end
  end.

(** Configuration, error buffer (as found: [err0]) and return code. *)
Definition config_parse (text err0 : list Z) (errlen : Z) : kmorph_config * list Z * result unit :=
  let c := config_defaults in
  if negb (bool_decide (is_Some (c_name c))) then (c, err0, Err ENOMEM) else
  let err := if errlen =? 0 then err0 else [] in
  if negb (bool_decide (is_Some (strdup text))) then (c, err, Err ENOMEM) else
  let '(c, err, ret) := config_lines (S (length text)) c text 0 err errlen in
  let '(err, ret) :=
    if is_ok ret && bool_decide (is_Some (c_console c)) && negb (bool_decide (is_Some (c_console_login c)))
    then (snprintf err errlen (str "console needs console_login"), Err EINVAL) else (err, ret) in
  let '(c, ret) :=
    match ret with
    | Ok _ => let c := with_text (strdup text) c in
              if bool_decide (is_Some (c_text c)) then (c, Ok tt) else (c, Err ENOMEM)
    | Err e => (c, Err e)
    end in
  match ret with
  | Ok _ => (c, err, Ok tt)
  | Err e => (config_free c, err, Err e)
  end.

End Config.

(** ** What a parsed configuration satisfies *)

Definition opt_string_ok (s : option (list Z)) : Prop := forall v, s = Some v -> v <> [].

Definition is_u32 (x : Z) : Prop := 0 <= x < two32.

Record config_ok (c : kmorph_config) : Prop := {
  ok_name : exists n, c_name c = Some n /\ n <> [];
  ok_cpus : StronglySorted Z.lt (c_cpus c);
  ok_machine_cpus : StronglySorted Z.lt (c_machine_cpus c);
  ok_memory : is_u64 (c_memory c);
  ok_probe_interval : is_u64 (c_probe_interval_ms c);
  ok_probe_timeouts : 1 <= c_probe_timeouts c < two32;
  ok_fence_retries : is_u32 (c_fence_retries c);
  ok_console_baud : 1 <= c_console_baud c < two32;
  ok_devices : Forall clean (c_devices c);
  ok_modules : Forall clean (c_modules c);
  ok_standby : Forall clean (c_standby c);
  ok_standby_files : Forall clean (c_standby_files c);
  ok_strings : Forall opt_string_ok [c_kernel c; c_initrd c; c_cmdline c; c_dump c; c_console c; c_console_login c]
}.

Section ConfigInvariant.
Context `{Alloc}.
Variable strerror : Z -> list Z.

Lemma parse_cpulist_sorted s l : parse_cpulist s = Ok l -> StronglySorted Z.lt l.
Proof.
  unfold parse_cpulist. destruct s; [done|]. destruct (cpulist_loop _ _ _ _); [|done].
  intros [= <-]. apply cpulist_normalize_ok.
Qed.

Lemma strlist_loop_clean fuel p items cap ws :
  Forall clean items -> strlist_loop fuel p items cap = Ok ws -> Forall clean ws.
Proof.
  revert p items cap. induction fuel as [|fuel IH]; intros p items cap Hi; [by intros [= <-]|].
  destruct p as [|c p]; [by intros [= <-]|]. cbn [strlist_loop].
  destruct (strlist_word (c :: p)) as [w e] eqn:Ew. case_bool_decide as Hw; [done|].
  repeat case_bool; try done; intros Hr; eapply IH in Hr; eauto;
    (apply Forall_app; split; [done|]; constructor; [|done]);
    apply strlist_word_sound in Ew as (t & _ & [? ? ? ? Hc ?] & _); done.
Qed.

Lemma parse_strlist_clean s ws : parse_strlist s = Ok ws -> Forall clean ws.
Proof. unfold parse_strlist. destruct s; [done|]. by apply strlist_loop_clean. Qed.

Lemma parse_size_range s v : parse_size s = Ok v -> is_u64 v.
Proof.
  unfold parse_size. destruct (parse_u64_prefix s) as [[n e]|]; [|done].
  match goal with |- context [match ?x with Ok _ => _ | Err _ => _ end] => destruct x; [|done] end.
  cbv zeta. repeat case_bool; try done; intros [= <-]; apply u64_range.
Qed.

Lemma parse_duration_range s v : parse_duration_ms s = Ok v -> is_u64 v.
Proof.
  unfold parse_duration_ms. destruct (parse_u64_prefix s) as [[n e]|]; [|done].
  match goal with |- context [match ?x with Ok _ => _ | Err _ => _ end] => destruct x; [|done] end.
  case_bool; [done|]. intros [= <-]. apply u64_range.
Qed.

Lemma set_uint_range dst value min :
  0 <= min -> min <= dst < two32 -> min <= (set_uint dst value min).1 < two32.
Proof.
  intros Hm Hd. unfold set_uint. case_bool; [done|]. destruct (strtoull 10 value) as [[v e] r].
  case_bool; [done|]. unfold UINT32_MAX in *. b2p. cbn. lia.
Qed.

Lemma set_string_ok value : opt_string_ok (set_string value).1.
Proof.
  unfold set_string, strdup. destruct value as [|x t]; [done|].
  case_bool; [|done]. by intros v [= <-].
Qed.

Lemma set_list_ok {A} (P : list A -> Prop) parse value :
  P [] -> (forall l, parse value = Ok l -> P l) -> P (set_list parse value).1.
Proof. intros H0 HP. unfold set_list. destruct value; [done|]. destruct (parse _); [by apply HP|done]. Qed.

Lemma set_number_ok parse dst value :
  is_u64 dst -> (forall v, parse value = Ok v -> is_u64 v) -> is_u64 (set_number parse dst value).1.
Proof. intros H0 HP. unfold set_number. destruct (parse value); [by apply HP|done]. Qed.

(** Every key keeps the invariant, also when its value is rejected; only
    the allocator can break it, when it fails to copy the name. *)
Lemma config_set_ok c key value c' r :
  config_ok c -> config_set c key value = (c', r) -> (r = Err ENOMEM \/ config_ok c').
Proof.
  intros [] E. unfold config_set, store in E.
  repeat (apply Forall_cons in ok_strings0 as [? ok_strings0]).
  repeat lazymatch type of E with (if streq key ?k then _ else _) = _ => destruct (streq key k) end.
  { destruct value as [|x v]; injection E as <- <-; [right; constructor; eauto; by repeat constructor|].
    unfold set_string, strdup. destruct (alloc _); [right|by left].
    constructor; cbn; eauto; by repeat constructor. }
  all: injection E as <- <-; right; constructor; cbn; eauto;
    first [ by repeat constructor
          | repeat first [apply Forall_nil_2 | apply Forall_cons_2; [first [done|apply set_string_ok]|]]; done
          | apply (set_list_ok (StronglySorted Z.lt)); [constructor|apply parse_cpulist_sorted]
          | apply (set_list_ok (Forall clean)); [constructor|apply parse_strlist_clean]
          | apply set_number_ok; [done|apply parse_size_range]
          | apply set_number_ok; [done|apply parse_duration_range]
          | apply set_uint_range; [lia|done] ].
Qed.

End ConfigInvariant.

Section ConfigParse.
Context `{Alloc}.
Variable strerror : Z -> list Z.

Lemma config_defaults_ok : is_Some (c_name config_defaults) -> config_ok config_defaults.
Proof.
  unfold config_defaults, strdup. cbn. case_bool; [intros _|by intros []].
  constructor; cbn; unfold is_u64, is_u32; [eauto|..]; first [lia|by repeat constructor].
Qed.

Lemma config_parse_line_ok c line n err len c' err' r :
  config_ok c -> config_parse_line strerror c line n err len = (c', err', r) -> r = Err ENOMEM \/ config_ok c'.
Proof.
  intros Hc. unfold config_parse_line. cbv zeta. case_bool; [intros [= <- <- <-]; by right|].
  destruct (split_at _ _) as [k [e|]]; [|intros [= <- <- <-]; by right].
  destruct (config_set c _ _) as [c1 [u|e1]] eqn:E; intros [= <- <- <-];
    apply config_set_ok in E as [E|E]; simplify_eq; auto.
Qed.

Lemma config_lines_ok fuel c line n err len c' err' r :
  config_ok c -> config_lines strerror fuel c line n err len = (c', err', r) -> r = Err ENOMEM \/ config_ok c'.
Proof.
  revert c line n err. induction fuel as [|fuel IH]; intros c line n err Hc; cbn [config_lines].
  { intros [= <- <- <-]. by right. }
  destruct (split_at 10 line) as [l next]. cbv zeta.
  destruct (config_parse_line _ _ _ _ _ _) as [[c1 e1] [u|e]] eqn:E.
  - apply config_parse_line_ok in E as [|Hc1]; [done| |done].
    destruct next; [by apply IH|intros [= <- <- <-]; by right].
  - intros [= <- <- <-]. by eapply config_parse_line_ok.
Qed.

(** C40: what a configuration that [config_parse] accepts is sure to have:
    a name for the successor that is not empty, at least one probe timeout
    and a baud rate of at least 1, memory size, probe interval and fence
    retries within the widths of their types, strictly ascending CPU lists,
    list words without blanks, no empty string, a login program with every console, and as
    the text for the successor the text that was parsed.  The probe interval
    has no lower bound: 0 is accepted, although a timer of 0 never ticks. *)
Theorem config_parse_valid txt err0 errlen c err :
  config_parse strerror txt err0 errlen = (c, err, Ok tt) ->
  config_ok c /\ (is_Some (c_console c) -> is_Some (c_console_login c)) /\ c_text c = Some txt.
Proof.
  unfold config_parse. cbv zeta. case_bool_decide as Hn; cbn [negb]; [|done].
  case_bool_decide as Ht; cbn [negb]; [|done].
  destruct (config_lines _ _ _ _ _ _ _) as [[c1 e1] r] eqn:E.
  apply config_lines_ok in E; [|by apply config_defaults_ok].
  destruct r as [u|e]; cbn [is_ok andb]; [|done]. destruct E as [E|Hok]; [done|].
  destruct (bool_decide (is_Some (c_console c1)) && _) eqn:Heqb; cbn [is_ok]; [done|].
  destruct (bool_decide (is_Some (c_text _))); [|intros; congruence]. intros [= <- <-].
  unfold strdup in *. cbn in *. split; [by destruct Hok; constructor|]. split.
  - intros Hc. rewrite (bool_decide_eq_true_2 _ Hc) in Heqb. cbn in Heqb. b2p.
    by apply bool_decide_eq_true in Heqb.
  - by destruct (alloc _); [|destruct Ht].
Qed.

(** After a failed [config_parse] nothing parsed is left behind: the
    configuration is all zero, or, when the very first allocations failed,
    what [config_defaults] stored. *)
Theorem config_parse_failure txt err0 errlen c err e :
  config_parse strerror txt err0 errlen = (c, err, Err e) ->
  c = config_zero \/ (e = ENOMEM /\ c = config_defaults).
Proof.
  unfold config_parse. cbv zeta. case_bool_decide as Hn; cbn [negb]; [|intros [= <- <- <-]; by right].
  case_bool_decide as Ht; cbn [negb]; [|intros [= <- <- <-]; by right].
  destruct (config_lines _ _ _ _ _ _ _) as [[c1 e1] r].
  destruct r as [u|e']; cbn [is_ok andb]; [|intros [= <- <- <-]; by left].
  case_bool; [intros [= <- <- <-]; by left|]. case_bool; [done|intros [= <- <- <-]; by left].
Qed.

(** ** Reading back key and value lines *)

Record key_text (k : list Z) : Prop := {
  key_ne : k <> [];
  key_eq : ch "=" ∉ k;
  key_nl : 10 ∉ k;
  key_start : isspace (c0 k) = false /\ c0 k <> ch "#" /\ c0 k <> 0;
  key_end : isspace (clast k) = false
}.

Record value_text (v : list Z) : Prop := {
  val_nl : 10 ∉ v;
  val_start : isspace (c0 v) = false;
  val_end : isspace (clast v) = false
}.

Lemma clast_app s t : t <> [] -> clast (s ++ t) = clast t.
Proof.
  intros Ht. unfold clast. rewrite rev_app_distr. apply c0_app_nil.
  intros E. apply (f_equal (@rev Z)) in E. by rewrite rev_involutive in E.
Qed.

Lemma trim_pad a s b :
  spaces a -> spaces b -> isspace (c0 s) = false -> isspace (clast s) = false -> trim (a ++ s ++ b) = s.
Proof.
  intros Ha Hb H1 H2. unfold trim. destruct s as [|c s].
  { cbn [app]. assert (spaces (a ++ b)) as Hab by (by apply Forall_app). clear Ha Hb.
    induction Hab as [|c l Hc Hl IH]; [done|]. cbn. by rewrite Hc. }
  rewrite skip_space_app; [|done|done]. by rewrite drop_space_end_app.
Qed.

Lemma config_parse_line_kv c k v n err len :
  key_text k -> value_text v ->
  config_parse_line strerror c (k ++ str " = " ++ v) n err len =
  match config_set c k v with
  | (c, Ok _) => (c, err, Ok tt)
  | (c, Err e) => (c, snprintf err len (set_message strerror n k e), Err e)
  end.
Proof.
  intros [Kn Ke _ (Ks1 & Ks2 & Ks3) Kl] [_ Vs Ve].
  assert (exists w, trim (k ++ str " = " ++ v) = k ++ [32] ++ ch "=" :: w /\ trim w = v) as (w & Et & Ew).
  { destruct v as [|x v].
    - exists []. split; [|done]. change (str " = " ++ []) with (str " =" ++ [32]).
      rewrite app_assoc. apply (trim_pad []); [constructor|by repeat constructor|by rewrite c0_app_nil|by rewrite clast_app].
    - exists (32 :: x :: v). split.
      + rewrite <- (app_nil_r (k ++ str " = " ++ x :: v)).
        apply (trim_pad [] (k ++ str " = " ++ x :: v) []); [constructor..|by rewrite c0_app_nil|].
        rewrite clast_app by done. by rewrite (clast_app (str " = ") (x :: v)).
      + rewrite <- (app_nil_r (32 :: x :: v)). apply (trim_pad [32] (x :: v) []); by repeat constructor. }
  unfold config_parse_line. rewrite Et. cbv zeta. rewrite c0_app_nil by done.
  rewrite (proj2 (Z.eqb_neq _ _) Ks3), (proj2 (Z.eqb_neq _ _) Ks2). cbn [orb].
  rewrite app_assoc, split_at_some.
  2:{ rewrite elem_of_app, list_elem_of_singleton. intros [?|?]; [done|done]. }
  assert (trim (k ++ [32]) = k) as -> by (apply (trim_pad [] k [32]); by repeat constructor).
  change (drop 1 (ch "=" :: w)) with w. by rewrite Ew.
Qed.

Definition print_line (kv : list Z * list Z) : list Z := kv.1 ++ str " = " ++ kv.2 ++ [10].
Definition print_lines (kvs : list (list Z * list Z)) : list Z := concat (map print_line kvs).

(** The assignments in order, up to the first that is rejected. *)
Fixpoint set_all (c : kmorph_config) (kvs : list (list Z * list Z)) (n : Z) (err : list Z) (len : Z)
    : kmorph_config * list Z * result unit :=
  match kvs with
  | [] => (c, err, Ok tt)
  | (k, v) :: kvs =>
      match config_set c k v with
      | (c, Ok _) => set_all c kvs (n + 1) err len
      | (c, Err e) => (c, snprintf err len (set_message strerror (n + 1) k e), Err e)
      end
  end.

Lemma config_lines_print fuel c kvs n err len :
  Forall (fun kv => key_text kv.1 /\ value_text kv.2) kvs -> (length (print_lines kvs) < fuel)%nat ->
  config_lines strerror fuel c (print_lines kvs) n err len = set_all c kvs n err len.
Proof.
  intros Hk. revert fuel c n. induction Hk as [|[k v] kvs [Hk Hv] Hkv IH]; intros fuel c n Hf.
  - destruct fuel; [cbn in Hf; lia|]. done.
  - destruct fuel; [lia|]. cbn [config_lines].
    assert (Es : print_lines ((k, v) :: kvs) = (k ++ str " = " ++ v) ++ 10 :: print_lines kvs).
    { unfold print_lines, print_line. cbn [map concat fst snd]. by rewrite <- !app_assoc. }
    rewrite Es, split_at_some.
    2:{ rewrite !elem_of_app. intros [Hin|[Hin|Hin]].
        - by apply (key_nl k). - vm_compute in Hin. by repeat (apply elem_of_cons in Hin as [?|Hin]; [done|]); apply not_elem_of_nil in Hin.
        - by apply (val_nl v). }
    cbv zeta. rewrite config_parse_line_kv by done. cbn [set_all].
    destruct (config_set c k v) as [c1 [u|e]]; [|done].
    change (drop 1 (10 :: print_lines kvs)) with (print_lines kvs). apply IH.
    rewrite Es, length_app in Hf. cbn [length] in Hf. lia.
Qed.

End ConfigParse.

(** ** Every valid configuration can be written down *)

Definition opt_text (s : option (list Z)) : list Z := default [] s.

(** One line per key, in the order of the struct. *)
Definition config_pairs (c : kmorph_config) : list (list Z * list Z) :=
  [(str "name", opt_text (c_name c)); (str "cpus", print_cpulist (c_cpus c));
   (str "memory", dec (c_memory c)); (str "kernel", opt_text (c_kernel c));
   (str "initrd", opt_text (c_initrd c)); (str "cmdline", opt_text (c_cmdline c));
   (str "devices", join (c_devices c)); (str "machine_cpus", print_cpulist (c_machine_cpus c));
   (str "modules", join (c_modules c)); (str "standby", join (c_standby c));
   (str "standby_files", join (c_standby_files c)); (str "probe_interval", dec (c_probe_interval_ms c));
   (str "probe_timeouts", dec (c_probe_timeouts c)); (str "fence_retries", dec (c_fence_retries c));
   (str "dump", opt_text (c_dump c)); (str "reset_devices", str (if c_reset_devices c then "yes" else "no"));
   (str "console", opt_text (c_console c)); (str "console_baud", dec (c_console_baud c));
   (str "console_login", opt_text (c_console_login c))].

Definition print_config (c : kmorph_config) : list Z := print_lines (config_pairs c).

(** The strings and words a line can carry: no newline, no space around. *)
Record printable (c : kmorph_config) : Prop := {
  pr_cpus : Forall is_u64 (c_cpus c) /\ Forall is_u64 (c_machine_cpus c);
  pr_strings : Forall (fun s => value_text (opt_text s))
    [c_name c; c_kernel c; c_initrd c; c_cmdline c; c_dump c; c_console c; c_console_login c];
  pr_words : Forall (fun ws => Forall (fun w => 10 ∉ w) ws)
    [c_devices c; c_modules c; c_standby c; c_standby_files c]
}.

Lemma digits_value_text ds : all_digits ds -> value_text ds.
Proof.
  intros [Hn F]. constructor.
  - intros Hin. rewrite Forall_forall in F. by apply F in Hin.
  - destruct F; [done|]. by apply isdigit_not_space.
  - unfold clast. apply Forall_rev in F. destruct F; [done|]. by apply isdigit_not_space.
Qed.

Lemma dec_value_text n : is_u64 n -> value_text (dec n).
Proof. intros Hn. by apply digits_value_text, dec_all_digits. Qed.

Lemma join_no_nl ws : Forall (fun w => 10 ∉ w) ws -> 10 ∉ join ws.
Proof.
  induction 1 as [|w ws Hw Hws IH]; [apply not_elem_of_nil|]. destruct ws as [|w' ws]; [done|].
  cbn [join]. rewrite elem_of_app, elem_of_cons. intros [?|[?|?]]; done.
Qed.

Lemma join_ends ws :
  Forall (fun w => w <> [] /\ isspace (c0 w) = false /\ isspace (clast w) = false) ws ->
  isspace (c0 (join ws)) = false /\ isspace (clast (join ws)) = false /\ (ws <> [] -> join ws <> []).
Proof.
  induction 1 as [|w ws (Hn & H1 & H2) Hws (IH1 & IH2 & IH3)]; [done|]. destruct ws as [|w' ws]; [done|].
  cbn [join]. split_and!; [by rewrite c0_app_nil| |].
  - rewrite clast_app by done. change (ch "," :: ?l) with ([ch ","] ++ l). by rewrite clast_app by (by apply IH3).
  - intros _ E. by apply app_eq_nil in E as [_ E].
Qed.

Lemma join_value_text ws : Forall clean ws -> Forall (fun w => 10 ∉ w) ws -> value_text (join ws).
Proof.
  intros Hc Hn. destruct (join_ends ws) as (H1 & H2 & _).
  { eapply Forall_impl; [exact Hc|]. intros w (? & ? & ? & ?). done. }
  constructor; [by apply join_no_nl|done..].
Qed.

Lemma print_cpulist_value_text l : Forall is_u64 l -> value_text (print_cpulist l).
Proof.
  intros Hl. unfold print_cpulist. assert (Forall value_text (map dec l)) as Hv.
  { apply Forall_map. eapply Forall_impl; [exact Hl|]. apply dec_value_text. }
  destruct (join_ends (map dec l)) as (H1 & H2 & _).
  { apply Forall_map. eapply Forall_impl; [exact Hl|]. intros n Hn.
    destruct (dec_value_text n Hn), (dec_all_digits n Hn) as [[? _] _]. done. }
  constructor; [apply join_no_nl|done..]. eapply Forall_impl; [exact Hv|]. by intros w [].
Qed.

(** A boolean check of [key_text], for the known keys. *)
Definition key_check (k : list Z) : bool :=
  negb (streq k []) && forallb (fun c => negb ((c =? ch "=") || (c =? 10))) k
  && negb (isspace (c0 k)) && negb (c0 k =? ch "#") && negb (c0 k =? 0) && negb (isspace (clast k)).

Lemma key_check_ok k : key_check k = true -> key_text k.
Proof.
  unfold key_check, streq. intros Hk. b2p. apply bool_decide_eq_false in H.
  rewrite forallb_forall in H4. setoid_rewrite <- list_elem_of_In in H4.
  constructor; [done| | |done|done]; intros Hin; apply H4 in Hin; cbn in Hin; by rewrite ?orb_true_r in Hin.
Qed.

Lemma config_pairs_text c :
  config_ok c -> printable c -> Forall (fun kv => key_text kv.1 /\ value_text kv.2) (config_pairs c).
Proof.
  intros [] [[Pc Pm] Ps Pw].
  repeat (apply Forall_cons in Ps as [? Ps]). repeat (apply Forall_cons in Pw as [? Pw]).
  assert (is_u64 (c_probe_timeouts c) /\ is_u64 (c_fence_retries c) /\ is_u64 (c_console_baud c)) as (? & ? & ?)
    by (unfold is_u64, is_u32 in *; lia).
  assert (value_text (str (if c_reset_devices c then "yes" else "no"))) as Hy.
  { destruct (c_reset_devices c); constructor; [|done|done| |done|done]; intros Hin; vm_compute in Hin;
      by repeat (apply elem_of_cons in Hin as [?|Hin]; [done|]); apply not_elem_of_nil in Hin. }
  unfold config_pairs.
  repeat (apply Forall_cons_2; [split; cbn [fst snd]; [apply key_check_ok; vm_compute; reflexivity|]|]);
    [..|apply Forall_nil_2]; auto using dec_value_text, print_cpulist_value_text, join_value_text.
Qed.

Section RoundTrip.
Context `{AllocOk}.
Variable strerror : Z -> list Z.

Lemma strdup_ok s : strdup s = Some s.
Proof. unfold strdup. by rewrite alloc_ok. Qed.

Lemma set_string_print s : opt_string_ok s -> set_string (opt_text s) = (s, Ok tt).
Proof.
  intros Hs. unfold set_string. destruct s as [[|x t]|]; [by specialize (Hs [] eq_refl)| |done].
  cbn [opt_text default]. by rewrite strdup_ok.
Qed.

Lemma set_cpus_print l :
  StronglySorted Z.lt l -> Forall is_u64 l -> set_list parse_cpulist (print_cpulist l) = (l, Ok tt).
Proof.
  intros Hs Hu. destruct l as [|x l]; [done|]. unfold set_list. rewrite parse_print_cpulist by done.
  destruct (print_cpulist (x :: l)) eqn:E; [|done].
  apply (f_equal parse_cpulist) in E. by rewrite parse_print_cpulist in E.
Qed.

Lemma set_words_print ws : Forall clean ws -> set_list parse_strlist (join ws) = (ws, Ok tt).
Proof.
  intros Hw. destruct ws as [|x l]; [done|]. unfold set_list. rewrite parse_join by done.
  destruct (join (x :: l)) eqn:E; [|done]. apply (f_equal parse_strlist) in E. by rewrite parse_join in E.
Qed.

Lemma set_uint_print dst n min : min <= n < two32 -> 0 <= min -> set_uint dst (dec n) min = (n, Ok tt).
Proof.
  intros Hn Hm. assert (Hp := parse_prefix_dec n ltac:(unfold is_u64; lia)).
  unfold parse_u64_prefix, set_uint in *. destruct (negb _); [done|].
  destruct (strtoull 10 (dec n)) as [[v e] [|]]; [done|]. injection Hp as -> ->. cbn [c0].
  unfold UINT32_MAX. rewrite (proj2 (Z.ltb_ge n min)), (proj2 (Z.ltb_ge _ n)) by lia. done.
Qed.

Lemma set_all_step {A} c k v kvs n err len (set : A -> kmorph_config -> kmorph_config) x :
  config_set c k v = store set c (x, Ok tt) ->
  set_all strerror c ((k, v) :: kvs) n err len = set_all strerror (set x c) kvs (n + 1) err len.
Proof. intros E. cbn [set_all]. by rewrite E. Qed.

(** Evaluates the key comparisons of [config_set] on a known key. *)
Ltac known_key :=
  unfold config_set;
  repeat match goal with |- context [streq (str ?a) (str ?b)] =>
    let v := eval vm_compute in (streq (str a) (str b)) in change (streq (str a) (str b)) with v end;
  cbv iota.

(** One assignment of [config_pairs]. *)
Ltac key_step set x tac :=
  rewrite (set_all_step _ _ _ _ _ _ _ set x) by (known_key; f_equal; tac).

(** The assignments of [config_pairs] rebuild the configuration. *)
Lemma set_all_print c n err len :
  config_ok c -> printable c -> set_all strerror config_defaults (config_pairs c) n err len
  = (with_text None c, err, Ok tt).
Proof.
  intros [] [[Pc Pm] Ps Pw]. destruct ok_name0 as (nm & En & Hn).
  repeat (apply Forall_cons in ok_strings0 as [? ok_strings0]).
  unfold config_pairs. rewrite (set_all_step _ _ _ _ _ _ _ with_name (c_name c)).
  2:{ known_key. rewrite En. destruct nm as [|x nm]; [done|]. cbn [opt_text default id from_option]. f_equal.
      apply (set_string_print (Some (x :: nm))). by intros v [= <-]. }
  key_step with_cpus (c_cpus c) ltac:(by apply set_cpus_print).
  key_step with_memory (c_memory c) ltac:(by unfold set_number; rewrite parse_size_dec).
  key_step with_kernel (c_kernel c) ltac:(by apply set_string_print).
  key_step with_initrd (c_initrd c) ltac:(by apply set_string_print).
  key_step with_cmdline (c_cmdline c) ltac:(by apply set_string_print).
  key_step with_devices (c_devices c) ltac:(by apply set_words_print).
  key_step with_machine_cpus (c_machine_cpus c) ltac:(by apply set_cpus_print).
  key_step with_modules (c_modules c) ltac:(by apply set_words_print).
  key_step with_standby (c_standby c) ltac:(by apply set_words_print).
  key_step with_standby_files (c_standby_files c) ltac:(by apply set_words_print).
  key_step with_probe_interval_ms (c_probe_interval_ms c)
    ltac:(by unfold set_number; rewrite parse_duration_dec).
  key_step with_probe_timeouts (c_probe_timeouts c) ltac:(apply set_uint_print; lia).
  key_step with_fence_retries (c_fence_retries c) ltac:(apply set_uint_print; [done|lia]).
  key_step with_dump (c_dump c) ltac:(by apply set_string_print).
  key_step with_reset_devices (c_reset_devices c) ltac:(by destruct (c_reset_devices c)).
  key_step with_console (c_console c) ltac:(by apply set_string_print).
  key_step with_console_baud (c_console_baud c) ltac:(apply set_uint_print; lia).
  key_step with_console_login (c_console_login c) ltac:(by apply set_string_print).
  by destruct c.
Qed.

(** Every valid configuration whose strings fit on a line can be written
    as a configuration file that parses back to it: no field and no value
    is out of the parser's reach. *)
Theorem config_roundtrip c err0 errlen :
  config_ok c -> printable c -> (is_Some (c_console c) -> is_Some (c_console_login c)) ->
  exists err, config_parse strerror (print_config c) err0 errlen
    = (with_text (Some (print_config c)) c, err, Ok tt).
Proof.
  intros Hc Hp Hlogin. unfold config_parse. cbv zeta.
  assert (c_name config_defaults = Some (str "successor")) as En by (cbn; apply strdup_ok).
  rewrite En, strdup_ok, !bool_decide_eq_true_2 by eauto. cbn [negb].
  unfold print_config. rewrite config_lines_print; [|idtac|lia].
  2:{ by apply config_pairs_text. }
  rewrite set_all_print by done. cbn [is_ok andb c_console c_console_login with_text].
  destruct (bool_decide (is_Some (c_console c)) && _) eqn:E.
  { b2p. apply bool_decide_eq_true in H1. apply bool_decide_eq_false in H2. tauto. }
  eexists. reflexivity.
Qed.

End RoundTrip.

(** A configuration with every kind of value set. *)
Definition sample_config : kmorph_config :=
  mk_config (Some (str "next")) [2; 3; 5] 4294967296 (Some (str "/boot/vmlinuz")) None (Some (str "quiet splash"))
    [str "8086:1533"; str "1af4:1000"] [] [] [str "sshd"] [] 250 4 0 None false
    (Some (str "ttyS0")) 9600 (Some (str "/sbin/agetty")) None.

Lemma sample_config_ok : config_ok sample_config /\ printable sample_config.
Proof.
  assert (Hne : forall w : list Z, forallb (fun c => negb (c =? 10)) w = true -> 10 ∉ w).
  { intros w Hw Hin. rewrite forallb_forall in Hw. apply list_elem_of_In, Hw in Hin. done. }
  assert (Hcl : forall w : list Z, w <> [] -> forallb (fun c => negb (c =? ch ",")) w = true ->
    isspace (c0 w) = false -> isspace (clast w) = false -> clean w).
  { intros w Hn Hw H1 H2. split_and!; [done| |done|done]. intros Hin.
    rewrite forallb_forall in Hw. apply list_elem_of_In, Hw in Hin. by rewrite Z.eqb_refl in Hin. }
  split; constructor; cbn [c_name c_cpus c_machine_cpus c_memory c_probe_interval_ms c_probe_timeouts
    c_fence_retries c_console_baud c_devices c_modules c_standby c_standby_files c_kernel c_initrd
    c_cmdline c_dump c_console c_console_login sample_config]; unfold is_u64, is_u32; try lia;
    try (repeat constructor; lia).
  - eauto.
  - repeat (apply Forall_cons_2 || apply Forall_nil_2); by apply Hcl.
  - repeat (apply Forall_cons_2 || apply Forall_nil_2); by apply Hcl.
  - repeat (apply Forall_cons_2 || apply Forall_nil_2); intros v [= <-]; done.
  - repeat (apply Forall_cons_2 || apply Forall_nil_2); constructor; try done; by apply Hne.
  - repeat (apply Forall_cons_2 || apply Forall_nil_2); by apply Hne.
Qed.

Lemma config_roundtrip_witness :
  exists err, @config_parse alloc_always (fun _ => []) (print_config sample_config) [] 128
    = (with_text (Some (print_config sample_config)) sample_config, err, Ok tt).
Proof.
  apply (@config_roundtrip alloc_always alloc_always_ok (fun _ => []) sample_config [] 128).
  - apply sample_config_ok.
  - apply sample_config_ok.
  - intros _. eexists. reflexivity.
Defined.

Lemma config_parse_valid_witness :
  exists c, config_ok c /\ (is_Some (c_console c) -> is_Some (c_console_login c))
    /\ c_text c = Some (str "cpus = 4-6").
Proof.
  eexists. apply (@config_parse_valid alloc_always (fun _ => []) (str "cpus = 4-6") [] 128 _ []).
  vm_compute. reflexivity.
Defined.

Lemma config_parse_failure_witness :
  config_zero = config_zero \/ (EINVAL = ENOMEM /\ config_zero = @config_defaults alloc_always).
Proof.
  apply (@config_parse_failure alloc_always (fun _ => []) (str "console = ttyS0") [] 128 config_zero
           (str "console needs console_login")).
  vm_compute. reflexivity.
Defined.
