(* ===== verification/Scanf.v ===== *)
(** * The conversions of [sscanf]

    The conversions the sources use, written out as functions from the
    input to the value and the rest: white space of a format matches any
    amount of it, [%lu] and [%d] skip white space and take a sign, [%15s]
    takes up to 15 characters that are not white space. *)

From S2P Require Import Prelude Cstr.

(** ** [sscanf] *)

(** A literal of the format. *)
Definition scan_lit (lit s : list Z) : option (list Z) :=
  if starts lit s then Some (drop (length lit) s) else None.

(** [%lu], [%llu] *)
Definition scan_ulong (s : list Z) : option (Z * list Z) :=
  let '(v, rest, _) := strtoull 10 s in
  if bool_decide (rest = s) then None else Some (v, rest).

(** [%d]: a [long], saturated, stored in an [int] *)
Definition scan_int (s : list Z) : option (Z * list Z) :=
  let t := skip_space s in
  let '(neg, t) := if c0 t =? ch "-" then (true, drop 1 t)
                   else if c0 t =? ch "+" then (false, drop 1 t) else (false, t) in
  if negb (has_digit 10 t) then None else
  let '(v, rest) := digits 10 0 t in
  let v := if neg then Z.max (- v) (- 2 ^ 63) else Z.min v (2 ^ 63 - 1) in
  let w := u32 v in
  Some (if 2 ^ 31 <=? w then w - 2 ^ 32 else w, rest).

(** [%u]: an [unsigned long], stored in an [unsigned int] *)
Definition scan_uint (s : list Z) : option (Z * list Z) :=
  '(v, rest) ← scan_ulong s; Some (u32 v, rest).

(** [%x] *)
Definition scan_hex (s : list Z) : option (Z * list Z) :=
  let '(v, rest, _) := strtoull 16 s in
  if bool_decide (rest = s) then None else Some (u32 v, rest).

(** [strtoll] in base 10: the saturated value and the rest *)
Definition strtoll (s : list Z) : Z * list Z :=
  let t := skip_space s in
  let '(neg, t) := if c0 t =? ch "-" then (true, drop 1 t)
                   else if c0 t =? ch "+" then (false, drop 1 t) else (false, t) in
  if negb (has_digit 10 t) then (0, s) else
  let '(v, rest) := digits 10 0 t in
  (if neg then Z.max (- v) (- 2 ^ 63) else Z.min v (2 ^ 63 - 1), rest).

(** [%02x] of a byte *)
Definition hex2 (n : Z) : list Z := [digit_char (n / 16 mod 16); digit_char (n mod 16)].

(** [%15s] *)
Fixpoint scan_chars (n : nat) (s : list Z) : list Z * list Z :=
  match n, s with
  | S n, c :: t => if isspace c then ([], s) else let '(a, b) := scan_chars n t in (c :: a, b)
  | _, _ => ([], s)
  end.

Definition scan_word (n : nat) (s : list Z) : option (list Z * list Z) :=
  let '(w, rest) := scan_chars n (skip_space s) in
  if bool_decide (w = []) then None else Some (w, rest).

(** ** Reading back printed numbers and words *)

Lemma starts_app b t : starts b (b ++ t) = true.
Proof. apply starts_spec. eauto. Qed.

Lemma scan_lit_app lit s : scan_lit lit (lit ++ s) = Some s.
Proof. unfold scan_lit. by rewrite starts_app, drop_app_length. Qed.

Lemma strtoull_dec n rest :
  is_u64 n -> isdigit (c0 rest) = false -> strtoull 10 (dec n ++ rest) = (n, rest, false).
Proof.
  intros Hn Hr. destruct (dec_all_digits n Hn) as [[Hne F] Hv].
  rewrite strtoull_digit by (rewrite c0_app_nil by done; by destruct F).
  rewrite digits_of_app, Hv by done. unfold UINT64_MAX. destruct Hn.
  by rewrite (proj2 (Z.ltb_ge _ n)) by lia.
Qed.

Lemma dec_ne n : is_u64 n -> dec n <> [].
Proof. intros Hn. apply (dec_all_digits n Hn). Qed.

Lemma scan_ulong_dec n rest :
  is_u64 n -> isdigit (c0 rest) = false -> scan_ulong (dec n ++ rest) = Some (n, rest).
Proof.
  intros Hn Hr. unfold scan_ulong. rewrite strtoull_dec by done.
  rewrite bool_decide_eq_false_2; [done|]. intros E. apply (f_equal length) in E.
  rewrite length_app in E. assert (dec n <> []) by by apply dec_ne. destruct (dec n); [done|cbn in E; lia].
Qed.

Lemma dec_c0 n rest : is_u64 n -> isdigit (c0 (dec n ++ rest)) = true.
Proof.
  intros Hn. destruct (dec_all_digits n Hn) as [[Hne F] _]. rewrite c0_app_nil by done. by destruct F.
Qed.

Lemma dec_clast n : is_u64 n -> isspace (clast (dec n)) = false.
Proof.
  intros Hn. destruct (dec_all_digits n Hn) as [[Hne F] _]. unfold clast.
  apply Forall_rev in F. destruct F; [done|by apply isdigit_not_space].
Qed.

Lemma scan_chars_app n w rest :
  (length w <= n)%nat -> Forall (fun c => isspace c = false) w -> rest = [] \/ isspace (c0 rest) = true ->
  scan_chars n (w ++ rest) = (w, rest).
Proof.
  intros Hl Hw Hr. revert n Hl. induction Hw as [|c w Hc Hw IH]; intros n Hl; cbn [app].
  - destruct n, rest as [|c rest]; try done. cbn in *. destruct Hr as [|Hr]; [done|]. by rewrite Hr.
  - cbn in Hl. destruct n; [lia|]. cbn. rewrite Hc, IH by lia. done.
Qed.

(** A word [%<n>s] reads whole. *)
Definition scannable (n : nat) (w : list Z) : Prop :=
  w <> [] /\ (length w <= n)%nat /\ Forall (fun c => isspace c = false) w.

Lemma scan_word_app n a w rest :
  spaces a -> scannable n w -> rest = [] \/ isspace (c0 rest) = true ->
  scan_word n (a ++ w ++ rest) = Some (w, rest).
Proof.
  intros Ha (Hn & Hl & Hw) Hr. unfold scan_word. rewrite skip_space_app; [|done|].
  - rewrite scan_chars_app by done. by rewrite bool_decide_eq_false_2.
  - rewrite c0_app_nil by done. by destruct Hw.
Qed.

Lemma scan_word_start n w rest :
  scannable n w -> rest = [] \/ isspace (c0 rest) = true -> scan_word n (w ++ rest) = Some (w, rest).
Proof. intros. apply (scan_word_app n [] w rest); [constructor|done..]. Qed.

Lemma scan_int_dec n rest :
  - 2 ^ 31 <= n < 2 ^ 31 -> isdigit (c0 rest) = false -> scan_int (dec_int n ++ rest) = Some (n, rest).
Proof.
  intros Hn Hr. unfold scan_int, dec_int.
  assert (forall m, 0 <= m < two64 -> skip_space (dec m ++ rest) = dec m ++ rest
            /\ (c0 (dec m ++ rest) =? ch "-") = false /\ (c0 (dec m ++ rest) =? ch "+") = false
            /\ has_digit 10 (dec m ++ rest) = true /\ digits 10 0 (dec m ++ rest) = (m, rest)) as Hd.
  { intros m Hm. assert (Hc := dec_c0 m rest Hm). destruct (dec_all_digits m Hm) as [[_ F] Hv].
    split_and!; [by apply skip_space_digit|..|by rewrite has_digit_c0|by rewrite digits_of_app, Hv].
    - apply Z.eqb_neq. intros E. by rewrite E in Hc.
    - apply Z.eqb_neq. intros E. by rewrite E in Hc. }
  assert (forall v, - 2 ^ 31 <= v < 2 ^ 31 -> (if 2 ^ 31 <=? u32 v then u32 v - 2 ^ 32 else u32 v) = v) as Hw.
  { intros v Hv. destruct (Z.lt_ge_cases v 0) as [L|L].
    - replace (u32 v) with (v + 2 ^ 32); [case_bool; b2p; lia|]. unfold u32.
      rewrite <- (Z_mod_plus_full v 1). rewrite Z.mod_small; lia.
    - rewrite u32_small by lia. case_bool; b2p; lia. }
  destruct (Z.ltb_spec n 0) as [L|L].
  - destruct (Hd (- n)) as (_ & _ & _ & H4 & H5); [lia|]. cbn [app].
    change (skip_space (ch "-" :: dec (- n) ++ rest)) with (ch "-" :: dec (- n) ++ rest).
    cbn [c0]. rewrite Z.eqb_refl. change (drop 1 (ch "-" :: dec (- n) ++ rest)) with (dec (- n) ++ rest).
    rewrite H4, H5. cbn [negb]. rewrite Z.opp_involutive, Z.max_l by lia. by rewrite Hw.
  - destruct (Hd n) as (H1 & H2 & H3 & H4 & H5); [lia|]. rewrite H1, H2, H3, H4, H5. cbn [negb].
    rewrite Z.min_l by lia. by rewrite Hw.
Qed.


Lemma digit_char_graph d : 0 <= d < 16 ->
  let c := digit_char d in
  isspace c = false /\ c <> ch "-" /\ c <> ch "+" /\ toupper c <> ch "X" /\ c <> 0.
Proof.
  intros Hd. assert (d ∈ seqZ 0 16) as Hin by (apply elem_of_seqZ; lia). clear Hd.
  vm_compute in Hin. repeat (apply elem_of_cons in Hin as [->|Hin]; [by vm_compute|]).
  by apply not_elem_of_nil in Hin.
Qed.

Lemma scan_hex2 n rest :
  0 <= n < 256 -> has_digit 16 rest = false -> scan_hex (hex2 n ++ rest) = Some (n, rest).
Proof.
  intros Hn Hr. assert (H1 := Z.mod_pos_bound (n / 16) 16 ltac:(lia)). assert (H0 := Z.mod_pos_bound n 16 ltac:(lia)).
  set (a := n / 16 mod 16) in *. set (b := n mod 16) in *.
  assert (n = a * 16 + b) as En.
  { unfold a, b. assert (Hdm := Z.div_mod n 16 ltac:(lia)). rewrite (Z.mod_small (n / 16)); [lia|].
    split; [apply Z.div_pos; lia|apply Z.div_lt_upper_bound; lia]. }
  assert (strtoull 16 (hex2 n ++ rest) = (n, rest, false)) as E.
  { unfold hex2, strtoull. fold a b. cbn [app].
    destruct (digit_char_graph a H1) as (A1 & A2 & A3 & _). destruct (digit_char_graph b H0) as (_ & _ & _ & B4 & _).
    cbn [skip_space]. rewrite A1. cbn [c0]. rewrite (proj2 (Z.eqb_neq _ _) A2), (proj2 (Z.eqb_neq _ _) A3).
    change (cn (digit_char a :: digit_char b :: rest) 1) with (digit_char b).
    rewrite (proj2 (Z.eqb_neq _ _) B4), andb_false_r. cbn [andb has_digit].
    rewrite digit_char_val, (proj2 (Z.ltb_lt _ _)) by lia. cbn [negb].
    assert (digits 16 0 ([digit_char a; digit_char b] ++ rest) = (n, rest)) as Ed.
    { rewrite digits_app; [|repeat constructor; rewrite digit_char_val; lia|done].
      cbn [foldl]. rewrite !digit_char_val by lia. f_equal. lia. }
    cbn [app] in Ed. rewrite Ed. unfold UINT64_MAX. by rewrite (proj2 (Z.ltb_ge _ n)) by lia. }
  unfold scan_hex. rewrite E, u32_small by lia. rewrite bool_decide_eq_false_2; [done|].
  intros Er. apply (f_equal length) in Er. unfold hex2 in Er. cbn in Er. lia.
Qed.

Lemma scan_uint_dec n rest :
  0 <= n < two32 -> isdigit (c0 rest) = false -> scan_uint (dec n ++ rest) = Some (n, rest).
Proof.
  intros Hn Hr. unfold scan_uint. rewrite scan_ulong_dec by (done || unfold is_u64; lia).
  cbn [mbind option_bind]. by rewrite u32_small.
Qed.

Lemma strtoll_dec n : 0 <= n < 2 ^ 63 -> strtoll (dec n) = (n, []).
Proof.
  intros Hn. assert (is_u64 n) as Hu by (unfold is_u64; lia).
  destruct (dec_all_digits n Hu) as [[Hne F] Hv]. assert (Hc := dec_c0 n [] Hu). rewrite app_nil_r in Hc.
  unfold strtoll. rewrite skip_space_digit by done.
  rewrite (proj2 (Z.eqb_neq (c0 (dec n)) (ch "-"))), (proj2 (Z.eqb_neq (c0 (dec n)) (ch "+")))
    by (intros E; by rewrite E in Hc).
  rewrite has_digit_c0, Hc. cbn [negb]. rewrite <- (app_nil_r (dec n)), digits_of_app, Hv by done.
  by rewrite Z.min_l by lia.
Qed.

(** A number read after white space. *)
Lemma scan_ulong_space s : isdigit (c0 s) = true -> scan_ulong (32 :: s) = scan_ulong s.
Proof.
  intros Hd. unfold scan_ulong, strtoull. change (skip_space (32 :: s)) with (skip_space s).
  rewrite skip_space_digit by done.
  rewrite (proj2 (Z.eqb_neq (c0 s) (ch "-"))), (proj2 (Z.eqb_neq (c0 s) (ch "+"))) by (intros E; by rewrite E in Hd).
  change (10 =? 16) with false. cbn [andb]. rewrite has_digit_c0, Hd. cbn [negb].
  assert (Hl : (length (digits 10 0 s).2 <= length s)%nat /\ (digits 10 0 s).2 <> s).
  { destruct (digits_split s) as (ds & E & _ & _ & _ & Hn). rewrite E at 2. rewrite length_app. split; [lia|].
    intros E2. apply Hn; [done|]. apply (f_equal length) in E. rewrite length_app, E2 in E.
    apply length_zero_iff_nil. lia. }
  destruct (digits 10 0 s) as [v rest]. cbn in Hl.
  case_bool; (rewrite !bool_decide_eq_false_2; [done|tauto|intros E; subst; cbn in Hl; lia]).
Qed.

Lemma scan_uint_space_dec n rest :
  0 <= n < two32 -> isdigit (c0 rest) = false -> scan_uint (32 :: dec n ++ rest) = Some (n, rest).
Proof.
  intros Hn Hr. unfold scan_uint. rewrite scan_ulong_space by (apply dec_c0; unfold is_u64; lia).
  by apply scan_uint_dec.
Qed.
