(* ===== verification/Request.v ===== *)
(** * lib/request.c: the line protocol

    The requests kmorph sends to kmorphd and the replies. *)

From S2P Require Import Prelude Cstr Scanf.

Inductive request_kind : Type := REQUEST_STATUS | REQUEST_HANDOVER | REQUEST_NETWORK.

#[export] Instance request_kind_eq_dec : EqDecision request_kind.
Proof. solve_decision. Defined.

Record status_reply : Type := {
  state : list Z;
  predecessor : list Z;
  last_probe_ms : Z;
  last_error : Z
}.

(** ** Requests *)

Definition is_newline (c : Z) : bool := (c =? 10) || (c =? 13).

Fixpoint skip_newline (s : list Z) : list Z :=
  match s with c :: t => if is_newline c then skip_newline t else s | [] => [] end.

Definition line_len (line : list Z) : nat := length (skip_newline (rev line)).

Definition NETWORK_MAX : Z := 1048576.

(** [sscanf(line, "network %lu%n", &payload, &end) == 1] *)
Definition scan_network (line : list Z) : option (Z * nat) :=
  s ← scan_lit (str "network") line;
  '(v, rest) ← scan_ulong (skip_space s);
  Some (v, (length line - length rest)%nat).

Definition request_parse (line : list Z) : result (request_kind * Z) :=
  let n := line_len line in
  if (n =? 6)%nat && starts (str "status") line then Ok (REQUEST_STATUS, 0)
  else if (n =? 8)%nat && starts (str "handover") line then Ok (REQUEST_HANDOVER, 0)
  else match scan_network line with
       | Some (payload, e) =>
           if (e =? n)%nat && (payload <=? NETWORK_MAX) then Ok (REQUEST_NETWORK, payload)
           else Err EINVAL
       | None => Err EINVAL
       end.

(** [snprintf] into a buffer of [len] bytes: the text, or no room. *)
Definition format (len : Z) (s : list Z) : result (list Z) :=
  if len <=? Z.of_nat (length s) then Err ENOSPC else Ok s.

Definition request_format_network (n len : Z) : result (list Z) :=
  format len (str "network " ++ dec n ++ [10]).

Definition request_format_status (r : status_reply) (len : Z) : result (list Z) :=
  format len (str "ok " ++ state r ++ str " predecessor=" ++ predecessor r
              ++ str " last_probe=" ++ dec (last_probe_ms r) ++ str "ms error="
              ++ dec_int (last_error r) ++ [10]).

Definition request_parse_status (line : list Z) : result status_reply :=
  let scan :=
    s ← scan_lit (str "ok") line;
    '(st, s) ← scan_word 15 s;
    s ← scan_lit (str "predecessor=") (skip_space s);
    '(pred, s) ← scan_word 15 s;
    s ← scan_lit (str "last_probe=") (skip_space s);
    '(ms, s) ← scan_ulong s;
    s ← scan_lit (str "ms") s;
    s ← scan_lit (str "error=") (skip_space s);
    '(err, s) ← scan_int s;
    Some {| state := st; predecessor := pred; last_probe_ms := ms; last_error := err |} in
  match scan with Some r => Ok r | None => Err EINVAL end.

Definition format_ack (ok : list Z) (reason : option (list Z)) (len : Z) : result (list Z) :=
  match reason with
  | Some reason => format len (str "refused " ++ reason ++ [10])
  | None => format len (str "ok " ++ ok ++ [10])
  end.

(** The reason buffer (as found: [reason], of [len] bytes) and the return
    code. *)
Definition parse_ack (ok line reason : list Z) (len : Z) : list Z * result unit :=
  let n := line_len line in
  if (n =? length ok + 3)%nat && starts (str "ok ") line
     && bool_decide (take (n - 3) (drop 3 line) = take (n - 3) ok)
  then (reason, Ok tt)
  else if (8 <? n)%nat && starts (str "refused ") line
  then (snprintf reason len (take (n - 8) (drop 8 line)), Err EBUSY)
  else (reason, Err EINVAL).

Definition request_format_handover (reason : option (list Z)) (len : Z) : result (list Z) :=
  format_ack (str "fencing") reason len.
Definition request_parse_handover (line reason : list Z) (len : Z) : list Z * result unit :=
  parse_ack (str "fencing") line reason len.
Definition request_format_network_reply (reason : option (list Z)) (len : Z) : result (list Z) :=
  format_ack (str "network") reason len.
Definition request_parse_network_reply (line reason : list Z) (len : Z) : list Z * result unit :=
  parse_ack (str "network") line reason len.

(** ** Lines *)

Definition newlines (s : list Z) : Prop := Forall (fun c => is_newline c = true) s.

Lemma skip_newline_split s :
  exists a, s = a ++ skip_newline s /\ newlines a /\ is_newline (c0 (skip_newline s)) = false.
Proof.
  induction s as [|c t (a & E & Ha & Hs)]; cbn [skip_newline].
  { exists []. split_and!; [done|constructor|done]. }
  destruct (is_newline c) eqn:C; [|exists []; split_and!; [done|constructor|done]].
  exists (c :: a). split; [by rewrite <- app_comm_cons, <- E|]. split; [by constructor|done].
Qed.

Lemma skip_newline_app a s : newlines a -> is_newline (c0 s) = false -> skip_newline (a ++ s) = s.
Proof.
  intros Ha Hs. induction Ha as [|c a Hc Ha IH]; cbn.
  - destruct s as [|c s]; [done|]. cbn in *. by rewrite Hs.
  - by rewrite Hc.
Qed.

(** A line is its text and the newline characters after it. *)
Lemma line_split line :
  exists body nl, line = body ++ nl /\ newlines nl /\ line_len line = length body.
Proof.
  destruct (skip_newline_split (rev line)) as (a & E & Ha & _).
  exists (rev (skip_newline (rev line))), (rev a). rewrite <- rev_app_distr, <- E, rev_involutive.
  split; [done|]. split; [by apply Forall_rev|]. unfold line_len. by rewrite length_rev.
Qed.

Lemma line_len_app body nl :
  newlines nl -> is_newline (clast body) = false -> line_len (body ++ nl) = length body.
Proof.
  intros Hn Hb. unfold line_len. rewrite rev_app_distr, skip_newline_app; [by rewrite length_rev| |done].
  by apply Forall_rev.
Qed.

Lemma exact_line w line :
  is_newline (clast w) = false ->
  ((line_len line =? length w)%nat && starts w line = true <-> exists nl, newlines nl /\ line = w ++ nl).
Proof.
  intros Hw. rewrite andb_true_iff, Nat.eqb_eq, starts_spec. split.
  - intros [Hl [t Ht]]. destruct (line_split line) as (body & nl & E & Hn & Hb).
    exists nl. split; [done|]. rewrite E in Ht. apply app_inj_1 in Ht as [-> _]; [done|lia].
  - intros (nl & Hn & ->). rewrite line_len_app by done. eauto.
Qed.

Lemma scan_network_starts line p : scan_network line = Some p -> starts (str "network") line = true.
Proof. unfold scan_network, scan_lit. destruct (starts _ _); [done|discriminate]. Qed.

(** The daemon takes a line for a status or a handover request exactly
    when it is that word, complete, followed by newline characters only, and
    for a network request only when it starts with that word and announces
    at most [NETWORK_MAX] bytes: no other input can start a handover. *)
Theorem request_parse_exact line kind len :
  request_parse line = Ok (kind, len) <->
  match kind with
  | REQUEST_STATUS => len = 0 /\ exists nl, newlines nl /\ line = str "status" ++ nl
  | REQUEST_HANDOVER => len = 0 /\ exists nl, newlines nl /\ line = str "handover" ++ nl
  | REQUEST_NETWORK => len <= NETWORK_MAX /\ scan_network line = Some (len, line_len line)
  end.
Proof.
  assert (Hs := exact_line (str "status") line eq_refl). assert (Hh := exact_line (str "handover") line eq_refl).
  change (length (str "status")) with 6%nat in Hs. change (length (str "handover")) with 8%nat in Hh.
  unfold request_parse. cbv zeta.
  destruct ((line_len line =? 6)%nat && _) eqn:E1.
  { destruct (proj1 Hs eq_refl) as (nl & Hn & ->). split; [intros [= <- <-]; eauto|].
    destruct kind; [by intros [-> _]|by intros (_ & ? & _ & ?)|].
    intros (_ & Hsc). by apply scan_network_starts in Hsc. }
  destruct ((line_len line =? 8)%nat && _) eqn:E2.
  { destruct (proj1 Hh eq_refl) as (nl & Hn & ->). split; [intros [= <- <-]; eauto|].
    destruct kind; [by intros (_ & ? & _ & ?)|by intros [-> _]|].
    intros (_ & Hsc). by apply scan_network_starts in Hsc. }
  destruct (scan_network line) as [[v e]|] eqn:Es; [destruct ((e =? line_len line)%nat && (v <=? NETWORK_MAX)) eqn:Ev|].
  - apply andb_prop in Ev as [He Hv]. apply Nat.eqb_eq in He as ->. apply Z.leb_le in Hv.
    destruct kind; split; try (by intros [= <-]); try tauto.
    + intros (_ & Hx). by apply Hs in Hx.
    + intros (_ & Hx). by apply Hh in Hx.
    + by intros (_ & [= ->]).
  - apply andb_false_iff in Ev. destruct kind; split; try done.
    + intros (_ & Hx). by apply Hs in Hx.
    + intros (_ & Hx). by apply Hh in Hx.
    + intros (Hl & [= -> ->]). rewrite Nat.eqb_refl in Ev. destruct Ev as [|Ev]; [done|]. b2p. lia.
  - destruct kind; split; try done.
    + intros (_ & Hx). by apply Hs in Hx.
    + intros (_ & Hx). by apply Hh in Hx.
    + by intros (_ & Hx).
Qed.

(** ** Reading back what was formatted *)

Lemma is_newline_space c : isspace c = false -> is_newline c = false.
Proof. unfold isspace, is_newline. intros. repeat case_bool; b2p; lia. Qed.

Lemma format_ok len s r : format len s = Ok r -> r = s.
Proof. unfold format. case_bool; [done|]. by intros [= <-]. Qed.

(** The network request kmorph formats is read back by the daemon with
    the same payload length, and refused exactly when the length is over
    the limit. *)
Theorem request_network_roundtrip n buflen line :
  is_u64 n -> request_format_network n buflen = Ok line ->
  request_parse line = if n <=? NETWORK_MAX then Ok (REQUEST_NETWORK, n) else Err EINVAL.
Proof.
  intros Hn ->%format_ok. assert (Hne := dec_ne n Hn).
  assert (line_len (str "network " ++ dec n ++ [10]) = length (str "network " ++ dec n)) as El.
  { rewrite app_assoc. apply line_len_app; [by repeat constructor|].
    unfold clast. rewrite rev_app_distr, c0_app_nil.
    - by apply is_newline_space, dec_clast.
    - intros E. apply (f_equal (@rev Z)) in E. by rewrite rev_involutive in E. }
  unfold request_parse. cbv zeta. rewrite El.
  change (starts (str "status") _) with false. change (starts (str "handover") _) with false.
  rewrite !andb_false_r. unfold scan_network.
  change (str "network " ++ dec n ++ [10]) with (str "network" ++ [32] ++ dec n ++ [10]).
  rewrite scan_lit_app. cbn [mbind option_bind].
  rewrite (skip_space_app [32]); [|by repeat constructor|by apply isdigit_not_space, dec_c0].
  rewrite scan_ulong_dec by done. cbn [mbind option_bind].
  replace (Nat.sub (length (str "network" ++ [32] ++ dec n ++ [10])) (length [10])) with (length (str "network " ++ dec n))
    by (rewrite !length_app; cbn; lia).
  by rewrite Nat.eqb_refl.
Qed.

Lemma request_network_roundtrip_witness :
  request_parse (str "network 512" ++ [10]) = Ok (REQUEST_NETWORK, 512).
Proof. exact (request_network_roundtrip 512 64 _ ltac:(unfold is_u64; lia) eq_refl). Defined.

(** The status line the daemon formats is read back by kmorph with every
    field intact, for any state and probe names that fit their 16-byte
    fields, any 64-bit age and any [int] error. *)
Theorem request_status_roundtrip r len line :
  scannable 15 (state r) -> scannable 15 (predecessor r) -> is_u64 (last_probe_ms r) ->
  - 2 ^ 31 <= last_error r < 2 ^ 31 -> request_format_status r len = Ok line ->
  request_parse_status line = Ok r.
Proof.
  intros Hs Hp Hm He ->%format_ok. destruct r as [st pr ms er]. cbn [state predecessor last_probe_ms last_error] in *.
  unfold request_parse_status. cbv zeta.
  change (str "ok " ++ ?x) with (str "ok" ++ [32] ++ x). rewrite scan_lit_app. cbn [mbind option_bind].
  rewrite scan_word_app; [|by repeat constructor|done|by right]. cbn [mbind option_bind].
  change (str " predecessor=" ++ ?x) with ([32] ++ str "predecessor=" ++ x).
  rewrite skip_space_app; [|by repeat constructor|done]. rewrite scan_lit_app. cbn [mbind option_bind].
  rewrite scan_word_start; [|done|by right]. cbn [mbind option_bind].
  change (str " last_probe=" ++ ?x) with ([32] ++ str "last_probe=" ++ x).
  rewrite skip_space_app; [|by repeat constructor|done]. rewrite scan_lit_app. cbn [mbind option_bind].
  rewrite scan_ulong_dec by done. cbn [mbind option_bind].
  change (str "ms error=" ++ ?x) with (str "ms" ++ [32] ++ str "error=" ++ x).
  rewrite scan_lit_app. cbn [mbind option_bind].
  rewrite skip_space_app; [|by repeat constructor|done]. rewrite scan_lit_app. cbn [mbind option_bind].
  by rewrite scan_int_dec by done.
Qed.

Definition sample_reply : status_reply :=
  {| state := str "armed"; predecessor := str "alive"; last_probe_ms := 37; last_error := -110 |}.

Lemma request_status_roundtrip_witness :
  request_parse_status (str "ok armed predecessor=alive last_probe=37ms error=-110" ++ [10]) = Ok sample_reply.
Proof.
  apply (request_status_roundtrip sample_reply 128); cbn; unfold scannable, is_u64;
    first [lia|reflexivity|split_and!; [done|cbn; lia|by repeat constructor]].
Defined.

Lemma parse_ack_format ok reason len line buf blen :
  is_newline (clast ok) = false -> ok <> [] ->
  (forall why, reason = Some why -> why <> [] /\ is_newline (clast why) = false) ->
  format_ack ok reason len = Ok line ->
  parse_ack ok line buf blen =
    match reason with
    | None => (buf, Ok tt)
    | Some why => (snprintf buf blen why, Err EBUSY)
    end.
Proof.
  intros Ho Hon Hr. assert (Hnl : newlines [10]) by by repeat constructor.
  assert (Hlast : forall a b, b <> [] -> clast (a ++ b) = clast b).
  { intros a b Hb. unfold clast. rewrite rev_app_distr. apply c0_app_nil.
    intros E. apply (f_equal (@rev Z)) in E. by rewrite rev_involutive in E. }
  destruct reason as [why|]; cbn [format_ack]; intros ->%format_ok; unfold parse_ack; cbv zeta.
  - destruct (Hr why eq_refl) as [Hw1 Hw2]. rewrite app_assoc, line_len_app by (done || by rewrite Hlast).
    rewrite <- app_assoc. change (starts (str "ok ") (str "refused " ++ why ++ [10])) with false.
    rewrite andb_false_r. cbn [andb]. rewrite starts_app, andb_true_r.
    rewrite length_app. change (length (str "refused ")) with 8%nat.
    assert (0 < length why)%nat by (destruct why; [done|cbn; lia]).
    rewrite (proj2 (Nat.ltb_lt _ _)) by lia. do 2 f_equal.
    replace (8 + length why - 8)%nat with (length why) by lia.
    change (drop 8 (str "refused " ++ why ++ [10])) with (why ++ [10]). by rewrite take_app_length.
  - rewrite app_assoc, line_len_app by (done || by rewrite Hlast). rewrite <- app_assoc, starts_app, length_app.
    change (length (str "ok ")) with 3%nat. replace (3 + length ok)%nat with (length ok + 3)%nat by lia.
    rewrite Nat.eqb_refl. cbn [andb]. replace (length ok + 3 - 3)%nat with (length ok) by lia.
    change (drop 3 (str "ok " ++ ok ++ [10])) with (ok ++ [10]).
    rewrite take_app_length, take_ge, bool_decide_eq_true_2 by (done || lia). done.
Qed.

(** An acknowledgement formatted by the daemon is understood by kmorph:
    accepted means accepted, and a refusal comes through with its reason
    (as much of it as the caller's buffer holds). *)
Theorem request_ack_roundtrip reason len line buf blen :
  (forall why, reason = Some why -> why <> [] /\ is_newline (clast why) = false) ->
  let understood := match reason with
                    | None => (buf, Ok tt)
                    | Some why => (snprintf buf blen why, Err EBUSY)
                    end in
  (request_format_handover reason len = Ok line -> request_parse_handover line buf blen = understood)
  /\ (request_format_network_reply reason len = Ok line -> request_parse_network_reply line buf blen = understood).
Proof. intros Hr. split; by apply parse_ack_format. Qed.

Lemma request_ack_roundtrip_witness :
  request_parse_handover (str "refused not armed" ++ [10]) [] 64 = (str "not armed", Err EBUSY).
Proof.
  refine (proj1 (request_ack_roundtrip (Some (str "not armed")) 64 _ [] 64 _) _); [|reflexivity].
  intros why [= <-]. split; [discriminate|reflexivity].
Defined.

Lemma request_parse_len line kind n : request_parse line = Ok (kind, n) -> 0 <= n <= NETWORK_MAX.
Proof.
  unfold request_parse, NETWORK_MAX. cbv zeta. case_bool; [intros [= <- <-]; lia|]. case_bool; [intros [= <- <-]; lia|].
  unfold scan_network, scan_ulong. destruct (scan_lit _ _) as [s|]; cbn [mbind option_bind]; [|done].
  assert (Hn := strtoull_nonneg 10 (skip_space s) ltac:(lia)). destruct (strtoull 10 _) as [[v r] b]. cbn in Hn.
  case_bool; [done|]. cbn [mbind option_bind]. case_bool; [|done]. intros [= <- <-]. b2p. lia.
Qed.
