(* ===== verification/Netsnap.v ===== *)
(** * lib/netsnap.c: the network identity as text

    The snapshot's records, its text form and the parser.  Addresses are
    the bytes of the struct's 16-byte arrays.  [inet_ntop] and [inet_pton]
    belong to the resolver library; what the code relies on is the class
    [InetOk]. *)

From S2P Require Import Prelude Cstr Scanf.

(** Where the daemon keeps the identity (kmorphd/standby.h). *)
Definition STANDBY_NETWORK : list Z := str "/run/kmorph/network".

Definition AF_INET : Z := 2.
Definition AF_INET6 : Z := 10.

Definition NETSNAP_MAX_LINKS : nat := 8.
Definition NETSNAP_MAX_ADDRS : nat := 16.
Definition NETSNAP_MAX_ROUTES : nat := 32.

Record netsnap_addr : Type := mk_addr {
  a_family : Z;
  a_prefix : Z;
  a_has_brd : bool;
  a_addr : list Z;
  a_brd : list Z;
  a_valid_until : Z;
  a_preferred_until : Z
}.

Record netsnap_route : Type := mk_route {
  r_family : Z;
  r_dst_len : Z;
  r_protocol : Z;
  r_scope : Z;
  r_has_gw : bool;
  r_dst : list Z;
  r_gw : list Z;
  r_metric : Z
}.

Record netsnap_link : Type := mk_link {
  l_pci : list Z;
  l_name : list Z;
  l_mac : list Z;
  l_mtu : Z;
  l_ifindex : Z;
  l_addrs : list netsnap_addr;
  l_routes : list netsnap_route
}.

(** The first [count] entries of [links]. *)
Definition netsnap : Type := list netsnap_link.

Class Inet := {
  inet_ntop : Z -> list Z -> option (list Z);
  inet_pton : Z -> list Z -> option (list Z)
}.

Definition addr_len (family : Z) : nat := if family =? AF_INET6 then 16 else 4.

(** A zeroed 16-byte array with the bytes copied to its front. *)
Definition in16 (bytes : list Z) : list Z := bytes ++ replicate (16 - length bytes) 0.

Section Text.
Context `{Inet}.

Definition put_ip (family : Z) (addr : list Z) : result (list Z) :=
  match inet_ntop family (take (addr_len family) addr) with
  | Some text => Ok text
  | None => Err EINVAL
  end.

Definition get_ip (text : list Z) : result (Z * list Z) :=
  let family := match split_at (ch ":") text with (_, Some _) => AF_INET6 | (_, None) => AF_INET end in
  match inet_pton family text with
  | Some addr => Ok (family, in16 addr)
  | None => Err EINVAL
  end.

Definition get_prefix (text : list Z) : result (Z * list Z * Z) :=
  match split_at (ch "/") text with
  | (_, None) => Err EINVAL
  | (ip, Some slash) =>
      let '(n, e, _) := strtoull 10 (drop 1 slash) in
      if negb (c0 e =? 0) then Err EINVAL else
      let? (family, addr) := get_ip ip in
      if Z.of_nat (addr_len family) * 8 <? n then Err EINVAL else Ok (family, addr, n)
  end.

Definition put_until (until : Z) : list Z :=
  if until =? 0 then str "forever" else dec_int until.

Definition get_until (text : list Z) : result Z :=
  if streq text (str "forever") then Ok 0 else
  let '(until, e) := strtoll text in
  if negb (c0 e =? 0) || (until <=? 0) then Err EINVAL else Ok until.

(** The text so far has [*off] characters of the buffer's [len]. *)
Definition append (len : Z) (out s : list Z) : result (list Z) :=
  if len - Z.of_nat (length out) <=? Z.of_nat (length s) then Err ENOSPC else Ok (out ++ s).

Definition mac_text (m : list Z) : list Z :=
  match m with
  | [] => []
  | b :: m => hex2 b ++ concat (map (fun b => ch ":" :: hex2 b) m)
  end.

Definition format_addr (len : Z) (pci : list Z) (out : list Z) (ad : netsnap_addr) : result (list Z) :=
  let? a := put_ip (a_family ad) (a_addr ad) in
  let? b := (if a_has_brd ad then put_ip (a_family ad) (a_brd ad) else Ok (str "-")) in
  append len out (str "addr " ++ pci ++ str " " ++ a ++ str "/" ++ dec (a_prefix ad) ++ str " " ++ b
                  ++ str " " ++ put_until (a_valid_until ad)
                  ++ str " " ++ put_until (a_preferred_until ad) ++ [10]).

Definition format_route (len : Z) (pci : list Z) (out : list Z) (r : netsnap_route) : result (list Z) :=
  let? a := put_ip (r_family r) (r_dst r) in
  let? b := (if r_has_gw r then put_ip (r_family r) (r_gw r) else Ok (str "-")) in
  append len out (str "route " ++ pci ++ str " " ++ a ++ str "/" ++ dec (r_dst_len r) ++ str " " ++ b
                  ++ str " " ++ dec (r_metric r) ++ str " " ++ dec (r_protocol r)
                  ++ str " " ++ dec (r_scope r) ++ [10]).

(** A loop that stops at the first error. *)
Fixpoint each {A} (f : list Z -> A -> result (list Z)) (out : list Z) (l : list A) : result (list Z) :=
  match l with
  | [] => Ok out
  | x :: l => let? out := f out x in each f out l
  end.

Definition format_link (len : Z) (out : list Z) (l : netsnap_link) : result (list Z) :=
  let? out := append len out (str "link " ++ l_pci l ++ str " " ++ l_name l ++ str " "
                              ++ mac_text (l_mac l) ++ str " " ++ dec (l_mtu l) ++ [10]) in
  let? out := each (format_addr len (l_pci l)) out (l_addrs l) in
  each (format_route len (l_pci l)) out (l_routes l).

Definition netsnap_format (s : netsnap) (len : Z) : result (list Z) := each (format_link len) [] s.

(** ** The parser *)

(** The index of a link, in place of the pointer to it. *)
Fixpoint link_by_pci (s : netsnap) (pci : list Z) : option nat :=
  match s with
  | [] => None
  | l :: s => if streq (l_pci l) pci then Some O else S <$> link_by_pci s pci
  end.

(** [%x:%x:...]: [n] more bytes, each after a colon *)
Fixpoint scan_mac (n : nat) (s : list Z) : option (list Z * list Z) :=
  match n with
  | O => Some ([], s)
  | S n =>
      s ← scan_lit (str ":") s;
      '(b, s) ← scan_hex s;
      '(m, s) ← scan_mac n s;
      Some (b :: m, s)
  end.

Definition scan_link (rest : list Z) : option (list Z * list Z * Z) :=
  '(name, s) ← scan_word 15 rest;
  '(b, s) ← scan_hex s;
  '(m, s) ← scan_mac 5 s;
  '(mtu, s) ← scan_uint s;
  Some (name, b :: m, mtu).

Definition parse_link (s : netsnap) (pci rest : list Z) : result netsnap :=
  if (length s =? NETSNAP_MAX_LINKS)%nat || bool_decide (is_Some (link_by_pci s pci)) || (16 <=? length pci)%nat
  then Err EINVAL else
  match scan_link rest with
  | None => Err EINVAL
  | Some (name, m, mtu) => Ok (s ++ [mk_link pci name (map (fun b => b mod 256) m) mtu 0 [] []])
  end.

Definition scan_addr (rest : list Z) : option (list Z * list Z * list Z * list Z) :=
  '(addr, s) ← scan_word 63 rest;
  '(brd, s) ← scan_word 63 s;
  '(valid, s) ← scan_word 23 s;
  '(pref, s) ← scan_word 23 s;
  Some (addr, brd, valid, pref).

Definition parse_addr (l : netsnap_link) (rest : list Z) : result netsnap_link :=
  if (length (l_addrs l) =? NETSNAP_MAX_ADDRS)%nat then Err EINVAL else
  match scan_addr rest with
  | None => Err EINVAL
  | Some (addr, brd, valid, pref) =>
      let? (family, a, prefix) := get_prefix addr in
      let? valid := get_until valid in
      let? pref := get_until pref in
      let? (has_brd, b) :=
        (if streq brd (str "-") then Ok (false, in16 [])
         else let? (fam, b) := get_ip brd in
              if negb (fam =? family) then Err EINVAL else Ok (true, b)) in
      Ok (mk_link (l_pci l) (l_name l) (l_mac l) (l_mtu l) (l_ifindex l)
            (l_addrs l ++ [mk_addr family prefix has_brd a b valid pref]) (l_routes l))
  end.

Definition scan_route (rest : list Z) : option (list Z * list Z * Z * Z * Z) :=
  '(dst, s) ← scan_word 63 rest;
  '(gw, s) ← scan_word 63 s;
  '(metric, s) ← scan_uint s;
  '(protocol, s) ← scan_uint s;
  '(scope, s) ← scan_uint s;
  Some (dst, gw, metric, protocol, scope).

Definition parse_route (l : netsnap_link) (rest : list Z) : result netsnap_link :=
  if (length (l_routes l) =? NETSNAP_MAX_ROUTES)%nat then Err EINVAL else
  match scan_route rest with
  | None => Err EINVAL
  | Some (dst, gw, metric, protocol, scope) =>
      if (255 <? protocol) || (255 <? scope) then Err EINVAL else
      let? (family, d, dst_len) := get_prefix dst in
      let? (has_gw, g) :=
        (if streq gw (str "-") then Ok (false, in16 [])
         else let? (fam, g) := get_ip gw in
              if negb (fam =? family) then Err EINVAL else Ok (true, g)) in
      Ok (mk_link (l_pci l) (l_name l) (l_mac l) (l_mtu l) (l_ifindex l) (l_addrs l)
            (l_routes l ++ [mk_route family dst_len protocol scope has_gw d g metric]))
  end.

(** [sscanf(line, "%7s %31s %n", kind, pci, &skip) == 2]: the two words and
    [line + skip] *)
Definition scan_head (line : list Z) : option (list Z * list Z * list Z) :=
  '(kind, s) ← scan_word 7 line;
  '(pci, s) ← scan_word 31 s;
  Some (kind, pci, skip_space s).

Definition parse_line (s : netsnap) (line : list Z) : result netsnap :=
  match scan_head line with
  | None => Err EINVAL
  | Some (kind, pci, rest) =>
      if streq kind (str "link") then parse_link s pci rest else
      match link_by_pci s pci with
      | None => Err EINVAL
      | Some i =>
          match s !! i with
          | None => Err EINVAL
          | Some l =>
              let? l := (if streq kind (str "addr") then parse_addr l rest
                         else if streq kind (str "route") then parse_route l rest
                         else Err EINVAL) in
              Ok (<[i := l]> s)
          end
      end
  end.

(** The [while] loop: each turn takes at least a character; a line is cut
    to the 255 characters its buffer holds. *)
Fixpoint netsnap_lines (fuel : nat) (p : list Z) (s : netsnap) : result netsnap :=
  match fuel, p with
  | O, _ | _, [] => Ok s
  | S fuel, _ =>
      let '(text, next) := split_at 10 p in
      let line := take 255 text in
      let p := match next with Some next => drop 1 next | None => [] end in
      if c0 line =? 0 then netsnap_lines fuel p s
      else let? s := parse_line s line in netsnap_lines fuel p s
  end.

Definition netsnap_parse (text : list Z) : result netsnap := netsnap_lines (length text) text [].

End Text.

(** ** What the resolver library promises *)

Definition is_byte (b : Z) : Prop := 0 <= b < 256.

Definition known_family (family : Z) : Prop := family = AF_INET \/ family = AF_INET6.

(** The text of an address: no white space and no slash, at most
    [INET6_ADDRSTRLEN - 1] characters, a colon exactly for IPv6. *)
Record ip_text (family : Z) (t : list Z) : Prop := {
  ip_ne : t <> [] /\ t <> str "-";
  ip_len : (length t <= 45)%nat;
  ip_graph : Forall (fun c => isspace c = false /\ c <> 0) t;
  ip_slash : ch "/" ∉ t;
  ip_colon : ch ":" ∈ t <-> family = AF_INET6
}.

(** [inet_ntop] prints every address of a known family, and [inet_pton]
    reads the print back. *)
Class InetOk `{Inet} : Prop := inet_ok : forall family bytes,
  known_family family -> length bytes = addr_len family -> Forall is_byte bytes ->
  exists t, inet_ntop family bytes = Some t /\ ip_text family t /\ inet_pton family t = Some bytes.

(** ** Snapshots that can be written down *)

Definition ip_bytes (family : Z) (a : list Z) : Prop :=
  exists bytes, a = in16 bytes /\ length bytes = addr_len family /\ Forall is_byte bytes.

Record addr_ok (a : netsnap_addr) : Prop := {
  ad_family : known_family (a_family a);
  ad_prefix : 0 <= a_prefix a <= Z.of_nat (addr_len (a_family a)) * 8;
  ad_addr : ip_bytes (a_family a) (a_addr a);
  ad_brd : if a_has_brd a then ip_bytes (a_family a) (a_brd a) else a_brd a = in16 [];
  ad_until : 0 <= a_valid_until a < 2 ^ 63 /\ 0 <= a_preferred_until a < 2 ^ 63
}.

Record route_ok (r : netsnap_route) : Prop := {
  rt_family : known_family (r_family r);
  rt_prefix : 0 <= r_dst_len r <= Z.of_nat (addr_len (r_family r)) * 8;
  rt_dst : ip_bytes (r_family r) (r_dst r);
  rt_gw : if r_has_gw r then ip_bytes (r_family r) (r_gw r) else r_gw r = in16 [];
  rt_bytes : is_byte (r_protocol r) /\ is_byte (r_scope r);
  rt_metric : 0 <= r_metric r < two32
}.

Record link_ok (l : netsnap_link) : Prop := {
  lk_pci : scannable 15 (l_pci l);
  lk_name : scannable 15 (l_name l);
  lk_mac : length (l_mac l) = 6%nat /\ Forall is_byte (l_mac l);
  lk_mtu : 0 <= l_mtu l < two32;
  lk_addrs : (length (l_addrs l) <= NETSNAP_MAX_ADDRS)%nat /\ Forall addr_ok (l_addrs l);
  lk_routes : (length (l_routes l) <= NETSNAP_MAX_ROUTES)%nat /\ Forall route_ok (l_routes l)
}.

(** What the arrays of [struct netsnap] hold; two interfaces may sit behind
    one PCI function. *)
Record snap_ok (s : netsnap) : Prop := {
  sn_count : (length s <= NETSNAP_MAX_LINKS)%nat;
  sn_links : Forall link_ok s
}.

(** The interface index is the predecessor's and is not written down. *)
Definition clear_ifindex (l : netsnap_link) : netsnap_link :=
  mk_link (l_pci l) (l_name l) (l_mac l) (l_mtu l) 0 (l_addrs l) (l_routes l).

Section RoundTrip.
Context `{InetOk}.

Lemma take_in16 n bytes : length bytes = n -> take n (in16 bytes) = bytes.
Proof. intros <-. unfold in16. apply take_app_length. Qed.

Lemma put_ip_ok family a t :
  known_family family -> ip_bytes family a -> put_ip family a = Ok t -> ip_text family t /\ get_ip t = Ok (family, a).
Proof.
  intros Hf (bytes & -> & Hl & Hb). unfold put_ip, get_ip. rewrite take_in16 by done.
  destruct (inet_ok family bytes Hf Hl Hb) as (t' & -> & Ht & Hp). intros [= ->]. split; [done|].
  assert (Hs := split_at_spec (ch ":") t). destruct (ip_colon _ _ Ht) as [H1 H2].
  destruct (split_at (ch ":") t) as [a [r|]].
  - destruct Hs as (-> & _ & u & ->). replace AF_INET6 with family; [by rewrite Hp|].
    apply H1, elem_of_app. right. by left.
  - destruct Hs as (_ & Hn). replace AF_INET with family; [by rewrite Hp|].
    destruct Hf as [|Hf]; [done|]. by apply H2 in Hf.
Qed.

Lemma get_prefix_ok family a n t :
  ip_text family t -> get_ip t = Ok (family, a) -> 0 <= n <= Z.of_nat (addr_len family) * 8 ->
  get_prefix (t ++ str "/" ++ dec n) = Ok (family, a, n).
Proof.
  intros Ht Hg Hn. unfold get_prefix. change (str "/" ++ dec n) with (ch "/" :: dec n).
  rewrite split_at_some by apply (ip_slash _ _ Ht). change (drop 1 (ch "/" :: dec n)) with (dec n).
  assert (is_u64 n) as Hu by (unfold is_u64, addr_len in *; destruct (family =? AF_INET6); lia).
  rewrite <- (app_nil_r (dec n)), strtoull_dec by done. cbn [c0].
  change (negb (0 =? 0)) with false. cbv iota. rewrite Hg. by rewrite (proj2 (Z.ltb_ge _ _)) by lia.
Qed.

Lemma put_until_ok u : 0 <= u < 2 ^ 63 -> get_until (put_until u) = Ok u /\ scannable 23 (put_until u).
Proof.
  intros Hu. unfold put_until. destruct (Z.eqb_spec u 0) as [->|Hne].
  { split; [done|]. split_and!; [done|cbn; lia|by repeat constructor]. }
  unfold dec_int. rewrite (proj2 (Z.ltb_ge u 0)) by lia.
  assert (is_u64 u) as Hx by (unfold is_u64; lia). destruct (dec_all_digits u Hx) as [[Hn F] _].
  split; [|split_and!; [done| |]].
  - unfold get_until, streq. rewrite bool_decide_eq_false_2, strtoll_dec by
      (lia || intros E; rewrite E in F; by inversion F). cbn [c0].
    change (negb (0 =? 0)) with false. cbn [orb]. by rewrite (proj2 (Z.leb_gt u 0)) by lia.
  - etrans; [apply (dec_length 20)|]; lia.
  - eapply Forall_impl; [exact F|]. apply isdigit_not_space.
Qed.

Lemma append_ok len out s out' : append len out s = Ok out' -> out' = out ++ s.
Proof. unfold append. case_bool; [done|]. by intros [= <-]. Qed.

(** Reading the text [p] takes the parser from [s] to [s']. *)
Definition reads (s : netsnap) (p : list Z) (s' : netsnap) : Prop :=
  forall fuel rest, (length (p ++ rest) <= fuel)%nat ->
  exists fuel', (length rest <= fuel')%nat /\ netsnap_lines fuel (p ++ rest) s = netsnap_lines fuel' rest s'.

Lemma reads_nil s : reads s [] s.
Proof. intros fuel rest Hf. by exists fuel. Qed.

Lemma reads_app s p s1 q s2 : reads s p s1 -> reads s1 q s2 -> reads s (p ++ q) s2.
Proof.
  intros H1 H2 fuel rest Hf. rewrite <- app_assoc in *. destruct (H1 fuel (q ++ rest) Hf) as (f1 & Hf1 & ->).
  by apply H2.
Qed.

(** A line as the buffer holds it. *)
Record line_ok (line : list Z) : Prop := {
  line_fits : (length line <= 255)%nat;
  line_nl : 10 ∉ line;
  line_start : c0 line <> 0
}.

Lemma reads_line s line s' : line_ok line -> parse_line s line = Ok s' -> reads s (line ++ [10]) s'.
Proof.
  intros [Hl Hn Hc0] Hp fuel rest Hf. rewrite <- app_assoc in *. cbn [app] in *.
  rewrite length_app in Hf. cbn in Hf. destruct fuel as [|fuel]; [lia|]. exists fuel. split; [lia|].
  cbn [netsnap_lines]. destruct (line ++ 10 :: rest) eqn:E; [by destruct line|]. rewrite <- E.
  rewrite split_at_some by done. cbv zeta. rewrite take_ge by lia.
  rewrite (proj2 (Z.eqb_neq _ _) Hc0), Hp. done.
Qed.

(** Reading the text [p] makes the parser fail. *)
Definition refuses (s : netsnap) (p : list Z) : Prop :=
  forall fuel rest, (length (p ++ rest) <= fuel)%nat -> netsnap_lines fuel (p ++ rest) s = Err EINVAL.

Lemma refuses_app s p q : refuses s p -> refuses s (p ++ q).
Proof. intros R fuel rest Hf. rewrite <- app_assoc in *. by apply R. Qed.

Lemma reads_refuses s p s1 q : reads s p s1 -> refuses s1 q -> refuses s (p ++ q).
Proof.
  intros H1 H2 fuel rest Hf. rewrite <- app_assoc in *. destruct (H1 fuel (q ++ rest) Hf) as (f1 & Hf1 & ->). by apply H2.
Qed.

Lemma refuses_line s line : line_ok line -> parse_line s line = Err EINVAL -> refuses s (line ++ [10]).
Proof.
  intros [Hl Hn Hc0] Hp fuel rest Hf. rewrite <- app_assoc in *. cbn [app] in *.
  rewrite length_app in Hf. cbn in Hf. destruct fuel as [|fuel]; [lia|].
  cbn [netsnap_lines]. destruct (line ++ 10 :: rest) eqn:E; [by destruct line|]. rewrite <- E.
  rewrite split_at_some by done. cbv zeta. rewrite take_ge by lia.
  by rewrite (proj2 (Z.eqb_neq _ _) Hc0), Hp.
Qed.

Lemma scan_word_space n w rest :
  scannable n w -> rest = [] \/ isspace (c0 rest) = true -> scan_word n (str " " ++ w ++ rest) = Some (w, rest).
Proof. intros. apply (scan_word_app n [32]); [by repeat constructor|done..]. Qed.

Lemma scan_word_end n w : scannable n w -> scan_word n (str " " ++ w) = Some (w, []).
Proof.
  intros Hw. assert (E := scan_word_space n w [] Hw (or_introl eq_refl)). by rewrite app_nil_r in E.
Qed.

Lemma scan_uint_end n : 0 <= n < two32 -> scan_uint (32 :: dec n) = Some (n, []).
Proof. intros Hn. assert (E := scan_uint_space_dec n [] Hn eq_refl). by rewrite app_nil_r in E. Qed.

Lemma scan_head_ok kind pci rest :
  scannable 7 kind -> scannable 31 pci -> isspace (c0 rest) = false ->
  scan_head (kind ++ str " " ++ pci ++ str " " ++ rest) = Some (kind, pci, rest).
Proof.
  intros Hk Hp Hr. unfold scan_head. rewrite scan_word_start by (done || by right). cbn [mbind option_bind].
  rewrite scan_word_space by (done || by right). cbn [mbind option_bind].
  by rewrite (skip_space_app (str " ")) by (done || by repeat constructor).
Qed.

Lemma scannable_le n m w : (n <= m)%nat -> scannable n w -> scannable m w.
Proof. intros Hnm (H1 & H2 & H3). split_and!; [done|lia|done]. Qed.

Lemma ip_scannable family t : ip_text family t -> scannable 45 t.
Proof.
  intros [[Hn _] Hl Hg _ _]. split_and!; [done..|]. eapply Forall_impl; [exact Hg|]. by intros c [].
Qed.

Lemma dec_scannable k n : (0 < k)%nat -> 0 <= n < 10 ^ Z.of_nat k -> n < two64 -> scannable k (dec n).
Proof.
  intros Hk Hn Hu. destruct (dec_all_digits n ltac:(lia)) as [[Hne F] _]. split_and!; [done|by apply dec_length|].
  eapply Forall_impl; [exact F|]. apply isdigit_not_space.
Qed.

Lemma scannable_app n m w v : scannable n w -> scannable m v -> scannable (n + m) (w ++ v).
Proof.
  intros (H1 & H2 & H3) (H4 & H5 & H6). split_and!.
  - by destruct w.
  - rewrite length_app. lia.
  - by apply Forall_app.
Qed.

Lemma prefix_scannable family t n :
  ip_text family t -> 0 <= n <= Z.of_nat (addr_len family) * 8 -> scannable 49 (t ++ str "/" ++ dec n).
Proof.
  intros Ht Hn. assert (n <= 128) by (unfold addr_len in Hn; destruct (family =? AF_INET6); lia).
  apply (scannable_app 45 4); [by eapply ip_scannable|]. apply (scannable_app 1 3).
  - split_and!; [done|cbn; lia|by repeat constructor].
  - apply dec_scannable; [lia|change (10 ^ Z.of_nat 3) with 1000; lia|lia].
Qed.

Lemma scan_addr_ok w1 w2 v p :
  scannable 63 w1 -> scannable 63 w2 -> scannable 23 v -> scannable 23 p ->
  scan_addr (w1 ++ str " " ++ w2 ++ str " " ++ v ++ str " " ++ p) = Some (w1, w2, v, p).
Proof.
  intros H1 H2 H3 H4. unfold scan_addr. rewrite scan_word_start by (done || by right). cbn [mbind option_bind].
  rewrite scan_word_space by (done || by right). cbn [mbind option_bind].
  rewrite scan_word_space by (done || by right). cbn [mbind option_bind].
  by rewrite scan_word_end.
Qed.

Lemma scan_route_ok w1 w2 m p c :
  scannable 63 w1 -> scannable 63 w2 -> 0 <= m < two32 -> is_byte p -> is_byte c ->
  scan_route (w1 ++ str " " ++ w2 ++ str " " ++ dec m ++ str " " ++ dec p ++ str " " ++ dec c)
  = Some (w1, w2, m, p, c).
Proof.
  unfold is_byte. intros H1 H2 H3 H4 H5. unfold scan_route.
  rewrite scan_word_start by (done || by right). cbn [mbind option_bind].
  rewrite scan_word_space by (done || by right). cbn [mbind option_bind].
  change (str " " ++ ?x) with (32 :: x).
  rewrite scan_uint_space_dec by (done || lia). cbn [mbind option_bind].
  change (str " " ++ ?x) with (32 :: x). rewrite scan_uint_space_dec by (done || lia). cbn [mbind option_bind].
  change (str " " ++ ?x) with (32 :: x). by rewrite scan_uint_end by lia.
Qed.

Lemma link_by_pci_none s pci : pci ∉ map l_pci s -> link_by_pci s pci = None.
Proof.
  induction s as [|l s IH]; cbn; [done|]. rewrite not_elem_of_cons. intros [H1 H2].
  unfold streq. rewrite bool_decide_eq_false_2 by congruence. by rewrite IH.
Qed.

Lemma link_by_pci_some s pci : pci ∈ map l_pci s -> is_Some (link_by_pci s pci).
Proof.
  induction s as [|l s IH]; cbn; [by intros ?%elem_of_nil|]. intros I. unfold streq. case_bool_decide as E; [by eexists|].
  apply elem_of_cons in I as [I|I]; [congruence|]. destruct (IH I) as [i ->]. by eexists.
Qed.

Lemma link_by_pci_last s l pci :
  pci ∉ map l_pci s -> l_pci l = pci -> link_by_pci (s ++ [l]) pci = Some (length s).
Proof.
  intros Hs Hl. induction s as [|x s IH]; cbn.
  - unfold streq. by rewrite bool_decide_eq_true_2.
  - apply not_elem_of_cons in Hs as [H1 H2]. unfold streq. rewrite bool_decide_eq_false_2 by congruence.
    by rewrite IH.
Qed.

Lemma no_nl w : Forall (fun c => isspace c = false) w -> 10 ∉ w.
Proof. intros Hw Hin. rewrite Forall_forall in Hw. by apply Hw in Hin. Qed.

Lemma no_nl_spaced w t : 10 ∉ w -> 10 ∉ t -> 10 ∉ w ++ str " " ++ t.
Proof.
  intros Hw Ht. rewrite !elem_of_app. change (str " ") with [32]. rewrite list_elem_of_singleton. intuition lia.
Qed.

Lemma length_spaced w t : length (w ++ str " " ++ t) = (length w + 1 + length t)%nat.
Proof. rewrite !length_app. cbn. lia. Qed.

(** A line made of two words and a body without newlines. *)
Lemma line_ok_intro kind pci body :
  scannable 7 kind -> c0 kind <> 0 -> scannable 31 pci -> 10 ∉ body -> (length body <= 200)%nat ->
  line_ok (kind ++ str " " ++ pci ++ str " " ++ body).
Proof.
  intros (K1 & K2 & K3) Kc (P1 & P2 & P3) Hb Hl. constructor.
  - rewrite !length_app. cbn. lia.
  - rewrite !elem_of_app. assert (H1 := no_nl _ K3). assert (H2 := no_nl _ P3).
    change (str " ") with [32]. rewrite list_elem_of_singleton. intuition lia.
  - by rewrite c0_app_nil.
Qed.

(** The broadcast or gateway column: an address, or a dash. *)
Lemma opt_ip_ok family (has : bool) b t :
  known_family family -> (if has then ip_bytes family b else b = in16 []) ->
  (if has then put_ip family b else Ok (str "-")) = Ok t ->
  scannable 45 t /\
  (if streq t (str "-") then Ok (false, in16 [])
   else let? (fam, b) := get_ip t in if negb (fam =? family) then Err EINVAL else Ok (true, b)) = Ok (has, b).
Proof.
  intros Hf Hb Ht. destruct has.
  - apply put_ip_ok in Ht as [Ht Hg]; [|done..]. split; [by eapply ip_scannable|].
    unfold streq. rewrite bool_decide_eq_false_2 by apply Ht. by rewrite Hg, Z.eqb_refl.
  - injection Ht as <-. subst. split; [|done]. split_and!; [done|cbn; lia|by repeat constructor].
Qed.

Definition add_addr (l : netsnap_link) (a : list netsnap_addr) : netsnap_link :=
  mk_link (l_pci l) (l_name l) (l_mac l) (l_mtu l) (l_ifindex l) (l_addrs l ++ a) (l_routes l).
Definition add_route (l : netsnap_link) (r : list netsnap_route) : netsnap_link :=
  mk_link (l_pci l) (l_name l) (l_mac l) (l_mtu l) (l_ifindex l) (l_addrs l) (l_routes l ++ r).

(** A line about the last link changes that link. *)
Lemma parse_line_last s l kind pci body l' :
  scannable 7 kind -> scannable 31 pci -> isspace (c0 body) = false ->
  pci ∉ map l_pci s -> l_pci l = pci -> streq kind (str "link") = false ->
  (if streq kind (str "addr") then parse_addr l body
   else if streq kind (str "route") then parse_route l body else Err EINVAL) = Ok l' ->
  parse_line (s ++ [l]) (kind ++ str " " ++ pci ++ str " " ++ body) = Ok (s ++ [l']).
Proof.
  intros Hk Hp Hb Hs Hl Hne Hr. unfold parse_line. rewrite scan_head_ok by done.
  rewrite Hne, link_by_pci_last by done. unfold netsnap in *.
  rewrite (list_lookup_middle s [] l (length s)) by done. rewrite Hr.
  f_equal. rewrite <- (Nat.add_0_r (length s)). by rewrite insert_app_r.
Qed.

Lemma scannable_no_nl n w : scannable n w -> 10 ∉ w.
Proof. intros (_ & _ & Hw). by apply no_nl. Qed.

Lemma format_addr_reads len pci out ad out' :
  addr_ok ad -> scannable 15 pci -> format_addr len pci out ad = Ok out' ->
  exists p, out' = out ++ p /\ forall s l, pci ∉ map l_pci s -> l_pci l = pci ->
    (length (l_addrs l) < NETSNAP_MAX_ADDRS)%nat -> reads (s ++ [l]) p (s ++ [add_addr l [ad]]).
Proof.
  intros [Hf Hn Ha Hb [Hv Hp]] Hpci. unfold format_addr.
  destruct (put_ip _ (a_addr ad)) as [a|] eqn:Ea; [|done].
  apply put_ip_ok in Ea as [Ta Ga]; [|done..].
  destruct (if a_has_brd ad then _ else _) as [b|] eqn:Eb; [|done].
  apply opt_ip_ok in Eb as [Tb Gb]; [|done..].
  intros ->%append_ok. destruct (put_until_ok _ Hv) as [Gv Tv]. destruct (put_until_ok _ Hp) as [Gp Tp].
  set (v := put_until (a_valid_until ad)) in *. set (q := put_until (a_preferred_until ad)) in *.
  set (body := (a ++ str "/" ++ dec (a_prefix ad)) ++ str " " ++ b ++ str " " ++ v ++ str " " ++ q).
  assert (Tw := prefix_scannable _ _ _ Ta Hn).
  exists ((str "addr" ++ str " " ++ pci ++ str " " ++ body) ++ [10]).
  split. { unfold body. change (str "addr " ++ ?x) with (str "addr" ++ str " " ++ x). by rewrite <- !app_assoc. }
  intros s l Hs Hl Hc. apply reads_line.
  - apply line_ok_intro; [split_and!; [done|cbn; lia|by repeat constructor]|done|by eapply scannable_le, Hpci; lia| |].
    + unfold body. apply no_nl_spaced; [exact (scannable_no_nl _ _ Tw)|].
      apply no_nl_spaced; [exact (scannable_no_nl _ _ Tb)|].
      apply no_nl_spaced; [exact (scannable_no_nl _ _ Tv)|exact (scannable_no_nl _ _ Tp)].
    + unfold body. rewrite !length_spaced.
      destruct Tw as (_ & ? & _), Tb as (_ & ? & _), Tv as (_ & ? & _), Tp as (_ & ? & _). lia.
  - apply parse_line_last; [split_and!; [done|cbn; lia|by repeat constructor]|by eapply scannable_le, Hpci; lia| |done..|].
    { unfold body. destruct Tw as (Tw1 & _ & Tw3). rewrite c0_app_nil by done. by destruct Tw3. }
    change (streq (str "addr") (str "addr")) with true. cbv iota. unfold parse_addr.
    rewrite (proj2 (Nat.eqb_neq _ _)) by lia. unfold body.
    rewrite (scan_addr_ok _ _ _ _ (scannable_le 49 63 _ ltac:(lia) Tw) (scannable_le 45 63 _ ltac:(lia) Tb) Tv Tp).
    rewrite (get_prefix_ok (a_family ad) (a_addr ad)) by done. rewrite Gv, Gp, Gb.
    by destruct ad.
Qed.

Lemma format_route_reads len pci out r out' :
  route_ok r -> scannable 15 pci -> format_route len pci out r = Ok out' ->
  exists p, out' = out ++ p /\ forall s l, pci ∉ map l_pci s -> l_pci l = pci ->
    (length (l_routes l) < NETSNAP_MAX_ROUTES)%nat -> reads (s ++ [l]) p (s ++ [add_route l [r]]).
Proof.
  intros [Hf Hn Ha Hb [Hp Hsc] Hm] Hpci. unfold format_route.
  destruct (put_ip _ (r_dst r)) as [a|] eqn:Ea; [|done].
  apply put_ip_ok in Ea as [Ta Ga]; [|done..].
  destruct (if r_has_gw r then _ else _) as [b|] eqn:Eb; [|done].
  apply opt_ip_ok in Eb as [Tb Gb]; [|done..].
  intros ->%append_ok.
  set (body := (a ++ str "/" ++ dec (r_dst_len r)) ++ str " " ++ b ++ str " " ++ dec (r_metric r)
               ++ str " " ++ dec (r_protocol r) ++ str " " ++ dec (r_scope r)).
  assert (Tw := prefix_scannable _ _ _ Ta Hn).
  assert (T1 : scannable 10 (dec (r_metric r))) by (apply dec_scannable; [lia| |lia]; change (10 ^ Z.of_nat 10) with 10000000000; lia).
  assert (Tbyte : forall x, is_byte x -> scannable 3 (dec x))
    by (unfold is_byte; intros x Hx; apply dec_scannable; [lia| |lia]; change (10 ^ Z.of_nat 3) with 1000; lia).
  assert (T2 := Tbyte _ Hp). assert (T3 := Tbyte _ Hsc).
  exists ((str "route" ++ str " " ++ pci ++ str " " ++ body) ++ [10]).
  split. { unfold body. change (str "route " ++ ?x) with (str "route" ++ str " " ++ x). by rewrite <- !app_assoc. }
  intros s l Hs Hl Hc. apply reads_line.
  - apply line_ok_intro; [split_and!; [done|cbn; lia|by repeat constructor]|done|by eapply scannable_le, Hpci; lia| |].
    + unfold body. apply no_nl_spaced; [exact (scannable_no_nl _ _ Tw)|].
      apply no_nl_spaced; [exact (scannable_no_nl _ _ Tb)|].
      apply no_nl_spaced; [exact (scannable_no_nl _ _ T1)|].
      apply no_nl_spaced; [exact (scannable_no_nl _ _ T2)|exact (scannable_no_nl _ _ T3)].
    + unfold body. rewrite !length_spaced.
      destruct Tw as (_ & ? & _), Tb as (_ & ? & _), T1 as (_ & ? & _), T2 as (_ & ? & _), T3 as (_ & ? & _). lia.
  - apply parse_line_last; [split_and!; [done|cbn; lia|by repeat constructor]|by eapply scannable_le, Hpci; lia| |done..|].
    { unfold body. destruct Tw as (Tw1 & _ & Tw3). rewrite c0_app_nil by done. by destruct Tw3. }
    change (streq (str "route") (str "addr")) with false. change (streq (str "route") (str "route")) with true.
    cbv iota. unfold parse_route. rewrite (proj2 (Nat.eqb_neq _ _)) by lia. unfold body.
    rewrite (scan_route_ok _ _ _ _ _ (scannable_le 49 63 _ ltac:(lia) Tw) (scannable_le 45 63 _ ltac:(lia) Tb) Hm Hp Hsc).
    unfold is_byte in *. rewrite !(proj2 (Z.ltb_ge 255 _)) by lia. cbn [orb].
    rewrite (get_prefix_ok (r_family r) (r_dst r)) by done. rewrite Gb.
    by destruct r.
Qed.

Lemma format_addrs_reads len pci ads out out' :
  Forall addr_ok ads -> scannable 15 pci -> each (format_addr len pci) out ads = Ok out' ->
  exists p, out' = out ++ p /\ forall s l, pci ∉ map l_pci s -> l_pci l = pci ->
    (length (l_addrs l) + length ads <= NETSNAP_MAX_ADDRS)%nat -> reads (s ++ [l]) p (s ++ [add_addr l ads]).
Proof.
  intros Hads Hpci. revert out. induction Hads as [|ad ads Had Hads IH]; intros out; cbn [each].
  - intros [= <-]. exists []. rewrite app_nil_r. split; [done|]. intros s [] _ _ _. unfold add_addr. cbn.
    rewrite app_nil_r. apply reads_nil.
  - destruct (format_addr len pci out ad) as [out1|] eqn:E1; [|done]. intros E2.
    apply format_addr_reads in E1 as (p1 & -> & R1); [|done..]. apply IH in E2 as (p2 & -> & R2).
    exists (p1 ++ p2). split; [by rewrite app_assoc|]. intros s l Hs Hl Hc. cbn in Hc.
    eapply reads_app; [apply R1; [done..|lia]|].
    replace (add_addr l (ad :: ads)) with (add_addr (add_addr l [ad]) ads)
      by (unfold add_addr; cbn; by rewrite <- app_assoc).
    apply R2; [done..|]. cbn. rewrite length_app. cbn. lia.
Qed.

Lemma format_routes_reads len pci rs out out' :
  Forall route_ok rs -> scannable 15 pci -> each (format_route len pci) out rs = Ok out' ->
  exists p, out' = out ++ p /\ forall s l, pci ∉ map l_pci s -> l_pci l = pci ->
    (length (l_routes l) + length rs <= NETSNAP_MAX_ROUTES)%nat -> reads (s ++ [l]) p (s ++ [add_route l rs]).
Proof.
  intros Hrs Hpci. revert out. induction Hrs as [|r rs Hr Hrs IH]; intros out; cbn [each].
  - intros [= <-]. exists []. rewrite app_nil_r. split; [done|]. intros s [] _ _ _. unfold add_route. cbn.
    rewrite app_nil_r. apply reads_nil.
  - destruct (format_route len pci out r) as [out1|] eqn:E1; [|done]. intros E2.
    apply format_route_reads in E1 as (p1 & -> & R1); [|done..]. apply IH in E2 as (p2 & -> & R2).
    exists (p1 ++ p2). split; [by rewrite app_assoc|]. intros s l Hs Hl Hc. cbn in Hc.
    eapply reads_app; [apply R1; [done..|lia]|].
    replace (add_route l (r :: rs)) with (add_route (add_route l [r]) rs)
      by (unfold add_route; cbn; by rewrite <- app_assoc).
    apply R2; [done..|]. cbn. rewrite length_app. cbn. lia.
Qed.

Lemma hex2_scannable b : is_byte b -> Forall (fun c => isspace c = false) (hex2 b).
Proof.
  intros Hb. unfold hex2.
  assert (H1 := digit_char_graph (b / 16 mod 16) ltac:(apply Z.mod_pos_bound; lia)).
  assert (H2 := digit_char_graph (b mod 16) ltac:(apply Z.mod_pos_bound; lia)). cbv zeta in *.
  repeat constructor; tauto.
Qed.

Lemma scan_mac_ok m rest :
  Forall is_byte m -> has_digit 16 rest = false ->
  scan_mac (length m) (concat (map (fun b => ch ":" :: hex2 b) m) ++ rest) = Some (m, rest).
Proof.
  intros Hm Hr. induction Hm as [|b m Hb Hm IH]; [done|]. cbn [map concat length scan_mac].
  rewrite <- app_assoc. change ((ch ":" :: hex2 b) ++ ?x) with (str ":" ++ hex2 b ++ x).
  rewrite scan_lit_app. cbn [mbind option_bind]. rewrite scan_hex2; [|done|by destruct m].
  cbn [mbind option_bind]. by rewrite IH.
Qed.

Lemma mac_mod m : Forall is_byte m -> map (fun b => b mod 256) m = m.
Proof.
  induction 1 as [|b m Hb Hm IH]; [done|]. cbn. rewrite IH, Z.mod_small by (unfold is_byte in Hb; lia). done.
Qed.

Lemma scan_hex_space b rest : is_byte b -> has_digit 16 rest = false -> scan_hex (str " " ++ hex2 b ++ rest) = Some (b, rest).
Proof.
  intros Hb Hr. assert (E := scan_hex2 b rest Hb Hr). unfold scan_hex, strtoull in *.
  assert (Hs : skip_space (hex2 b ++ rest) = hex2 b ++ rest).
  { unfold hex2. cbn [app skip_space].
    by rewrite (proj1 (digit_char_graph (b / 16 mod 16) ltac:(apply Z.mod_pos_bound; lia))). }
  change (skip_space (str " " ++ hex2 b ++ rest)) with (skip_space (hex2 b ++ rest)). rewrite Hs in *.
  destruct (if c0 (hex2 b ++ rest) =? ch "-" then _ else _) as [neg t].
  destruct (negb (has_digit 16 _)); [by rewrite bool_decide_eq_true_2 in E|].
  destruct (digits 16 0 _) as [v r]. destruct (UINT64_MAX <? v);
    (destruct (bool_decide (r = hex2 b ++ rest)); [done|]; injection E as Ev ->;
     rewrite bool_decide_eq_false_2; [by rewrite Ev|]; intros Er; apply (f_equal length) in Er;
     unfold hex2 in Er; cbn in Er; lia).
Qed.

Lemma scan_link_ok name m mtu :
  scannable 15 name -> length m = 6%nat -> Forall is_byte m -> 0 <= mtu < two32 ->
  scan_link (name ++ str " " ++ mac_text m ++ str " " ++ dec mtu) = Some (name, m, mtu).
Proof.
  intros Hn Hl Hm Hu. unfold scan_link. rewrite scan_word_start by (done || by right). cbn [mbind option_bind].
  destruct Hm as [|b m Hb Hm]; [done|]. injection Hl as Hl. cbn [mac_text]. rewrite <- app_assoc.
  rewrite scan_hex_space; [|done|by destruct m]. cbn [mbind option_bind].
  rewrite <- Hl, scan_mac_ok by done. cbn [mbind option_bind].
  change (str " " ++ dec mtu) with (32 :: dec mtu). by rewrite scan_uint_end.
Qed.

Lemma mac_text_props m : length m = 6%nat -> Forall is_byte m -> Forall (fun c => isspace c = false) (mac_text m) /\ length (mac_text m) = 17%nat.
Proof.
  intros Hl Hm. do 7 (destruct m as [|? m]; [try discriminate Hl|]); try discriminate Hl.
  split; [|done]. cbn [mac_text map concat]. repeat (apply Forall_cons in Hm as [? Hm]).
  repeat (apply Forall_app; split); try (apply Forall_cons; split; [done|]); try by apply hex2_scannable.
  constructor.
Qed.

Lemma format_link_reads len out l out' :
  link_ok l -> format_link len out l = Ok out' ->
  exists p, out' = out ++ p /\ forall s,
    (l_pci l ∉ map l_pci s -> (length s < NETSNAP_MAX_LINKS)%nat -> reads s p (s ++ [clear_ifindex l])) /\
    (l_pci l ∈ map l_pci s -> refuses s p).
Proof.
  intros [Hpci Hname [Hml Hmb] Hmtu [Han Ha] [Hrn Hr]]. unfold format_link.
  destruct (append _ _ _) as [out1|] eqn:E1; [|done]. apply append_ok in E1 as ->.
  destruct (each (format_addr _ _) _ _) as [out2|] eqn:E2; [|done].
  apply format_addrs_reads in E2 as (p2 & -> & R2); [|done..].
  intros E3. apply format_routes_reads in E3 as (p3 & -> & R3); [|done..].
  destruct (mac_text_props _ Hml Hmb) as [Mg Ml].
  assert (Td : scannable 10 (dec (l_mtu l)))
    by (apply dec_scannable; [lia| |lia]; change (10 ^ Z.of_nat 10) with 10000000000; lia).
  set (body := l_name l ++ str " " ++ mac_text (l_mac l) ++ str " " ++ dec (l_mtu l)).
  exists (((str "link" ++ str " " ++ l_pci l ++ str " " ++ body) ++ [10]) ++ p2 ++ p3).
  split. { unfold body. change (str "link " ++ ?x) with (str "link" ++ str " " ++ x). by rewrite <- !app_assoc. }
  assert (Ok0 : line_ok (str "link" ++ str " " ++ l_pci l ++ str " " ++ body)).
  { apply line_ok_intro; [split_and!; [done|cbn; lia|by repeat constructor]|done|by eapply scannable_le, Hpci; lia| |].
    - unfold body. apply no_nl_spaced; [exact (scannable_no_nl _ _ Hname)|].
      apply no_nl_spaced; [by apply no_nl|exact (scannable_no_nl _ _ Td)].
    - unfold body. rewrite !length_spaced, Ml. destruct Hname as (_ & ? & _), Td as (_ & ? & _). lia. }
  assert (Hd : forall s, parse_line s (str "link" ++ str " " ++ l_pci l ++ str " " ++ body) = parse_link s (l_pci l) body).
  { intros s. unfold parse_line. rewrite scan_head_ok; [done|split_and!; [done|cbn; lia|by repeat constructor]
                                                |by eapply scannable_le, Hpci; lia|].
    unfold body. destruct Hname as (Hn1 & _ & Hn3). rewrite c0_app_nil by done. by destruct Hn3. }
  intros s. split.
  2:{ intros Hin. apply refuses_app, refuses_line; [done|]. rewrite Hd. unfold parse_link.
      rewrite (bool_decide_eq_true_2 _ (link_by_pci_some _ _ Hin)). by rewrite orb_true_r. }
  intros Hs Hc. set (l0 := mk_link (l_pci l) (l_name l) (l_mac l) (l_mtu l) 0 [] []).
  apply (reads_app _ _ (s ++ [l0])); [|apply (reads_app _ _ (s ++ [add_addr l0 (l_addrs l)]))].
  - apply reads_line; [done|].
    + rewrite Hd. unfold parse_link.
      rewrite (proj2 (Nat.eqb_neq _ _)) by lia. rewrite link_by_pci_none by done. cbn [orb].
      rewrite bool_decide_eq_false_2 by (by intros []). cbn [orb].
      rewrite (proj2 (Nat.leb_gt _ _)) by (destruct Hpci as (_ & ? & _); lia).
      unfold body. rewrite scan_link_ok by done. by rewrite mac_mod.
  - apply R2; [done..|]. exact Han.
  - replace (clear_ifindex l) with (add_route (add_addr l0 (l_addrs l)) (l_routes l)) by done.
    apply R3; [done..|]. exact Hrn.
Qed.

(** The links written read back as long as no PCI function repeats; the
    first that does is refused. *)
Lemma format_links_reads len ls out out' :
  Forall link_ok ls -> each (format_link len) out ls = Ok out' ->
  exists p, out' = out ++ p /\ forall s, (length s + length ls <= NETSNAP_MAX_LINKS)%nat ->
    (NoDup (map l_pci (s ++ ls)) -> reads s p (s ++ map clear_ifindex ls)) /\
    (NoDup (map l_pci s) -> ~ NoDup (map l_pci (s ++ ls)) -> refuses s p).
Proof.
  intros Hls. revert out. induction Hls as [|l ls Hl Hls IH]; intros out; cbn [each].
  { intros [= <-]. exists []. rewrite app_nil_r. split; [done|]. intros s _. rewrite !app_nil_r. split; [intros _; apply reads_nil|done]. }
  destruct (format_link len out l) as [out1|] eqn:E1; [|done]. intros E2.
  apply format_link_reads in E1 as (p1 & -> & R1); [|done]. apply IH in E2 as (p2 & -> & R2).
  exists (p1 ++ p2). split; [by rewrite app_assoc|]. intros s Hc. cbn [length] in Hc. destruct (R1 s) as [Rd Rf].
  destruct (R2 (s ++ [clear_ifindex l])) as [Rd2 Rf2]; [rewrite length_app; cbn [length]; lia|].
  assert (E : map l_pci ((s ++ [clear_ifindex l]) ++ ls) = map l_pci (s ++ l :: ls)) by (rewrite <- app_assoc, !map_app; done).
  rewrite E in Rd2, Rf2. split.
  - intros N. replace (s ++ map clear_ifindex (l :: ls)) with ((s ++ [clear_ifindex l]) ++ map clear_ifindex ls) by (rewrite <- app_assoc; done).
    eapply reads_app; [apply Rd; [|lia]|by apply Rd2].
    rewrite map_app in N. apply NoDup_app in N as (_ & N & _). intros I. apply (N _ I). by left.
  - intros Ns N. destruct (decide (l_pci l ∈ map l_pci s)) as [I|I]; [by apply refuses_app, Rf|].
    eapply reads_refuses; [apply Rd; [done|lia]|]. apply Rf2; [|done]. rewrite map_app. apply NoDup_app. split; [done|].
    split; [intros x X J; apply list_elem_of_singleton in J; by subst x|apply NoDup_singleton].
Qed.

(** C39: what the successor makes of a snapshot's text.  Parsing the text
    [netsnap_format] writes for any links within the arrays of [struct
    netsnap], with names of one word and well-formed addresses, gives back
    every link, address, broadcast, lifetime, route, gateway and
    metric, in order, and only the predecessor's interface index is dropped,
    when each link has a PCI function of its own; when two links share one,
    which [netsnap_collect] and [netsnap_format] allow, the whole text is
    refused with [EINVAL]. *)
Theorem netsnap_roundtrip s len text :
  snap_ok s -> netsnap_format s len = Ok text ->
  netsnap_parse text = if decide (NoDup (map l_pci s)) then Ok (map clear_ifindex s) else Err EINVAL.
Proof.
  intros [Hn Hl] E. apply format_links_reads in E as (p & -> & R); [|done]. cbn [app] in *. unfold netsnap_parse.
  destruct (R [] Hn) as [Rd Rf]. case_decide as D.
  - destruct (Rd D (length p) []) as (f & _ & E); rewrite app_nil_r in *; [done|]. rewrite E. by destruct f.
  - rewrite <- (app_nil_r p) at 2. apply Rf; [constructor|done|by rewrite app_nil_r].
Qed.

End RoundTrip.

(** ** A concrete resolver library

    Dotted decimal, and IPv6 as eight groups of four hexadecimal digits:
    it satisfies [InetOk]. *)
Module PlainInet.

Definition ntop4 (b : list Z) : option (list Z) :=
  match b with
  | [x1; x2; x3; x4] => Some (dec x1 ++ str "." ++ dec x2 ++ str "." ++ dec x3 ++ str "." ++ dec x4)
  | _ => None
  end.

Definition pton4 (t : list Z) : option (list Z) :=
  '(x1, t) ← scan_ulong t; t ← scan_lit (str ".") t;
  '(x2, t) ← scan_ulong t; t ← scan_lit (str ".") t;
  '(x3, t) ← scan_ulong t; t ← scan_lit (str ".") t;
  '(x4, t) ← scan_ulong t;
  if bool_decide (t = []) then Some [x1; x2; x3; x4] else None.

Fixpoint ntop6 (b : list Z) : list Z :=
  match b with
  | x :: y :: b => ch ":" :: hex2 x ++ hex2 y ++ ntop6 b
  | _ => []
  end.

Fixpoint pton6 (t : list Z) : list Z :=
  match t with
  | _ :: c1 :: c2 :: c3 :: c4 :: t =>
      (digit_val c1 * 16 + digit_val c2) :: (digit_val c3 * 16 + digit_val c4) :: pton6 t
  | _ => []
  end.

Definition inet : Inet := {|
  inet_ntop := fun family b =>
    if family =? AF_INET6 then Some (drop 1 (ntop6 b)) else ntop4 b;
  inet_pton := fun family t =>
    if family =? AF_INET6 then Some (pton6 (ch ":" :: t)) else pton4 t
|}.

Lemma hex2_val b : is_byte b -> digit_val (digit_char (b / 16 mod 16)) * 16 + digit_val (digit_char (b mod 16)) = b.
Proof.
  intros Hb. rewrite !digit_char_val by (apply Z.mod_pos_bound; lia). unfold is_byte in Hb.
  assert (Hdm := Z.div_mod b 16 ltac:(lia)). rewrite (Z.mod_small (b / 16)); [lia|].
  split; [apply Z.div_pos; lia|apply Z.div_lt_upper_bound; lia].
Qed.

Lemma pton6_ntop6 n b : length b = (2 * n)%nat -> Forall is_byte b -> pton6 (ntop6 b) = b.
Proof.
  revert b. induction n as [|n IH]; intros b Hl Hb; [by apply nil_length_inv in Hl as ->|].
  destruct b as [|x [|y b]]; try (cbn in Hl; lia).
  apply Forall_cons in Hb as [Hx Hb]. apply Forall_cons in Hb as [Hy Hb].
  cbn [ntop6 hex2 app pton6]. rewrite !hex2_val by done. rewrite IH; [done| |done]. cbn in Hl. lia.
Qed.

(** The characters of an address are letters, digits, dots and colons. *)
Definition ip_char (c : Z) : Prop := isspace c = false /\ c <> 0 /\ c <> ch "/".

Lemma hex2_chars b : Forall (fun c => ip_char c /\ c <> ch ":") (hex2 b).
Proof.
  assert (forall d, 0 <= d < 16 -> ip_char (digit_char d) /\ digit_char d <> ch ":") as Hd.
  { intros d Hd. assert (d ∈ seqZ 0 16) as Hin by (apply elem_of_seqZ; lia). clear Hd.
    vm_compute in Hin. repeat (apply elem_of_cons in Hin as [->|Hin]; [by vm_compute|]).
    by apply not_elem_of_nil in Hin. }
  unfold hex2. repeat constructor; apply Hd, Z.mod_pos_bound; lia.
Qed.

Lemma ntop6_chars n b : length b = (2 * n)%nat -> Forall ip_char (ntop6 b) /\ length (ntop6 b) = (5 * n)%nat.
Proof.
  revert b. induction n as [|n IH]; intros b Hl; [apply nil_length_inv in Hl as ->; split; [constructor|done]|].
  destruct b as [|x [|y b]]; try (cbn in Hl; lia). destruct (IH b ltac:(cbn in Hl; lia)) as [H1 H2].
  cbn [ntop6]. split.
  - constructor; [by vm_compute|]. rewrite !Forall_app. split_and!; [..|done];
      (eapply Forall_impl; [apply hex2_chars|]; by intros c []).
  - cbn [length]. rewrite !length_app, H2. cbn. lia.
Qed.

Lemma dec_chars x : is_byte x -> Forall (fun c => ip_char c /\ c <> ch ":") (dec x) /\ (length (dec x) <= 3)%nat.
Proof.
  intros Hx. assert (is_u64 x) as Hu by (unfold is_byte, is_u64 in *; lia). split.
  - destruct (dec_all_digits x Hu) as [[_ F] _]. eapply Forall_impl; [exact F|]. intros c Hc.
    unfold ip_char. change (ch "/") with 47. change (ch ":") with 58.
    assert (Hs := isdigit_not_space c Hc). unfold isdigit in Hc. b2p. split_and!; (done || lia).
  - apply dec_length; [|lia]. change (10 ^ Z.of_nat 3) with 1000. unfold is_byte in Hx. lia.
Qed.

Lemma pton4_ntop4 x1 x2 x3 x4 :
  is_byte x1 -> is_byte x2 -> is_byte x3 -> is_byte x4 ->
  pton4 (dec x1 ++ str "." ++ dec x2 ++ str "." ++ dec x3 ++ str "." ++ dec x4) = Some [x1; x2; x3; x4].
Proof.
  unfold is_byte. intros. unfold pton4.
  rewrite scan_ulong_dec by (done || unfold is_u64; lia). cbn [mbind option_bind]. rewrite scan_lit_app. cbn [mbind option_bind].
  rewrite scan_ulong_dec by (done || unfold is_u64; lia). cbn [mbind option_bind]. rewrite scan_lit_app. cbn [mbind option_bind].
  rewrite scan_ulong_dec by (done || unfold is_u64; lia). cbn [mbind option_bind]. rewrite scan_lit_app. cbn [mbind option_bind].
  assert (E := scan_ulong_dec x4 [] ltac:(unfold is_u64; lia) eq_refl). rewrite app_nil_r in E. by rewrite E.
Qed.

#[export] Instance inet_plain_ok : @InetOk inet.
Proof.
  intros family b [->| ->] Hl Hb; cbn [inet_ntop inet_pton inet].
  - destruct b as [|x1 [|x2 [|x3 [|x4 [|]]]]]; try discriminate Hl.
    repeat (apply Forall_cons in Hb as [? Hb]). eexists. split; [reflexivity|]. split; [|by apply pton4_ntop4].
    destruct (dec_chars x1), (dec_chars x2), (dec_chars x3), (dec_chars x4); try done.
    assert (Forall (fun c => ip_char c /\ c <> ch ":")
              (dec x1 ++ str "." ++ dec x2 ++ str "." ++ dec x3 ++ str "." ++ dec x4)) as F
      by (rewrite !Forall_app; split_and!; try done; by repeat constructor).
    constructor.
    + split; [intros E; apply app_eq_nil in E as [_ E]; discriminate|].
      intros E. apply (f_equal length) in E. rewrite !length_app in E.
      change (length (str ".")) with 1%nat in E. change (length (str "-")) with 1%nat in E. lia.
    + rewrite !length_app. change (length (str ".")) with 1%nat. lia.
    + eapply Forall_impl; [exact F|]. by intros c [(? & ? & ?) _].
    + intros Hin. rewrite Forall_forall in F. apply F in Hin as [(_ & _ & ?) _]. done.
    + split; [|done]. intros Hin. rewrite Forall_forall in F. by apply F in Hin as [_ ?].
  - exists (drop 1 (ntop6 b)). split; [done|].
    destruct (ntop6_chars 8 b Hl) as [F L]. destruct b as [|x [|y b]]; try discriminate Hl.
    cbn [ntop6 length] in *. change (drop 1 (ch ":" :: ?t)) with t. apply Forall_cons in F as [_ F]. split.
    + constructor.
      * split; intros E; apply (f_equal length) in E; rewrite !length_app in *; cbn in *; lia.
      * lia.
      * eapply Forall_impl; [exact F|]. by intros c (? & ? & ?).
      * intros Hin. rewrite Forall_forall in F. apply F in Hin as (_ & _ & ?). done.
      * split; [done|]. intros _. destruct b as [|z [|w b]]; try discriminate Hl. cbn [ntop6].
        rewrite !elem_of_app. right. right. by left.
    + f_equal. apply (pton6_ntop6 8 (x :: y :: b) Hl Hb).
Qed.

End PlainInet.

Definition sample_snap : netsnap :=
  [mk_link (str "0000:03:00.0") (str "eth0") [82; 84; 0; 18; 52; 86] 1500 3
     [mk_addr AF_INET 24 true (in16 [10; 0; 0; 5]) (in16 [10; 0; 0; 255]) 0 0]
     [mk_route AF_INET 0 3 0 true (in16 [0; 0; 0; 0]) (in16 [10; 0; 0; 1]) 100]].

Lemma sample_snap_ok : snap_ok sample_snap.
Proof.
  assert (forall b, length b = 4%nat -> forallb (fun x => (0 <=? x) && (x <? 256)) b = true ->
    ip_bytes AF_INET (in16 b)) as Hb.
  { intros b Hl Hb. exists b. split_and!; [done..|]. rewrite Forall_forall. intros x Hx.
    rewrite forallb_forall in Hb. apply list_elem_of_In, Hb in Hx. unfold is_byte. b2p. lia. }
  constructor; [cbn; unfold NETSNAP_MAX_LINKS; lia|].
  constructor; [|constructor]. constructor.
  - split_and!; [done|cbn; lia|by repeat constructor].
  - split_and!; [done|cbn; lia|by repeat constructor].
  - split; [done|]. unfold is_byte. cbn. repeat constructor; lia.
  - cbn. lia.
  - split; [cbn; unfold NETSNAP_MAX_ADDRS; lia|]. constructor; [|constructor].
    constructor; [by left|cbn; lia|by apply (Hb [10; 0; 0; 5])|by apply (Hb [10; 0; 0; 255])|by vm_compute].
  - split; [cbn; unfold NETSNAP_MAX_ROUTES; lia|]. constructor; [|constructor].
    constructor; [by left|cbn; lia|by apply (Hb [0; 0; 0; 0])|by apply (Hb [10; 0; 0; 1])|by vm_compute|by vm_compute].
Qed.

(** Two ports behind one PCI function. *)
Definition twin_snap : netsnap := sample_snap ++ sample_snap.

Lemma netsnap_roundtrip_witness :
  (exists text, @netsnap_format PlainInet.inet sample_snap 16384 = Ok text
    /\ @netsnap_parse PlainInet.inet text = Ok (map clear_ifindex sample_snap)) /\
  (exists text, @netsnap_format PlainInet.inet twin_snap 16384 = Ok text /\ @netsnap_parse PlainInet.inet text = Err EINVAL).
Proof.
  split.
  - eexists. split; [vm_compute; reflexivity|].
    erewrite (@netsnap_roundtrip PlainInet.inet PlainInet.inet_plain_ok sample_snap 16384).
    + by rewrite decide_True by apply NoDup_singleton.
    + apply sample_snap_ok.
    + vm_compute. reflexivity.
  - eexists. split; [vm_compute; reflexivity|].
    erewrite (@netsnap_roundtrip PlainInet.inet PlainInet.inet_plain_ok twin_snap 16384).
    + rewrite decide_False; [done|]. intros N. apply NoDup_cons in N as [N _]. apply N. by left.
    + constructor; [cbn; unfold NETSNAP_MAX_LINKS; lia|]. apply Forall_app. split; apply sample_snap_ok.
    + vm_compute. reflexivity.
Defined.
