(* ===== verification/Files.v ===== *)
(** * lib/file.c: whole files

    The loops of [file_read] and [file_write] over what each system call
    returns, and the interface [Files] the rest of the program sees: the
    bytes of a file or an error, and the names in a directory. *)

From S2P Require Import Prelude Cstr.

(** What one [read] returns: bytes, [EINTR], or another error; the end of
    the script is the end of the file. *)
Inductive read_step : Type := ReadData (bytes : list Z) | ReadIntr | ReadErr (e : Z).

(** What one [write] returns. *)
Inductive write_step : Type := WriteCount (n : nat) | WriteIntr | WriteErr (e : Z).

Section Loops.
Context `{Alloc}.

(** The [for] loop of [file_read]: [data] is the [used] bytes so far. *)
Fixpoint read_all (script : list read_step) (data : list Z) (cap : nat) : result (list Z) :=
  match
    (if (length data =? cap)%nat then
       if alloc (Z.of_nat cap * 2 + 1) then Some (cap * 2)%nat else None
     else Some cap)
  with
  | None => Err ENOMEM
  | Some cap =>
      match script with
      | [] => Ok data
      | ReadErr e :: _ => Err e
      | ReadIntr :: script => read_all script data cap
      | ReadData bytes :: script =>
          let bytes := take (cap - length data) bytes in
          if bool_decide (bytes = []) then Ok data else read_all script (data ++ bytes) cap
      end
  end.

(** [open] has returned a descriptor, or an error. *)
Definition file_read_fd (opened : result (list read_step)) : result (list Z) :=
  let? script := opened in
  if negb (alloc 4097) then Err ENOMEM else read_all script [] 4096.

(** The [while] loop of [file_write]: what is left to write, and the bytes
    the file has received. *)
Fixpoint write_all (script : list write_step) (p written : list Z) : option (result (list Z)) :=
  match p with
  | [] => Some (Ok written)
  | _ =>
      match script with
      | [] => None
      | WriteErr e :: _ => Some (Err e)
      | WriteIntr :: script => write_all script p written
      | WriteCount n :: script => write_all script (drop n p) (written ++ take n p)
      end
  end.

End Loops.

(** ** The interface *)

Class Files := {
  file_read : list Z -> result (list Z);
  dir_list : list Z -> result (list (list Z))
}.

(** [while (len && s[len - 1] == '\n') s[--len] = 0] *)
Fixpoint skip_nl (s : list Z) : list Z :=
  match s with c :: t => if c =? 10 then skip_nl t else s | [] => [] end.
Definition strip_newlines (s : list Z) : list Z := rev (skip_nl (rev s)).

Definition file_read_string `{Files} (path : list Z) : result (list Z) :=
  let? buf := file_read path in Ok (cstr_of (strip_newlines buf)).

Definition file_read_u32 `{Files} (path : list Z) : result Z :=
  let? s := file_read_string path in
  if negb (isdigit (c0 s)) then Err EINVAL else
  let '(n, e, _) := strtoull 10 s in
  if (c0 e =? 0) && (n <=? UINT32_MAX) then Ok n else Err EINVAL.

(** ** The loops deliver the file *)

Definition step_bytes (s : read_step) : list Z := match s with ReadData b => b | _ => [] end.

Definition step_fits (s : read_step) : Prop :=
  match s with ReadData b => b <> [] | ReadIntr => True | ReadErr _ => False end.

(** The kernel never returns more than it was asked for. *)
Fixpoint script_fits (script : list read_step) (used cap : nat) : Prop :=
  match script with
  | [] => True
  | s :: script =>
      let cap := if (used =? cap)%nat then (cap * 2)%nat else cap in
      (length (step_bytes s) <= cap - used)%nat /\ script_fits script (used + length (step_bytes s)) cap
  end.

Lemma read_all_ok `{AllocOk} script data cap :
  (length data <= cap)%nat -> Forall step_fits script -> script_fits script (length data) cap ->
  read_all script data cap = Ok (data ++ concat (map step_bytes script)).
Proof.
  revert data cap. induction script as [|s script IH]; intros data cap Hc Hs Hf; cbn [read_all].
  { rewrite alloc_ok. cbn [map concat]. rewrite app_nil_r. by destruct (length data =? cap)%nat. }
  apply Forall_cons in Hs as [Hs Hss]. cbn [script_fits] in Hf. cbv zeta in Hf. destruct Hf as [Hl Hf].
  rewrite alloc_ok. set (cap' := if (length data =? cap)%nat then (cap * 2)%nat else cap) in *.
  replace (if (length data =? cap)%nat then Some (cap * 2)%nat else Some cap) with (Some cap')
    by (unfold cap'; by case_bool).
  assert (length data <= cap')%nat by (unfold cap'; case_bool; lia).
  destruct s as [bytes| |e]; cbn [step_bytes step_fits] in *; [|rewrite Nat.add_0_r in Hf; by apply IH|done].
  rewrite take_ge by lia. rewrite bool_decide_eq_false_2 by done.
  rewrite IH; [by rewrite <- app_assoc|rewrite length_app; lia|done|by rewrite length_app].
Qed.

(** However the kernel cuts a file into reads, interrupted ones
    included, [file_read] returns the whole contents: growing the buffer
    neither loses nor repeats a byte. *)
Theorem file_read_whole `{AllocOk} script :
  Forall step_fits script -> script_fits script 0 4096 ->
  file_read_fd (Ok script) = Ok (concat (map step_bytes script)).
Proof.
  intros Hs Hf. unfold file_read_fd. rewrite alloc_ok. cbn [negb]. by rewrite read_all_ok by (done || cbn; lia).
Qed.

Lemma file_read_whole_witness :
  @file_read_fd alloc_always (Ok [ReadData (replicate 4096 7); ReadIntr; ReadData [1; 2]])
  = Ok (replicate 4096 7 ++ [1; 2]).
Proof.
  apply (@file_read_whole alloc_always alloc_always_ok [ReadData (replicate 4096 7); ReadIntr; ReadData [1; 2]]).
  - repeat constructor; discriminate.
  - cbn [script_fits]. repeat split; apply Nat.leb_le; vm_compute; reflexivity.
Defined.

Lemma write_all_ok script p written out :
  write_all script p written = Some (Ok out) -> out = written ++ p.
Proof.
  revert p written. induction script as [|s script IH]; intros p written; destruct p as [|c p]; cbn [write_all];
    try (intros [= <-]; by rewrite app_nil_r).
  destruct s as [n| |e]; [|apply IH|done]. intros E. apply IH in E. rewrite E, <- app_assoc. f_equal. apply take_drop.
Qed.

(** When [file_write] reports success, the file has received exactly the
    bytes it was given, in order, however the writes were cut. *)
Theorem file_write_whole script buf out :
  write_all script buf [] = Some (Ok out) -> out = buf.
Proof. intros E. by apply write_all_ok in E. Qed.

Lemma file_write_whole_witness : [1; 2; 3] = [1; 2; 3].
Proof. exact (file_write_whole [WriteCount 2; WriteIntr; WriteCount 0; WriteCount 1] [1; 2; 3] [1; 2; 3] eq_refl). Defined.
