(* ===== verification/Daemon.v ===== *)
(** * kmorphd/main.c and lib/probe.c: the daemon

    [struct daemon] without its [tk] is the record [daemon], which is the
    world of the takeover machine: [container_of] in [on_state] leads from
    the one to the other.  What the kernel answers to a system call comes
    from the oracle [kernel], which sees the trace of everything done so
    far; every call is added to the trace, so a statement about all oracles
    covers every behaviour of the kernel. *)

From S2P Require Import Prelude Takeover Cstr Parse Config Scanf Request Netsnap.

(** ** lib/probe.c *)

Inductive probe_result : Type := PROBE_ALIVE | PROBE_SILENT | PROBE_ERROR.

#[export] Instance probe_result_eq_dec : EqDecision probe_result.
Proof. solve_decision. Defined.

Definition probe_classify (err : Z) : probe_result :=
  if (err =? 0) || (err =? ECONNRESET) then PROBE_ALIVE
  else if (err =? ETIMEDOUT) || (err =? EHOSTDOWN) then PROBE_SILENT
  else PROBE_ERROR.

Definition probe_result_name (r : probe_result) : list Z :=
  match r with
  | PROBE_ALIVE => str "alive"
  | PROBE_SILENT => str "silent"
  | PROBE_ERROR => str "error"
  end.

(** ** State and trace *)

(** What one [poll] and [recv] bring. *)
Inductive recv_step : Type := RecvTimeout | RecvData (bytes : list Z) | RecvClosed | RecvError (e : Z).

Inductive effect : Type :=
| XNow (ms : Z)
| XCall (c : opcall) (dump : option (list Z))
| XStateFile (text : list Z)
| XReport (fd ret : Z)
| XConsole (console : list Z) (baud : Z) (login : option (list Z))
| XTakenOver
| XTimer (ret : Z)
| XClose (fd : Z)
| XProbeStart (ret : Z)
| XEpollAdd (fd ret : Z)
| XProbeFinish (fd err : Z)
| XAccept (fd : Z)
| XRecv (fd : Z)
| XSend (fd : Z) (text : list Z)
| XSaveNetwork (path text : list Z) (ret : Z)
| XSignal (signo : option Z)
| XInitReap.

Record kernel : Type := {
  k_now : list effect -> Z;
  k_fence : list effect -> Z;
  k_adopt : list effect -> Z;
  k_preserve : list effect -> Z;
  k_reap : list effect -> Z;
  k_timer_read : list effect -> Z;
  k_probe_start : list effect -> Z;
  k_epoll_add : list effect -> Z;
  k_probe_finish : list effect -> Z;
  k_accept : list effect -> Z;
  k_recv : list effect -> list recv_step;
  k_report : list effect -> Z;
  k_file_write : list effect -> Z;
  k_signal : list effect -> option Z
}.

(** [ready_fd] and [network] are the file's static variables; [dump_path] and
    [has_network] are [ops.env.dump_path] and whether [ops.env.network] points
    to [network]. *)
Record daemon : Type := mk_daemon {
  d_init : bool;
  d_cfg : kmorph_config;
  d_timer_fd : Z;
  d_signal_fd : Z;
  d_listen_fd : Z;
  d_probe_fd : Z;
  d_last_result : probe_result;
  d_last_probe_err : Z;
  d_last_probe_ms : Z;
  d_probe_reported : bool;
  d_handed_over : bool;
  d_ready_fd : Z;
  d_dump_path : option (list Z);
  d_network : netsnap;
  d_has_network : bool;
  d_trace : list effect
}.

Definition d_with_probe_fd v d := mk_daemon (d_init d) (d_cfg d) (d_timer_fd d) (d_signal_fd d) (d_listen_fd d) v (d_last_result d) (d_last_probe_err d) (d_last_probe_ms d) (d_probe_reported d) (d_handed_over d) (d_ready_fd d) (d_dump_path d) (d_network d) (d_has_network d) (d_trace d).
Definition d_with_last_result v d := mk_daemon (d_init d) (d_cfg d) (d_timer_fd d) (d_signal_fd d) (d_listen_fd d) (d_probe_fd d) v (d_last_probe_err d) (d_last_probe_ms d) (d_probe_reported d) (d_handed_over d) (d_ready_fd d) (d_dump_path d) (d_network d) (d_has_network d) (d_trace d).
Definition d_with_last_probe_err v d := mk_daemon (d_init d) (d_cfg d) (d_timer_fd d) (d_signal_fd d) (d_listen_fd d) (d_probe_fd d) (d_last_result d) v (d_last_probe_ms d) (d_probe_reported d) (d_handed_over d) (d_ready_fd d) (d_dump_path d) (d_network d) (d_has_network d) (d_trace d).
Definition d_with_last_probe_ms v d := mk_daemon (d_init d) (d_cfg d) (d_timer_fd d) (d_signal_fd d) (d_listen_fd d) (d_probe_fd d) (d_last_result d) (d_last_probe_err d) v (d_probe_reported d) (d_handed_over d) (d_ready_fd d) (d_dump_path d) (d_network d) (d_has_network d) (d_trace d).
Definition d_with_probe_reported v d := mk_daemon (d_init d) (d_cfg d) (d_timer_fd d) (d_signal_fd d) (d_listen_fd d) (d_probe_fd d) (d_last_result d) (d_last_probe_err d) (d_last_probe_ms d) v (d_handed_over d) (d_ready_fd d) (d_dump_path d) (d_network d) (d_has_network d) (d_trace d).
Definition d_with_handed_over v d := mk_daemon (d_init d) (d_cfg d) (d_timer_fd d) (d_signal_fd d) (d_listen_fd d) (d_probe_fd d) (d_last_result d) (d_last_probe_err d) (d_last_probe_ms d) (d_probe_reported d) v (d_ready_fd d) (d_dump_path d) (d_network d) (d_has_network d) (d_trace d).
Definition d_with_ready_fd v d := mk_daemon (d_init d) (d_cfg d) (d_timer_fd d) (d_signal_fd d) (d_listen_fd d) (d_probe_fd d) (d_last_result d) (d_last_probe_err d) (d_last_probe_ms d) (d_probe_reported d) (d_handed_over d) v (d_dump_path d) (d_network d) (d_has_network d) (d_trace d).
Definition d_with_dump_path v d := mk_daemon (d_init d) (d_cfg d) (d_timer_fd d) (d_signal_fd d) (d_listen_fd d) (d_probe_fd d) (d_last_result d) (d_last_probe_err d) (d_last_probe_ms d) (d_probe_reported d) (d_handed_over d) (d_ready_fd d) v (d_network d) (d_has_network d) (d_trace d).
Definition d_with_network v d := mk_daemon (d_init d) (d_cfg d) (d_timer_fd d) (d_signal_fd d) (d_listen_fd d) (d_probe_fd d) (d_last_result d) (d_last_probe_err d) (d_last_probe_ms d) (d_probe_reported d) (d_handed_over d) (d_ready_fd d) (d_dump_path d) v (d_has_network d) (d_trace d).
Definition d_with_has_network v d := mk_daemon (d_init d) (d_cfg d) (d_timer_fd d) (d_signal_fd d) (d_listen_fd d) (d_probe_fd d) (d_last_result d) (d_last_probe_err d) (d_last_probe_ms d) (d_probe_reported d) (d_handed_over d) (d_ready_fd d) (d_dump_path d) (d_network d) v (d_trace d).
Definition d_with_trace v d := mk_daemon (d_init d) (d_cfg d) (d_timer_fd d) (d_signal_fd d) (d_listen_fd d) (d_probe_fd d) (d_last_result d) (d_last_probe_err d) (d_last_probe_ms d) (d_probe_reported d) (d_handed_over d) (d_ready_fd d) (d_dump_path d) (d_network d) (d_has_network d) v.

Definition emit (e : effect) (d : daemon) : daemon := d_with_trace (d_trace d ++ [e]) d.

Section Daemon.
Context `{Inet} (k : kernel).

Definition now_ms (d : daemon) : Z * daemon :=
  let ms := k_now k (d_trace d) in (ms, emit (XNow ms) d).

(** A [char[16]] filled by [snprintf]. *)
Definition field16 (s : list Z) : list Z := take 15 s.

Definition fill_status (t : takeover) (d : daemon) : status_reply * daemon :=
  let '(ms, d) := if d_last_probe_ms d =? 0 then (0, d)
                  else let '(now, d) := now_ms d in (u64 (now - d_last_probe_ms d), d) in
  ({| state := field16 (str (takeover_state_name (tk_state t)));
      predecessor := field16 (if d_handed_over d then str "handed-over"
                              else probe_result_name (d_last_result d));
      last_probe_ms := ms;
      Request.last_error := Takeover.last_error t |}, d).

(** The attempt to replace the state file; its failures are not looked at. *)
Definition write_state_file (t : takeover) (d : daemon) : daemon :=
  let '(r, d) := fill_status t d in
  match request_format_status r 128 with
  | Err _ => d
  | Ok line => emit (XStateFile (drop 3 line)) d
  end.

Definition mark_taken_over (d : daemon) : daemon := emit XTakenOver d.

Definition report_taken_over (d : daemon) : daemon :=
  if d_ready_fd d <? 0 then d
  else d_with_ready_fd (-1) (emit (XClose (d_ready_fd d)) (emit (XReport (d_ready_fd d) (k_report k (d_trace d))) d)).

Definition on_state_daemon (t : takeover) (state : takeover_state) (d : daemon) : daemon :=
  let d := emit (XCall (CState state) None) d in
  let d := write_state_file t d in
  if decide (state = TK_TAKEN_OVER) then
    let d := report_taken_over d in
    let d := match c_console (d_cfg d) with
             | Some console => emit (XConsole console (c_console_baud (d_cfg d)) (c_console_login (d_cfg d))) d
             | None => d
             end in
    mark_taken_over d
  else d.

(** [ops_takeover_base] with [on_state]: the four operations as the daemon
    sees them, with the dump path in force. *)
#[export] Instance daemon_ops : TakeoverOps daemon := {|
  op_fence := fun d => let r := k_fence k (d_trace d) in (r, emit (XCall (CFence r) (d_dump_path d)) d);
  op_adopt := fun d => let r := k_adopt k (d_trace d) in (r, emit (XCall (CAdopt r) (d_dump_path d)) d);
  op_preserve := fun d => let r := k_preserve k (d_trace d) in (r, emit (XCall (CPreserve r) (d_dump_path d)) d);
  op_reap := fun d => let r := k_reap k (d_trace d) in (r, emit (XCall (CReap r) (d_dump_path d)) d);
  on_state := on_state_daemon
|}.

Definition deliver_probe (t : takeover) (d : daemon) (err : Z) : takeover * daemon :=
  let r := probe_classify err in
  let d :=
    if negb (bool_decide (r = d_last_result d)) || negb (d_probe_reported d)
       || (bool_decide (r = PROBE_ERROR) && negb (err =? d_last_probe_err d))
    then write_state_file t (d_with_probe_reported true (d_with_last_result r d)) else d in
  let d := d_with_last_probe_err err d in
  let '(now, d) := now_ms d in
  let d := d_with_last_probe_ms now d in
  match r with
  | PROBE_ALIVE => takeover_handle t TK_EV_PROBE_ALIVE d
  | PROBE_SILENT => takeover_handle t TK_EV_PROBE_SILENT d
  | PROBE_ERROR => (t, d)
  end.

Definition on_tick (t : takeover) (d : daemon) : takeover * daemon :=
  let r := k_timer_read k (d_trace d) in
  let d := emit (XTimer r) d in
  if r <? 0 then (t, d) else
  if 2 <=? state_index (tk_state t) then (t, d) else
  let '(t, d) :=
    if 0 <=? d_probe_fd d then
      let d := d_with_probe_fd (-1) (emit (XClose (d_probe_fd d)) d) in
      deliver_probe t d ETIMEDOUT
    else (t, d) in
  let fd := k_probe_start k (d_trace d) in
  let d := emit (XProbeStart fd) d in
  if fd <? 0 then deliver_probe t d (- fd) else
  let r := k_epoll_add k (d_trace d) in
  let d := emit (XEpollAdd fd r) d in
  if negb (r =? 0) then deliver_probe t (emit (XClose fd) d) EIO
  else (t, d_with_probe_fd fd d).

Definition on_probe_ready (t : takeover) (d : daemon) : takeover * daemon :=
  let err := k_probe_finish k (d_trace d) in
  let d := emit (XProbeFinish (d_probe_fd d) err) d in
  deliver_probe t (d_with_probe_fd (-1) d) err.

(** The reply and whether the handover is accepted. *)
Definition answer_handover (t : takeover) (d : daemon) (len : Z) : result (list Z) * bool :=
  let accepted := bool_decide (tk_state t = TK_ARMED) && bool_decide (d_last_result d = PROBE_ALIVE) in
  let reason := snprintf [] 64 (str "state=" ++ str (takeover_state_name (tk_state t))
                                ++ str " predecessor=" ++ probe_result_name (d_last_result d)) in
  (request_format_handover (if accepted then None else Some reason) len, accepted).

Definition answer_network (t : takeover) (d : daemon) (text : list Z) (len : Z) : result (list Z) * daemon :=
  if 2 <=? state_index (tk_state t) then
    let reason := snprintf [] 64 (str "state=" ++ str (takeover_state_name (tk_state t))) in
    (request_format_network_reply (Some reason) len, d)
  else match netsnap_parse text with
  | Err _ => (request_format_network_reply (Some (str "malformed")) len, d)
  | Ok next =>
      let d := d_with_has_network true (d_with_network next d) in
      let d := emit (XSaveNetwork STANDBY_NETWORK text (k_file_write k (d_trace d))) d in
      (request_format_network_reply None len, d)
  end.

Definition REQUEST_LINE_MAX : Z := 64.
Definition NETSNAP_TEXT_MAX : Z := 16384.

(** The loop of [read_request] over what arrives: the bytes so far, and the
    line length with its kind and payload once the line is complete.  A
    script that ends has reached the deadline. *)
Fixpoint read_loop (script : list recv_step) (cap : Z) (buf : list Z) (line : option (Z * request_kind * Z))
    : result (Z * request_kind * Z * list Z) :=
  match script with
  | [] | RecvTimeout :: _ => Err ETIMEDOUT
  | RecvError e :: _ => Err e
  | RecvClosed :: _ => Err ECONNRESET
  | RecvData bytes :: script =>
      let bytes := take (Z.to_nat (cap - 1 - Z.of_nat (length buf))) bytes in
      if bool_decide (bytes = []) then Err ECONNRESET else
      let buf := buf ++ bytes in
      let got := Z.of_nat (length buf) in
      let finish l kind payload :=
        if l + payload <=? got then Ok (l, kind, payload, take (Z.to_nat (l + payload)) buf)
        else read_loop script cap buf (Some (l, kind, payload)) in
      match line with
      | Some (l, kind, payload) => finish l kind payload
      | None =>
          match split_at 10 buf with
          | (_, None) => read_loop script cap buf None
          | (head, Some _) =>
              let l := Z.of_nat (length head) + 1 in
              if REQUEST_LINE_MAX <? l then Err EINVAL else
              match request_parse (cstr_of (head ++ [10])) with
              | Err _ => Err EINVAL
              | Ok (kind, payload) =>
                  if cap <=? l + payload then Err E2BIG else finish l kind payload
              end
          end
      end
  end.

Definition read_request (script : list recv_step) (cap : Z) : result (Z * request_kind * Z * list Z) :=
  read_loop script cap [] None.

(** Whether the predecessor handed over. *)
Definition answer_request (t : takeover) (d : daemon) (fd : Z) : bool * daemon :=
  let script := k_recv k (d_trace d) in
  let d := emit (XRecv fd) d in
  let reply (r : result (list Z)) (d : daemon) :=
    match r with Ok text => if bool_decide (text = []) then d else emit (XSend fd text) d | Err _ => d end in
  match read_request script (REQUEST_LINE_MAX + NETSNAP_TEXT_MAX) with
  | Err e =>
      if (e =? ETIMEDOUT) || (e =? ECONNRESET) then (false, d)
      else (false, reply (Ok (str "err unsupported request" ++ [10])) d)
  | Ok (line, REQUEST_HANDOVER, _, _) =>
      let '(r, accepted) := answer_handover t d 128 in (accepted, reply r d)
  | Ok (line, REQUEST_NETWORK, _, buf) =>
      let '(r, d) := answer_network t d (cstr_of (drop (Z.to_nat line) buf)) 128 in (false, reply r d)
  | Ok (_, REQUEST_STATUS, _, _) =>
      let '(r, d) := fill_status t d in (false, reply (request_format_status r 128) d)
  end.

Definition take_handover (t : takeover) (d : daemon) : takeover * daemon :=
  let d := d_with_dump_path None (d_with_handed_over true d) in
  takeover_handle t TK_EV_REQUEST d.

Definition on_connection (t : takeover) (d : daemon) : takeover * daemon :=
  let fd := k_accept k (d_trace d) in
  let d := emit (XAccept fd) d in
  if fd <? 0 then (t, d) else
  let '(handover, d) := answer_request t d fd in
  let d := emit (XClose fd) d in
  if handover then take_handover t d else (t, d).

(** [struct itimerspec] of the probe timer, and whether it ever expires: a
    zero [it_value] disarms a timerfd. *)
Definition open_timer (interval_ms : Z) : Z * Z :=
  (interval_ms / 1000, (interval_ms mod 1000) * 1000000).
Definition timer_armed (its : Z * Z) : bool := negb ((its.1 =? 0) && (its.2 =? 0)).

Definition SIGCHLD : Z := 17.

(** One turn of [daemon_run] for a ready descriptor; [false] ends it. *)
Definition dispatch (t : takeover) (d : daemon) (fd : Z) : takeover * daemon * bool :=
  if fd =? d_timer_fd d then (on_tick t d, true)
  else if fd =? d_probe_fd d then (on_probe_ready t d, true)
  else if fd =? d_listen_fd d then (on_connection t d, true)
  else if fd =? d_signal_fd d then
    let si := k_signal k (d_trace d) in
    let d := emit (XSignal si) d in
    match si with
    | None => (t, d, true)
    | Some signo =>
        if signo =? SIGCHLD then (t, emit XInitReap d, true)
        else if d_init d then (t, d, true) else (t, d, false)
    end
  else (t, d, true).

(** The descriptors [epoll_wait] reports, in order; an interrupted wait
    changes nothing. *)
Fixpoint daemon_loop (t : takeover) (d : daemon) (ready : list Z) : takeover * daemon :=
  match ready with
  | [] => (t, d)
  | fd :: ready =>
      let '(t, d, go) := dispatch t d fd in
      if go then daemon_loop t d ready else (t, d)
  end.

Definition daemon_run (t : takeover) (d : daemon) (ready : list Z) : takeover * daemon :=
  daemon_loop t (write_state_file t d) ready.

(** The state [daemon_setup] leaves: the descriptors it opened, the network
    identity [load_network] found, and the parent's pipe if there is one. *)
Definition daemon_start (cfg : kmorph_config) (init : bool) (timer signal listen ready : Z)
    (net : option netsnap) : takeover * daemon :=
  (takeover_init (c_probe_timeouts cfg) (c_fence_retries cfg),
   mk_daemon init cfg timer signal listen (-1) PROBE_ERROR 0 0 false false ready (c_dump cfg)
     (default [] net) (bool_decide (is_Some net)) []).

End Daemon.

(** ** The trace *)

Definition call_of (e : effect) : option opcall := match e with XCall c _ => Some c | _ => None end.
Definition calls (tr : list effect) : list opcall := omap call_of tr.

(** The dump path of every preserve call. *)
Definition dump_of (e : effect) : option (option (list Z)) :=
  match e with XCall (CPreserve _) p => Some p | _ => None end.
Definition dumps (tr : list effect) : list (option (list Z)) := omap dump_of tr.

Definition is_mark (e : effect) : bool := match e with XTakenOver => true | _ => false end.
Definition marks (tr : list effect) : nat := length (List.filter is_mark tr).

(** Effects that are neither an operation nor the taken-over mark. *)
Definition quiet (e : effect) : bool := match e with XCall _ _ | XTakenOver => false | _ => true end.

Lemma quiet_trace es : Forall (fun e => quiet e = true) es -> calls es = [] /\ dumps es = [] /\ marks es = 0%nat.
Proof.
  unfold calls, dumps, marks. induction 1 as [|e es He Hes (IH1 & IH2 & IH3)]; [done|].
  destruct e; cbn in *; try done; by split_and!.
Qed.

(** Everything but the trace and the parent's pipe. *)
Definition core (d : daemon) : daemon := d_with_ready_fd 0 (d_with_trace [] d).

(** [d'] is [d] with quiet effects added. *)
Definition quieter (d d' : daemon) : Prop :=
  core d' = core d /\ exists es, d_trace d' = d_trace d ++ es /\ Forall (fun e => quiet e = true) es.

#[export] Instance quieter_refl : Reflexive quieter.
Proof. intros d. split; [done|]. exists []. by rewrite app_nil_r. Qed.

#[export] Instance quieter_trans : Transitive quieter.
Proof.
  intros d1 d2 d3 [C1 (e1 & T1 & Q1)] [C2 (e2 & T2 & Q2)]. split; [congruence|].
  exists (e1 ++ e2). rewrite T2, T1, app_assoc. split; [done|]. by apply Forall_app.
Qed.

Lemma quieter_emit e d : quiet e = true -> quieter d (emit e d).
Proof. intros He. split; [done|]. exists [e]. split; [done|]. by repeat constructor. Qed.

Lemma quieter_ready v d : quieter d (d_with_ready_fd v d).
Proof. split; [done|]. exists []. by rewrite app_nil_r. Qed.

Lemma quieter_log d d' :
  quieter d d' -> calls (d_trace d') = calls (d_trace d) /\ dumps (d_trace d') = dumps (d_trace d)
                  /\ marks (d_trace d') = marks (d_trace d).
Proof.
  intros [_ (es & -> & Q)]. apply quiet_trace in Q as (Q1 & Q2 & Q3). unfold calls, dumps, marks in *.
  rewrite !omap_app, List.filter_app, length_app, Q1, Q2, Q3, !app_nil_r. by rewrite Nat.add_0_r.
Qed.

#[export] Hint Resolve quieter_emit quieter_ready : kmorph.

Section DaemonLemmas.
Context `{Inet} (k : kernel).

Lemma now_quiet d : quieter d (now_ms k d).2.
Proof. by apply quieter_emit. Qed.

Lemma fill_status_quiet t d : quieter d (fill_status k t d).2.
Proof. unfold fill_status. case_bool; [done|]. apply now_quiet. Qed.

Lemma write_state_file_quiet t d : quieter d (write_state_file k t d).
Proof.
  unfold write_state_file. assert (Q := fill_status_quiet t d). destruct (fill_status k t d) as [r d1].
  destruct (request_format_status r 128); [|done]. etrans; [exact Q|by apply quieter_emit].
Qed.

(** [on_state] adds the state call, quiet effects and, for the last state,
    the mark. *)
Lemma on_state_shape t s d :
  exists d', quieter (emit (XCall (CState s) None) d) d' /\
    on_state_daemon k t s d = if decide (s = TK_TAKEN_OVER) then emit XTakenOver d' else d'.
Proof.
  unfold on_state_daemon. set (d0 := emit _ d). assert (Q := write_state_file_quiet t d0).
  set (d1 := write_state_file k t d0) in *. cbv zeta. case_decide; [|by exists d1].
  unfold mark_taken_over. eexists. split; [|reflexivity]. etrans; [exact Q|].
  assert (quieter d1 (report_taken_over k d1)) as Q2.
  { unfold report_taken_over. case_bool; [done|].
    etrans; [|apply quieter_ready]. etrans; by apply quieter_emit. }
  destruct (c_console _); [|done]. etrans; [exact Q2|by apply quieter_emit].
Qed.

#[export] Instance daemon_logged : @LoggedOps daemon (daemon_ops k).
Proof.
  assert (Hc : forall c p (d : daemon), calls (d_trace (emit (XCall c p) d)) = calls (d_trace d) ++ [c])
    by (intros; unfold calls; cbn; by rewrite omap_app).
  refine {| log := fun d : daemon => calls (d_trace d) |}; intros; cbn; try apply Hc.
  destruct (on_state_shape t s w) as (d' & Q & ->). apply quieter_log in Q as (Q & _).
  case_decide; cbn; [unfold calls in *; rewrite omap_app; cbn; rewrite app_nil_r|]; rewrite Q; apply Hc.
Defined.

Lemma core_emit e d : core (emit e d) = core d.
Proof. done. Qed.

Definition same_core (d d' : daemon) : Prop := core d = core d'.
#[export] Instance same_core_refl : Reflexive same_core.
Proof. by intros d. Qed.
#[export] Instance same_core_trans : Transitive same_core.
Proof. intros d1 d2 d3. unfold same_core. congruence. Qed.

(** An event of the takeover machine changes nothing else of the daemon. *)
Lemma handle_core t ev d : core (takeover_handle (H:=daemon_ops k) t ev d).2 = core d.
Proof.
  symmetry. apply (handle_frame (H:=daemon_ops k) same_core); try done.
  intros t' s d'. cbn. destruct (on_state_shape t' s d') as (d2 & [C _] & ->). unfold same_core.
  case_decide; by rewrite ?core_emit, C.
Qed.

(** The daemon before the event that a delivered probe becomes. *)
Lemma deliver_probe_shape t d err :
  exists d1, calls (d_trace d1) = calls (d_trace d) /\ dumps (d_trace d1) = dumps (d_trace d)
    /\ marks (d_trace d1) = marks (d_trace d)
    /\ d_probe_fd d1 = d_probe_fd d /\ d_handed_over d1 = d_handed_over d /\ d_dump_path d1 = d_dump_path d
    /\ d_network d1 = d_network d /\ d_has_network d1 = d_has_network d
    /\ d_last_result d1 = probe_classify err
    /\ deliver_probe k t d err =
       match probe_classify err with
       | PROBE_ALIVE => takeover_handle (H:=daemon_ops k) t TK_EV_PROBE_ALIVE d1
       | PROBE_SILENT => takeover_handle (H:=daemon_ops k) t TK_EV_PROBE_SILENT d1
       | PROBE_ERROR => (t, d1)
       end.
Proof.
  unfold deliver_probe. cbv zeta. set (changed := _ || _). destruct (now_ms k _) as [now d2] eqn:En.
  exists (d_with_last_probe_ms now d2).
  set (d1 := if changed then _ else d) in En.
  assert (exists d0, quieter d0 d1 /\ d_trace d0 = d_trace d /\ d_probe_fd d0 = d_probe_fd d
            /\ d_handed_over d0 = d_handed_over d /\ d_dump_path d0 = d_dump_path d
            /\ d_network d0 = d_network d /\ d_has_network d0 = d_has_network d
            /\ d_last_result d0 = probe_classify err) as (d0 & Q1 & T0 & F0).
  { unfold d1. destruct changed eqn:Ec; [exists (d_with_probe_reported true (d_with_last_result (probe_classify err) d)); split; [apply write_state_file_quiet|done]|].
    exists d. split; [done|]. split_and!; try done. unfold changed in Ec.
    apply orb_false_elim in Ec as [Ec _]. apply orb_false_elim in Ec as [Ec _].
    by apply negb_false_iff, bool_decide_eq_true in Ec. }
  assert (Q2 := now_quiet (d_with_last_probe_err err d1)). rewrite En in Q2. cbn in Q2.
  apply quieter_log in Q1 as L1. apply quieter_log in Q2 as L2. rewrite T0 in L1. change (d_trace (d_with_last_probe_err err d1)) with (d_trace d1) in L2.
  destruct L1 as (L11 & L12 & L13), L2 as (L21 & L22 & L23), Q1 as [C1 _], Q2 as [C2 _].
  assert (forall A (f : daemon -> A), (forall x, f (core x) = f x) ->
            f d2 = f (d_with_last_probe_err err d1) /\ f d1 = f d0) as Hf
    by (intros A f Hf; by rewrite <- Hf, C2, Hf, <- (Hf d1), C1, Hf).
  destruct F0 as (F1 & F2 & F3 & F4 & F5 & F6).
  cbn [d_trace d_with_last_probe_ms d_probe_fd d_handed_over d_dump_path d_network d_has_network d_last_result].
  split_and!; [congruence..| | | | | | |done].
  - destruct (Hf _ d_probe_fd) as [-> X]; [done|]. cbn. congruence.
  - destruct (Hf _ d_handed_over) as [-> X]; [done|]. cbn. congruence.
  - destruct (Hf _ d_dump_path) as [-> X]; [done|]. cbn. congruence.
  - destruct (Hf _ d_network) as [-> X]; [done|]. cbn. congruence.
  - destruct (Hf _ d_has_network) as [-> X]; [done|]. cbn. congruence.
  - destruct (Hf _ d_last_result) as [-> X]; [done|]. cbn. congruence.
Qed.

(** ** The daemon's invariant

    With [b] more events allowed to reach the machine once it has begun
    the takeover. *)
Record dinv (b : Z) (t : takeover) (d : daemon) : Prop := {
  dv_path : path (PWatch false) (calls (d_trace d)) (rest_phase (tk_state t)) /\ tk_state t <> TK_FENCING;
  dv_watch : watching (tk_state t) = true -> fences (calls (d_trace d)) = 0;
  dv_taken : watching (tk_state t) = false -> fences (calls (d_trace d)) + b <= 2;
  dv_dump : d_handed_over d = true -> d_dump_path d = None /\ Forall (fun p => p = None) (dumps (d_trace d));
  dv_marks : marks (d_trace d) = overs (calls (d_trace d))
}.

(** What an event of the machine does to the dumps and the mark. *)
Definition grows (d d' : daemon) : Prop :=
  core d' = core d /\ (exists n, dumps (d_trace d') = dumps (d_trace d) ++ replicate n (d_dump_path d))
  /\ (marks (d_trace d) + overs (calls (d_trace d')) = marks (d_trace d') + overs (calls (d_trace d)))%nat.

#[export] Instance grows_refl : Reflexive grows.
Proof. intros d. split_and!; [done| |done]. exists 0%nat. by rewrite app_nil_r. Qed.

#[export] Instance grows_trans : Transitive grows.
Proof.
  intros d1 d2 d3 (C1 & (n1 & E1) & M1) (C2 & (n2 & E2) & M2). split_and!; [congruence| |lia].
  exists (n1 + n2)%nat. rewrite E2, E1, replicate_add, app_assoc. f_equal.
  by replace (d_dump_path d2) with (d_dump_path d1) by (change (d_dump_path (core d1) = d_dump_path (core d2)); congruence).
Qed.

Lemma grows_call c d : is_over c = false -> grows d (emit (XCall c (d_dump_path d)) d).
Proof.
  intros Hc. unfold grows, dumps, marks, calls. cbn [d_trace emit d_with_trace].
  rewrite !omap_app, List.filter_app, length_app. cbn. split; [done|]. split.
  - destruct c; cbn; first [exists 1%nat; reflexivity | exists 0%nat; reflexivity].
  - change (omap call_of (d_trace d)) with (calls (d_trace d)). rewrite overs_snoc, Hc. lia.
Qed.

Lemma handle_grows t ev d : grows d (takeover_handle (H:=daemon_ops k) t ev d).2.
Proof.
  apply (handle_frame (H:=daemon_ops k) grows); intros; try (by apply grows_call).
  cbn. destruct (on_state_shape t0 s w) as (d' & Q & ->).
  assert (Q' := quieter_log _ _ Q). destruct Q' as (Q1 & Q2 & Q3), Q as [Qc _].
  assert (calls (d_trace (emit (XCall (CState s) None) w)) = calls (d_trace w) ++ [CState s]) as Ec
    by (unfold calls; cbn; by rewrite omap_app).
  assert (dumps (d_trace (emit (XCall (CState s) None) w)) = dumps (d_trace w)) as Ed
    by (unfold dumps; cbn; rewrite omap_app; cbn; by rewrite app_nil_r).
  assert (marks (d_trace (emit (XCall (CState s) None) w)) = marks (d_trace w)) as Em
    by (unfold marks; cbn; rewrite List.filter_app, length_app; cbn; lia).
  rewrite Ec in Q1. rewrite Ed in Q2. rewrite Em in Q3. case_decide as Hs.
  - subst s. unfold grows.
    assert (calls (d_trace (emit XTakenOver d')) = calls (d_trace d')) as ->
      by (unfold calls; cbn; rewrite omap_app; cbn; by rewrite app_nil_r).
    assert (dumps (d_trace (emit XTakenOver d')) = dumps (d_trace d')) as ->
      by (unfold dumps; cbn; rewrite omap_app; cbn; by rewrite app_nil_r).
    assert (marks (d_trace (emit XTakenOver d')) = marks (d_trace d') + 1)%nat as ->
      by (unfold marks; cbn; rewrite List.filter_app, length_app; cbn; lia).
    rewrite Q1, Q2, Q3, overs_snoc. split_and!; [by rewrite core_emit, Qc|exists 0%nat; by rewrite app_nil_r|cbn; lia].
  - unfold grows. rewrite Q1, Q2, Q3, overs_snoc.
    split_and!; [by rewrite Qc|exists 0%nat; by rewrite app_nil_r|destruct s; cbn; done || lia].
Qed.

Lemma handle_dinv b t ev d :
  0 <= b <= 1 -> dinv (b + 1) t d ->
  let out := takeover_handle (H:=daemon_ops k) t ev d in dinv b out.1 out.2.
Proof.
  intros Hb [Hp Hw Ht Hd Hm]. cbv zeta.
  assert (Hp' := @handle_follows daemon (daemon_ops k) daemon_logged (PWatch false) t ev d Hp).
  destruct (@handle_fences daemon (daemon_ops k) daemon_logged t ev d) as [F1 F2]. cbn [log daemon_logged] in *.
  destruct (handle_grows t ev d) as (C & (n & E) & M).
  set (out := takeover_handle (H:=daemon_ops k) t ev d) in *. constructor.
  - exact Hp'.
  - intros Ho. destruct (F2 Ho) as [H1 H2]. rewrite H2. by apply Hw.
  - intros Ho. destruct (watching (tk_state t)) eqn:Ew; [rewrite (Hw eq_refl) in F1; lia|].
    specialize (Ht eq_refl). lia.
  - intros Ho. change (d_handed_over (core out.2) = true) in Ho. rewrite C in Ho.
    destruct (Hd Ho) as [D1 D2]. split; [change (d_dump_path (core out.2) = None); by rewrite C|].
    rewrite E. apply Forall_app. split; [done|]. rewrite D1. by apply Forall_replicate.
  - lia.
Qed.

(** The invariant sees only these parts of the daemon. *)
Lemma dinv_ext b b' t d d' :
  dinv b t d -> b' <= b -> calls (d_trace d') = calls (d_trace d) -> dumps (d_trace d') = dumps (d_trace d) ->
  marks (d_trace d') = marks (d_trace d) -> d_handed_over d' = d_handed_over d -> d_dump_path d' = d_dump_path d ->
  dinv b' t d'.
Proof.
  intros [H1 H2 H3 H4 H5] Hb E1 E2 E3 E4 E5. constructor; rewrite ?E1, ?E2, ?E3, ?E4, ?E5; try done.
  intros Hw. specialize (H3 Hw). lia.
Qed.

Lemma dinv_quiet b b' t d d' : dinv b t d -> b' <= b -> quieter d d' -> dinv b' t d'.
Proof.
  intros Hi Hb Q. destruct (quieter_log _ _ Q) as (Q1 & Q2 & Q3). destruct Q as [C _].
  apply (dinv_ext b b' t d d'); try done.
  - change (d_handed_over (core d') = d_handed_over (core d)). congruence.
  - change (d_dump_path (core d') = d_dump_path (core d)). congruence.
Qed.

Lemma dinv_watching b b' t d : watching (tk_state t) = true -> dinv b t d -> dinv b' t d.
Proof. intros Hw [H1 H2 H3 H4 H5]. constructor; try done. intros E. congruence. Qed.

Lemma deliver_dinv b t d err :
  0 <= b <= 1 -> dinv (b + 1) t d ->
  let out := deliver_probe k t d err in dinv b out.1 out.2 /\ d_probe_fd out.2 = d_probe_fd d.
Proof.
  intros Hb Hi. cbv zeta.
  destruct (deliver_probe_shape t d err) as (d1 & E1 & E2 & E3 & E4 & E5 & E6 & _ & _ & _ & ->).
  assert (dinv (b + 1) t d1) as Hi1 by (eapply dinv_ext; [exact Hi|lia|done..]).
  assert (forall ev, d_probe_fd (takeover_handle (H:=daemon_ops k) t ev d1).2 = d_probe_fd d) as Hf.
  { intros ev. change (d_probe_fd (core (takeover_handle (H:=daemon_ops k) t ev d1).2) = d_probe_fd d).
    by rewrite handle_core. }
  destruct (probe_classify err); split; try apply handle_dinv; try done.
  eapply dinv_ext; [exact Hi1|lia|done..].
Qed.

Definition pending (d : daemon) : Z := if 0 <=? d_probe_fd d then 1 else 0.

Definition dstate_ok (t : takeover) (d : daemon) : Prop := dinv (pending d) t d.

Lemma on_tick_ok t d : dstate_ok t d -> let out := on_tick k t d in dstate_ok out.1 out.2.
Proof.
  intros Hi. cbv zeta. unfold on_tick. set (d0 := emit (XTimer _) d).
  assert (dinv (pending d) t d0) as H1 by (eapply dinv_quiet; [exact Hi|lia|by apply quieter_emit]).
  case_bool; [exact H1|]. rewrite <- (negb_involutive (2 <=? _)), <- watching_index.
  destruct (watching (tk_state t)) eqn:Hw; cbn [negb]; [|exact H1].
  assert (exists t1 d1, (if 0 <=? d_probe_fd d0 then
      deliver_probe k t (d_with_probe_fd (-1) (emit (XClose (d_probe_fd d0)) d0)) ETIMEDOUT else (t, d0)) = (t1, d1)
      /\ dinv 1 t1 d1 /\ pending d1 = 0) as (t1 & d1 & -> & H2 & P1).
  { case_bool.
    - set (d2 := d_with_probe_fd (-1) _).
      assert (dinv (1 + 1) t d2) as H3.
      { apply (dinv_watching (pending d)); [done|].
        apply (dinv_ext (pending d) _ t (emit (XClose (d_probe_fd d0)) d0)); try done.
        eapply dinv_quiet; [exact H1|lia|by apply quieter_emit]. }
      destruct (deliver_dinv 1 t d2 ETIMEDOUT ltac:(lia) H3) as [H4 H5].
      destruct (deliver_probe k t d2 ETIMEDOUT) as [t1 d1]. exists t1, d1. cbn in H4, H5.
      split; [done|]. split; [done|]. unfold pending. by rewrite H5.
    - exists t, d0. split; [done|]. split; [by apply (dinv_watching (pending d))|].
      unfold pending. by rewrite Heqb0. }
  cbv beta zeta. set (d2 := emit (XProbeStart _) d1). set (fd := k_probe_start k (d_trace d1)) in *.
  assert (dinv 1 t1 d2) as H3 by (eapply dinv_quiet; [exact H2|lia|by apply quieter_emit]).
  destruct (Z.ltb_spec fd 0) as [Hfd|Hfd].
  { destruct (deliver_dinv 0 t1 d2 (- fd) ltac:(lia) H3) as [H4 H5]. unfold dstate_ok, pending. rewrite H5.
    by replace (d_probe_fd d2) with (d_probe_fd d1) by done; fold (pending d1); rewrite P1. }
  set (d3 := emit (XEpollAdd _ _) d2).
  assert (dinv 1 t1 d3) as H4 by (eapply dinv_quiet; [exact H3|lia|by apply quieter_emit]).
  case_bool.
  - assert (dinv 1 t1 (emit (XClose fd) d3)) as H5 by (eapply dinv_quiet; [exact H4|lia|by apply quieter_emit]).
    destruct (deliver_dinv 0 t1 _ EIO ltac:(lia) H5) as [H6 H7]. unfold dstate_ok, pending. rewrite H7.
    by replace (d_probe_fd (emit (XClose fd) d3)) with (d_probe_fd d1) by done; fold (pending d1); rewrite P1.
  - cbn. unfold dstate_ok, pending. cbn. rewrite (proj2 (Z.leb_le 0 fd)) by lia.
    by apply (dinv_ext 1 1 t1 d3).
Qed.

Lemma on_probe_ready_ok t d :
  0 <= d_probe_fd d -> dstate_ok t d -> let out := on_probe_ready k t d in dstate_ok out.1 out.2.
Proof.
  intros Hfd Hi. cbv zeta. unfold on_probe_ready. set (d0 := emit _ d).
  unfold dstate_ok, pending in Hi. rewrite (proj2 (Z.leb_le _ _) Hfd) in Hi.
  assert (dinv (0 + 1) t (d_with_probe_fd (-1) d0)) as H1.
  { apply (dinv_ext 1 _ t d0); try done. eapply dinv_quiet; [exact Hi|lia|by apply quieter_emit]. }
  destruct (deliver_dinv 0 t _ (k_probe_finish k (d_trace d)) ltac:(lia) H1) as [H2 H3].
  unfold dstate_ok, pending. by rewrite H3.
Qed.

(** Answering a request: what it may change, and when it is a handover. *)
Lemma answer_request_shape t d fd :
  let '(handover, d') := answer_request k t d fd in
  (handover = true -> tk_state t = TK_ARMED /\ d_last_result d = PROBE_ALIVE)
  /\ calls (d_trace d') = calls (d_trace d) /\ dumps (d_trace d') = dumps (d_trace d)
  /\ marks (d_trace d') = marks (d_trace d) /\ d_probe_fd d' = d_probe_fd d
  /\ d_handed_over d' = d_handed_over d /\ d_dump_path d' = d_dump_path d
  /\ (watching (tk_state t) = false -> d_network d' = d_network d /\ d_has_network d' = d_has_network d).
Proof.
  assert (Hq : forall (b : bool) d0 d', d_trace d0 = d_trace d -> d_probe_fd d0 = d_probe_fd d ->
    d_handed_over d0 = d_handed_over d -> d_dump_path d0 = d_dump_path d -> quieter d0 d' ->
    (watching (tk_state t) = false -> d_network d0 = d_network d /\ d_has_network d0 = d_has_network d) ->
    (b = true -> tk_state t = TK_ARMED /\ d_last_result d = PROBE_ALIVE) ->
    (b = true -> tk_state t = TK_ARMED /\ d_last_result d = PROBE_ALIVE)
    /\ calls (d_trace d') = calls (d_trace d) /\ dumps (d_trace d') = dumps (d_trace d)
    /\ marks (d_trace d') = marks (d_trace d) /\ d_probe_fd d' = d_probe_fd d
    /\ d_handed_over d' = d_handed_over d /\ d_dump_path d' = d_dump_path d
    /\ (watching (tk_state t) = false -> d_network d' = d_network d /\ d_has_network d' = d_has_network d)).
  { intros b d0 d' E1 E2 E3 E4 Q Hn Hb. destruct (quieter_log _ _ Q) as (Q1 & Q2 & Q3), Q as [C _]. rewrite E1 in *.
    assert (forall A (f : daemon -> A), (forall x, f (core x) = f x) -> f d' = f d0) as Hf
      by (intros A f Hf; by rewrite <- Hf, C, Hf).
    rewrite (Hf _ d_probe_fd), (Hf _ d_handed_over), (Hf _ d_dump_path), (Hf _ d_network), (Hf _ d_has_network) by done.
    rewrite E2, E3, E4. split_and!; done. }
  unfold answer_request. set (d1 := emit (XRecv fd) d). assert (quieter d d1) as Q1 by by apply quieter_emit.
  assert (Hr : forall d0 d2 r, quieter d0 d2 -> quieter d0
    (match r with Ok text => if bool_decide (text = []) then d2 else emit (XSend fd text) d2 | Err _ => d2 end)).
  { intros d0 d2 r Q. destruct r; [|done]. case_bool; [done|]. etrans; [exact Q|by apply quieter_emit]. }
  cbv zeta. destruct (read_request _ _) as [[[[line kind] payload] buf]|e].
  2:{ case_bool; apply (Hq false d); try done. etrans; [exact Q1|by apply quieter_emit]. }
  destruct kind.
  - assert (Q2 := fill_status_quiet t d1). destruct (fill_status k t d1) as [r d2].
    apply (Hq false d); try done. apply Hr. etrans; [exact Q1|exact Q2].
  - unfold answer_handover. apply (Hq _ d); try done; [by apply Hr|].
    intros E. apply andb_prop in E as [E1 E2]. by apply bool_decide_eq_true in E1, E2.
  - unfold answer_network. rewrite <- (negb_involutive (2 <=? _)), <- watching_index.
    destruct (watching (tk_state t)) eqn:Hw; cbn [negb].
    2:{ apply (Hq false d); try done. by apply Hr. }
    destruct (netsnap_parse _) as [next|e]; [|apply (Hq false d); try done; by apply Hr].
    apply (Hq false (d_with_has_network true (d_with_network next d))); try done.
    apply Hr. etrans; [|by apply quieter_emit].
    split; [done|]. exists [XRecv fd]. split; [done|by repeat constructor].
Qed.

Lemma on_connection_ok t d : dstate_ok t d -> let out := on_connection k t d in dstate_ok out.1 out.2.
Proof.
  intros Hi. cbv zeta. unfold on_connection. set (d0 := emit (XAccept _) d).
  assert (dinv (pending d) t d0) as H1 by (eapply dinv_quiet; [exact Hi|lia|by apply quieter_emit]).
  case_bool; [exact H1|]. assert (Sh := answer_request_shape t d0 (k_accept k (d_trace d))).
  destruct (answer_request k t d0 _) as [handover d1].
  destruct Sh as (Sh & E1 & E2 & E3 & E4 & E5 & E6 & _).
  assert (dinv (pending d) t d1) as H2 by (eapply dinv_ext; [exact H1|lia|done..]).
  set (d2 := emit (XClose _) d1).
  assert (dinv (pending d) t d2) as H3 by (eapply dinv_quiet; [exact H2|lia|by apply quieter_emit]).
  assert (pending d2 = pending d) as P2 by (unfold pending; cbn; by rewrite E4).
  destruct handover; [|change (dinv (pending d2) t d2); by rewrite P2].
  destruct (Sh eq_refl) as [Ha _]. unfold take_handover. cbv zeta. set (d3 := d_with_dump_path _ _).
  assert (dinv (pending d + 1) t d3) as H4.
  { destruct H3 as [[Hp Hf] Hw Ht Hd Hm]. constructor; try done.
    - intros E. by rewrite Ha in E.
    - intros _. split; [done|].
      assert (forall r, CPreserve r ∉ calls (d_trace d3)) as Hn
        by (intros r; eapply unfenced_takes_nothing; [exact Hp|by rewrite Ha|done]).
      clear -Hn. unfold dumps, calls in *. induction (d_trace d3) as [|e tr IH]; [constructor|].
      destruct e as [|c p| | | | | | | | | | | | | | |]; try (apply IH; exact Hn).
      cbn in *. destruct c; cbn in *; try (apply IH; intros r' Hin; apply (Hn r'); by right).
      exfalso. apply (Hn ret). by left. }
  assert (0 <= pending d <= 1) by (unfold pending; case_bool; lia).
  assert (Hd := handle_dinv (pending d) t TK_EV_REQUEST d3 ltac:(lia) H4). cbv zeta in Hd.
  unfold dstate_ok. replace (pending (takeover_handle t TK_EV_REQUEST d3).2) with (pending d); [done|].
  unfold pending. change (d_probe_fd (takeover_handle t TK_EV_REQUEST d3).2)
    with (d_probe_fd (core (takeover_handle (H:=daemon_ops k) t TK_EV_REQUEST d3).2)).
  rewrite handle_core. change (d_probe_fd (core d3)) with (d_probe_fd d2). fold (pending d2). by rewrite P2.
Qed.

Lemma dispatch_ok t d fd :
  0 <= fd -> dstate_ok t d -> let out := dispatch k t d fd in dstate_ok out.1.1 out.1.2.
Proof.
  intros Hfd Hi. cbv zeta. unfold dispatch. case_bool; [by apply on_tick_ok|].
  destruct (Z.eqb_spec fd (d_probe_fd d)); [apply on_probe_ready_ok; [lia|done]|].
  case_bool; [by apply on_connection_ok|].
  assert (forall e d', quiet e = true -> dstate_ok t d' -> dstate_ok t (emit e d')) as He
    by (intros e d' He Hd; eapply dinv_quiet; [exact Hd|done|by apply quieter_emit]).
  case_bool; [|done]. destruct (k_signal k _); [|by apply He].
  case_bool; [by apply He, He|]. case_bool; by apply He.
Qed.

Lemma loop_ok ready t d :
  Forall (fun fd => 0 <= fd) ready -> dstate_ok t d -> let out := daemon_loop k t d ready in dstate_ok out.1 out.2.
Proof.
  cbv zeta. intros Hr. revert t d. induction Hr as [|fd ready Hfd Hr IH]; intros t d Hi; [done|]. cbn.
  assert (Hd := dispatch_ok t d fd Hfd Hi). destruct (dispatch k t d fd) as [[t' d'] [|]]; cbn in *; [by apply IH|done].
Qed.

(** The daemon's life, from [daemon_setup] through any events. *)
Definition daemon_life (cfg : kmorph_config) (init : bool) (timer signal listen ready_fd : Z)
    (net : option netsnap) (ready : list Z) : takeover * daemon :=
  let '(t, d) := daemon_start cfg init timer signal listen ready_fd net in daemon_run k t d ready.

Lemma life_ok cfg init timer signal listen ready_fd net ready :
  Forall (fun fd => 0 <= fd) ready ->
  let out := daemon_life cfg init timer signal listen ready_fd net ready in dstate_ok out.1 out.2.
Proof.
  intros Hr. cbv zeta. unfold daemon_life, daemon_run, daemon_start. apply loop_ok; [done|].
  set (t := takeover_init _ _). set (d := mk_daemon _ _ _ _ _ _ _ _ _ _ _ _ _ _ _ _).
  assert (dinv 0 t d) as Hd.
  { constructor; try done. split; [constructor|done]. }
  assert (Q := write_state_file_quiet t d). unfold dstate_ok, pending.
  change (d_probe_fd (write_state_file k t d)) with (d_probe_fd (core (write_state_file k t d))).
  destruct Q as [C Q]. rewrite C. cbn. eapply dinv_quiet; [exact Hd|done|]. by split.
Qed.

End DaemonLemmas.

(** ** What the daemon guarantees *)

Section DaemonTheorems.
Context `{Inet} (k : kernel).
Variables (cfg : kmorph_config) (init : bool) (timer signal listen ready_fd : Z) (net : option netsnap).

(** Descriptors are never negative. *)
Definition fds (ready : list Z) : Prop := Forall (fun fd => 0 <= fd) ready.

Let lives (ready : list Z) := daemon_life k cfg init timer signal listen ready_fd net ready.

(** Whatever the kernel answers and whatever arrives on the daemon's
    descriptors, the calls the whole daemon makes follow the takeover
    protocol: nothing of the predecessor is touched before a fence has
    succeeded, nothing is reaped without its dump. *)
Theorem daemon_follows_protocol ready :
  fds ready -> let '(t, d) := lives ready in path (PWatch false) (calls (d_trace d)) (rest_phase (tk_state t)).
Proof.
  intros Hr. assert (Hi := life_ok k cfg init timer signal listen ready_fd net ready Hr). unfold lives.
  destruct (daemon_life _ _ _ _ _ _ _ _ _) as [t d]. apply Hi.
Qed.

(** C38: the daemon fences at most twice in its life, whatever
    [fence_retries] says: the timer stops probing once the machine is in
    FENCING or later, so only a probe that was already under way can bring
    one more event. *)
Theorem daemon_fences_at_most_twice ready :
  fds ready -> fences (calls (d_trace (lives ready).2)) <= 2.
Proof.
  intros Hr. assert (Hi := life_ok k cfg init timer signal listen ready_fd net ready Hr). unfold lives.
  destruct (daemon_life _ _ _ _ _ _ _ _ _) as [t d]. cbn. destruct Hi as [_ Hw Ht _ _]. cbn in *.
  destruct (watching (tk_state t)); [rewrite Hw by done; lia|]. specialize (Ht eq_refl).
  unfold pending in Ht. destruct (0 <=? d_probe_fd d); lia.
Qed.

(** A predecessor that handed the machine over is taken over without a
    dump: every preserve call of the daemon's life then had no dump path. *)
Theorem handover_takes_no_dump ready :
  fds ready -> let '(t, d) := lives ready in
  d_handed_over d = true -> d_dump_path d = None /\ Forall (fun p => p = None) (dumps (d_trace d)).
Proof.
  intros Hr. assert (Hi := life_ok k cfg init timer signal listen ready_fd net ready Hr). unfold lives.
  destruct (daemon_life _ _ _ _ _ _ _ _ _) as [t d]. apply Hi.
Qed.

(** The file whatever runs next waits for is created exactly once, when
    the machine reaches TAKEN_OVER, and never before. *)
Theorem taken_over_marked_once ready :
  fds ready -> let '(t, d) := lives ready in
  marks (d_trace d) = if decide (tk_state t = TK_TAKEN_OVER) then 1%nat else 0%nat.
Proof.
  intros Hr. assert (Hi := life_ok k cfg init timer signal listen ready_fd net ready Hr). unfold lives.
  destruct (daemon_life _ _ _ _ _ _ _ _ _) as [t d]. change (dstate_ok t d) in Hi. destruct Hi as [[Hp _] _ _ _ Hm].
  rewrite Hm, (path_overs _ _ _ Hp) by done. cbn in *. by destruct (tk_state t).
Qed.

End DaemonTheorems.

Section Stuck.
Context `{Inet} (k : kernel).

(** Nothing pending, and past the point where ticks probe. *)
Definition stuck (t : takeover) (d : daemon) : Prop :=
  watching (tk_state t) = false /\ d_probe_fd d < 0.

Lemma dispatch_stuck t d fd :
  0 <= fd -> stuck t d -> let '(t', d', _) := dispatch k t d fd in
  t' = t /\ calls (d_trace d') = calls (d_trace d) /\ d_probe_fd d' = d_probe_fd d
  /\ d_network d' = d_network d /\ d_has_network d' = d_has_network d.
Proof.
  intros Hfd [Hw Hp]. unfold dispatch.
  assert (Hq : forall d', quieter d d' -> t = t /\ calls (d_trace d') = calls (d_trace d) /\ d_probe_fd d' = d_probe_fd d
            /\ d_network d' = d_network d /\ d_has_network d' = d_has_network d).
  { intros d' Q. destruct (quieter_log _ _ Q) as (Q1 & _ & _), Q as [C _].
    assert (forall A (f : daemon -> A), (forall x, f (core x) = f x) -> f d' = f d) as Hf
      by (intros A f Hf; by rewrite <- Hf, C, Hf).
    split_and!; [done..| | |]; by apply Hf. }
  case_bool.
  { unfold on_tick. rewrite watching_index in Hw. apply negb_false_iff in Hw. rewrite Hw.
    case_bool; apply Hq; by apply quieter_emit. }
  destruct (Z.eqb_spec fd (d_probe_fd d)); [lia|]. case_bool.
  { unfold on_connection. set (d0 := emit _ d). case_bool; [apply Hq; by apply quieter_emit|].
    assert (Sh := answer_request_shape k t d0 (k_accept k (d_trace d))).
    destruct (answer_request k t d0 _) as [handover d1]. destruct Sh as (Sh & E1 & _ & _ & E4 & _ & _ & E7).
    destruct handover; [destruct (Sh eq_refl) as [Ha _]; by rewrite Ha in Hw|].
    destruct (E7 Hw) as [N1 N2]. split_and!; try done.
    change (calls (d_trace (emit (XClose (k_accept k (d_trace d))) d1)) = calls (d_trace d)).
    destruct (quieter_log d1 (emit (XClose (k_accept k (d_trace d))) d1)) as (-> & _); [by apply quieter_emit|].
    rewrite E1. by destruct (quieter_log d d0) as (-> & _); [apply quieter_emit|]. }
  case_bool; [|by apply Hq]. destruct (k_signal k _); [|apply Hq; by apply quieter_emit].
  case_bool; [apply Hq; etrans; by apply quieter_emit|]. case_bool; apply Hq; by apply quieter_emit.
Qed.

(** C34: a takeover that stopped half way with no probe under way never
    moves again: whatever arrives on the daemon's descriptors from then on,
    the machine keeps its state and no operation is called.  A fence that
    failed is not retried and a fenced predecessor is not adopted. *)
Theorem failed_takeover_never_retried t d ready :
  fds ready -> stuck t d ->
  let '(t', d') := daemon_loop k t d ready in t' = t /\ calls (d_trace d') = calls (d_trace d).
Proof.
  intros Hr. revert d. induction Hr as [|fd ready Hfd Hr IH]; intros d Hs; [done|]. cbn [daemon_loop].
  assert (Hd := dispatch_stuck t d fd Hfd Hs). destruct (dispatch k t d fd) as [[t' d'] go].
  destruct Hd as (-> & E1 & E2 & _). destruct go; [|done].
  assert (stuck t d') as Hs' by (destruct Hs; split; [done|lia]).
  specialize (IH d' Hs'). destruct (daemon_loop k t d' ready) as [t1 d1]. destruct IH as [-> ->]. done.
Qed.

End Stuck.

(** ** A predecessor that stays silent while its last CPU cannot be fenced *)

Definition kernel_busy : kernel := {|
  k_now := fun _ => 0; k_fence := fun _ => - EBUSY; k_adopt := fun _ => 0; k_preserve := fun _ => 0;
  k_reap := fun _ => 0; k_timer_read := fun _ => 8; k_probe_start := fun _ => - EHOSTDOWN;
  k_epoll_add := fun _ => 0; k_probe_finish := fun _ => 0; k_accept := fun _ => -11; k_recv := fun _ => [];
  k_report := fun _ => 1; k_file_write := fun _ => 0; k_signal := fun _ => None |}.

(** The same, but the first of two fences works and then everything does. *)
Definition kernel_fine : kernel := {|
  k_now := fun _ => 0; k_fence := fun _ => 0; k_adopt := fun _ => 0; k_preserve := fun _ => 0;
  k_reap := fun _ => 0; k_timer_read := fun _ => 8; k_probe_start := fun _ => - EHOSTDOWN;
  k_epoll_add := fun _ => 0; k_probe_finish := fun _ => 0; k_accept := fun _ => -11; k_recv := fun _ => [];
  k_report := fun _ => 1; k_file_write := fun _ => 0; k_signal := fun _ => None |}.

Definition default_config : kmorph_config := @config_defaults alloc_always.

(** Six ticks of the default configuration: five silences, then the fence
    that fails. *)
Definition busy_life (n : nat) : takeover * daemon :=
  @daemon_life PlainInet.inet kernel_busy default_config false 3 4 5 (-1) None (replicate n 3).

Lemma failed_takeover_never_retried_witness :
  let '(t, d) := busy_life 5 in
  (tk_state t = TK_FENCE_FAILED /\ fence_retries t = 3 /\ fence_attempts t = 1) /\
  (let '(t', d') := @daemon_loop PlainInet.inet kernel_busy t d (replicate 100 3) in
   t' = t /\ calls (d_trace d') = calls (d_trace d)).
Proof.
  assert (tk_state (busy_life 5).1 = TK_FENCE_FAILED /\ fence_retries (busy_life 5).1 = 3
          /\ fence_attempts (busy_life 5).1 = 1 /\ d_probe_fd (busy_life 5).2 = -1) as (E1 & E2 & E3 & E4)
    by (vm_compute; done).
  destruct (busy_life 5) as [t d]. cbn in *. split; [done|].
  apply (@failed_takeover_never_retried PlainInet.inet kernel_busy t d (replicate 100 3)).
  - apply Forall_replicate. lia.
  - split; [by rewrite E1|lia].
Defined.

Lemma daemon_fences_at_most_twice_witness :
  fences (calls (d_trace (busy_life 20).2)) <= 2.
Proof.
  apply (@daemon_fences_at_most_twice PlainInet.inet kernel_busy default_config false 3 4 5 (-1) None
           (replicate 20 3)).
  apply Forall_replicate. lia.
Defined.

Definition fine_life (n : nat) : takeover * daemon :=
  @daemon_life PlainInet.inet kernel_fine default_config false 3 4 5 (-1) None (replicate n 3).

Lemma daemon_follows_protocol_witness :
  let '(t, d) := fine_life 6 in path (PWatch false) (calls (d_trace d)) (rest_phase (tk_state t)).
Proof.
  apply (@daemon_follows_protocol PlainInet.inet kernel_fine default_config false 3 4 5 (-1) None
           (replicate 6 3)).
  apply Forall_replicate. lia.
Defined.

Lemma taken_over_marked_once_witness :
  tk_state (fine_life 6).1 = TK_TAKEN_OVER /\
  let '(t, d) := fine_life 6 in marks (d_trace d) = if decide (tk_state t = TK_TAKEN_OVER) then 1%nat else 0%nat.
Proof.
  split; [vm_compute; reflexivity|].
  apply (@taken_over_marked_once PlainInet.inet kernel_fine default_config false 3 4 5 (-1) None (replicate 6 3)).
  apply Forall_replicate. lia.
Defined.

(** A live predecessor asks for the handover. *)
Definition kernel_handover : kernel := {|
  k_now := fun _ => 0; k_fence := fun _ => 0; k_adopt := fun _ => 0; k_preserve := fun _ => 0;
  k_reap := fun _ => 0; k_timer_read := fun _ => 8; k_probe_start := fun _ => 7;
  k_epoll_add := fun _ => 0; k_probe_finish := fun _ => ECONNRESET; k_accept := fun _ => 9;
  k_recv := fun _ => [RecvData (str "hand"); RecvData (str "over" ++ [10])];
  k_report := fun _ => 1; k_file_write := fun _ => 0; k_signal := fun _ => None |}.

Definition dumping_config : kmorph_config := with_dump (Some (str "/var/crash/vmcore")) default_config.

Definition handover_life : takeover * daemon :=
  @daemon_life PlainInet.inet kernel_handover dumping_config false 3 4 5 (-1) None [3; 7; 5].

Lemma handover_takes_no_dump_witness :
  (tk_state handover_life.1 = TK_TAKEN_OVER /\ d_handed_over handover_life.2 = true
   /\ dumps (d_trace handover_life.2) = [None]) /\
  let '(t, d) := handover_life in
  d_handed_over d = true -> d_dump_path d = None /\ Forall (fun p => p = None) (dumps (d_trace d)).
Proof.
  split; [vm_compute; split_and!; reflexivity|].
  apply (@handover_takes_no_dump PlainInet.inet kernel_handover dumping_config false 3 4 5 (-1) None [3; 7; 5]).
  repeat constructor; lia.
Defined.

(** ** Requests *)

Section Requests.

Lemma read_loop_bounds script cap buf line l kind payload out :
  1 <= cap -> Z.of_nat (length buf) < cap ->
  (forall l kind payload, line = Some (l, kind, payload) -> 1 <= l <= REQUEST_LINE_MAX /\ 0 <= payload /\ l + payload < cap) ->
  read_loop script cap buf line = Ok (l, kind, payload, out) ->
  1 <= l <= REQUEST_LINE_MAX /\ 0 <= payload /\ l + payload < cap /\ Z.of_nat (length out) = l + payload.
Proof.
  intros Hcap. revert buf line. induction script as [|[|bytes| |e] script IH]; intros buf line Hb Hl; cbn [read_loop]; try done.
  set (bs := take _ bytes). case_bool; [done|].
  assert (Z.of_nat (length (buf ++ bs)) < cap) as Hb'
    by (rewrite length_app; unfold bs; rewrite length_take; lia).
  assert (Hfin : forall l0 k0 p0, 1 <= l0 <= REQUEST_LINE_MAX /\ 0 <= p0 /\ l0 + p0 < cap ->
    (if l0 + p0 <=? Z.of_nat (length (buf ++ bs)) then Ok (l0, k0, p0, take (Z.to_nat (l0 + p0)) (buf ++ bs))
     else read_loop script cap (buf ++ bs) (Some (l0, k0, p0))) = Ok (l, kind, payload, out) ->
    1 <= l <= REQUEST_LINE_MAX /\ 0 <= payload /\ l + payload < cap /\ Z.of_nat (length out) = l + payload).
  { intros l0 k0 p0 Hp. destruct (Z.leb_spec (l0 + p0) (Z.of_nat (length (buf ++ bs)))) as [L|L].
    - intros [= <- <- <- <-]. split_and!; try lia. rewrite length_take. lia.
    - apply IH; [done|]. intros ? ? ? [= <- <- <-]. done. }
  destruct line as [[[l0 k0] p0]|]; [apply Hfin; by eapply Hl|].
  destruct (split_at 10 (buf ++ bs)) as [head [nl|]] eqn:Es; [|by apply IH].
  case_bool; [done|]. destruct (request_parse _) as [[k0 p0]|] eqn:Er; [|done]. case_bool; [done|].
  apply request_parse_len in Er. b2p. apply Hfin. lia.
Qed.

(** A request the daemon accepts fits its buffer: the line has at most
    [REQUEST_LINE_MAX] bytes, line, payload and terminating NUL fit the
    [cap] bytes of the buffer, and exactly that many bytes were kept. *)
Theorem read_request_fits script cap line kind payload buf :
  1 <= cap -> read_request script cap = Ok (line, kind, payload, buf) ->
  1 <= line <= REQUEST_LINE_MAX /\ 0 <= payload /\ line + payload < cap /\ Z.of_nat (length buf) = line + payload.
Proof. intros Hc. apply read_loop_bounds; [done|cbn; lia|done]. Qed.

Lemma read_request_fits_witness :
  1 <= 7 <= REQUEST_LINE_MAX /\ 0 <= 0 /\ 7 + 0 < 16448 /\ Z.of_nat (length (str "status" ++ [10])) = 7 + 0.
Proof.
  apply (read_request_fits [RecvData (str "status" ++ [10])] 16448 7 REQUEST_STATUS 0 _ ltac:(lia)).
  vm_compute. reflexivity.
Defined.

Lemma read_loop_chunks chunks rest cap head body kind buf :
  let whole := head ++ 10 :: body in
  let l := Z.of_nat (length head) + 1 in
  (10 ∉ head) -> l <= REQUEST_LINE_MAX -> Z.of_nat (length whole) < cap ->
  request_parse (cstr_of (head ++ [10])) = Ok (kind, Z.of_nat (length body)) ->
  Forall (fun c => c <> []) chunks -> buf ++ concat chunks = whole -> (length buf < length whole)%nat ->
  read_loop (map RecvData chunks ++ rest) cap buf
    (if Z.of_nat (length buf) <? l then None else Some (l, kind, Z.of_nat (length body)))
  = Ok (l, kind, Z.of_nat (length body), whole).
Proof.
  cbv zeta. set (whole := head ++ 10 :: body). set (l := Z.of_nat (length head) + 1).
  intros Hnl Hmax Hcap Hreq Hc. revert buf. induction Hc as [|c chunks Hc Hcs IH]; intros buf Hw Hl.
  { cbn in Hw. rewrite app_nil_r in Hw. subst buf. lia. }
  cbn [map app read_loop]. cbn [concat] in Hw.
  assert (Hlw : Z.of_nat (length whole) = l + Z.of_nat (length body)).
  { unfold whole, l. rewrite length_app. cbn. lia. }
  assert (Z.of_nat (length (buf ++ c)) <= Z.of_nat (length whole)) as Hbc
    by (rewrite <- Hw, app_assoc, (length_app (buf ++ c)); lia).
  rewrite take_ge by (rewrite length_app in Hbc; lia). rewrite bool_decide_eq_false_2 by done.
  assert (Hfin : (if l + Z.of_nat (length body) <=? Z.of_nat (length (buf ++ c))
      then Ok (l, kind, Z.of_nat (length body), take (Z.to_nat (l + Z.of_nat (length body))) (buf ++ c))
      else read_loop (map RecvData chunks ++ rest) cap (buf ++ c) (Some (l, kind, Z.of_nat (length body))))
     = Ok (l, kind, Z.of_nat (length body), whole) \/ Z.of_nat (length (buf ++ c)) < l).
  { destruct (Z.leb_spec (l + Z.of_nat (length body)) (Z.of_nat (length (buf ++ c)))) as [L|L].
    - left. do 2 f_equal. rewrite app_assoc in Hw. assert (concat chunks = []) as Ech.
      { apply (f_equal length) in Hw. rewrite length_app in Hw. apply length_zero_iff_nil. lia. }
      rewrite Ech, app_nil_r in Hw. rewrite Hw, take_ge by lia. done.
    - destruct (Z.lt_ge_cases (Z.of_nat (length (buf ++ c))) l) as [|G]; [by right|left].
      specialize (IH (buf ++ c)). rewrite (proj2 (Z.ltb_ge _ _) G) in IH. apply IH; [by rewrite <- app_assoc|lia]. }
  destruct (Z.ltb_spec (Z.of_nat (length buf)) l) as [L|L].
  2:{ destruct Hfin as [Hfin|]; [exact Hfin|]. rewrite length_app in *. lia. }
  destruct (Z.lt_ge_cases (Z.of_nat (length (buf ++ c))) l) as [G|G].
  - (* the newline is still to come *)
    assert (10 ∉ buf ++ c) as Hno.
    { rewrite app_assoc in Hw. intros Hin. apply Hnl. unfold whole in Hw.
      assert (buf ++ c = take (length (buf ++ c)) head) as Et.
      { apply (f_equal (take (length (buf ++ c)))) in Hw. rewrite take_app_length in Hw.
        etrans; [exact Hw|]. apply take_app_le. unfold l in G. lia. }
      rewrite Et in Hin. by apply elem_of_take in Hin as (i & Hi & _); apply list_elem_of_lookup_2 in Hi. }
    rewrite split_at_none by done. specialize (IH (buf ++ c)). rewrite (proj2 (Z.ltb_lt _ _) G) in IH.
    apply IH; [by rewrite <- app_assoc|]. unfold l in *. lia.
  - destruct Hfin as [Hfin|]; [|lia].
    assert (exists t, buf ++ c = head ++ 10 :: t) as [t Et].
    { rewrite app_assoc in Hw. unfold whole in Hw. exists (drop (length head + 1) (buf ++ c)).
      apply (f_equal (take (length head + 1))) in Hw. rewrite take_app_le in Hw by lia.
      rewrite <- (take_drop (length head + 1) (buf ++ c)) at 1. rewrite Hw.
      rewrite take_app_ge by lia. replace (length head + 1 - length head)%nat with 1%nat by lia.
      cbn. by rewrite <- app_assoc. }
    rewrite Et, split_at_some by done. rewrite <- Et. fold l.
    rewrite (proj2 (Z.ltb_ge _ _)) by lia. rewrite Hreq.
    rewrite (proj2 (Z.leb_gt _ _)) by lia. exact Hfin.
Qed.

(** How a request is cut into segments does not matter: a complete
    request that fits is read whole, from any sequence of non-empty pieces
    it arrives in. *)
Theorem read_request_chunking chunks rest cap head body kind :
  10 ∉ head -> Z.of_nat (length head) + 1 <= REQUEST_LINE_MAX -> Z.of_nat (length (head ++ 10 :: body)) < cap ->
  request_parse (cstr_of (head ++ [10])) = Ok (kind, Z.of_nat (length body)) ->
  Forall (fun c => c <> []) chunks -> concat chunks = head ++ 10 :: body ->
  read_request (map RecvData chunks ++ rest) cap
  = Ok (Z.of_nat (length head) + 1, kind, Z.of_nat (length body), head ++ 10 :: body).
Proof.
  intros Hn Hl Hc Hr Hch E. unfold read_request.
  assert (L := read_loop_chunks chunks rest cap head body kind [] Hn Hl Hc Hr Hch E). cbv zeta in L.
  rewrite (proj2 (Z.ltb_lt _ _)) in L by (cbn; lia). apply L. rewrite length_app. cbn. lia.
Qed.

Lemma read_request_chunking_witness :
  read_request [RecvData (str "net"); RecvData (str "work 3" ++ [10; 97]); RecvData (str "bc")] 16448
  = Ok (10, REQUEST_NETWORK, 3, str "network 3" ++ 10 :: str "abc").
Proof.
  apply (read_request_chunking [str "net"; str "work 3" ++ [10; 97]; str "bc"] [] 16448 (str "network 3") (str "abc")
           REQUEST_NETWORK).
  - intros Hin. vm_compute in Hin. repeat (apply elem_of_cons in Hin as [?|Hin]; [discriminate|]).
    apply not_elem_of_nil in Hin. exact Hin.
  - vm_compute. discriminate.
  - vm_compute. reflexivity.
  - vm_compute. reflexivity.
  - repeat constructor; discriminate.
  - reflexivity.
Defined.

(** C35: kmorph and the daemon agree on a handover: the daemon accepts it
    exactly when it is ARMED and the last probe found the predecessor
    alive, and kmorph reads the daemon's answer as accepted exactly then;
    otherwise it is told the state and the last probe. *)
Theorem handover_answer_agrees t d :
  let '(reply, accepted) := answer_handover t d 128 in
  (accepted = true <-> tk_state t = TK_ARMED /\ d_last_result d = PROBE_ALIVE)
  /\ exists line, reply = Ok line /\ (request_parse_handover line [] 64).2 = if accepted then Ok tt else Err EBUSY.
Proof.
  unfold answer_handover. cbv zeta. split.
  - rewrite andb_true_iff, !bool_decide_eq_true. done.
  - destruct (tk_state t), (d_last_result d); eexists; (split; [vm_compute; reflexivity|vm_compute; reflexivity]).
Qed.

End Requests.

Section Frozen.
Context `{Inet} (k : kernel).

Lemma handle_begun_daemon t ev d :
  watching (tk_state t) = false -> watching (tk_state (takeover_handle (H:=daemon_ops k) t ev d).1) = false.
Proof.
  intros Hw. destruct (watching (tk_state (takeover_handle (H:=daemon_ops k) t ev d).1)) eqn:E; [|done].
  destruct (@handle_fences daemon (daemon_ops k) (daemon_logged k) t ev d) as [_ F2].
  apply F2 in E as [E _]. congruence.
Qed.

Definition frozen (t : takeover) (d : daemon) (t' : takeover) (d' : daemon) : Prop :=
  watching (tk_state t') = false /\ d_network d' = d_network d /\ d_has_network d' = d_has_network d.

Lemma deliver_frozen t d err :
  watching (tk_state t) = false -> frozen t d (deliver_probe k t d err).1 (deliver_probe k t d err).2.
Proof.
  intros Hw. destruct (deliver_probe_shape k t d err) as (d1 & _ & _ & _ & _ & _ & _ & N1 & N2 & _ & ->).
  assert (forall ev, frozen t d (takeover_handle (H:=daemon_ops k) t ev d1).1 (takeover_handle (H:=daemon_ops k) t ev d1).2) as Hf.
  { intros ev. split; [by apply handle_begun_daemon|]. assert (C := handle_core k t ev d1).
    change (d_network (core (takeover_handle (H:=daemon_ops k) t ev d1).2) = d_network d
            /\ d_has_network (core (takeover_handle (H:=daemon_ops k) t ev d1).2) = d_has_network d). by rewrite C. }
  destruct (probe_classify err); [apply Hf|apply Hf|done].
Qed.

Lemma dispatch_frozen t d fd :
  watching (tk_state t) = false -> frozen t d (dispatch k t d fd).1.1 (dispatch k t d fd).1.2.
Proof.
  intros Hw. unfold dispatch. assert ((2 <=? state_index (tk_state t)) = true) as Hi
    by (rewrite watching_index in Hw; by apply negb_false_iff in Hw).
  case_bool. { unfold on_tick. rewrite Hi. case_bool; done. }
  case_bool. { unfold on_probe_ready. by apply deliver_frozen. }
  case_bool.
  { unfold on_connection. set (d0 := emit _ d). case_bool; [done|].
    assert (Sh := answer_request_shape k t d0 (k_accept k (d_trace d))).
    destruct (answer_request k t d0 _) as [handover d1]. destruct Sh as (Sh & _ & _ & _ & _ & _ & _ & E7).
    destruct handover; [destruct (Sh eq_refl) as [Ha _]; by rewrite Ha in Hw|]. by destruct (E7 Hw). }
  case_bool; [|done]. destruct (k_signal k _); [|done]. repeat case_bool; done.
Qed.

(** Once the takeover has begun the network identity it will put back
    is fixed: no request and no event can replace it any more. *)
Theorem network_frozen_after_fence t d ready :
  watching (tk_state t) = false ->
  let '(t', d') := daemon_loop k t d ready in
  d_network d' = d_network d /\ d_has_network d' = d_has_network d.
Proof.
  revert t d. induction ready as [|fd ready IH]; intros t d Hw; [done|]. cbn [daemon_loop].
  destruct (dispatch_frozen t d fd Hw) as (Hw' & N1 & N2).
  destruct (dispatch k t d fd) as [[t' d'] go]. cbn in *. destruct go; [|done].
  specialize (IH t' d' Hw'). destruct (daemon_loop k t' d' ready). by rewrite <- N1, <- N2.
Qed.

End Frozen.

Lemma network_frozen_after_fence_witness :
  watching (tk_state (busy_life 5).1) = false /\
  let '(t', d') := @daemon_loop PlainInet.inet kernel_busy (busy_life 5).1 (busy_life 5).2 [5; 3; 5] in
  d_network d' = d_network (busy_life 5).2 /\ d_has_network d' = d_has_network (busy_life 5).2.
Proof.
  assert (watching (tk_state (busy_life 5).1) = false) as E by (vm_compute; reflexivity).
  split; [exact E|].
  exact (@network_frozen_after_fence PlainInet.inet kernel_busy (busy_life 5).1 (busy_life 5).2 [5; 3; 5] E).
Defined.

(** The configuration accepts [probe_interval = 0], and with it the
    probe timer is never armed, so the predecessor is never probed; every
    other interval arms it with a valid [itimerspec]. *)
Theorem zero_interval_never_probes :
  (exists c err, @config_parse alloc_always (fun _ => []) (str "probe_interval = 0") [] 128 = (c, err, Ok tt)
     /\ timer_armed (open_timer (c_probe_interval_ms c)) = false)
  /\ forall ms, 0 < ms -> timer_armed (open_timer ms) = true /\ 0 <= (open_timer ms).2 < 1000000000.
Proof.
  split; [eexists _, _; split; vm_compute; reflexivity|].
  intros ms Hms. unfold timer_armed, open_timer. cbn [fst snd].
  assert (Hdm := Z.div_mod ms 1000 ltac:(lia)). assert (Hb := Z.mod_pos_bound ms 1000 ltac:(lia)).
  split; [|lia]. apply negb_true_iff, andb_false_iff.
  destruct (Z.eqb_spec (ms / 1000) 0); [right; apply Z.eqb_neq; lia|by left].
Qed.
