(* ===== verification/Vigil.v ===== *)
(** * kmorphd/main.c: why the daemon fences

    First a frame for the event loop: a relation on daemons that every
    primitive step respects is respected by every turn of the loop.  Then
    what the predecessor was seen to do, read off the trace of the calls to
    the kernel alone, and the theorem that the daemon fences exactly when it
    was silent often enough or has handed over. *)

From S2P Require Import Prelude Takeover Cstr Parse Config Scanf Request Netsnap Daemon.

(** ** A frame for the loop *)

(** Effects of no consequence to descriptors, the parent or the identity. *)
Definition routine (e : effect) : bool :=
  match e with
  | XClose _ | XReport _ _ | XSaveNetwork _ _ _ | XCall (CState TK_TAKEN_OVER) _ => false
  | _ => true
  end.

Section Frame.
Context `{Inet} (k : kernel) (R : daemon -> daemon -> Prop) `{!Reflexive R, !Transitive R}.
Hypothesis R_emit : forall e d, routine e = true -> R d (emit e d).
Hypothesis R_set : forall d d', d_trace d' = d_trace d -> d_probe_fd d' = d_probe_fd d -> d_ready_fd d' = d_ready_fd d ->
  d_network d' = d_network d -> d_has_network d' = d_has_network d -> R d d'.
Hypothesis R_over : forall t d, R d (report_taken_over k (write_state_file k t (emit (XCall (CState TK_TAKEN_OVER) None) d))).
Hypothesis R_unprobe : forall d, R d (d_with_probe_fd (-1) d).
Hypothesis R_unprobe_close : forall d, 0 <= d_probe_fd d -> R d (d_with_probe_fd (-1) (emit (XClose (d_probe_fd d)) d)).
Hypothesis R_probe : forall tr d, tr `prefix_of` d_trace d -> 0 <= k_probe_start k tr -> R d (d_with_probe_fd (k_probe_start k tr) d).
Hypothesis R_close : forall tr fd d, tr `prefix_of` d_trace d -> fd = k_probe_start k tr \/ fd = k_accept k tr -> 0 <= fd -> R d (emit (XClose fd) d).
Hypothesis R_network : forall t d text len, R d (answer_network k t d text len).2.

Lemma R_then e d d' : routine e = true -> R d d' -> R d (emit e d').
Proof using Transitive0 R_emit. intros E X. etrans; [exact X|by apply R_emit]. Qed.
Lemma R_and f d d' :
  (forall x, d_trace (f x) = d_trace x /\ d_probe_fd (f x) = d_probe_fd x /\ d_ready_fd (f x) = d_ready_fd x /\
     d_network (f x) = d_network x /\ d_has_network (f x) = d_has_network x) -> R d d' -> R d (f d').
Proof using Transitive0 R_set. intros F X. destruct (F d') as (? & ? & ? & ? & ?). etrans; [exact X|by apply R_set]. Qed.

Ltac framed := cbn [fst snd];
  repeat first [assumption | reflexivity | apply R_then; [reflexivity|]
    | apply (R_and (d_with_last_probe_err _)); [done|] | apply (R_and (d_with_last_probe_ms _)); [done|]
    | apply (R_and (d_with_last_result _)); [done|] | apply (R_and (d_with_probe_reported _)); [done|]
    | apply (R_and (d_with_dump_path _)); [done|] | apply (R_and (d_with_handed_over _)); [done|] ].

Lemma fill_status_frame t d : R d (fill_status k t d).2.
Proof using All. unfold fill_status. destruct (_ =? 0); cbn [now_ms]; framed. Qed.

Lemma write_state_file_frame t d : R d (write_state_file k t d).
Proof using All.
  unfold write_state_file. pose proof (fill_status_frame t d) as F. destruct (fill_status k t d) as [r d1]. destruct (request_format_status r 128); [|done]. framed.
Qed.

Lemma on_state_frame t s d : R d (on_state_daemon k t s d).
Proof using All.
  unfold on_state_daemon. cbv zeta. case_decide as Ds; [subst s|].
  - unfold mark_taken_over. pose proof (R_over t d). destruct (c_console _); framed.
  - etrans; [|apply write_state_file_frame]. apply R_emit. by destruct s.
Qed.

Lemma handle_framed t ev d : R d (takeover_handle (H:=daemon_ops k) t ev d).2.
Proof using All. apply (handle_frame (H:=daemon_ops k) R); intros; [framed..|]. apply on_state_frame. Qed.

Lemma deliver_framed t d err : R d (deliver_probe k t d err).2.
Proof using All.
  unfold deliver_probe. cbv zeta. set (changed := _ || _). set (d1 := if changed then _ else d). assert (S1 : R d d1).
  { unfold d1. destruct changed; [|reflexivity]. etrans; [|apply write_state_file_frame]. framed. }
  set (d2 := d_with_last_probe_err err d1). change (now_ms k d2) with (k_now k (d_trace d2), emit (XNow (k_now k (d_trace d2))) d2). cbv beta iota zeta.
  set (d3 := d_with_last_probe_ms _ _). assert (S3 : R d d3) by (unfold d3, d2; framed).
  destruct (probe_classify err); [etrans; [exact S3|apply handle_framed]..|exact S3].
Qed.

Lemma on_tick_framed t d : R d (on_tick k t d).2.
Proof using All.
  unfold on_tick. cbv zeta. set (d1 := emit _ d). assert (S1 : R d d1) by (unfold d1; framed). destruct (_ <? 0); [done|].
  destruct (2 <=? _); [done|]. match goal with |- R d (let '(t, d) := ?y in _).2 => set (x := y) end. assert (S2 : R d x.2).
  { unfold x. destruct (Z.leb_spec 0 (d_probe_fd d1)) as [L|L]; [|done]. etrans; [exact S1|]. etrans; [by apply R_unprobe_close|]. apply deliver_framed. }
  destruct x as [t2 d2]. cbn [snd] in S2. etrans; [exact S2|]. destruct (Z.ltb_spec (k_probe_start k (d_trace d2)) 0) as [L|L].
  { etrans; [|apply deliver_framed]. framed. }
  set (d3 := emit (XEpollAdd _ _) _). assert (S3 : R d2 d3) by (unfold d3; framed).
  assert (P : d_trace d2 `prefix_of` d_trace d3) by (unfold d3; cbn; rewrite <- app_assoc; by eexists).
  etrans; [exact S3|]. destruct (negb _); [|by apply R_probe]. etrans; [|apply deliver_framed]. apply (R_close (d_trace d2)); [done|by left|done].
Qed.

Lemma on_probe_ready_framed t d : R d (on_probe_ready k t d).2.
Proof using All. unfold on_probe_ready. cbv zeta. etrans; [|apply deliver_framed]. etrans; [|apply R_unprobe]. framed. Qed.

Lemma answer_grows t d fd : d_trace d `prefix_of` d_trace (answer_request k t d fd).2.
Proof using Type.
  unfold answer_request. cbv zeta. set (d1 := emit _ d). assert (P1 : d_trace d `prefix_of` d_trace d1) by (by eexists).
  assert (Rp : forall (r : result (list Z)) d0, d_trace d `prefix_of` d_trace d0 ->
    d_trace d `prefix_of` d_trace (match r with Ok text => if bool_decide (text = []) then d0 else emit (XSend fd text) d0 | Err _ => d0 end)).
  { intros [text|] d0 S0; [|done]. case_bool_decide; [done|]. by apply prefix_app_r. }
  destruct (read_request _ _) as [[[[line kind] payload] buf]|e]; [destruct kind|].
  - assert (F : d_trace d1 `prefix_of` d_trace (fill_status k t d1).2) by (unfold fill_status; destruct (_ =? 0); [done|by eexists]).
    destruct (fill_status k t d1) as [r d2]. apply Rp. by etrans.
  - destruct (answer_handover t d1 128) as [r acc]. by apply (Rp r).
  - assert (N : d_trace d `prefix_of` d_trace (answer_network k t d1 (cstr_of (drop (Z.to_nat line) buf)) 128).2).
    { unfold answer_network. destruct (2 <=? _); [done|]. destruct (netsnap_parse _); [|done]. by apply prefix_app_r. }
    destruct (answer_network _ _ _ _ _) as [r d2]. by apply (Rp r).
  - destruct (_ || _); [done|]. by apply (Rp (Ok _)).
Qed.

Lemma answer_framed t d fd : R d (answer_request k t d fd).2.
Proof using All.
  unfold answer_request. cbv zeta. set (d1 := emit _ d). assert (S1 : R d d1) by (unfold d1; framed).
  assert (Rp : forall (r : result (list Z)) d0, R d d0 -> R d (match r with Ok text => if bool_decide (text = []) then d0 else emit (XSend fd text) d0 | Err _ => d0 end)).
  { intros [text|] d0 S0; [|done]. case_bool_decide; framed. }
  destruct (read_request _ _) as [[[[line kind] payload] buf]|e]; [destruct kind|].
  - pose proof (fill_status_frame t d1) as F. destruct (fill_status k t d1) as [r d2]. apply Rp. by etrans.
  - destruct (answer_handover t d1 128) as [r acc]. by apply (Rp r).
  - pose proof (R_network t d1 (cstr_of (drop (Z.to_nat line) buf)) 128) as N. destruct (answer_network _ _ _ _ _) as [r d2]. apply (Rp r). by etrans.
  - destruct (_ || _); [done|]. by apply (Rp (Ok _)).
Qed.

Lemma on_connection_framed t d : R d (on_connection k t d).2.
Proof using All.
  unfold on_connection. cbv zeta. set (d1 := emit _ d). assert (S1 : R d d1) by (unfold d1; framed). destruct (Z.ltb_spec (k_accept k (d_trace d)) 0) as [L|L]; [done|].
  pose proof (answer_framed t d1 (k_accept k (d_trace d))) as A. pose proof (answer_grows t d1 (k_accept k (d_trace d))) as G.
  destruct (answer_request _ _ _ _) as [ho d2]. cbn [snd] in A, G.
  assert (P : d_trace d `prefix_of` d_trace d2) by (etrans; [by eexists|exact G]).
  assert (S2 : R d (emit (XClose (k_accept k (d_trace d))) d2)).
  { etrans; [exact S1|]. etrans; [exact A|]. apply (R_close (d_trace d)); [done|by right|done]. }
  destruct ho; [|done]. unfold take_handover. etrans; [|apply handle_framed]. framed.
Qed.

Lemma dispatch_framed t d fd : R d (dispatch k t d fd).1.2.
Proof using All.
  unfold dispatch. destruct (_ =? _); [apply on_tick_framed|]. destruct (_ =? _); [apply on_probe_ready_framed|].
  destruct (_ =? _); [apply on_connection_framed|]. destruct (_ =? _); [|reflexivity]. cbv zeta.
  destruct (k_signal _ _); [|framed]. destruct (_ =? _); [framed|]. destruct (d_init _); framed.
Qed.

(** Every run of the loop. *)
Lemma loop_framed t d ready : R d (daemon_loop k t d ready).2.
Proof using All.
  revert t d. induction ready as [|fd ready IH]; intros t d; [reflexivity|]. cbn [daemon_loop]. pose proof (dispatch_framed t d fd) as D.
  destruct (dispatch k t d fd) as [[t' d'] go]. cbn [fst snd] in D. destruct go; [|done]. etrans; [exact D|apply IH].
Qed.

Lemma run_framed t d ready : R d (daemon_run k t d ready).2.
Proof using All. unfold daemon_run. etrans; [apply write_state_file_frame|apply loop_framed]. Qed.

End Frame.

(** The state file is written with the clock read, and nothing else. *)
Lemma write_state_plain `{Inet} k t d :
  core (write_state_file k t d) = core d /\ d_ready_fd (write_state_file k t d) = d_ready_fd d /\
  exists es, d_trace (write_state_file k t d) = d_trace d ++ es /\ Forall (fun e => match e with XNow _ | XStateFile _ => True | _ => False end) es.
Proof.
  unfold write_state_file, fill_status. destruct (_ =? 0); cbn [now_ms]; (destruct (request_format_status _ 128) as [line|]);
    (split; [done|]; split; [done|]).
  - eexists [_]. split; [done|by repeat constructor].
  - exists []. by rewrite app_nil_r.
  - eexists [_; _]. cbn. rewrite <- app_assoc. split; [done|by repeat constructor].
  - eexists [_]. split; [done|by repeat constructor].
Qed.

(** ** What the predecessor was seen to do *)

(** Read off the trace: a probe under way, the first fence, the silences
    since it last showed a sign of life, and the last probe. *)
Record seen : Type := mk_seen { s_pending : bool; s_fenced : bool; s_silences : Z; s_last : probe_result }.
Definition NOTHING_SEEN : seen := mk_seen false false 0 PROBE_ERROR.

Definition verdict (r : probe_result) (s : seen) : seen :=
  mk_seen false (s_fenced s) (match r with PROBE_ALIVE => 0 | PROBE_SILENT => s_silences s + 1 | PROBE_ERROR => s_silences s end) r.

(** A probe ends when it cannot be started or watched, when its connection
    is settled, or when it is still under way at the next tick. *)
Definition see (s : seen) (e : effect) : seen :=
  match e with
  | XTimer r => if (0 <=? r) && s_pending s && negb (s_fenced s) then verdict PROBE_SILENT s else s
  | XProbeStart r => if r <? 0 then verdict (probe_classify (- r)) s else s
  | XEpollAdd _ r => if r =? 0 then mk_seen true (s_fenced s) (s_silences s) (s_last s) else verdict PROBE_ERROR s
  | XProbeFinish _ err => verdict (probe_classify err) s
  | XCall (CFence _) _ => mk_seen (s_pending s) true (s_silences s) (s_last s)
  | _ => s
  end.
Definition sight (tr : list effect) : seen := foldl see NOTHING_SEEN tr.

Lemma sight_app a b : sight (a ++ b) = foldl see (sight a) b.
Proof. apply foldl_app. Qed.
Lemma sight_emit e d : sight (d_trace (emit e d)) = see (sight (d_trace d)) e.
Proof. cbn. by rewrite sight_app. Qed.

(** Silent often enough; or alive, with the acceptance of its handover sent
    and the connection closed before the fence. *)
Definition cause (timeouts : Z) (tr : list effect) : Prop :=
  timeouts <= s_silences (sight tr) \/
  exists before fd text after, tr = before ++ XSend fd text :: XClose fd :: after /\
    (request_parse_handover text [] 64).2 = Ok tt /\ s_last (sight before) = PROBE_ALIVE /\ s_silences (sight before) = 0.

(** Every first fence has a cause. *)
Definition causes (timeouts : Z) (tr : list effect) : Prop :=
  forall tr1 r p tr2, tr = tr1 ++ XCall (CFence r) p :: tr2 -> s_fenced (sight tr1) = false -> cause timeouts tr1.

(** Effects that say nothing of a probe, and those that are no fence either. *)
Definition blind (e : effect) : bool := match e with XTimer _ | XProbeStart _ | XEpollAdd _ _ | XProbeFinish _ _ => false | _ => true end.
Definition dull (e : effect) : bool := blind e && match e with XCall (CFence _) _ => false | _ => true end.

Lemma dull_sight es s : Forall (fun e => dull e = true) es -> foldl see s es = s.
Proof. intros F. revert s. induction F as [|e es E F IH]; intros s; [done|]. cbn [foldl]. destruct e as [|[] | | | | | | | | | | | | | | |]; done || apply IH. Qed.

Lemma blind_sight es s : Forall (fun e => blind e = true) es ->
  let s' := foldl see s es in s_pending s' = s_pending s /\ s_silences s' = s_silences s /\ s_last s' = s_last s /\ (s_fenced s = true -> s_fenced s' = true).
Proof.
  intros F. revert s. induction F as [|e es E F IH]; intros s; [done|]. cbn [foldl]. cbv zeta in *.
  assert (X : s_pending (see s e) = s_pending s /\ s_silences (see s e) = s_silences s /\ s_last (see s e) = s_last s /\ (s_fenced s = true -> s_fenced (see s e) = true))
    by (destruct e as [|[] | | | | | | | | | | | | | | |]; done). destruct X as (X1 & X2 & X3 & X4). destruct (IH (see s e)) as (-> & -> & -> & Y). rewrite X1, X2, X3. split_and!; auto.
Qed.

Lemma fenced_app a b : s_fenced (sight a) = true -> s_fenced (sight (a ++ b)) = true.
Proof.
  intros F. rewrite sight_app. revert F. generalize (sight a). induction b as [|e b IH]; intros s F; [done|]. cbn [foldl]. apply IH.
  destruct e as [|[] | | | | | | | | | | | | | | |]; cbn; repeat case_match; done.
Qed.

(** The first fence is not in what is appended, or is. *)
Lemma causes_app n tr es :
  causes n tr -> (s_fenced (sight tr) = true \/ Forall (fun e => dull e = true) es) -> causes n (tr ++ es).
Proof.
  intros C D tr1 r p tr2 E N. apply app_eq_inv in E as [(m & -> & E)|(m & -> & E)].
  - destruct m as [|x m].
    + cbn in E. destruct D as [D|D]; [rewrite app_nil_r in D; congruence|]. rewrite <- E in D. by apply Forall_cons in D as [D _].
    + injection E as <- E. by eapply C.
  - destruct D as [D|D]; [by rewrite (fenced_app _ _ D) in N|]. rewrite E in D. apply Forall_app in D as [_ D]. by apply Forall_cons in D as [D _].
Qed.

Lemma causes_fence n tr r p es : causes n tr -> cause n tr -> causes n (tr ++ XCall (CFence r) p :: es).
Proof.
  intros C W. replace (tr ++ XCall (CFence r) p :: es) with ((tr ++ [XCall (CFence r) p]) ++ es) by (by rewrite <- app_assoc).
  apply causes_app; [|left; by rewrite sight_app]. intros tr1 r' p' tr2 E N. destruct tr2 as [|x tr2] using rev_ind.
  - apply app_inj_tail in E as [-> _]. done.
  - rewrite app_comm_cons, app_assoc in E. apply app_inj_tail in E as [-> _]. by eapply C.
Qed.

(** What an event adds to the trace. *)
Definition adds (P : effect -> bool) (d d' : daemon) : Prop := exists es, d_trace d' = d_trace d ++ es /\ Forall (fun e => P e = true) es.
#[local] Instance adds_refl P : Reflexive (adds P).
Proof. intros d. exists []. by rewrite app_nil_r. Qed.
#[local] Instance adds_trans P : Transitive (adds P).
Proof. intros d1 d2 d3 (a & E1 & F1) (b & E2 & F2). exists (a ++ b). rewrite E2, E1, app_assoc. split; [done|]. by apply Forall_app. Qed.
Lemma adds_one (P : effect -> bool) e d : P e = true -> adds P d (emit e d).
Proof. intros E. exists [e]. split; [done|]. by repeat constructor. Qed.
Lemma adds_weaken (P Q : effect -> bool) d d' : (forall e, P e = true -> Q e = true) -> adds P d d' -> adds Q d d'.
Proof. intros W (es & E & F). exists es. split; [done|]. eapply Forall_impl; [exact F|done]. Qed.

Section Vigil.
Context `{Inet} (k : kernel) (n : Z).
Hypothesis timeouts : 1 <= n < two32.

Lemma adds_emit e d d' : dull e = true -> adds dull d d' -> adds dull d (emit e d').
Proof using Type. intros E A. etrans; [exact A|by apply adds_one]. Qed.

Lemma write_state_adds t d d0 : adds dull d d0 -> adds dull d (write_state_file k t d0).
Proof using Type.
  intros A. unfold write_state_file, fill_status. destruct (_ =? 0); cbn [now_ms]; (destruct (request_format_status _ 128); [apply adds_emit; [done|]|]); done || by apply adds_emit.
Qed.

Lemma on_state_adds t s d : adds dull d (on_state_daemon k t s d).
Proof using Type.
  unfold on_state_daemon. cbv zeta. assert (A : adds dull d (write_state_file k t (emit (XCall (CState s) None) d))) by (by apply write_state_adds, adds_one).
  case_decide; [|done]. unfold mark_taken_over. apply adds_emit; [done|]. set (d1 := write_state_file _ _ _) in *.
  assert (B : adds dull d (report_taken_over k d1)).
  { unfold report_taken_over. destruct (_ <? 0); [done|]. etrans; [exact A|]. exists [XReport (d_ready_fd d1) (k_report k (d_trace d1)); XClose (d_ready_fd d1)].
    cbn. rewrite <- app_assoc. split; [done|]. by repeat constructor. }
  destruct (c_console _); [by apply adds_emit|done].
Qed.

Lemma continue_adds t d : adds dull d (continue_takeover (H:=daemon_ops k) t d).2.
Proof using Type. apply (continue_frame (H:=daemon_ops k) (adds dull)); intros; cbn; try (by apply adds_one). apply on_state_adds. Qed.

(** The first thing a takeover does is announce itself, the next is fence. *)
Lemma begin_adds t d :
  exists d1 r p, adds dull d d1 /\ adds dull (emit (XCall (CFence r) p) d1) (begin_takeover (H:=daemon_ops k) t d).2.
Proof using Type.
  unfold begin_takeover, step, set_state. cbn [op_fence on_state daemon_ops fst snd].
  set (d1 := on_state_daemon k _ TK_FENCING d). exists d1, (k_fence k (d_trace d1)), (d_dump_path d1).
  split; [apply on_state_adds|]. destruct (_ =? 0); cbn [negb]; [|apply on_state_adds]. etrans; [|apply continue_adds]. apply on_state_adds.
Qed.

Lemma handle_adds t ev d : adds blind d (takeover_handle (H:=daemon_ops k) t ev d).2.
Proof using Type.
  apply (handle_frame (H:=daemon_ops k) (adds blind)); intros; cbn; try (by apply adds_one).
  eapply adds_weaken; [|apply on_state_adds]. intros e E. unfold dull in E. by apply andb_prop in E as [E _].
Qed.

(** The number of silences it takes never changes. *)
Lemma continue_timeouts t d : probe_timeouts (continue_takeover (H:=daemon_ops k) t d).1 = probe_timeouts t.
Proof using Type. unfold continue_takeover, step, set_state. cbn. destruct (_ =? 0); cbn; [|done]. by destruct (_ =? 0). Qed.
Lemma begin_timeouts t d : probe_timeouts (begin_takeover (H:=daemon_ops k) t d).1 = probe_timeouts t.
Proof using Type. unfold begin_takeover, step, set_state. cbn. destruct (_ =? 0); cbn [negb]; [|done]. etrans; [apply continue_timeouts|done]. Qed.
Lemma handle_timeouts t ev d : probe_timeouts (takeover_handle (H:=daemon_ops k) t ev d).1 = probe_timeouts t.
Proof using Type.
  unfold takeover_handle, handle_watching, set_state. destruct (tk_state t); [destruct ev..| | | |]; repeat case_bool; repeat case_decide; cbn;
    done || (etrans; [apply begin_timeouts|done]) || apply continue_timeouts.
Qed.

(** The part of the invariant that an event of the machine touches. *)
Record watchful (t : takeover) (d : daemon) : Prop := {
  wf_fenced : s_fenced (sight (d_trace d)) = negb (watching (tk_state t));
  wf_timeouts : probe_timeouts t = n;
  wf_watch : watching (tk_state t) = true ->
    silent t = s_silences (sight (d_trace d)) /\ 0 <= s_silences (sight (d_trace d)) < n /\
    (tk_state t = TK_ARMED -> s_silences (sight (d_trace d)) = 0);
  wf_causes : causes n (d_trace d) }.

(** What an event says must be in sight already. *)
Definition foretold (t : takeover) (ev : takeover_event) (d : daemon) : Prop :=
  0 <= silent t < n /\
  match ev with
  | TK_EV_PROBE_ALIVE => s_silences (sight (d_trace d)) = 0
  | TK_EV_PROBE_SILENT => s_silences (sight (d_trace d)) = silent t + 1
  | TK_EV_REQUEST => tk_state t = TK_ARMED /\ cause n (d_trace d)
  end.

Lemma adds_dull_sight d d' : adds dull d d' -> sight (d_trace d') = sight (d_trace d).
Proof using Type. intros (es & -> & F). by rewrite sight_app, dull_sight. Qed.
Lemma adds_dull_causes d d' : adds dull d d' -> causes n (d_trace d) -> causes n (d_trace d').
Proof using Type. intros (es & -> & F) C. apply causes_app; auto. Qed.

Lemma begin_watchful t d : probe_timeouts t = n -> causes n (d_trace d) -> cause n (d_trace d) ->
  watchful (begin_takeover (H:=daemon_ops k) t d).1 (begin_takeover (H:=daemon_ops k) t d).2.
Proof using Type.
  intros N C W. destruct (@begin_fences daemon (daemon_ops k) (daemon_logged k) t d) as [_ B].
  destruct (begin_adds t d) as (d1 & r & p & (e1 & E1 & F1) & (e2 & E2 & F2)).
  assert (Tr : d_trace (begin_takeover (H:=daemon_ops k) t d).2 = (d_trace d ++ e1) ++ XCall (CFence r) p :: e2) by (rewrite E2; cbn; by rewrite E1, <- !app_assoc).
  constructor.
  - rewrite Tr, B. cbn [negb]. rewrite (sight_app (d_trace d ++ e1)). cbn [foldl].
    apply (blind_sight e2 (see (sight (d_trace d ++ e1)) (XCall (CFence r) p))); [|done]. eapply Forall_impl; [exact F2|]. intros e E. by apply andb_prop in E as [E _].
  - by rewrite begin_timeouts.
  - by rewrite B.
  - rewrite Tr. apply causes_fence; [apply causes_app; auto|]. destruct W as [W|(b & fd & tx & a & -> & W)].
    + left. by rewrite sight_app, dull_sight.
    + right. exists b, fd, tx, (a ++ e1). by rewrite <- !app_assoc.
Qed.

Lemma handle_watchful t ev d :
  probe_timeouts t = n -> s_fenced (sight (d_trace d)) = negb (watching (tk_state t)) -> causes n (d_trace d) ->
  (watching (tk_state t) = true -> foretold t ev d) ->
  watchful (takeover_handle (H:=daemon_ops k) t ev d).1 (takeover_handle (H:=daemon_ops k) t ev d).2.
Proof using timeouts.
  intros N F C W. destruct (watching (tk_state t)) eqn:Ew; cycle 1.
  { destruct (handle_adds t ev d) as (es & Es & Fs). pose proof (handle_begun_daemon k t ev d Ew) as B. cbn [negb] in F.
    constructor; [rewrite B, Es; by apply fenced_app|by rewrite handle_timeouts|by rewrite B|]. rewrite Es. apply causes_app; auto. }
  destruct (W eq_refl) as [Sr Fo]. clear W.
  assert (Move : forall t' s', watching s' = true -> probe_timeouts t' = n -> silent t' = s_silences (sight (d_trace d)) -> 0 <= silent t' < n ->
    (s' = TK_ARMED -> silent t' = 0) -> watchful (with_state t' s') (on_state_daemon k (with_state t' s') s' d)).
  { intros t' s' Ws Nt Es Rs As. pose proof (on_state_adds (with_state t' s') s' d) as A. constructor; rewrite ?(adds_dull_sight _ _ A); cbn; [by rewrite Ws, F|done| |by eapply adds_dull_causes].
    intros _. rewrite <- Es. auto. }
  assert (Stay : forall t', tk_state t' = tk_state t -> probe_timeouts t' = n -> silent t' = s_silences (sight (d_trace d)) -> 0 <= silent t' < n ->
    (tk_state t = TK_ARMED -> silent t' = 0) -> watchful t' d).
  { intros t' Et Nt Es Rs As. constructor; rewrite ?Et, ?Ew; [done|done| |done]. intros _. rewrite <- Es. auto. }
  unfold takeover_handle, handle_watching, set_state. cbn [on_state daemon_ops]. destruct ev; cbn [foretold] in Fo.
  - destruct (tk_state t) eqn:Es; try done; cbn [tk_state with_silent]; rewrite Es.
    + rewrite decide_True by done. apply Stay; cbn; done || lia.
    + rewrite decide_False by done. apply Move; cbn; done || lia.
  - assert (U : u32 (silent t + 1) = silent t + 1) by (apply u32_small; lia).
    assert (Bg : n <= silent t + 1 -> watchful (begin_takeover (H:=daemon_ops k) (with_silent t (silent t + 1)) d).1 (begin_takeover (H:=daemon_ops k) (with_silent t (silent t + 1)) d).2)
      by (intros L; apply begin_watchful; [done|done|left; by rewrite Fo]).
    destruct (tk_state t) eqn:Es; try done; cbn [tk_state with_silent probe_timeouts silent]; rewrite U, N, ?Es;
      (destruct (Z.leb_spec n (silent t + 1)) as [L|L]; [by apply Bg|]).
    + rewrite decide_False by done. apply Move; cbn; done || lia.
    + rewrite decide_True by done. apply Stay; cbn; done || lia.
  - destruct Fo as [Es Ca]. rewrite Es, decide_True by done. by apply begin_watchful.
Qed.

(** The invariant of the loop. *)
Record vigil (t : takeover) (d : daemon) : Prop := {
  vg_watchful : watchful t d;
  vg_pending : s_pending (sight (d_trace d)) = (0 <=? d_probe_fd d);
  vg_last : s_last (sight (d_trace d)) = d_last_result d }.

Lemma vigil_dull t d d' :
  vigil t d -> adds dull d d' -> d_probe_fd d' = d_probe_fd d -> d_last_result d' = d_last_result d -> vigil t d'.
Proof using Type.
  intros [[F N W C] P L] A Ep El. pose proof (adds_dull_sight _ _ A) as S. constructor; [constructor|..]; rewrite ?S, ?Ep, ?El; try done. by eapply adds_dull_causes.
Qed.

(** The machine's event leaves the probes alone. *)
Lemma handle_vigil t ev d :
  watchful (takeover_handle (H:=daemon_ops k) t ev d).1 (takeover_handle (H:=daemon_ops k) t ev d).2 ->
  s_pending (sight (d_trace d)) = (0 <=? d_probe_fd d) -> s_last (sight (d_trace d)) = d_last_result d ->
  vigil (takeover_handle (H:=daemon_ops k) t ev d).1 (takeover_handle (H:=daemon_ops k) t ev d).2.
Proof using Type.
  intros W P L. destruct (handle_adds t ev d) as (es & E & F). pose proof (handle_core k t ev d) as C.
  destruct (blind_sight es (sight (d_trace d)) F) as (B1 & _ & B3 & _). constructor; [done|..]; rewrite E, sight_app.
  - rewrite B1, P. f_equal. change (d_probe_fd (core d) = d_probe_fd (core (takeover_handle (H:=daemon_ops k) t ev d).2)). by rewrite C.
  - rewrite B3, L. change (d_last_result (core d) = d_last_result (core (takeover_handle (H:=daemon_ops k) t ev d).2)). by rewrite C.
Qed.

Lemma deliver_starts t d err :
  exists d1, adds dull d d1 /\ d_last_result d1 = probe_classify err /\ d_probe_fd d1 = d_probe_fd d /\
    deliver_probe k t d err =
      match probe_classify err with
      | PROBE_ALIVE => takeover_handle (H:=daemon_ops k) t TK_EV_PROBE_ALIVE d1
      | PROBE_SILENT => takeover_handle (H:=daemon_ops k) t TK_EV_PROBE_SILENT d1
      | PROBE_ERROR => (t, d1)
      end.
Proof using Type.
  unfold deliver_probe. cbv zeta. set (changed := _ || _). set (d1 := if changed then _ else d).
  set (d2 := d_with_last_probe_err err d1). change (now_ms k d2) with (k_now k (d_trace d2), emit (XNow (k_now k (d_trace d2))) d2). cbv beta iota zeta.
  assert (A : adds dull d d1 /\ d_last_result d1 = probe_classify err /\ d_probe_fd d1 = d_probe_fd d).
  { unfold d1. destruct changed eqn:Ec.
    - pose proof (write_state_file_quiet k t (d_with_probe_reported true (d_with_last_result (probe_classify err) d))) as [C _].
      split; [by apply write_state_adds; exists []; rewrite app_nil_r|].
      split; [change (d_last_result (core (write_state_file k t (d_with_probe_reported true (d_with_last_result (probe_classify err) d)))) = probe_classify err)
             |change (d_probe_fd (core (write_state_file k t (d_with_probe_reported true (d_with_last_result (probe_classify err) d)))) = d_probe_fd d)]; by rewrite C.
    - split; [reflexivity|]. split; [|done]. apply orb_false_elim in Ec as [Ec _]. apply orb_false_elim in Ec as [Ec _].
      apply negb_false_iff, bool_decide_eq_true in Ec. done. }
  destruct A as (A & El & Ep). exists (d_with_last_probe_ms (k_now k (d_trace d2)) (emit (XNow (k_now k (d_trace d2))) d2)).
  split; [|done]. etrans; [exact A|]. exists [XNow (k_now k (d_trace d2))]. split; [done|by repeat constructor].
Qed.

(** A probe whose end is in sight is delivered. *)
Lemma deliver_vigil t d0 d err :
  watchful t d0 -> sight (d_trace d) = verdict (probe_classify err) (sight (d_trace d0)) -> causes n (d_trace d) -> d_probe_fd d < 0 ->
  vigil (deliver_probe k t d err).1 (deliver_probe k t d err).2 /\ d_probe_fd (deliver_probe k t d err).2 < 0.
Proof using timeouts.
  intros [F N W C] S Ca P. destruct (deliver_starts t d err) as (d1 & A & El & Ep & ->). pose proof (adds_dull_sight _ _ A) as S1. rewrite S in S1.
  pose proof (adds_dull_causes _ _ A Ca) as C1. assert (P1 : s_pending (sight (d_trace d1)) = (0 <=? d_probe_fd d1)) by (rewrite S1, Ep; symmetry; apply Z.leb_gt; lia).
  assert (L1 : s_last (sight (d_trace d1)) = d_last_result d1) by (by rewrite S1, El). assert (F1 : s_fenced (sight (d_trace d1)) = negb (watching (tk_state t))) by (by rewrite S1).
  assert (Pf : forall ev, d_probe_fd (takeover_handle (H:=daemon_ops k) t ev d1).2 < 0).
  { intros ev. change (d_probe_fd (core (takeover_handle (H:=daemon_ops k) t ev d1).2) < 0). rewrite (handle_core k t ev d1). change (d_probe_fd d1 < 0). lia. }
  destruct (probe_classify err) eqn:Er.
  - split; [|apply Pf]. apply handle_vigil; [|done|done]. apply handle_watchful; [done..|]. intros Wt. destruct (W Wt) as (W1 & W2 & _). split; [lia|by rewrite S1].
  - split; [|apply Pf]. apply handle_vigil; [|done|done]. apply handle_watchful; [done..|]. intros Wt. destruct (W Wt) as (W1 & W2 & _). split; [lia|]. rewrite S1. cbn. lia.
  - split; [|cbn [snd]; lia]. constructor; [constructor|..]; try done. intros Wt. cbn [fst snd]. rewrite S1. cbn. by apply W.
Qed.

Lemma causes_one e tr : causes n tr -> match e with XCall (CFence _) _ => False | _ => True end -> causes n (tr ++ [e]).
Proof using Type.
  intros C E tr1 r p tr2 X N. destruct tr2 as [|x tr2] using rev_ind.
  - by apply app_inj_tail in X as [_ ->].
  - rewrite app_comm_cons, app_assoc in X. apply app_inj_tail in X as [-> _]. by eapply C.
Qed.

Lemma on_tick_vigil t d : vigil t d -> vigil (on_tick k t d).1 (on_tick k t d).2.
Proof using timeouts.
  intros V. pose proof V as [[F N W C] P L]. unfold on_tick. cbv zeta. set (r := k_timer_read k (d_trace d)).
  assert (S0 : sight (d_trace (emit (XTimer r) d)) = see (sight (d_trace d)) (XTimer r)) by apply sight_emit. cbn [see] in S0. rewrite P in S0.
  assert (C0 : causes n (d_trace (emit (XTimer r) d))) by (by apply causes_one).
  assert (Same : sight (d_trace (emit (XTimer r) d)) = sight (d_trace d) -> vigil t (emit (XTimer r) d)).
  { intros S. constructor; [constructor|..]; rewrite ?S; done. }
  destruct (Z.ltb_spec r 0) as [Rn|Rn]; [apply Same; by rewrite S0, (proj2 (Z.leb_gt 0 r)) by lia|]. rewrite (proj2 (Z.leb_le 0 r)) in S0 by lia.
  rewrite <- (negb_involutive (2 <=? _)), <- watching_index. destruct (watching (tk_state t)) eqn:Ew; cbn [negb] in *.
  2: { apply Same. by rewrite S0, F, andb_false_r. }
  rewrite F, andb_true_r in S0. cbn [andb] in S0.
  match goal with |- context [let '(t, d) := ?y in _] => set (x := y) end.
  assert (X : vigil x.1 x.2 /\ d_probe_fd x.2 < 0).
  { unfold x. change (d_probe_fd (emit (XTimer r) d)) with (d_probe_fd d). destruct (Z.leb_spec 0 (d_probe_fd d)) as [Pp|Pp]; cbn [fst snd].
    - apply (deliver_vigil t d); [exact (vg_watchful _ _ V)|change (probe_classify ETIMEDOUT) with PROBE_SILENT; rewrite <- S0| |cbn; lia].
      + change (d_trace (d_with_probe_fd (-1) (emit (XClose (d_probe_fd d)) (emit (XTimer r) d)))) with (d_trace (emit (XClose (d_probe_fd d)) (emit (XTimer r) d))). by rewrite sight_emit.
      + by apply (causes_one (XClose (d_probe_fd d))).
    - split; [|cbn; lia]. apply Same. rewrite S0. done. }
  destruct x as [t2 d2]. cbn [fst snd] in X. destruct X as [V2 P2]. pose proof V2 as [W2 Pe2 L2]. rewrite (proj2 (Z.leb_gt _ _) P2) in Pe2. clearbody r.
  set (fd := k_probe_start k (d_trace d2)). pose proof W2 as [_ _ _ C2].
  assert (C3 : causes n (d_trace (emit (XProbeStart fd) d2))) by (by apply causes_one).
  assert (S3 : sight (d_trace (emit (XProbeStart fd) d2)) = if fd <? 0 then verdict (probe_classify (- fd)) (sight (d_trace d2)) else sight (d_trace d2)) by apply sight_emit.
  destruct (Z.ltb_spec fd 0) as [Fn|Fn]; [by apply (deliver_vigil t2 d2)|].
  set (re := k_epoll_add k _). assert (S4 : sight (d_trace (emit (XEpollAdd fd re) (emit (XProbeStart fd) d2))) =
    if re =? 0 then mk_seen true (s_fenced (sight (d_trace d2))) (s_silences (sight (d_trace d2))) (s_last (sight (d_trace d2))) else verdict PROBE_ERROR (sight (d_trace d2)))
    by (rewrite sight_emit; cbn [see]; by rewrite S3).
  assert (C4 : causes n (d_trace (emit (XEpollAdd fd re) (emit (XProbeStart fd) d2)))) by (by apply (causes_one (XEpollAdd fd re))).
  destruct (re =? 0); cbn [negb].
  - destruct W2 as [F2 N2 Wa2 _]. constructor; [constructor|..]; cbn [fst snd d_with_probe_fd d_trace d_probe_fd d_last_result]; rewrite ?S4; cbn; try done.
    symmetry. apply Z.leb_le. lia.
  - apply (deliver_vigil t2 d2); [done|by rewrite sight_emit|by apply (causes_one (XClose fd))|done].
Qed.

Lemma on_probe_ready_vigil t d : vigil t d -> vigil (on_probe_ready k t d).1 (on_probe_ready k t d).2.
Proof using timeouts.
  intros [W P L]. unfold on_probe_ready. cbv zeta. set (err := k_probe_finish k (d_trace d)).
  apply (deliver_vigil t d); [done| | |cbn; lia]; change (d_trace (d_with_probe_fd ?v ?x)) with (d_trace x).
  - by rewrite sight_emit.
  - apply causes_one; [by destruct W|done].
Qed.

(** An answer; an accepted handover has been answered. *)
Lemma answer_vigil t d fd :
  adds dull d (answer_request k t d fd).2 /\ d_probe_fd (answer_request k t d fd).2 = d_probe_fd d /\ d_last_result (answer_request k t d fd).2 = d_last_result d /\
  ((answer_request k t d fd).1 = true -> tk_state t = TK_ARMED /\ d_last_result d = PROBE_ALIVE /\
     exists text, d_trace (answer_request k t d fd).2 = d_trace d ++ [XRecv fd; XSend fd text] /\ (request_parse_handover text [] 64).2 = Ok tt).
Proof using Type.
  unfold answer_request. cbv zeta. set (d1 := emit _ d). assert (A1 : adds dull d d1) by (by apply adds_one).
  assert (Rp : forall (r : result (list Z)) d0, adds dull d d0 -> d_probe_fd d0 = d_probe_fd d -> d_last_result d0 = d_last_result d ->
    let d2 := match r with Ok text => if bool_decide (text = []) then d0 else emit (XSend fd text) d0 | Err _ => d0 end in
    adds dull d d2 /\ d_probe_fd d2 = d_probe_fd d /\ d_last_result d2 = d_last_result d).
  { intros [text|] d0 A0 E1 E2; [|done]. cbv zeta. case_bool_decide; [done|]. split; [by apply adds_emit|done]. }
  destruct (read_request _ _) as [[[[line kind] payload] buf]|e]; [destruct kind|].
  - assert (Fs : adds dull d1 (fill_status k t d1).2 /\ d_probe_fd (fill_status k t d1).2 = d_probe_fd d /\ d_last_result (fill_status k t d1).2 = d_last_result d).
    { unfold fill_status. destruct (_ =? 0); cbn [now_ms snd]; [done|]. split; [by apply adds_one|done]. }
    destruct (fill_status k t d1) as [r d2]. cbn [snd] in Fs. destruct Fs as (F1 & F2 & F3).
    destruct (Rp (request_format_status r 128) d2) as (? & ? & ?); [by etrans|done..|]. cbn [fst snd]. split_and!; done.
  - unfold answer_handover. cbv zeta. set (acc := bool_decide _ && bool_decide _). destruct acc eqn:Ac.
    + apply andb_prop in Ac as [Ac1 Ac2]. apply bool_decide_eq_true in Ac1, Ac2.
      assert (Rq : exists text, request_format_handover None 128 = Ok text /\ text <> [] /\ (request_parse_handover text [] 64).2 = Ok tt).
      { eexists. split; [vm_compute; reflexivity|]. split; [discriminate|vm_compute; reflexivity]. }
      destruct Rq as (text & -> & Nt & Pt). rewrite bool_decide_eq_false_2 by done. cbn [fst snd]. split; [by apply adds_emit|]. split; [done|]. split; [done|].
      intros _. split; [done|]. split; [done|]. exists text. split; [|done]. cbn. by rewrite <- app_assoc.
    + destruct (Rp (request_format_handover (Some (snprintf [] 64 (str "state=" ++ str (takeover_state_name (tk_state t)) ++ str " predecessor=" ++ probe_result_name (d_last_result d1)))) 128) d1)
        as (? & ? & ?); [done..|]. cbn [fst snd]. split_and!; done.
  - assert (An : adds dull d (answer_network k t d1 (cstr_of (drop (Z.to_nat line) buf)) 128).2 /\
      d_probe_fd (answer_network k t d1 (cstr_of (drop (Z.to_nat line) buf)) 128).2 = d_probe_fd d /\ d_last_result (answer_network k t d1 (cstr_of (drop (Z.to_nat line) buf)) 128).2 = d_last_result d).
    { unfold answer_network. destruct (2 <=? _); [done|]. destruct (netsnap_parse _); [|done]. cbn [snd]. split; [|done]. etrans; [exact A1|]. eexists [_]. split; [done|by repeat constructor]. }
    destruct (answer_network _ _ _ _ _) as [r d2]. cbn [snd] in An. destruct An as (? & ? & ?). destruct (Rp r d2) as (? & ? & ?); [done..|]. cbn [fst snd]. split_and!; done.
  - destruct (_ || _); [split_and!; done|]. destruct (Rp (Ok (str "err unsupported request" ++ [10])) d1) as (? & ? & ?); [done..|]. cbn [fst snd]. split_and!; done.
Qed.

Lemma on_connection_vigil t d : vigil t d -> vigil (on_connection k t d).1 (on_connection k t d).2.
Proof using timeouts.
  intros V. unfold on_connection. cbv zeta. set (fd := k_accept k (d_trace d)). set (d1 := emit (XAccept fd) d).
  assert (V1 : vigil t d1) by (apply (vigil_dull t d); [done|by apply adds_one|done..]). destruct (fd <? 0); [done|].
  destruct (answer_vigil t d1 fd) as (A & Ep & El & Ho). destruct (answer_request k t d1 fd) as [ho d2]. cbn [fst snd] in *.
  set (d3 := emit (XClose fd) d2). assert (V3 : vigil t d3) by (apply (vigil_dull t d1); [done|by apply adds_emit|done..]).
  destruct ho; [|done]. destruct (Ho eq_refl) as (Ar & Al & text & Et & Pt). unfold take_handover. cbv zeta.
  pose proof V3 as [[F3 N3 W3 C3] P3 L3]. destruct V1 as [[F1 N1 W1 C1] P1 L1]. assert (Wt : watching (tk_state t) = true) by (by rewrite Ar).
  apply handle_vigil; [|done|done]. apply handle_watchful; [done..|]. intros _. destruct (W3 Wt) as (S1 & S2 & _). split; [lia|]. split; [done|].
  right. exists (d_trace d1 ++ [XRecv fd]), fd, text, []. cbn [d_trace d_with_dump_path d_with_handed_over d3 emit d_with_trace]. rewrite Et, <- !app_assoc. split; [done|]. split; [done|].
  rewrite sight_app. cbn [foldl see]. rewrite L1. split; [done|]. by apply W1.
Qed.

Lemma loop_vigil t d ready : vigil t d -> vigil (daemon_loop k t d ready).1 (daemon_loop k t d ready).2.
Proof using timeouts.
  revert t d. induction ready as [|fd ready IH]; intros t d V; [done|]. cbn [daemon_loop].
  assert (D : vigil (dispatch k t d fd).1.1 (dispatch k t d fd).1.2).
  { unfold dispatch. destruct (_ =? _); [by apply on_tick_vigil|]. destruct (_ =? _); [by apply on_probe_ready_vigil|]. destruct (_ =? _); [by apply on_connection_vigil|].
    assert (E : forall e d', dull e = true -> vigil t d' -> vigil t (emit e d')) by (intros e d' Q V'; apply (vigil_dull t d'); [done|by apply adds_one|done..]).
    destruct (_ =? _); [|done]. cbv zeta. destruct (k_signal _ _); [|by apply E]. destruct (_ =? _); [by apply E, E|]. destruct (d_init _); by apply E. }
  destruct (dispatch k t d fd) as [[t' d'] go]. cbn [fst snd] in D. destruct go; [by apply IH|done].
Qed.

End Vigil.

(** C18: the daemon fences for a cause and in time.  Whatever the kernel
    answers and whatever arrives, the trace before its first fence shows
    either [probe_timeouts] silences since the predecessor last showed a sign
    of life -- a connection that timed out or found the host down, or that
    was still under way at the next tick -- or an accepted handover of a
    predecessor whose last probe found it alive, answered and hung up before
    the fence.  And it never lets so many silences pass without fencing. *)
Theorem daemon_fences_for_cause `{Inet} k cfg init timer signal listen ready_fd net ready :
  1 <= c_probe_timeouts cfg < two32 ->
  let '(t, d) := daemon_life k cfg init timer signal listen ready_fd net ready in
  (forall before r p after, d_trace d = before ++ XCall (CFence r) p :: after -> s_fenced (sight before) = false -> cause (c_probe_timeouts cfg) before) /\
  (s_fenced (sight (d_trace d)) = false -> s_silences (sight (d_trace d)) < c_probe_timeouts cfg).
Proof.
  intros T. unfold daemon_life, daemon_run, daemon_start. set (t0 := takeover_init _ _). set (d0 := mk_daemon _ _ _ _ _ _ _ _ _ _ _ _ _ _ _ _).
  assert (V : vigil (c_probe_timeouts cfg) t0 (write_state_file k t0 d0)).
  { apply (vigil_dull _ t0 d0); [|by apply write_state_adds|..].
    - constructor; [constructor|done|done]; [done|done| |by intros [|]]. intros _. split; [done|]. split; [cbn; lia|done].
    - change (d_probe_fd (core (write_state_file k t0 d0)) = d_probe_fd (core d0)). by destruct (write_state_file_quiet k t0 d0) as [-> _].
    - change (d_last_result (core (write_state_file k t0 d0)) = d_last_result (core d0)). by destruct (write_state_file_quiet k t0 d0) as [-> _]. }
  apply (loop_vigil k _ T _ _ ready) in V. destruct (daemon_loop k t0 _ ready) as [t d]. cbn [fst snd] in V. destruct V as [[F N W C] _ _].
  split; [exact C|]. intros E. rewrite E in F. symmetry in F. apply negb_false_iff in F. by apply W.
Qed.

(** The effects before the first fence. *)
Fixpoint until_fence (tr : list effect) : list effect :=
  match tr with
  | [] => []
  | e :: tr => match e with XCall (CFence _) _ => [] | _ => e :: until_fence tr end
  end.

Lemma daemon_fences_for_cause_witness :
  tk_state (fine_life 6).1 = TK_TAKEN_OVER /\ cause 5 (until_fence (d_trace (fine_life 6).2)).
Proof.
  split; [vm_compute; reflexivity|].
  assert (P : 1 <= c_probe_timeouts default_config < two32) by (vm_compute; split; [discriminate|reflexivity]).
  pose proof (@daemon_fences_for_cause PlainInet.inet kernel_fine default_config false 3 4 5 (-1) None (replicate 6 3) P) as C. unfold fine_life.
  destruct (daemon_life kernel_fine default_config false 3 4 5 (-1) None (replicate 6 3)) as [t d] eqn:E. destruct C as [C _].
  assert (D : d = (fine_life 6).2) by (unfold fine_life; by rewrite E). cbn [snd]. rewrite D. clear D.
  refine (C (until_fence (d_trace (fine_life 6).2)) 0 None (drop (S (length (until_fence (d_trace (fine_life 6).2)))) (d_trace (fine_life 6).2)) _ _).
  - transitivity (d_trace (fine_life 6).2); [unfold fine_life; by rewrite E|]. vm_compute. reflexivity.
  - vm_compute. reflexivity.
Defined.
