(* ===== verification/Fdt.v ===== *)
(** * Flattened device trees: libfdt's sequential writer and lib/fdtutil.c

    The blob under construction is modelled by its header fields, its
    structure block as the sequence of tags it holds (each with its fields,
    a property's name as the offset the code stores) and its string table
    as bytes.  Space is accounted exactly as [fdt_grab_space_] and
    [fdt_add_string_] do.  Reading works on the tree of nodes the structure
    block spells; [tree_of] is that decoding and [fdtutil_build_tree] says
    that a built blob decodes to the tree its callback emits. *)

From S2P Require Import Prelude Cstr Ranges Parse.

(** ** Data *)

(** A tag of the structure block; [N] is how a property's name is given. *)
Inductive tag (N : Type) : Type :=
| FDT_BEGIN_NODE (name : list Z)
| FDT_END_NODE
| FDT_PROP (name : N) (data : list Z)
| FDT_END.
Arguments FDT_BEGIN_NODE {N} name.
Arguments FDT_END_NODE {N}.
Arguments FDT_PROP {N} name data.
Arguments FDT_END {N}.

Definition FDT_MAGIC : Z := 0xd00dfeed.
Definition FDT_SW_MAGIC : Z := UINT32_MAX - FDT_MAGIC.

(** The error codes the writer returns. *)
Definition FDT_ERR_NOSPACE : Z := 3.
Definition FDT_ERR_BADSTATE : Z := 7.
Definition FDT_ERR_BADMAGIC : Z := 9.
Definition FDT_ERR_INTERNAL : Z := 13.

Record fdt : Type := mk_fdt {
  fdt_magic : Z;
  fdt_totalsize : Z;
  fdt_off_mem_rsvmap : Z;
  fdt_off_dt_struct : Z;
  fdt_off_dt_strings : Z;
  fdt_struct : list (tag Z);
  fdt_strings : list Z }.

Definition FDT_TAGALIGN (x : Z) : Z := Z.land (x + 3) (Z.lnot 3).
Definition FDT_ALIGN (x a : Z) : Z := Z.land (x + a - 1) (Z.lnot (a - 1)).

Definition zlen {A} (l : list A) : Z := Z.of_nat (length l).

(** Bytes a tag takes: the word of the tag, a padded name, a property's
    length and name offset and its padded value. *)
Definition tag_size {N} (t : tag N) : Z :=
  match t with
  | FDT_BEGIN_NODE name => 4 + FDT_TAGALIGN (zlen name + 1)
  | FDT_END_NODE | FDT_END => 4
  | FDT_PROP _ data => 12 + FDT_TAGALIGN (zlen data)
  end.
Definition struct_size {N} (ts : list (tag N)) : Z := foldr (fun t n => tag_size t + n) 0 ts.

Definition fdt_size_dt_struct (f : fdt) : Z := struct_size (fdt_struct f).
Definition fdt_size_dt_strings (f : fdt) : Z := zlen (fdt_strings f).

Definition with_struct (ts : list (tag Z)) (f : fdt) : fdt :=
  mk_fdt (fdt_magic f) (fdt_totalsize f) (fdt_off_mem_rsvmap f) (fdt_off_dt_struct f)
    (fdt_off_dt_strings f) ts (fdt_strings f).
Definition with_strings (s : list Z) (f : fdt) : fdt :=
  mk_fdt (fdt_magic f) (fdt_totalsize f) (fdt_off_mem_rsvmap f) (fdt_off_dt_struct f)
    (fdt_off_dt_strings f) (fdt_struct f) s.

(** ** The sequential writer *)

Definition fdt_sw_probe_ (f : fdt) : result unit :=
  if fdt_magic f =? FDT_MAGIC then Err FDT_ERR_BADSTATE
  else if negb (fdt_magic f =? FDT_SW_MAGIC) then Err FDT_ERR_BADMAGIC
  else Ok tt.

Definition fdt_sw_probe_memrsv_ (f : fdt) : result unit :=
  let? _ := fdt_sw_probe_ f in
  if negb (fdt_off_dt_strings f =? 0) then Err FDT_ERR_BADSTATE else Ok tt.

Definition fdt_sw_probe_struct_ (f : fdt) : result unit :=
  let? _ := fdt_sw_probe_ f in
  if negb (fdt_off_dt_strings f =? fdt_totalsize f) then Err FDT_ERR_BADSTATE else Ok tt.

(** Room for the tag [t] at the end of the structure block, and [t] there. *)
Definition fdt_grab_space_ (t : tag Z) (f : fdt) : option fdt :=
  let offset := fdt_size_dt_struct f in
  let spaceleft := u32 (fdt_totalsize f - fdt_off_dt_struct f - fdt_size_dt_strings f) in
  let len := tag_size t in
  if (u64 (offset + len) <? offset) || (spaceleft <? u64 (offset + len)) then None
  else Some (with_struct (fdt_struct f ++ [t]) f).

Definition fdt_create (bufsize : Z) : result fdt :=
  let hdrsize := FDT_ALIGN 40 16 in
  if bufsize <? hdrsize then Err FDT_ERR_NOSPACE
  else Ok (mk_fdt FDT_SW_MAGIC bufsize hdrsize hdrsize 0 [] []).

(** [fdt_add_reservemap_entry(fdt, 0, 0)] and then the struct state *)
Definition fdt_finish_reservemap (f : fdt) : result fdt :=
  let? _ := fdt_sw_probe_memrsv_ f in
  let offset := fdt_off_dt_struct f in
  if fdt_totalsize f <? offset + 16 then Err FDT_ERR_NOSPACE
  else Ok (mk_fdt (fdt_magic f) (fdt_totalsize f) (fdt_off_mem_rsvmap f) (offset + 16)
             (fdt_totalsize f) (fdt_struct f) (fdt_strings f)).

Definition fdt_begin_node (f : fdt) (name : list Z) : result fdt :=
  let? _ := fdt_sw_probe_struct_ f in
  match fdt_grab_space_ (FDT_BEGIN_NODE name) f with
  | None => Err FDT_ERR_NOSPACE
  | Some f => Ok f
  end.

Definition fdt_end_node (f : fdt) : result fdt :=
  let? _ := fdt_sw_probe_struct_ f in
  match fdt_grab_space_ FDT_END_NODE f with
  | None => Err FDT_ERR_NOSPACE
  | Some f => Ok f
  end.

(** [fdt_find_string_]: where [s] with its NUL first occurs in the table. *)
Fixpoint find_string (tab s : list Z) : option Z :=
  if bool_decide (take (length s) tab = s) then Some 0
  else match tab with
       | [] => None
       | _ :: tab => match find_string tab s with Some i => Some (i + 1) | None => None end
       end.

(** The table grows downwards; the offset is from its end, 0 for no room. *)
Definition fdt_add_string_ (f : fdt) (s : list Z) : fdt * Z :=
  let len := zlen s + 1 in
  let offset := fdt_size_dt_strings f + len in
  let struct_top := fdt_off_dt_struct f + fdt_size_dt_struct f in
  if u32 (fdt_totalsize f - offset) <? struct_top then (f, 0)
  else (with_strings (s ++ 0 :: fdt_strings f) f, - offset).

Definition fdt_find_add_string_ (f : fdt) (s : list Z) : fdt * Z * bool :=
  match find_string (fdt_strings f) (s ++ [0]) with
  | Some i => (f, i - fdt_size_dt_strings f, false)
  | None => (fdt_add_string_ f s, true)
  end.

(** [fdt_property_placeholder] and the copy of the value.  Without room the
    name just added is taken back and the error returned; no caller goes on
    with the buffer after an error. *)
Definition fdt_property (f : fdt) (name data : list Z) : result fdt :=
  let? _ := fdt_sw_probe_struct_ f in
  let '(g, nameoff, allocated) := fdt_find_add_string_ f name in
  if nameoff =? 0 then Err FDT_ERR_NOSPACE else
  match fdt_grab_space_ (FDT_PROP nameoff data) g with
  | None => Err FDT_ERR_NOSPACE
  | Some g => Ok g
  end.

(** Names relative to the end of the table become offsets into it. *)
Definition fix_nameoff (size : Z) (t : tag Z) : tag Z :=
  match t with FDT_PROP off data => FDT_PROP (off + size) data | t => t end.

Definition fdt_finish (f : fdt) : result fdt :=
  let? _ := fdt_sw_probe_struct_ f in
  match fdt_grab_space_ FDT_END f with
  | None => Err FDT_ERR_NOSPACE
  | Some f =>
      let newstroffset := fdt_off_dt_struct f + fdt_size_dt_struct f in
      Ok (mk_fdt FDT_MAGIC (newstroffset + fdt_size_dt_strings f) (fdt_off_mem_rsvmap f)
            (fdt_off_dt_struct f) newstroffset
            (map (fix_nameoff (fdt_size_dt_strings f)) (fdt_struct f)) (fdt_strings f))
  end.

(** The blocks moved together behind the header, one reserve entry. *)
Definition fdt_pack (f : fdt) : fdt :=
  let struct_off := FDT_ALIGN 40 8 + 16 in
  let strings_off := struct_off + fdt_size_dt_struct f in
  mk_fdt (fdt_magic f) (strings_off + fdt_size_dt_strings f) (FDT_ALIGN 40 8) struct_off
    strings_off (fdt_struct f) (fdt_strings f).

(** ** Big-endian cells *)

Fixpoint be (n : nat) (x : Z) : list Z :=
  match n with
  | O => []
  | S n => be n (x / 256) ++ [x mod 256]
  end.
Definition cpu_to_fdt32 (x : Z) : list Z := be 4 x.
Definition cpu_to_fdt64 (x : Z) : list Z := be 8 x.
Definition be_val (s : list Z) : Z := fold_left (fun v b => v * 256 + b) s 0.
(** [fdt64_to_cpu(p[i])] and [fdt32_to_cpu(p[i])] *)
Definition cell64 (s : list Z) (i : nat) : Z := be_val (take 8 (drop (8 * i) s)).
Definition cell32 (s : list Z) (i : nat) : Z := be_val (take 4 (drop (4 * i) s)).

Definition fdt_property_u32 (f : fdt) (name : list Z) (v : Z) : result fdt :=
  fdt_property f name (cpu_to_fdt32 v).
Definition fdt_property_u64 (f : fdt) (name : list Z) (v : Z) : result fdt :=
  fdt_property f name (cpu_to_fdt64 v).
Definition fdt_property_string (f : fdt) (name s : list Z) : result fdt :=
  fdt_property f name (s ++ [0]).

(** ** lib/fdtutil.c: writing *)

Definition fdtutil_prop_reg (f : fdt) (base size : Z) : result fdt :=
  fdt_property f (str "reg") (cpu_to_fdt64 base ++ cpu_to_fdt64 size).

Definition fdtutil_prop_cpulist `{Alloc} (f : fdt) (name : list Z) (l : cpulist) : result fdt :=
  if negb (alloc (zlen l * 8 + 1)) then Err FDT_ERR_INTERNAL
  else fdt_property f name (concat (map cpu_to_fdt64 l)).

Definition reg_cells (r : range) : list Z := cpu_to_fdt64 (r_base r) ++ cpu_to_fdt64 (r_size r).

Definition fdtutil_prop_regs `{Alloc} (f : fdt) (l : rangelist) : result fdt :=
  if negb (alloc (2 * zlen l * 8 + 1)) then Err FDT_ERR_INTERNAL
  else fdt_property f (str "reg") (concat (map reg_cells l)).

Definition fdtutil_try_build (fn : fdt -> result fdt) (size : Z) : result fdt :=
  let? f := fdt_create size in
  let? f := fdt_finish_reservemap f in
  let? f := fn f in
  fdt_finish f.

(** The buffer doubles from 16 KiB until the callback no longer runs out of
    space, and is given up on at 4 MiB; nine sizes in all. *)
Fixpoint build_loop `{Alloc} (fuel : nat) (fn : fdt -> result fdt) (size : Z)
    : option (result fdt) :=
  match fuel with
  | O => None
  | S fuel =>
      if negb (alloc size) then Some (Err ENOMEM) else
      match fdtutil_try_build fn size with
      | Ok f => Some (Ok (fdt_pack f))
      | Err e =>
          if negb (e =? FDT_ERR_NOSPACE) then Some (Err EINVAL)
          else if 4 * 1024 * 1024 <=? size then Some (Err ENOSPC)
          else build_loop fuel fn (size * 2)
      end
  end.

(** Nine rounds are enough ([build_loop_ends]). *)
Definition fdtutil_build `{Alloc} (fn : fdt -> result fdt) : result fdt :=
  match build_loop 9 fn (16 * 1024) with Some r => r | None => Err ENOSPC end.

(** A [for] loop over a list whose body may fail. *)
Fixpoint each {A} (op : Z -> A -> fdt -> result fdt) (i : Z) (l : list A) (f : fdt) : result fdt :=
  match l with
  | [] => Ok f
  | x :: l => let? f := op i x f in each op (i + 1) l f
  end.

(** ** The tree a blob spells *)

Inductive node : Type :=
| Node (name : list Z) (props : list (list Z * list Z)) (kids : list node).

Definition node_name (n : node) : list Z := let 'Node name _ _ := n in name.
Definition node_props (n : node) : list (list Z * list Z) := let 'Node _ ps _ := n in ps.
Definition node_kids (n : node) : list node := let 'Node _ _ ks := n in ks.

Definition prop_tag (p : list Z * list Z) : tag (list Z) := FDT_PROP p.1 p.2.

Fixpoint toks (n : node) : list (tag (list Z)) :=
  let 'Node name ps ks := n in
  FDT_BEGIN_NODE name :: map prop_tag ps ++ concat (map toks ks) ++ [FDT_END_NODE].

(** [fdt_get_string] on a finished blob *)
Definition name_tag (tab : list Z) (t : tag Z) : tag (list Z) :=
  match t with
  | FDT_BEGIN_NODE name => FDT_BEGIN_NODE name
  | FDT_END_NODE => FDT_END_NODE
  | FDT_PROP off data => FDT_PROP (cstr_of (drop (Z.to_nat off) tab)) data
  | FDT_END => FDT_END
  end.

(** The tags in order, with their names: what a reader of the blob sees. *)
Definition contents (f : fdt) : list (tag (list Z)) := map (name_tag (fdt_strings f)) (fdt_struct f).

Fixpoint parse_props (ts : list (tag (list Z))) : list (list Z * list Z) * list (tag (list Z)) :=
  match ts with
  | FDT_PROP name data :: ts' => let '(ps, rest) := parse_props ts' in ((name, data) :: ps, rest)
  | _ => ([], ts)
  end.

Fixpoint parse_nodes (fuel : nat) (ts : list (tag (list Z))) : option (list node * list (tag (list Z))) :=
  match fuel with
  | O => None
  | S fuel =>
      match ts with
      | FDT_BEGIN_NODE name :: ts =>
          let '(ps, ts) := parse_props ts in
          match parse_nodes fuel ts with
          | Some (ks, FDT_END_NODE :: ts) =>
              match parse_nodes fuel ts with
              | Some (sibs, rest) => Some (Node name ps ks :: sibs, rest)
              | None => None
              end
          | _ => None
          end
      | _ => Some ([], ts)
      end
  end.

(** The root node, when the blob is finished and its tags nest. *)
Definition tree_of (f : fdt) : option node :=
  if negb (fdt_magic f =? FDT_MAGIC) then None else
  match parse_nodes (S (length (fdt_struct f))) (contents f) with
  | Some ([t], [FDT_END]) => Some t
  | _ => None
  end.

(** ** Reading *)

(** [fdt_getprop]: the first property of that name *)
Fixpoint prop_lookup (ps : list (list Z * list Z)) (name : list Z) : option (list Z) :=
  match ps with
  | [] => None
  | (n, d) :: ps => if streq n name then Some d else prop_lookup ps name
  end.
Definition fdt_getprop (n : node) (name : list Z) : option (list Z) := prop_lookup (node_props n) name.

(** A node matches a name with or without its unit address. *)
Definition fdt_nodename_eq_ (p s : list Z) : bool :=
  if negb (starts s p) then false else
  let c := cn p (length s) in
  if c =? 0 then true else negb (existsb (fun x => x =? ch "@") s) && (c =? ch "@").

Definition fdt_subnode_offset (n : node) (name : list Z) : option node :=
  List.find (fun k => fdt_nodename_eq_ (node_name k) name) (node_kids n).

(** [check_off_] and [check_block_] *)
Definition check_off_ (hdrsize totalsize off : Z) : bool := (hdrsize <=? off) && (off <=? totalsize).
Definition check_block_ (hdrsize totalsize base size : Z) : bool :=
  check_off_ hdrsize totalsize base && negb (u32 (base + size) <? base)
  && check_off_ hdrsize totalsize (u32 (base + size)).

(** Version 17 blobs, as [fdt_create] makes them and the kernel exports. *)
Definition fdt_check_header (f : fdt) : bool :=
  let hdrsize := 40 in
  (fdt_magic f =? FDT_MAGIC)
  && negb ((fdt_totalsize f <? hdrsize) || (2 ^ 31 - 1 <? fdt_totalsize f))
  && check_off_ hdrsize (fdt_totalsize f) (fdt_off_mem_rsvmap f)
  && check_block_ hdrsize (fdt_totalsize f) (fdt_off_dt_struct f) (fdt_size_dt_struct f)
  && check_block_ hdrsize (fdt_totalsize f) (fdt_off_dt_strings f) (fdt_size_dt_strings f).

Definition fdtutil_check (f : fdt) (len : Z) : result unit :=
  if (len <? 40) || negb (fdt_check_header f) then Err EINVAL
  else if fdt_totalsize f <=? len then Ok tt else Err EINVAL.

Definition fdtutil_read_reg (n : node) : result (Z * Z) :=
  match fdt_getprop n (str "reg") with
  | Some reg => if negb (zlen reg =? 2 * 8) then Err EINVAL else Ok (cell64 reg 0, cell64 reg 1)
  | None => Err EINVAL
  end.

Definition fdtutil_read_u64 (n : node) (name : list Z) : result Z :=
  match fdt_getprop n name with
  | Some p => if negb (zlen p =? 8) then Err EINVAL else Ok (cell64 p 0)
  | None => Err EINVAL
  end.

Definition fdtutil_cells_to_cpulist `{Alloc} (cells : list Z) : result cpulist :=
  let len := zlen cells in
  if negb (len mod 8 =? 0) then Err EINVAL else
  let n := len / 8 in
  if negb (n =? 0) && negb (alloc (n * 8)) then Err ENOMEM else
  Ok (map (cell64 cells) (seq 0 (Z.to_nat n))).

Definition fdtutil_read_cpulist `{Alloc} (n : node) (name : list Z) : result cpulist :=
  match fdt_getprop n name with
  | Some p => fdtutil_cells_to_cpulist p
  | None => Err ENOENT
  end.

Fixpoint rangelist_cells `{Alloc} (cells : list Z) (idx : list nat) (out : rangelist) : result rangelist :=
  match idx with
  | [] => Ok out
  | i :: idx =>
      match rangelist_add out (cell64 cells (2 * i)) (cell64 cells (2 * i + 1)) with
      | (Ok _, out) => rangelist_cells cells idx out
      | (Err e, _) => Err e
      end
  end.

Definition fdtutil_cells_to_rangelist `{Alloc} (cells : list Z) : result rangelist :=
  let len := zlen cells in
  if negb (len mod (2 * 8) =? 0) then Err EINVAL else
  rangelist_cells cells (seq 0 (Z.to_nat (len / (2 * 8)))) [].

(** ** What the writer guarantees *)

(** The table after naming [s], and the offset of the name from its end. *)
Definition intern (tab s : list Z) : list Z * Z :=
  match find_string tab (s ++ [0]) with
  | Some i => (tab, i - zlen tab)
  | None => (s ++ 0 :: tab, - (zlen tab + (zlen s + 1)))
  end.

(** The buffer after [t], room allowing. *)
Definition push (f : fdt) (t : tag (list Z)) : fdt :=
  match t with
  | FDT_BEGIN_NODE name => with_struct (fdt_struct f ++ [FDT_BEGIN_NODE name]) f
  | FDT_END_NODE => with_struct (fdt_struct f ++ [FDT_END_NODE]) f
  | FDT_END => with_struct (fdt_struct f ++ [FDT_END]) f
  | FDT_PROP name data =>
      let '(tab, off) := intern (fdt_strings f) name in
      with_struct (fdt_struct f ++ [FDT_PROP off data]) (with_strings tab f)
  end.
Definition pushes (ts : list (tag (list Z))) (f : fdt) : fdt := foldl push f ts.

Definition used (f : fdt) : Z := fdt_off_dt_struct f + fdt_size_dt_struct f + fdt_size_dt_strings f.

(** A buffer in the struct state, of a size [fdtutil_build] tries. *)
Record writing (f : fdt) : Prop := {
  wr_magic : fdt_magic f = FDT_SW_MAGIC;
  wr_state : fdt_off_dt_strings f = fdt_totalsize f;
  wr_off : fdt_off_dt_struct f = 64;
  wr_fits : used f <= fdt_totalsize f;
  wr_max : fdt_totalsize f <= 4 * 1024 * 1024 }.

(** Lengths the writer takes as [int]s; property names are the short
    constants of the sources. *)
Definition tag_ok (t : tag (list Z)) : Prop :=
  match t with
  | FDT_BEGIN_NODE name => zlen name < 2 ^ 31 - 4
  | FDT_PROP name data => cstring name /\ zlen name < 64 /\ zlen data < 2 ^ 31 - 4
  | _ => True
  end.

(** [op] appends exactly [ts], whose lengths are in bounds, when they fit and
    runs out of space when not. *)
Definition emits (op : fdt -> result fdt) (ts : list (tag (list Z))) : Prop :=
  Forall tag_ok ts /\ forall f, writing f ->
  op f = if used (pushes ts f) <=? fdt_totalsize f then Ok (pushes ts f) else Err FDT_ERR_NOSPACE.

Lemma zlen_nonneg {A} (l : list A) : 0 <= zlen l.
Proof. unfold zlen. lia. Qed.
Lemma zlen_app {A} (l k : list A) : zlen (l ++ k) = zlen l + zlen k.
Proof. unfold zlen. rewrite length_app. lia. Qed.
Lemma zlen_cons {A} (x : A) l : zlen (x :: l) = 1 + zlen l.
Proof. unfold zlen. cbn [length]. lia. Qed.

Lemma tagalign_bounds x : 0 <= x -> x <= FDT_TAGALIGN x < x + 4.
Proof.
  intros Hx. assert (E : FDT_TAGALIGN x = (x + 3) / 4 * 4).
  { unfold FDT_TAGALIGN. rewrite <- Z.ldiff_land. replace (Z.ldiff (x + 3) 3) with (Z.ldiff (x + 3) (Z.ones 2)) by done.
    by rewrite Z.ldiff_ones_r, Z.shiftr_div_pow2, Z.shiftl_mul_pow2 by lia. }
  rewrite E. pose proof (Z.div_mod (x + 3) 4 ltac:(lia)).
  pose proof (Z.mod_pos_bound (x + 3) 4 ltac:(lia)). lia.
Qed.

Lemma tag_size_pos {N} (t : tag N) : 4 <= tag_size t.
Proof.
  destruct t as [name| |name data|]; cbn [tag_size]; try lia.
  - pose proof (tagalign_bounds (zlen name + 1)). pose proof (zlen_nonneg name). lia.
  - pose proof (tagalign_bounds (zlen data)). pose proof (zlen_nonneg data). lia.
Qed.

Lemma struct_size_app {N} (l k : list (tag N)) : struct_size (l ++ k) = struct_size l + struct_size k.
Proof. induction l as [|t l IH]; cbn [struct_size foldr app]; [done|]. unfold struct_size in *. lia. Qed.

Lemma struct_size_nonneg {N} (l : list (tag N)) : 0 <= struct_size l.
Proof. induction l as [|t l IH]; cbn; [lia|]. pose proof (tag_size_pos t). unfold struct_size in *. lia. Qed.

Lemma intern_length tab s : zlen tab <= zlen (intern tab s).1 <= zlen tab + zlen s + 1.
Proof.
  unfold intern. pose proof (zlen_nonneg s). destruct (find_string _ _); cbn [fst]; [lia|].
  rewrite zlen_app, zlen_cons. lia.
Qed.

Lemma push_fields f t :
  fdt_magic (push f t) = fdt_magic f /\ fdt_totalsize (push f t) = fdt_totalsize f /\
  fdt_off_dt_struct (push f t) = fdt_off_dt_struct f /\
  fdt_off_dt_strings (push f t) = fdt_off_dt_strings f.
Proof. destruct t as [|  |name data|]; cbn; try done. by destruct (intern _ _). Qed.

Lemma pushes_fields ts f :
  fdt_magic (pushes ts f) = fdt_magic f /\ fdt_totalsize (pushes ts f) = fdt_totalsize f /\
  fdt_off_dt_struct (pushes ts f) = fdt_off_dt_struct f /\
  fdt_off_dt_strings (pushes ts f) = fdt_off_dt_strings f.
Proof.
  revert f. induction ts as [|t ts IH]; intros f; [done|]. unfold pushes in *. cbn [foldl].
  destruct (IH (push f t)) as (-> & -> & -> & ->). apply push_fields.
Qed.

Lemma push_used f t : used f + 4 <= used (push f t).
Proof.
  unfold used, fdt_size_dt_struct, fdt_size_dt_strings.
  destruct t as [name| |name data|]; cbn [push].
  1, 2, 4: cbn -[struct_size zlen tag_size]; rewrite struct_size_app; cbn [struct_size foldr];
    match goal with |- context [tag_size ?t] => pose proof (tag_size_pos t) end; lia.
  pose proof (intern_length (fdt_strings f) name) as L.
  destruct (intern _ _) as [tab off]; cbn -[struct_size zlen tag_size] in *. rewrite struct_size_app.
  cbn [struct_size foldr]. pose proof (tag_size_pos (FDT_PROP off data)). lia.
Qed.

Lemma pushes_app ts us f : pushes (ts ++ us) f = pushes us (pushes ts f).
Proof. apply foldl_app. Qed.

Lemma pushes_used ts f : used f <= used (pushes ts f).
Proof.
  revert f. induction ts as [|t ts IH]; intros f; [cbn; lia|].
  unfold pushes in *. cbn [foldl]. pose proof (IH (push f t)). pose proof (push_used f t). lia.
Qed.

Lemma pushes_writing ts f :
  writing f -> used (pushes ts f) <= fdt_totalsize f -> writing (pushes ts f).
Proof.
  intros [] U. destruct (pushes_fields ts f) as (E1 & E2 & E3 & E4).
  constructor; rewrite ?E1, ?E2, ?E3, ?E4; done.
Qed.

(** *** The algebra of emitting *)

Lemma emits_nil : emits (fun f => Ok f) [].
Proof.
  split; [constructor|]. intros f W. cbn [pushes foldl]. destruct W as [_ _ _ F _].
  by rewrite (proj2 (Z.leb_le _ _) F).
Qed.

Lemma emits_ext op op' ts : (forall f, op f = op' f) -> emits op ts -> emits op' ts.
Proof. intros E [T H]. split; [done|]. intros f W. rewrite <- E. by apply H. Qed.

Lemma emits_eq op ts us : emits op ts -> ts = us -> emits op us.
Proof. by intros H <-. Qed.

Lemma emits_bind op1 op2 ts us :
  emits op1 ts -> emits op2 us ->
  emits (fun f => let? g := op1 f in op2 g) (ts ++ us).
Proof.
  intros [T1 H1] [T2 H2]. split; [by apply Forall_app|]. intros f W. rewrite H1, pushes_app by done.
  destruct (Z.leb_spec (used (pushes ts f)) (fdt_totalsize f)) as [L|L].
  - rewrite H2 by (by apply pushes_writing). by destruct (pushes_fields ts f) as (_ & -> & _).
  - pose proof (pushes_used us (pushes ts f)).
    by destruct (Z.leb_spec (used (pushes us (pushes ts f))) (fdt_totalsize f)); [lia|].
Qed.

Lemma emits_if (b : bool) op ts :
  (b = true -> emits op ts) -> emits (fun f => if b then op f else Ok f) (if b then ts else []).
Proof. intros H. destruct b; [by apply H|apply emits_nil]. Qed.

Lemma emits_each {A} (op : Z -> A -> fdt -> result fdt) (ts : Z -> A -> list (tag (list Z))) i l :
  (forall j x, x ∈ l -> emits (op j x) (ts j x)) ->
  emits (each op i l) (concat (imap (fun k x => ts (i + Z.of_nat k) x) l)).
Proof.
  revert i. induction l as [|x l IH]; intros i H; cbn [each].
  - apply emits_nil.
  - cbn [imap concat]. rewrite Z.add_0_r.
    apply (emits_bind (op i x)); [by apply H; left|].
    eapply emits_eq; [apply IH; intros j y Hy; apply H; by right|].
    f_equal. apply imap_ext. intros k y _. cbn. f_equal. lia.
Qed.

Lemma probe_writing f : writing f -> fdt_sw_probe_struct_ f = Ok tt.
Proof.
  intros [M S _ _ _]. unfold fdt_sw_probe_struct_, fdt_sw_probe_. rewrite M, S, !Z.eqb_refl. done.
Qed.

Lemma grab_writing t f :
  writing f -> tag_size t < 2 ^ 32 ->
  fdt_grab_space_ t f =
  let g := with_struct (fdt_struct f ++ [t]) f in
  if used g <=? fdt_totalsize f then Some g else None.
Proof.
  intros [_ _ O F M] T. unfold fdt_grab_space_. cbv zeta. unfold used, fdt_size_dt_struct, fdt_size_dt_strings in *.
  cbn -[struct_size zlen tag_size] in *. rewrite struct_size_app. cbn [struct_size foldr].
  pose proof (tag_size_pos t). pose proof (struct_size_nonneg (fdt_struct f)). pose proof (zlen_nonneg (fdt_strings f)).
  rewrite u64_small by lia. rewrite u32_small by lia.
  destruct (Z.ltb_spec (struct_size (fdt_struct f) + tag_size t) (struct_size (fdt_struct f))); [lia|]. cbn [orb].
  destruct (Z.ltb_spec (fdt_totalsize f - fdt_off_dt_struct f - zlen (fdt_strings f)) (struct_size (fdt_struct f) + tag_size t)),
    (Z.leb_spec (fdt_off_dt_struct f + (struct_size (fdt_struct f) + (tag_size t + 0)) + zlen (fdt_strings f)) (fdt_totalsize f)); try done; lia.
Qed.

Lemma emits_begin_node name :
  zlen name < 2 ^ 31 - 4 -> emits (fun f => fdt_begin_node f name) [FDT_BEGIN_NODE name].
Proof.
  intros L. split; [by constructor; [|constructor]|]. intros f W. unfold fdt_begin_node. rewrite probe_writing by done.
  rewrite grab_writing; [|done|].
  - cbn [pushes foldl push]. by case_bool.
  - cbn [tag_size]. pose proof (tagalign_bounds (zlen name + 1)). pose proof (zlen_nonneg name). lia.
Qed.

Lemma emits_end_node : emits fdt_end_node [FDT_END_NODE].
Proof.
  split; [by constructor; [|constructor]|]. intros f W. unfold fdt_end_node. rewrite probe_writing by done.
  rewrite grab_writing by (done || cbn; lia). cbn [pushes foldl push]. by case_bool.
Qed.

Lemma find_string_bound tab s i : s <> [] -> find_string tab s = Some i -> 0 <= i /\ i + zlen s <= zlen tab /\ take (length s) (drop (Z.to_nat i) tab) = s.
Proof.
  intros Ns. revert i. induction tab as [|c tab IH]; intros i; cbn [find_string].
  - case_bool; [|done]. intros [= <-]. apply bool_decide_eq_true in Heqb.
    rewrite take_nil in Heqb. congruence.
  - case_bool; [intros [= <-]; apply bool_decide_eq_true in Heqb|].
    + split; [lia|]. split; [|by rewrite drop_0].
      apply (f_equal length) in Heqb. rewrite length_take in Heqb. unfold zlen. lia.
    + destruct (find_string tab s) as [j|]; [|done]. intros [= <-].
      destruct (IH j eq_refl) as (Hj & Hl & Ht). rewrite zlen_cons. split; [lia|]. split; [lia|].
      replace (Z.to_nat (j + 1)) with (S (Z.to_nat j)) by lia. done.
Qed.

Lemma emits_property name data :
  tag_ok (FDT_PROP name data) -> emits (fun f => fdt_property f name data) [FDT_PROP name data].
Proof.
  intros T. split; [by constructor; [|constructor]|]. destruct T as (Cs & Ln & Ld). intros f W. unfold fdt_property. rewrite probe_writing by done.
  pose proof W as [_ _ O F M]. unfold fdt_find_add_string_.
  pose proof (tagalign_bounds (zlen data) (zlen_nonneg data)) as TA.
  cbn [pushes foldl push]. unfold intern.
  destruct (find_string (fdt_strings f) (name ++ [0])) as [i|] eqn:Fs.
  - apply find_string_bound in Fs as (Hi & Hl & _); [|by destruct name].
    rewrite zlen_app, zlen_cons in Hl. cbn [zlen length] in Hl. pose proof (zlen_nonneg name).
    destruct (Z.eqb_spec (i - fdt_size_dt_strings f) 0); [unfold fdt_size_dt_strings in *; change (zlen (@nil Z)) with 0 in *; lia|].
    rewrite grab_writing by (done || cbn [tag_size]; lia). fold (fdt_size_dt_strings f).
    cbn [with_struct with_strings fdt_struct]. cbv zeta.
    replace (with_strings (fdt_strings f) f) with f by (by destruct f). by case_bool.
  - unfold fdt_add_string_. pose proof (zlen_nonneg name). pose proof (zlen_nonneg (fdt_strings f)).
    pose proof (struct_size_nonneg (fdt_struct f)).
    unfold used, fdt_size_dt_struct, fdt_size_dt_strings in *.
    rewrite u32_small by lia.
    destruct (Z.ltb_spec (fdt_totalsize f - (zlen (fdt_strings f) + (zlen name + 1))) (fdt_off_dt_struct f + struct_size (fdt_struct f))) as [T|T].
    + cbn [Z.eqb]. cbn -[struct_size zlen tag_size]. rewrite struct_size_app, zlen_app, zlen_cons. cbn [struct_size foldr tag_size].
      pose proof (zlen_nonneg data). match goal with |- context [?a <=? ?b] => destruct (Z.leb_spec a b) end; [lia|done].
    + set (g := with_strings (name ++ 0 :: fdt_strings f) f).
      destruct (Z.eqb_spec (- (zlen (fdt_strings f) + (zlen name + 1))) 0); [lia|].
      assert (Wg : writing g).
      { destruct W. constructor; try done. unfold used, fdt_size_dt_struct, fdt_size_dt_strings, g.
        cbn -[struct_size zlen tag_size]. rewrite zlen_app, zlen_cons. lia. }
      rewrite grab_writing by (done || cbn [tag_size]; lia). cbv zeta.
      change (fdt_struct g) with (fdt_struct f). change (fdt_totalsize g) with (fdt_totalsize f).
      unfold used, fdt_size_dt_struct, fdt_size_dt_strings.
      match goal with |- context [?a <=? ?b] => by destruct (a <=? b) end.
Qed.

(** The property names of the sources are short constants. *)
Definition short_name (n : list Z) : bool := forallb (fun c => (0 <? c) && (c <? 256)) n && (zlen n <? 64).

Lemma prop_ok n d : short_name n = true -> zlen d < 2 ^ 31 - 4 -> tag_ok (FDT_PROP n d).
Proof.
  unfold short_name. intros S L. b2p. cbn. split; [|done]. unfold cstring. apply Forall_forall. intros c C.
  rewrite forallb_forall in H. apply list_elem_of_In, H in C. b2p. lia.
Qed.

Lemma be_length n x : length (be n x) = n.
Proof. revert x. induction n as [|n IH]; intros x; [done|]. cbn [be]. rewrite length_app, IH. cbn. lia. Qed.

Lemma emits_prop n d :
  short_name n = true -> zlen d < 2 ^ 31 - 4 -> emits (fun f => fdt_property f n d) [FDT_PROP n d].
Proof. intros S L. by apply emits_property, prop_ok. Qed.

Lemma emits_u32 n v : short_name n = true -> emits (fun f => fdt_property_u32 f n v) [FDT_PROP n (cpu_to_fdt32 v)].
Proof. intros S. apply emits_prop; [done|]. unfold zlen, cpu_to_fdt32. rewrite be_length. lia. Qed.

Lemma emits_u64 n v : short_name n = true -> emits (fun f => fdt_property_u64 f n v) [FDT_PROP n (cpu_to_fdt64 v)].
Proof. intros S. apply emits_prop; [done|]. unfold zlen, cpu_to_fdt64. rewrite be_length. lia. Qed.

Lemma emits_string n v :
  short_name n = true -> zlen v < 2 ^ 31 - 5 -> emits (fun f => fdt_property_string f n v) [FDT_PROP n (v ++ [0])].
Proof. intros S L. apply emits_prop; [done|]. rewrite zlen_app, zlen_cons. change (zlen (@nil Z)) with 0. lia. Qed.

Lemma emits_prop_reg b s : emits (fun f => fdtutil_prop_reg f b s) [FDT_PROP (str "reg") (reg_cells (Range b s))].
Proof. apply emits_prop; [done|]. unfold zlen, reg_cells. rewrite length_app. unfold cpu_to_fdt64. by rewrite !be_length. Qed.

(** Walks the calls of a writer, one [emits_bind] per call, and closes the
    bounds on constant names and values. *)
Ltac emit_call :=
  lazymatch goal with
  | |- emits fdt_end_node _ => apply emits_end_node
  | |- emits (fun f => fdt_end_node f) _ => apply emits_end_node
  | |- emits (fun f => fdt_begin_node f _) _ => apply emits_begin_node
  | |- emits (fun f => fdt_property_u32 f _ _) _ => apply emits_u32
  | |- emits (fun f => fdt_property_u64 f _ _) _ => apply emits_u64
  | |- emits (fun f => fdt_property_string f _ _) _ => apply emits_string
  | |- emits (fun f => fdtutil_prop_reg f _ _) _ => apply emits_prop_reg
  | |- emits (fun f => fdt_property f _ _) _ => apply emits_prop
  | |- emits (fun f => Ok f) _ => apply emits_nil
  | |- emits (fun f => if _ then _ else Ok f) _ => apply emits_if; intros ?
  | |- emits (fun f => match _ with Ok _ => _ | Err _ => _ end) _ => eapply emits_bind
  end.

(** The bounds of the constant names and strings. *)
Ltac emit_bounds :=
  try (lazymatch goal with
       | |- short_name _ = true => reflexivity
       | |- zlen (str _) < _ => reflexivity
       | |- zlen [] < _ => reflexivity
       end).

Ltac emit_calls := repeat emit_call; emit_bounds.

(** *** Names survive: what was pushed is what a reader of the blob sees *)

Definition names (tab : list Z) (t : tag Z) (u : tag (list Z)) : Prop :=
  match t, u with
  | FDT_BEGIN_NODE a, FDT_BEGIN_NODE b => a = b
  | FDT_END_NODE, FDT_END_NODE | FDT_END, FDT_END => True
  | FDT_PROP off d, FDT_PROP n d' =>
      d = d' /\ - zlen tab <= off < 0 /\ cstr_of (drop (Z.to_nat (zlen tab + off)) tab) = n
  | _, _ => False
  end.

Lemma cstr_of_app s t : cstring s -> cstr_of (s ++ 0 :: t) = s.
Proof.
  intros H. unfold cstr_of. rewrite split_at_some; [done|].
  intros I. unfold cstring in H. rewrite Forall_forall in H. apply H in I. lia.
Qed.

Lemma names_prefix tab pre t u : names tab t u -> names (pre ++ tab) t u.
Proof.
  destruct t as [a| |off d|], u as [b| |n d'|]; cbn; try done.
  intros (-> & R & <-). rewrite zlen_app. split; [done|]. pose proof (zlen_nonneg pre). split; [lia|].
  f_equal. rewrite drop_app_ge by (unfold zlen in *; lia). f_equal. unfold zlen in *. lia.
Qed.

Lemma intern_names tab s d :
  cstring s -> exists pre, (intern tab s).1 = pre ++ tab /\
  names (intern tab s).1 (FDT_PROP (intern tab s).2 d) (FDT_PROP s d).
Proof.
  intros Cs. unfold intern. destruct (find_string tab (s ++ [0])) as [i|] eqn:Fs.
  - exists []. split; [done|]. apply find_string_bound in Fs as (Hi & Hl & Ht); [|by destruct s].
    rewrite zlen_app, zlen_cons in Hl. pose proof (zlen_nonneg s). change (zlen (@nil Z)) with 0 in Hl.
    cbn [names fst snd]. split; [done|]. split; [lia|].
    replace (zlen tab + (i - zlen tab)) with i by lia.
    rewrite <- (take_drop (length (s ++ [0])) (drop (Z.to_nat i) tab)), Ht, <- app_assoc. by apply cstr_of_app.
  - exists (s ++ [0]). rewrite <- app_assoc. split; [done|]. cbn [names fst snd app]. rewrite zlen_app, zlen_cons.
    pose proof (zlen_nonneg s). pose proof (zlen_nonneg tab). split; [done|]. split; [lia|].
    replace (Z.to_nat _) with 0%nat by lia. by apply cstr_of_app.
Qed.

Lemma pushes_names ts f us :
  Forall tag_ok ts -> Forall2 (names (fdt_strings f)) (fdt_struct f) us ->
  Forall2 (names (fdt_strings (pushes ts f))) (fdt_struct (pushes ts f)) (us ++ ts).
Proof.
  revert f us. induction ts as [|t ts IH]; intros f us Ok2 H; [by rewrite app_nil_r|].
  apply Forall_cons in Ok2 as [T Ok2]. replace (us ++ t :: ts) with ((us ++ [t]) ++ ts) by (by rewrite <- app_assoc).
  apply (IH (push f t)); [done|].
  destruct t as [a| |n d|]; cbn [push].
  1, 2, 4: cbn; apply Forall2_app; [done|by constructor].
  destruct T as (Cs & _). destruct (intern_names (fdt_strings f) n d Cs) as (pre & E & N).
  destruct (intern _ _) as [tab off]; cbn [fst snd] in *. subst tab. cbn [with_struct with_strings fdt_strings fdt_struct].
  apply Forall2_app; [|by constructor].
  eapply Forall2_impl; [exact H|]. intros x y. apply names_prefix.
Qed.

Lemma names_contents tab ts us :
  Forall2 (names tab) ts us -> map (name_tag tab) (map (fix_nameoff (zlen tab)) ts) = us.
Proof.
  induction 1 as [|t u ts us N _ IH]; [done|]. cbn [map]. rewrite IH. f_equal.
  destruct t as [a| |off d|], u as [b| |n d'|]; cbn in *; try done; [by subst|].
  destruct N as (-> & R & <-). by rewrite Z.add_comm.
Qed.

(** *** Building a blob *)

(** The buffer [fdt_create] and [fdt_finish_reservemap] leave. *)
Definition fresh (size : Z) : fdt := mk_fdt FDT_SW_MAGIC size 48 64 size [] [].

(** Bytes of buffer the tags and the final [FDT_END] need. *)
Definition need (ts : list (tag (list Z))) : Z := used (pushes (ts ++ [FDT_END]) (fresh 0)).

Lemma fresh_writing size : 64 <= size <= 4 * 1024 * 1024 -> writing (fresh size).
Proof. intros H. constructor; [done..| |]; [change (64 <= size)|change (size <= 4 * 1024 * 1024)]; lia. Qed.

(** The buffer's size plays no part in what is pushed. *)
Definition same_data (f g : fdt) : Prop :=
  fdt_off_dt_struct f = fdt_off_dt_struct g /\ fdt_struct f = fdt_struct g /\ fdt_strings f = fdt_strings g.

Lemma pushes_same ts f g : same_data f g -> same_data (pushes ts f) (pushes ts g).
Proof.
  revert f g. induction ts as [|t ts IH]; intros f g H; [done|]. apply (IH (push f t) (push g t)).
  destruct H as (O & S & T). destruct t as [a| |n d|]; unfold same_data; cbn [push].
  1, 2, 4: cbn; by rewrite O, S, T.
  rewrite T. destruct (intern _ _). cbn. by rewrite O, S.
Qed.

Lemma need_fresh size ts : used (pushes (ts ++ [FDT_END]) (fresh size)) = need ts.
Proof.
  unfold need, used, fdt_size_dt_struct, fdt_size_dt_strings.
  destruct (pushes_same (ts ++ [FDT_END]) (fresh size) (fresh 0)) as (-> & -> & ->); done.
Qed.

Lemma try_build_fresh fn size : 64 <= size -> fdtutil_try_build fn size = let? f := fn (fresh size) in fdt_finish f.
Proof.
  intros S. unfold fdtutil_try_build, fdt_create. change (FDT_ALIGN 40 16) with 48.
  destruct (Z.ltb_spec size 48); [lia|]. unfold fdt_finish_reservemap. cbn [fdt_totalsize fdt_off_dt_struct].
  destruct (Z.ltb_spec size (48 + 16)); [lia|]. done.
Qed.

Lemma try_build_emits fn ts size :
  emits fn ts -> 64 <= size <= 4 * 1024 * 1024 ->
  if need ts <=? size
  then exists f, fdtutil_try_build fn size = Ok f /\ contents f = ts ++ [FDT_END] /\ fdt_magic f = FDT_MAGIC /\
         fdt_off_mem_rsvmap f = 48 /\ fdt_totalsize f = need ts
  else fdtutil_try_build fn size = Err FDT_ERR_NOSPACE.
Proof.
  intros [T E] S. pose proof (fresh_writing size S) as W. rewrite <- (need_fresh size). rewrite pushes_app.
  rewrite try_build_fresh, E by (done || lia). change (fdt_totalsize (fresh size)) with size.
  set (g := pushes ts (fresh size)).
  destruct (Z.leb_spec (used g) size) as [L|L].
  2: { destruct (Z.leb_spec (used (pushes [FDT_END] g)) size) as [L'|L']; [|done].
       pose proof (pushes_used [FDT_END] g). lia. }
  assert (Wg : writing g) by (by apply pushes_writing).
  unfold fdt_finish. rewrite probe_writing by done. rewrite grab_writing by (done || cbn; lia). cbv zeta.
  destruct (pushes_fields ts (fresh size)) as (_ & Et & Eo & _). fold g in Et, Eo. rewrite Et.
  change (fdt_totalsize (fresh size)) with size. change (pushes [FDT_END] g) with (with_struct (fdt_struct g ++ [FDT_END]) g).
  case_bool; [|done]. eexists. split; [done|]. split.
  - pose proof (pushes_names ts (fresh size) [] T ltac:(constructor)) as N. fold g in N. cbn [app] in N.
    unfold contents. cbn [fdt_struct fdt_strings with_struct].
    apply names_contents, Forall2_app; [done|by constructor].
  - cbn [fdt_magic fdt_off_mem_rsvmap fdt_totalsize]. split; [done|]. split; [|done].
    assert (R : forall us f, fdt_off_mem_rsvmap (pushes us f) = fdt_off_mem_rsvmap f); [|by apply R].
    intros us. induction us as [|u us IH]; intros f; [done|]. unfold pushes in *. cbn [foldl]. rewrite IH.
    destruct u; cbn; try done. by destruct (intern _ _).
Qed.

Definition not_begin (ts : list (tag (list Z))) : Prop :=
  match ts with FDT_BEGIN_NODE _ :: _ => False | _ => True end.
Definition not_prop (ts : list (tag (list Z))) : Prop :=
  match ts with FDT_PROP _ _ :: _ => False | _ => True end.

Lemma parse_props_toks ps ts : not_prop ts -> parse_props (map prop_tag ps ++ ts) = (ps, ts).
Proof.
  intros H. induction ps as [|[n d] ps IH]; cbn [map app]; [by destruct ts as [|[]]|].
  cbn [parse_props prop_tag fst snd]. by rewrite IH.
Qed.

Lemma parse_nodes_toks fuel ks rest :
  (length (concat (map toks ks)) < fuel)%nat -> not_begin rest ->
  parse_nodes fuel (concat (map toks ks) ++ rest) = Some (ks, rest).
Proof.
  revert ks rest. induction fuel as [|fuel IH]; intros ks rest L B; [lia|].
  destruct ks as [|[name ps ks'] ks]; cbn [map concat] in *.
  - destruct rest as [|[]]; cbn in *; try done.
  - cbn [toks] in L |- *. rewrite !length_app in L. cbn [length] in L. rewrite !length_app in L. cbn [length] in L.
    cbn [app parse_nodes]. rewrite <- !app_assoc. cbn [app].
    rewrite parse_props_toks.
    + rewrite IH by (done || lia). by rewrite IH by (done || lia).
    + destruct ks' as [|[]]; done.
Qed.

Lemma tree_of_contents f t :
  fdt_magic f = FDT_MAGIC -> contents f = toks t ++ [FDT_END] -> tree_of f = Some t.
Proof.
  intros M C. unfold tree_of. rewrite M, Z.eqb_refl. cbn [negb].
  assert (L : length (fdt_struct f) = S (length (toks t))).
  { replace (length (fdt_struct f)) with (length (contents f)) by (unfold contents; by rewrite length_map).
    rewrite C, length_app. cbn [length]. lia. }
  rewrite C, L. pose proof (parse_nodes_toks (S (S (length (toks t)))) [t] [FDT_END]) as P.
  cbn [map concat] in P. rewrite app_nil_r in P. rewrite P; [done|lia|done].
Qed.

Lemma fdt_pack_contents f : contents (fdt_pack f) = contents f.
Proof. done. Qed.

(** What [fdtutil_build] returns for a callback that writes the tree [t]. *)
Definition builds (r : result fdt) (t : node) : Prop :=
  if need (toks t) <=? 4 * 1024 * 1024
  then exists b, r = Ok b /\ tree_of b = Some t
  else r = Err ENOSPC.

(** The doubling ends by itself, whatever the callback does. *)
Lemma build_loop_ends `{Alloc} fuel fn size :
  4 * 1024 * 1024 <= size * 2 ^ Z.of_nat fuel -> exists r, build_loop (S fuel) fn size = Some r.
Proof.
  revert size. induction fuel as [|fuel IH]; intros size P; cbn [build_loop].
  - rewrite (proj2 (Z.leb_le (4 * 1024 * 1024) size)) by lia.
    destruct (negb (alloc size)); [eauto|]. destruct (fdtutil_try_build fn size); [eauto|]. case_bool; eauto.
  - rewrite Nat2Z.inj_succ, Z.pow_succ_r in P by lia.
    destruct (negb (alloc size)); [eauto|]. destruct (fdtutil_try_build fn size); [eauto|].
    case_bool; [eauto|]. case_bool; [eauto|]. apply IH. lia.
Qed.

Lemma build_loop_builds `{AllocOk} fuel fn t size :
  emits fn (toks t) -> 64 <= size -> size * 2 ^ Z.of_nat fuel = 4 * 1024 * 1024 ->
  exists r, build_loop (S fuel) fn size = Some r /\ builds r t.
Proof.
  intros E. unfold builds. revert size. induction fuel as [|fuel IH]; intros size S P.
  - assert (size = 4 * 1024 * 1024) as -> by lia. cbn [build_loop]. rewrite alloc_ok. cbn [negb].
    pose proof (try_build_emits fn (toks t) (4 * 1024 * 1024) E ltac:(lia)) as B.
    destruct (Z.leb_spec (need (toks t)) (4 * 1024 * 1024)).
    + destruct B as (f & -> & C & M & _). eexists. split; [done|]. eexists. split; [done|]. by apply tree_of_contents.
    + rewrite B. by eexists.
  - rewrite Nat2Z.inj_succ, Z.pow_succ_r in P by lia.
    assert (L : size * 2 <= 4 * 1024 * 1024) by nia.
    cbn [build_loop]. rewrite alloc_ok. cbn [negb].
    pose proof (try_build_emits fn (toks t) size E ltac:(lia)) as B.
    destruct (Z.leb_spec (need (toks t)) size) as [N|N].
    + destruct B as (f & -> & C & M & _). rewrite (proj2 (Z.leb_le _ _)) by lia.
      eexists. split; [done|]. eexists. split; [done|]. by apply tree_of_contents.
    + rewrite B. rewrite (proj2 (Z.leb_gt (4 * 1024 * 1024) size)) by lia.
      apply (IH (size * 2)); [lia|]. rewrite <- P. lia.
Qed.

Lemma build_builds `{AllocOk} fn t :
  emits fn (toks t) -> builds (fdtutil_build fn) t.
Proof.
  intros E. unfold fdtutil_build. destruct (build_loop_builds 8 fn t (16 * 1024) E) as (r & -> & B); done.
Qed.

(** [fdtutil_build] retries with a doubled buffer until the callback's
    tree fits, and always stops: a callback that writes the tags of a tree
    [t] gets a blob that decodes to exactly [t], every property under its own
    name, if and only if the tree with its string table needs at most 4 MiB;
    otherwise the build ends with [ENOSPC]. *)
Theorem fdtutil_build_tree `{AllocOk} fn t :
  emits fn (toks t) ->
  (need (toks t) <= 4 * 1024 * 1024 -> exists b, fdtutil_build fn = Ok b /\ tree_of b = Some t) /\
  (4 * 1024 * 1024 < need (toks t) -> fdtutil_build fn = Err ENOSPC).
Proof.
  intros E. pose proof (build_builds fn t E) as B. unfold builds in B.
  destruct (Z.leb_spec (need (toks t)) (4 * 1024 * 1024)); split; intros; done || lia.
Qed.

(** A root node of one property. *)
Definition one_prop (name data : list Z) (f : fdt) : result fdt :=
  let? f := fdt_begin_node f [] in
  let? f := fdt_property f name data in
  fdt_end_node f.

Lemma one_prop_emits name data :
  short_name name = true -> zlen data < 2 ^ 31 - 4 ->
  emits (one_prop name data) (toks (Node [] [(name, data)] [])).
Proof.
  intros S L. unfold one_prop. eapply emits_eq; [emit_calls; done|done].
Qed.

Lemma fdtutil_build_tree_witness :
  let t := Node [] [(str "compatible", str "x")] [] in
  need (toks t) <= 4 * 1024 * 1024 /\
  exists b, @fdtutil_build alloc_always (one_prop (str "compatible") (str "x")) = Ok b /\ tree_of b = Some t.
Proof.
  split; [vm_compute; discriminate|].
  refine (proj1 (fdtutil_build_tree (H := alloc_always) _ _ _) _).
  - by apply one_prop_emits.
  - vm_compute. discriminate.
Defined.

(** ** Cells *)

Lemma be_val_app a b : be_val (a ++ [b]) = be_val a * 256 + b.
Proof. unfold be_val. by rewrite fold_left_app. Qed.

Lemma be_val_be n x : 0 <= x < 256 ^ Z.of_nat n -> be_val (be n x) = x.
Proof.
  revert x. induction n as [|n IH]; intros x Hx.
  - cbn in Hx. change (be_val (be 0 x)) with 0. lia.
  - cbn [be]. rewrite Nat2Z.inj_succ, Z.pow_succ_r in Hx by lia.
    rewrite be_val_app, IH; [pose proof (Z.div_mod x 256); lia|].
    split; [apply Z.div_pos; lia|apply Z.div_lt_upper_bound; lia].
Qed.

Lemma be_bytes n x : Forall (fun b => 0 <= b < 256) (be n x).
Proof.
  revert x. induction n as [|n IH]; intros x; cbn [be]; [constructor|].
  apply Forall_app. split; [apply IH|]. constructor; [apply Z.mod_pos_bound; lia|constructor].
Qed.

Lemma be_val_bytes s acc : Forall (fun b => 0 <= b < 256) s -> 0 <= acc ->
  0 <= fold_left (fun v b => v * 256 + b) s acc < (acc + 1) * 256 ^ zlen s.
Proof.
  intros F. revert acc. induction F as [|b s B _ IH]; intros acc A; cbn [fold_left].
  - change (zlen (@nil Z)) with 0. lia.
  - rewrite zlen_cons, Z.pow_add_r by (pose proof (zlen_nonneg s); lia). specialize (IH (acc * 256 + b) ltac:(lia)).
    assert (0 < 256 ^ zlen s) by (apply Z.pow_pos_nonneg; [lia|apply zlen_nonneg]). nia.
Qed.

Definition range_u64 (r : range) : Prop := is_u64 (r_base r) /\ is_u64 (r_size r).

Lemma cell64_at pre x post i :
  is_u64 x -> length pre = (8 * i)%nat -> cell64 (pre ++ cpu_to_fdt64 x ++ post) i = x.
Proof.
  intros Hx L. unfold cell64. rewrite drop_app_ge, L, Nat.sub_diag, drop_0 by lia.
  rewrite take_app_le by (unfold cpu_to_fdt64; rewrite be_length; lia).
  rewrite take_ge by (unfold cpu_to_fdt64; rewrite be_length; lia). apply be_val_be, Hx.
Qed.

Lemma cell64_head x post : is_u64 x -> cell64 (cpu_to_fdt64 x ++ post) 0 = x.
Proof. intros Hx. by apply (cell64_at []). Qed.

Lemma cell64_of x : is_u64 x -> cell64 (cpu_to_fdt64 x) 0 = x.
Proof. intros Hx. rewrite <- (app_nil_r (cpu_to_fdt64 x)). by apply cell64_head. Qed.

Lemma reg_cells_at r :
  range_u64 r -> cell64 (reg_cells r) 0 = r_base r /\ cell64 (reg_cells r) 1 = r_size r /\ zlen (reg_cells r) = 16.
Proof.
  intros [B S]. unfold reg_cells. split; [by apply cell64_head|]. split.
  - rewrite <- (app_nil_r (cpu_to_fdt64 (r_size r))). apply cell64_at; [done|by unfold cpu_to_fdt64; rewrite be_length].
  - unfold zlen. rewrite length_app. unfold cpu_to_fdt64. by rewrite !be_length.
Qed.

Lemma cell32_of x : 0 <= x < two32 -> cell32 (cpu_to_fdt32 x) 0 = x.
Proof.
  intros Hx. unfold cell32. change (4 * 0)%nat with 0%nat. rewrite drop_0, take_ge by (unfold cpu_to_fdt32; by rewrite be_length).
  by apply be_val_be.
Qed.

Definition cells64 (l : list Z) : list Z := concat (map cpu_to_fdt64 l).

Lemma cells64_length l : length (cells64 l) = (8 * length l)%nat.
Proof.
  induction l as [|x l IH]; [done|]. unfold cells64 in *. cbn [map concat].
  rewrite length_app, IH. unfold cpu_to_fdt64. rewrite be_length. cbn [length]. lia.
Qed.

Lemma cells64_app l k : cells64 (l ++ k) = cells64 l ++ cells64 k.
Proof. unfold cells64. by rewrite map_app, concat_app. Qed.

Lemma cells64_at l i x : Forall is_u64 l -> l !! i = Some x -> cell64 (cells64 l) i = x.
Proof.
  intros F E. pose proof (take_drop_middle l i x E) as T.
  rewrite <- T, cells64_app. change (cells64 (x :: drop (S i) l)) with (cpu_to_fdt64 x ++ cells64 (drop (S i) l)).
  apply cell64_at; [by eapply Forall_lookup_1 in E|].
  rewrite cells64_length, length_take_le; [done|]. apply lookup_lt_Some in E. lia.
Qed.

Lemma map_seq_lookup {A} (g : nat -> A) (l : list A) :
  (forall i x, l !! i = Some x -> g i = x) -> map g (seq 0 (length l)) = l.
Proof.
  intros H. apply list_eq. intros i. rewrite list_lookup_fmap.
  destruct (l !! i) as [x|] eqn:E.
  - rewrite lookup_seq_lt by (by apply lookup_lt_Some in E). cbn. f_equal. by apply H.
  - rewrite lookup_seq_ge; [done|]. by apply lookup_ge_None.
Qed.

Lemma cells_to_cpulist_cells `{AllocOk} l :
  Forall is_u64 l -> fdtutil_cells_to_cpulist (cells64 l) = Ok l.
Proof.
  intros F. unfold fdtutil_cells_to_cpulist. cbv zeta.
  assert (L : zlen (cells64 l) = zlen l * 8) by (unfold zlen; rewrite cells64_length; lia).
  rewrite L, Z.mod_mul, Z.div_mul, alloc_ok by lia. cbn [negb Z.eqb]. rewrite andb_false_r. f_equal.
  unfold zlen. rewrite Nat2Z.id. apply map_seq_lookup. intros i x E. by apply cells64_at.
Qed.

Definition flat (l : list range) : list Z := concat (map (fun r => [r_base r; r_size r]) l).

Lemma regs_flat l : concat (map reg_cells l) = cells64 (flat l).
Proof.
  induction l as [|r l IH]; [done|]. unfold flat in *. cbn [map concat]. rewrite IH, cells64_app. f_equal.

Qed.

Lemma flat_length l : length (flat l) = (2 * length l)%nat.
Proof. induction l as [|r l IH]; [done|]. unfold flat in *. cbn [map concat]. rewrite length_app, IH. cbn [length]. lia. Qed.

Lemma flat_u64 l : Forall range_u64 l -> Forall is_u64 (flat l).
Proof.
  induction 1 as [|r l [B S] _ IH]; [constructor|]. unfold flat in *. cbn [map concat app].
  constructor; [done|]. by constructor.
Qed.

Lemma flat_lookup l i r : l !! i = Some r ->
  flat l !! (2 * i)%nat = Some (r_base r) /\ flat l !! (2 * i + 1)%nat = Some (r_size r).
Proof.
  revert i. induction l as [|x l IH]; intros i E; [done|].
  change (flat (x :: l)) with (r_base x :: r_size x :: flat l). destruct i as [|i]; cbn in E.
  - by injection E as ->.
  - replace (2 * S i)%nat with (S (S (2 * i))) by lia. cbn [lookup list_lookup Nat.add]. by apply IH.
Qed.

Lemma rangelist_cells_ok `{AllocOk} cells idx out :
  rangelist_cells cells idx out = Ok (out ++ map (fun i => Range (cell64 cells (2 * i)) (cell64 cells (2 * i + 1))) idx).
Proof.
  revert out. induction idx as [|i idx IH]; intros out; cbn [rangelist_cells map]; [by rewrite app_nil_r|].
  unfold rangelist_add. rewrite alloc_ok, IH, <- app_assoc. done.
Qed.

Lemma cells_to_rangelist_cells `{AllocOk} l :
  Forall range_u64 l -> fdtutil_cells_to_rangelist (concat (map reg_cells l)) = Ok l.
Proof.
  intros F. unfold fdtutil_cells_to_rangelist. cbv zeta. rewrite regs_flat.
  assert (L : zlen (cells64 (flat l)) = zlen l * (2 * 8)) by (unfold zlen; rewrite cells64_length, flat_length; lia).
  rewrite L, Z.mod_mul, Z.div_mul by lia. cbn [negb Z.eqb]. rewrite rangelist_cells_ok. cbn [app]. f_equal.
  unfold zlen. rewrite Nat2Z.id. apply map_seq_lookup. intros i r E. pose proof (flat_lookup l i r E) as [B S].
  pose proof (flat_u64 l F) as Fu. rewrite (cells64_at _ _ _ Fu B), (cells64_at _ _ _ Fu S). by destruct r.
Qed.
