(* ===== verification/FdtBytes.v ===== *)
(** * The bytes of a device tree: libfdt's reader

    lib/fdt/fdt.c and fdt_ro.c on the bytes of a blob, with every check they
    make: walking the tags, the name of a node, its properties and subnodes.
    The blob [Fdt] builds as a list of tags is flattened to bytes, and the
    reader finds in them the tree [tree_of] spells. *)

From S2P Require Import Prelude Cstr Ranges Parse Fdt.

Definition FDT_ERR_NOTFOUND : Z := 1.
Definition FDT_ERR_BADOFFSET : Z := 4.
Definition FDT_ERR_BADPATH : Z := 5.
Definition FDT_ERR_TRUNCATED : Z := 8.
Definition FDT_ERR_BADVERSION : Z := 10.
Definition FDT_ERR_BADSTRUCTURE : Z := 11.
Definition FDT_FIRST_SUPPORTED_VERSION : Z := 2.
Definition FDT_LAST_SUPPORTED_VERSION : Z := 17.
Definition FDT_LAST_COMPATIBLE_VERSION : Z := 16.
Definition INT_MAX : Z := 2 ^ 31 - 1.

(** The tags as the words of the structure block. *)
Definition BEGIN_NODE : Z := 1.
Definition END_NODE : Z := 2.
Definition PROP : Z := 3.
Definition NOP : Z := 4.
Definition END : Z := 9.

(** An [int] that went through a wider type. *)
Definition s32 (x : Z) : Z := let w := u32 x in if w <? 2 ^ 31 then w else w - 2 ^ 32.

(** The inner [while] of [fdt_path_offset_namelen]. *)
Fixpoint skip_slashes (p : list Z) : list Z :=
  match p with
  | c :: q => if c =? ch "/" then skip_slashes q else p
  | [] => []
  end.

Section Reader.
Context (b : list Z).

Definition word (pos : Z) : Z := be_val (take 4 (drop (Z.to_nat pos) b)).
Definition byte (pos : Z) : Z := List.nth (Z.to_nat pos) b 0.

Definition h_magic : Z := word 0.
Definition h_totalsize : Z := word 4.
Definition h_off_dt_struct : Z := word 8.
Definition h_off_dt_strings : Z := word 12.
Definition h_off_mem_rsvmap : Z := word 16.
Definition h_version : Z := word 20.
Definition h_last_comp_version : Z := word 24.
Definition h_size_dt_strings : Z := word 32.
Definition h_size_dt_struct : Z := word 36.

(** ** lib/fdt/fdt.c *)

(** The blob is aligned: [malloc] gave it. *)
Definition fdt_ro_probe_ : Z :=
  let size := if h_totalsize <? INT_MAX then h_totalsize else - FDT_ERR_TRUNCATED in
  if h_magic =? FDT_MAGIC then
    if (h_version <? FDT_FIRST_SUPPORTED_VERSION) || (FDT_LAST_SUPPORTED_VERSION <? h_last_comp_version) then - FDT_ERR_BADVERSION else size
  else if h_magic =? FDT_SW_MAGIC then if h_size_dt_struct =? 0 then - FDT_ERR_BADSTATE else size
  else - FDT_ERR_BADMAGIC.

Definition fdt_header_size_ (version : Z) : Z :=
  if version <=? 1 then 28 else if version <=? 2 then 32 else if version <=? 3 then 36 else if version <=? 16 then 36 else 40.

Definition check_header : Z :=
  if negb (h_magic =? FDT_MAGIC) then - FDT_ERR_BADMAGIC
  else if (h_version <? FDT_FIRST_SUPPORTED_VERSION) || (FDT_LAST_SUPPORTED_VERSION <? h_last_comp_version) then - FDT_ERR_BADVERSION
  else if h_version <? h_last_comp_version then - FDT_ERR_BADVERSION
  else
    let hdrsize := fdt_header_size_ h_version in
    if (h_totalsize <? hdrsize) || (INT_MAX <? h_totalsize) then - FDT_ERR_TRUNCATED
    else if negb (check_off_ hdrsize h_totalsize h_off_mem_rsvmap) then - FDT_ERR_TRUNCATED
    else if negb (if h_version <? 17 then check_off_ hdrsize h_totalsize h_off_dt_struct
                  else check_block_ hdrsize h_totalsize h_off_dt_struct h_size_dt_struct) then - FDT_ERR_TRUNCATED
    else if negb (check_block_ hdrsize h_totalsize h_off_dt_strings h_size_dt_strings) then - FDT_ERR_TRUNCATED
    else 0.

(** Where [len] bytes of the structure block at [offset] are. *)
Definition fdt_offset_ptr (offset len : Z) : option Z :=
  let uoffset := u32 offset in
  let absoffset := u32 (offset + h_off_dt_struct) in
  if offset <? 0 then None
  else if (absoffset <? uoffset) || (u32 (absoffset + len) <? absoffset) || (h_totalsize <? u32 (absoffset + len)) then None
  else if (17 <=? h_version) && ((u32 (uoffset + len) <? uoffset) || (h_size_dt_struct <? u32 (offset + len))) then None
  else Some (h_off_dt_struct + offset).

(** The [do] loop over a name: the offset behind its NUL. *)
Fixpoint skip_name (fuel : nat) (offset : Z) : option Z :=
  match fuel with
  | O => None
  | S fuel =>
      match fdt_offset_ptr offset 1 with
      | None => None
      | Some p => if byte p =? 0 then Some (offset + 1) else skip_name fuel (offset + 1)
      end
  end.

(** The tag at an offset, and the offset of the next or an error. *)
Definition fdt_next_tag (startoffset : Z) : Z * Z :=
  match fdt_offset_ptr startoffset 4 with
  | None => (END, - FDT_ERR_TRUNCATED)
  | Some tagp =>
      let tag := word tagp in
      let offset := startoffset + 4 in
      let bad := (END, - FDT_ERR_BADSTRUCTURE) in
      let finish offset :=
        match fdt_offset_ptr startoffset (u32 (offset - startoffset)) with
        | None => bad
        | Some _ => (tag, FDT_TAGALIGN offset)
        end in
      if tag =? BEGIN_NODE then match skip_name (S (length b)) offset with None => bad | Some offset => finish offset end
      else if tag =? PROP then
        match fdt_offset_ptr offset 4 with
        | None => bad
        | Some lenp =>
            let len := word lenp in
            let sum := u32 (len + offset) in
            if (INT_MAX <=? sum) || (sum <? offset) then bad else
            let offset := s32 (offset + 8 + len) in
            finish (if (h_version <? 16) && (8 <=? len) && negb ((offset - len) mod 8 =? 0) then offset + 4 else offset)
        end
      else if (tag =? END) || (tag =? END_NODE) || (tag =? NOP) then finish offset
      else bad
  end.

Definition check_offset (tag offset : Z) : Z :=
  if (offset <? 0) || negb (offset mod 4 =? 0) then - FDT_ERR_BADOFFSET else
  let '(t, next) := fdt_next_tag offset in
  if negb (t =? tag) then - FDT_ERR_BADOFFSET else next.
Definition fdt_check_node_offset_ (offset : Z) : Z := check_offset BEGIN_NODE offset.
Definition fdt_check_prop_offset_ (offset : Z) : Z := check_offset PROP offset.

(** The [do] loop of [fdt_next_node]; every caller passes a depth. *)
Fixpoint next_node_loop (fuel : nat) (offset depth : Z) : Z * Z :=
  match fuel with
  | O => (- FDT_ERR_NOTFOUND, depth)
  | S fuel =>
      let '(tag, nextoffset) := fdt_next_tag offset in
      if (tag =? PROP) || (tag =? NOP) then next_node_loop fuel nextoffset depth
      else if tag =? BEGIN_NODE then (offset, depth + 1)
      else if tag =? END_NODE then
        let depth := depth - 1 in
        if depth <? 0 then (nextoffset, depth) else next_node_loop fuel nextoffset depth
      else ((if 0 <=? nextoffset then - FDT_ERR_NOTFOUND else nextoffset), depth)
  end.

Definition fdt_next_node (offset depth : Z) : Z * Z :=
  let nextoffset := if 0 <=? offset then fdt_check_node_offset_ offset else 0 in
  if (0 <=? offset) && (nextoffset <? 0) then (nextoffset, depth) else next_node_loop (length b) nextoffset depth.

Definition fdt_first_subnode (offset : Z) : Z :=
  let '(offset, depth) := fdt_next_node offset 0 in
  if (offset <? 0) || negb (depth =? 1) then - FDT_ERR_NOTFOUND else offset.

Fixpoint next_subnode_loop (fuel : nat) (offset depth : Z) : Z :=
  match fuel with
  | O => - FDT_ERR_NOTFOUND
  | S fuel =>
      let '(offset, depth) := fdt_next_node offset depth in
      if (offset <? 0) || (depth <? 1) then - FDT_ERR_NOTFOUND
      else if 1 <? depth then next_subnode_loop fuel offset depth else offset
  end.
Definition fdt_next_subnode (offset : Z) : Z := next_subnode_loop (length b) offset 1.

(** ** lib/fdt/fdt_ro.c *)

(** The string at an offset of the string table, or an error. *)
Definition fdt_get_string (stroffset : Z) : Z + list Z :=
  let totalsize := fdt_ro_probe_ in
  if totalsize <? 0 then inl totalsize else
  let absoffset := u32 (stroffset + h_off_dt_strings) in
  if totalsize <=? absoffset then inl (- FDT_ERR_BADOFFSET) else
  let len := totalsize - absoffset in
  let str len :=
    let s := take (Z.to_nat len) (drop (Z.to_nat absoffset) b) in
    match split_at 0 s with (_, None) => inl (- FDT_ERR_TRUNCATED) | (s, Some _) => inr s end in
  if h_magic =? FDT_MAGIC then
    if stroffset <? 0 then inl (- FDT_ERR_BADOFFSET)
    else if 17 <=? h_version then
      if h_size_dt_strings <=? stroffset then inl (- FDT_ERR_BADOFFSET)
      else str (if h_size_dt_strings - stroffset <? len then h_size_dt_strings - stroffset else len)
    else str len
  else if h_magic =? FDT_SW_MAGIC then
    let sw := u32 (- stroffset) in
    if (0 <=? stroffset) || (h_size_dt_strings <? sw) then inl (- FDT_ERR_BADOFFSET) else str (if sw <? len then sw else len)
  else inl (- FDT_ERR_INTERNAL).

Definition fdt_string_eq_ (stroffset : Z) (s : list Z) : bool :=
  match fdt_get_string stroffset with inl _ => false | inr p => bool_decide (p = s) end.

Fixpoint nextprop_ (fuel : nat) (offset : Z) : Z :=
  match fuel with
  | O => - FDT_ERR_NOTFOUND
  | S fuel =>
      let '(tag, nextoffset) := fdt_next_tag offset in
      if tag =? END then if 0 <=? nextoffset then - FDT_ERR_BADSTRUCTURE else nextoffset
      else if tag =? PROP then offset
      else if tag =? NOP then nextprop_ fuel nextoffset
      else - FDT_ERR_NOTFOUND
  end.

Definition fdt_first_property_offset (nodeoffset : Z) : Z :=
  let offset := fdt_check_node_offset_ nodeoffset in
  if offset <? 0 then offset else nextprop_ (length b) offset.
Definition fdt_next_property_offset (offset : Z) : Z :=
  let offset := fdt_check_prop_offset_ offset in
  if offset <? 0 then offset else nextprop_ (length b) offset.

(** The property at an offset: where it is, and its length or an error. *)
Definition fdt_get_property_by_offset_ (offset : Z) : Z + Z * Z :=
  let err := fdt_check_prop_offset_ offset in
  if err <? 0 then inl err else
  let prop := h_off_dt_struct + offset in inr (prop, s32 (word (prop + 4))).

(** Its [for] loop from an offset: the offset of the property, where it is
    and its length. *)
Fixpoint get_property_loop (fuel : nat) (offset : Z) (name : list Z) : Z + Z * Z * Z :=
  match fuel with
  | O => inl (- FDT_ERR_NOTFOUND)
  | S fuel =>
      if offset <? 0 then inl offset else
      match fdt_get_property_by_offset_ offset with
      | inl _ => inl (- FDT_ERR_INTERNAL)
      | inr (prop, len) =>
          if fdt_string_eq_ (s32 (word (prop + 8))) name then inr (offset, prop, len)
          else get_property_loop fuel (fdt_next_property_offset offset) name
      end
  end.
Definition fdt_get_property_namelen_ (offset : Z) (name : list Z) : Z + Z * Z * Z :=
  get_property_loop (length b) (fdt_first_property_offset offset) name.

(** The bytes of the value. *)
Definition fdt_getprop_namelen (nodeoffset : Z) (name : list Z) : option (list Z) :=
  match fdt_get_property_namelen_ nodeoffset name with
  | inl _ => None
  | inr (poffset, prop, len) =>
      let data := prop + 12 in
      let data := if (h_version <? 16) && negb ((poffset + 12) mod 8 =? 0) && (8 <=? len) then data + 4 else data in
      Some (take (Z.to_nat len) (drop (Z.to_nat data) b))
  end.
Definition getprop (nodeoffset : Z) (name : list Z) : option (list Z) := fdt_getprop_namelen nodeoffset name.

(** The name of a node; blobs older than version 16 hold a path there. *)
Definition fdt_get_name (nodeoffset : Z) : Z + list Z :=
  let probe := fdt_ro_probe_ in
  if probe <? 0 then inl probe else
  let err := fdt_check_node_offset_ nodeoffset in
  if err <? 0 then inl err else
  let name := cstr_of (drop (Z.to_nat (h_off_dt_struct + nodeoffset + 4)) b) in
  if h_version <? 16 then
    match split_at (ch "/") (rev name) with
    | (_, None) => inl (- FDT_ERR_BADSTRUCTURE)
    | (leaf, Some _) => inr (rev leaf)
    end
  else inr name.

Definition nodename_eq (offset : Z) (s : list Z) : bool :=
  match fdt_get_name offset with inl _ => false | inr p => fdt_nodename_eq_ p s end.

Fixpoint subnode_loop (fuel : nat) (offset depth : Z) (name : list Z) : Z :=
  match fuel with
  | O => - FDT_ERR_NOTFOUND
  | S fuel =>
      if (0 <=? offset) && (0 <=? depth) then
        if (depth =? 1) && nodename_eq offset name then offset
        else let '(offset, depth) := fdt_next_node offset depth in subnode_loop fuel offset depth name
      else if depth <? 0 then - FDT_ERR_NOTFOUND else offset
  end.
Definition fdt_subnode_offset_namelen (offset : Z) (name : list Z) : Z :=
  let probe := fdt_ro_probe_ in
  if probe <? 0 then probe else subnode_loop (S (length b)) offset 0 name.
Definition subnode_offset (parentoffset : Z) (name : list Z) : Z := fdt_subnode_offset_namelen parentoffset name.

(** The [while] over the components of a path, to its end. *)
Fixpoint path_loop (fuel : nat) (offset : Z) (p : list Z) : Z :=
  match fuel with
  | O => offset
  | S fuel =>
      match skip_slashes p with
      | [] => offset
      | p =>
          let '(comp, q) := split_at (ch "/") p in
          let offset := fdt_subnode_offset_namelen offset comp in
          if offset <? 0 then offset else path_loop fuel offset (match q with Some q => q | None => [] end)
      end
  end.

(** [fdt_path_offset] of a path from the root. *)
Definition absolute_path (path : list Z) : Z :=
  let probe := fdt_ro_probe_ in if probe <? 0 then probe else path_loop (S (length path)) 0 path.

Definition fdt_path_getprop_namelen (path propname : list Z) : option (list Z) :=
  let offset := absolute_path path in
  if offset <? 0 then None else fdt_getprop_namelen offset propname.

(** The string of an alias, which is a path from the root. *)
Definition fdt_get_alias_namelen (name : list Z) : option (list Z) :=
  match fdt_path_getprop_namelen (str "/aliases") name with
  | Some alias => if (0 <? zlen alias) && (List.last alias 1 =? 0) && (c0 alias =? ch "/") then Some (cstr_of alias) else None
  | None => None
  end.

Definition path_offset (path : list Z) : Z :=
  let probe := fdt_ro_probe_ in
  if probe <? 0 then probe
  else if bool_decide (path = []) then - FDT_ERR_BADPATH
  else if c0 path =? ch "/" then path_loop (S (length path)) 0 path
  else
    let '(name, q) := split_at (ch "/") path in
    match fdt_get_alias_namelen name with
    | None => - FDT_ERR_BADPATH
    | Some p => path_loop (S (length path)) (absolute_path p) (match q with Some q => q | None => [] end)
    end.

(** ** libfdt.h *)

(** The nodes the loop of [fdt_for_each_subnode] runs its body for. *)
Fixpoint for_each_loop (fuel : nat) (node : Z) : list Z :=
  match fuel with
  | O => []
  | S fuel => if 0 <=? node then node :: for_each_loop fuel (fdt_next_subnode node) else []
  end.
Definition fdt_for_each_subnode (parent : Z) : list Z := for_each_loop (length b) (fdt_first_subnode parent).

End Reader.

(** ** A blob as bytes *)

Definition pad (n : Z) : list Z := replicate (Z.to_nat (FDT_TAGALIGN n - n)) 0.

Definition enc_tag (t : tag Z) : list Z :=
  match t with
  | FDT_BEGIN_NODE name => be 4 BEGIN_NODE ++ name ++ [0] ++ pad (zlen name + 1)
  | FDT_END_NODE => be 4 END_NODE
  | FDT_PROP off data => be 4 PROP ++ be 4 (zlen data) ++ be 4 off ++ data ++ pad (zlen data)
  | FDT_END => be 4 END
  end.
Definition enc_struct (ts : list (tag Z)) : list Z := concat (map enc_tag ts).

(** [struct fdt_header] *)
Definition header (f : fdt) : list Z :=
  be 4 (fdt_magic f) ++ be 4 (fdt_totalsize f) ++ be 4 (fdt_off_dt_struct f) ++ be 4 (fdt_off_dt_strings f) ++ be 4 (fdt_off_mem_rsvmap f) ++
  be 4 FDT_LAST_SUPPORTED_VERSION ++ be 4 FDT_LAST_COMPATIBLE_VERSION ++ be 4 0 ++ be 4 (fdt_size_dt_strings f) ++ be 4 (fdt_size_dt_struct f).

(** A packed blob: the header, the empty reserve map, the structure, the
    strings. *)
Definition flatten (f : fdt) : list Z := header f ++ replicate 16 0 ++ enc_struct (fdt_struct f) ++ fdt_strings f.

Definition tag_flat (tab : list Z) (t : tag Z) : Prop :=
  match t with
  | FDT_BEGIN_NODE name => cstring name
  | FDT_PROP off _ => 0 <= off < zlen tab
  | _ => True
  end.

Record flat_ok (f : fdt) : Prop := {
  fo_magic : fdt_magic f = FDT_MAGIC;
  fo_rsv : fdt_off_mem_rsvmap f = 40;
  fo_struct : fdt_off_dt_struct f = 56;
  fo_strings : fdt_off_dt_strings f = 56 + fdt_size_dt_struct f;
  fo_total : fdt_totalsize f = fdt_off_dt_strings f + fdt_size_dt_strings f;
  fo_max : fdt_totalsize f < INT_MAX;
  fo_tags : Forall (tag_flat (fdt_strings f)) (fdt_struct f);
  fo_tab : fdt_strings f = [] \/ exists t, fdt_strings f = t ++ [0] }.

Lemma zlen_replicate {A} n (x : A) : zlen (replicate n x) = Z.of_nat n.
Proof. unfold zlen. by rewrite length_replicate. Qed.

Lemma pad_len n : 0 <= n -> zlen (pad n) = FDT_TAGALIGN n - n.
Proof. intros N. unfold pad. rewrite zlen_replicate. pose proof (tagalign_bounds n N). lia. Qed.

Lemma zlen_be n x : zlen (be n x) = Z.of_nat n.
Proof. unfold zlen. by rewrite be_length. Qed.

Lemma enc_tag_len t : zlen (enc_tag t) = tag_size t.
Proof.
  destruct t as [name| |off data|]; cbn [enc_tag tag_size]; rewrite ?zlen_app, ?zlen_be; try done.
  - rewrite pad_len by (pose proof (zlen_nonneg name); lia). change (zlen [0]) with 1. lia.
  - rewrite pad_len by apply zlen_nonneg. lia.
Qed.

Lemma enc_struct_len ts : zlen (enc_struct ts) = struct_size ts.
Proof.
  induction ts as [|t ts IH]; [done|]. unfold enc_struct in *. cbn [map concat struct_size foldr]. rewrite zlen_app, enc_tag_len, IH. done.
Qed.

Lemma header_len f : zlen (header f) = 40.
Proof. unfold header. rewrite !zlen_app, !zlen_be. done. Qed.

Lemma word_at pre x rest pos : pos = zlen pre -> 0 <= x < two32 -> word (pre ++ be 4 x ++ rest) pos = x.
Proof.
  intros -> X. unfold word. replace (Z.to_nat (zlen pre)) with (length pre) by (unfold zlen; lia). rewrite drop_app_length.
  rewrite take_app_le by (rewrite be_length; lia). rewrite take_ge by (rewrite be_length; lia). by apply be_val_be.
Qed.

Lemma tagalign_eq x : FDT_TAGALIGN x = (x + 3) / 4 * 4.
Proof.
  unfold FDT_TAGALIGN. rewrite <- Z.ldiff_land. change (Z.ldiff (x + 3) 3) with (Z.ldiff (x + 3) (Z.ones 2)).
  by rewrite Z.ldiff_ones_r, Z.shiftr_div_pow2, Z.shiftl_mul_pow2 by lia.
Qed.

Lemma tagalign_add x y : x mod 4 = 0 -> FDT_TAGALIGN (x + y) = x + FDT_TAGALIGN y.
Proof.
  intros M. rewrite !tagalign_eq. pose proof (Z.div_mod x 4 ltac:(lia)) as E. rewrite M in E.
  replace (x + y + 3) with (y + 3 + x / 4 * 4) by lia. rewrite Z.div_add by lia. lia.
Qed.

Lemma tag_size_mod {N} (t : tag N) : tag_size t mod 4 = 0.
Proof.
  destruct t as [name| |name data|]; cbn [tag_size]; try done; rewrite tagalign_eq.
  - rewrite Z.mod_add by lia. done.
  - rewrite Z.mod_add by lia. done.
Qed.

Lemma struct_size_mod {N} (ts : list (tag N)) : struct_size ts mod 4 = 0.
Proof.
  induction ts as [|t ts IH]; [done|]. unfold struct_size in *. cbn [foldr]. rewrite Z.add_mod, tag_size_mod, IH by lia. done.
Qed.

Lemma s32_small x : 0 <= x < 2 ^ 31 -> s32 x = x.
Proof. intros X. unfold s32. cbv zeta. rewrite u32_small by lia. by rewrite (proj2 (Z.ltb_lt _ _)) by lia. Qed.

(** The word a tag starts with. *)
Definition tag_code {N} (t : tag N) : Z :=
  match t with FDT_BEGIN_NODE _ => BEGIN_NODE | FDT_END_NODE => END_NODE | FDT_PROP _ _ => PROP | FDT_END => END end.

Lemma name_tag_size tab t : tag_size (name_tag tab t) = tag_size t.
Proof. by destruct t. Qed.

Lemma name_tags_size tab ts : struct_size (map (name_tag tab) ts) = struct_size ts.
Proof. induction ts as [|t ts IH]; [done|]. unfold struct_size in *. cbn [map foldr]. by rewrite IH, name_tag_size. Qed.

(** *** Walking the tags *)

(** Where a scan from depth [d] below a node finds the first of its subnodes
    whose name [p] takes. *)
Fixpoint walk (p : list Z -> bool) (ts : list (tag (list Z))) (off d : Z) : Z :=
  match ts with
  | [] | FDT_END :: _ => - FDT_ERR_NOTFOUND
  | FDT_PROP n data :: ts => walk p ts (off + tag_size (FDT_PROP n data)) d
  | FDT_BEGIN_NODE nm :: ts => if (d =? 0) && p nm then off else walk p ts (off + tag_size (@FDT_BEGIN_NODE Z nm)) (d + 1)
  | FDT_END_NODE :: ts => if d - 1 <? 0 then - FDT_ERR_NOTFOUND else walk p ts (off + 4) (d - 1)
  end.

Lemma struct_size_cons {N} (t : tag N) ts : struct_size (t :: ts) = tag_size t + struct_size ts.
Proof. done. Qed.

Lemma walk_props p ps ts off d : walk p (map prop_tag ps ++ ts) off d = walk p ts (off + struct_size (map prop_tag ps)) d.
Proof.
  revert off. induction ps as [|[n v] ps IH]; intros off; cbn [map app]; [by rewrite Z.add_0_r|].
  cbn [walk prop_tag fst snd]. rewrite IH, struct_size_cons. f_equal. unfold prop_tag. cbn [fst snd]. lia.
Qed.

Lemma node_nested_ind (P : node -> Prop) :
  (forall nm ps ks, Forall P ks -> P (Node nm ps ks)) -> forall n, P n.
Proof. intros H. fix IH 1. intros [nm ps ks]. apply H. induction ks as [|k ks F]; constructor; [apply IH|exact F]. Qed.

(** Behind a subnode of a subnode the scan goes on as before it. *)
Lemma walk_node p n ts off d : 0 < d -> walk p (toks n ++ ts) off d = walk p ts (off + struct_size (toks n)) d.
Proof.
  revert ts off d. induction n as [nm ps ks F] using node_nested_ind. intros ts off d D. cbn [toks app walk].
  rewrite (proj2 (Z.eqb_neq d 0)) by lia. cbn [andb]. rewrite <- !app_assoc, walk_props. set (o := off + _ + _).
  assert (K : forall o, walk p (concat (map toks ks) ++ FDT_END_NODE :: ts) o (d + 1) = walk p ts (o + struct_size (concat (map toks ks)) + 4) d).
  { clear o. induction F as [|k ks Hk _ IH]; intros o; cbn [map concat app].
    - cbn [walk]. rewrite (proj2 (Z.ltb_ge _ _)) by lia. f_equal; [cbn; lia|lia].
    - rewrite <- app_assoc, Hk, IH, struct_size_app by lia. f_equal. lia. }
  cbn [app]. rewrite K. unfold o. f_equal. rewrite struct_size_cons, !struct_size_app. cbn [tag_size struct_size foldr]. lia.
Qed.

Lemma walk_nodes p ks ts off d : 0 < d -> walk p (concat (map toks ks) ++ ts) off d = walk p ts (off + struct_size (concat (map toks ks))) d.
Proof.
  intros D. revert off. induction ks as [|k ks IH]; intros off; cbn [map concat app]; [by rewrite Z.add_0_r|].
  rewrite <- app_assoc, walk_node, IH, struct_size_app by done. f_equal. lia.
Qed.

(** Where the nodes of a list are when the first is at [off]. *)
Fixpoint kid_offs (off : Z) (ks : list node) : list Z :=
  match ks with [] => [] | k :: ks => off :: kid_offs (off + struct_size (toks k)) ks end.

(** The subnodes of a node, tried in order. *)
Lemma walk_kids p ks ts off :
  match list_find (fun k => p (node_name k) = true) ks with
  | Some (i, _) => kid_offs off ks !! i = Some (walk p (concat (map toks ks) ++ FDT_END_NODE :: ts) off 0)
  | None => walk p (concat (map toks ks) ++ FDT_END_NODE :: ts) off 0 = - FDT_ERR_NOTFOUND
  end.
Proof.
  revert off. induction ks as [|[nm ps kk] ks IH]; intros off; [done|]. cbn [list_find map concat toks kid_offs node_name app walk Z.eqb andb].
  destruct (p nm) eqn:P; [by rewrite decide_True by done|]. rewrite decide_False by congruence.
  replace (walk p _ _ (0 + 1)) with (walk p (concat (map toks ks) ++ FDT_END_NODE :: ts) (off + struct_size (toks (Node nm ps kk))) 0).
  - specialize (IH (off + struct_size (toks (Node nm ps kk)))). destruct (list_find _ ks) as [[i k]|]; [|done]. exact IH.
  - rewrite <- !app_assoc, walk_props, (walk_nodes p kk) by lia. cbn [app walk]. change (0 + 1 - 1) with 0. change (0 <? 0) with false. cbv iota. f_equal.
    cbn [toks]. rewrite struct_size_cons, !struct_size_app. cbn [tag_size struct_size foldr]. lia.
Qed.

(** ** What a reader learns of a node

    Its name, the value of every property, and its subnodes: those the loop
    over them visits, each read in turn, and the one a name finds. *)
Inductive reads (b : list Z) : Z -> node -> Prop :=
| Reads off nm ps ks :
    fdt_get_name b off = inr nm ->
    (forall name, getprop b off name = Fdt.fdt_getprop (Node nm ps ks) name) ->
    (forall name, match Fdt.fdt_subnode_offset (Node nm ps ks) name with
                  | Some k => exists i, ks !! i = Some k /\ fdt_for_each_subnode b off !! i = Some (subnode_offset b off name)
                  | None => subnode_offset b off name = - FDT_ERR_NOTFOUND
                  end) ->
    Forall2 (reads b) (fdt_for_each_subnode b off) ks ->
    reads b off (Node nm ps ks).

Lemma find_list_find {A} (q : A -> bool) (l : list A) :
  match list_find (fun x => q x = true) l with
  | Some (i, x) => List.find q l = Some x /\ l !! i = Some x
  | None => List.find q l = None
  end.
Proof.
  induction l as [|x l IH]; [done|]. cbn [list_find List.find]. destruct (q x) eqn:Q; [by rewrite decide_True by done|].
  rewrite decide_False by congruence. by destruct (list_find _ l) as [[i y]|].
Qed.

(** ** A structure block in a buffer *)

Definition tag_named (t : tag Z) : Prop := match t with FDT_BEGIN_NODE name => cstring name | _ => True end.

(** The tags [ts] lie at [so], where the header says; [rest] is behind. *)
Record block (b : list Z) (so : Z) (ts : list (tag Z)) (rest : list Z) : Prop := {
  bk_pos : 0 <= so;
  bk_off : h_off_dt_struct b = so;
  bk_version : h_version b = 17;
  bk_size : h_size_dt_struct b = struct_size ts;
  bk_total : so + struct_size ts <= h_totalsize b < INT_MAX;
  bk_bytes : drop (Z.to_nat so) b = enc_struct ts ++ rest;
  bk_names : Forall tag_named ts }.

Lemma drop_more (b : list Z) p k (s t : list Z) : 0 <= p -> zlen s = k -> drop (Z.to_nat p) b = s ++ t -> drop (Z.to_nat (p + k)) b = t.
Proof.
  intros P <- E. rewrite Z2Nat.inj_add by (lia || apply zlen_nonneg). rewrite <- drop_drop, E. apply drop_app_length'. unfold zlen. lia.
Qed.

Lemma word_of (b : list Z) p x t : 0 <= x < two32 -> drop (Z.to_nat p) b = be 4 x ++ t -> word b p = x.
Proof.
  intros X E. unfold word. rewrite E. rewrite take_app_le by (rewrite be_length; lia). rewrite take_ge by (rewrite be_length; lia). by apply be_val_be.
Qed.

Lemma byte_of (b : list Z) p x t : drop (Z.to_nat p) b = x :: t -> byte b p = x.
Proof.
  intros E. unfold byte. rewrite <- (take_drop (Z.to_nat p) b), E.
  assert (L : length (take (Z.to_nat p) b) = Z.to_nat p).
  { apply (f_equal length) in E. rewrite length_drop in E. cbn [length] in E. rewrite length_take. lia. }
  rewrite app_nth2; rewrite L; [|lia]. by rewrite Nat.sub_diag.
Qed.

Section Block.
Context (b : list Z) (so : Z) (ts : list (tag Z)) (rest : list Z) (Blk : block b so ts rest).

Lemma bounds : 0 <= so /\ 0 <= struct_size ts /\ so + struct_size ts < INT_MAX.
Proof. destruct Blk as [P _ _ _ T _ _]. pose proof (struct_size_nonneg ts). lia. Qed.

Lemma offset_ptr_block off len :
  0 <= off -> 0 <= len -> off + len <= struct_size ts -> fdt_offset_ptr b off len = Some (so + off).
Proof.
  intros O L S. pose proof bounds as (S1 & S2 & S3). destruct Blk as [P Os V Sz T _ _]. unfold INT_MAX in *. unfold fdt_offset_ptr. cbv zeta.
  rewrite Os, V, Sz. rewrite !u32_small by lia.
  rewrite (proj2 (Z.ltb_ge off 0)) by lia.
  rewrite (proj2 (Z.ltb_ge (off + so) off)), (proj2 (Z.ltb_ge (off + so + len) (off + so))), (proj2 (Z.ltb_ge (h_totalsize b) _)) by lia.
  rewrite (proj2 (Z.ltb_ge (off + len) off)), (proj2 (Z.ltb_ge (struct_size ts) _)) by lia. done.
Qed.

(** A tag and the bytes behind it. *)
Lemma block_tag pre t post :
  ts = pre ++ t :: post ->
  drop (Z.to_nat (so + struct_size pre)) b = enc_tag t ++ enc_struct post ++ rest /\
  0 <= struct_size pre /\ struct_size pre + tag_size t <= struct_size ts /\ tag_named t.
Proof.
  intros E. destruct Blk as [P _ _ _ _ D F]. split; [|split; [apply struct_size_nonneg|split]].
  - apply (drop_more b so (struct_size pre) (enc_struct pre)); [done|apply enc_struct_len|]. rewrite D, E.
    unfold enc_struct. rewrite map_app, concat_app. cbn [map concat]. by rewrite <- !app_assoc.
  - rewrite E, struct_size_app. pose proof (struct_size_nonneg post).
    change (struct_size (t :: post)) with (tag_size t + struct_size post). lia.
  - rewrite E in F. apply Forall_app in F as [_ F]. by apply Forall_cons in F as [F _].
Qed.

Lemma skip_name_block name t fuel off :
  cstring name -> (length name < fuel)%nat -> 0 <= off -> off + zlen name + 1 <= struct_size ts ->
  drop (Z.to_nat (so + off)) b = name ++ 0 :: t -> skip_name b fuel off = Some (off + zlen name + 1).
Proof.
  intros C. pose proof bounds as (So & _). revert fuel off. induction C as [|c name Hc _ IH]; intros fuel off F O S D; (destruct fuel as [|fuel]; [cbn in F; lia|]); cbn [skip_name].
  - change (zlen (@nil Z)) with 0 in *. rewrite offset_ptr_block by lia. rewrite (byte_of _ _ _ _ D). cbn. f_equal. lia.
  - rewrite zlen_cons in *. pose proof (zlen_nonneg name). rewrite offset_ptr_block by lia. cbn [app] in D. rewrite (byte_of _ _ _ _ D).
    rewrite (proj2 (Z.eqb_neq c 0)) by lia. rewrite IH; [f_equal; lia|cbn in F; lia|lia|lia|].
    replace (so + (off + 1)) with (so + off + 1) by lia. apply (drop_more _ _ _ [c]); [lia|done|done].
Qed.

Lemma finish_block start len :
  0 <= start -> 0 <= len -> start + len <= struct_size ts -> fdt_offset_ptr b start (u32 (start + len - start)) = Some (so + start).
Proof.
  intros S L B. pose proof bounds as (S1 & S2 & S3). unfold INT_MAX in S3. replace (start + len - start) with len by lia.
  rewrite u32_small by lia. apply offset_ptr_block; lia.
Qed.

Lemma tag_word pre t post : ts = pre ++ t :: post -> word b (so + struct_size pre) = tag_code t.
Proof.
  intros E. destruct (block_tag _ _ _ E) as (D & _).
  destruct t as [name| |off data|]; cbn [enc_tag tag_code] in *; rewrite <- ?app_assoc in D; eapply word_of; try exact D; unfold BEGIN_NODE, END_NODE, PROP, END; lia.
Qed.

Lemma next_tag_begin pre name post :
  ts = pre ++ FDT_BEGIN_NODE name :: post ->
  fdt_next_tag b (struct_size pre) = (BEGIN_NODE, struct_size pre + tag_size (@FDT_BEGIN_NODE Z name)).
Proof.
  intros E. pose proof bounds as (So & _). destruct (block_tag _ _ _ E) as (D & P & S & T). pose proof (zlen_nonneg name). cbn [tag_size tag_named enc_tag] in *.
  pose proof (tagalign_bounds (zlen name + 1) ltac:(lia)) as A.
  unfold fdt_next_tag. rewrite offset_ptr_block by lia. rewrite (tag_word _ _ _ E). cbv zeta. cbn [tag_code Z.eqb Pos.eqb BEGIN_NODE].
  rewrite <- !app_assoc in D. pose proof (drop_more b (so + struct_size pre) 4 _ _ ltac:(lia) (zlen_be 4 _) D) as D'. cbn [app] in D'.
  replace (so + struct_size pre + 4) with (so + (struct_size pre + 4)) in D' by lia.
  erewrite skip_name_block; [|exact T| |lia|lia|exact D'].
  2: { apply (f_equal length) in D'. rewrite length_drop, length_app in D'. lia. }
  replace (struct_size pre + 4 + zlen name + 1) with (struct_size pre + (4 + (zlen name + 1))) by lia.
  rewrite finish_block by lia. rewrite tagalign_add by apply struct_size_mod. by rewrite (tagalign_add 4).
Qed.

Lemma next_tag_prop pre off data post :
  ts = pre ++ FDT_PROP off data :: post ->
  fdt_next_tag b (struct_size pre) = (PROP, struct_size pre + tag_size (FDT_PROP off data)) /\ word b (so + struct_size pre + 4) = zlen data.
Proof.
  intros E. destruct (block_tag _ _ _ E) as (D & P & S & T). pose proof (zlen_nonneg data). pose proof bounds as (S1 & S2 & S3). unfold INT_MAX in S3.
  cbn [tag_size tag_named enc_tag] in *. pose proof (tagalign_bounds (zlen data) ltac:(lia)) as A.
  rewrite <- !app_assoc in D. pose proof (drop_more b (so + struct_size pre) 4 _ _ ltac:(lia) (zlen_be 4 _) D) as D'.
  assert (W : word b (so + struct_size pre + 4) = zlen data) by (eapply word_of; [|exact D']; lia). split; [|done].
  unfold fdt_next_tag. rewrite offset_ptr_block by lia. rewrite (tag_word _ _ _ E). cbv zeta. cbn [tag_code].
  change (PROP =? BEGIN_NODE) with false. change (PROP =? PROP) with true. cbv iota. rewrite offset_ptr_block by lia. rewrite (Z.add_assoc so), W.
  rewrite u32_small by lia. unfold INT_MAX. rewrite (proj2 (Z.leb_gt _ _)), (proj2 (Z.ltb_ge _ _)) by lia. cbn [orb].
  rewrite (bk_version _ _ _ _ Blk). change (17 <? 16) with false. cbn [andb]. rewrite s32_small by lia.
  replace (struct_size pre + 4 + 8 + zlen data) with (struct_size pre + (12 + zlen data)) by lia.
  rewrite finish_block by lia. rewrite tagalign_add by apply struct_size_mod. by rewrite (tagalign_add 12).
Qed.

Lemma next_tag_block pre t post :
  ts = pre ++ t :: post -> fdt_next_tag b (struct_size pre) = (tag_code t, struct_size (pre ++ [t])).
Proof.
  intros E. rewrite struct_size_app. change (struct_size [t]) with (tag_size t + 0). rewrite Z.add_0_r.
  destruct t as [name| |off data|]; cbn [tag_code]; [by eapply next_tag_begin| |by eapply next_tag_prop|];
    destruct (block_tag _ _ _ E) as (D & P & S & T); cbn [tag_size] in *; unfold fdt_next_tag; rewrite offset_ptr_block by lia;
    rewrite (tag_word _ _ _ E); cbv zeta; cbn [tag_code]; cbn -[fdt_offset_ptr FDT_TAGALIGN struct_size]; rewrite finish_block by lia;
    by rewrite tagalign_add by apply struct_size_mod.
Qed.

End Block.

Section Flat.
Context (f : fdt) (Ok : flat_ok f).
Let b := flatten f.

Lemma sizes : 0 <= fdt_size_dt_struct f /\ 0 <= fdt_size_dt_strings f /\ 56 + fdt_size_dt_struct f + fdt_size_dt_strings f < INT_MAX.
Proof.
  destruct Ok as [_ _ _ S T M _ _]. pose proof (struct_size_nonneg (fdt_struct f)). pose proof (zlen_nonneg (fdt_strings f)).
  unfold fdt_size_dt_struct, fdt_size_dt_strings in *. lia.
Qed.

(** Splits the header in front of its [i]-th word. *)
Ltac header_word :=
  unfold b, flatten, header; rewrite <- !app_assoc;
  first [ apply (word_at []); [reflexivity|]
        | repeat match goal with |- word (?a ++ ?x ++ ?r) _ = _ => first [apply (word_at a); [rewrite ?zlen_app, ?zlen_be; reflexivity|] | rewrite (app_assoc a x r)] end ].

Lemma h_totalsize_flat : h_totalsize b = fdt_totalsize f.
Proof. pose proof sizes as (S1 & S2 & S3). destruct Ok. unfold h_totalsize. header_word. unfold INT_MAX in *. lia. Qed.
Lemma h_magic_flat : h_magic b = FDT_MAGIC.
Proof. destruct Ok as [M _ _ _ _ _ _ _]. unfold h_magic. rewrite <- M. header_word. rewrite M. unfold FDT_MAGIC. lia. Qed.
Lemma h_off_dt_struct_flat : h_off_dt_struct b = 56.
Proof. destruct Ok as [_ _ S _ _ _ _ _]. unfold h_off_dt_struct. rewrite <- S. header_word. lia. Qed.
Lemma h_off_dt_strings_flat : h_off_dt_strings b = 56 + fdt_size_dt_struct f.
Proof. pose proof sizes as (S1 & S2 & S3). destruct Ok as [_ _ _ S _ _ _ _]. unfold h_off_dt_strings. rewrite <- S. header_word. unfold INT_MAX in *. lia. Qed.
Lemma h_off_mem_rsvmap_flat : h_off_mem_rsvmap b = 40.
Proof. destruct Ok as [_ R _ _ _ _ _ _]. unfold h_off_mem_rsvmap. rewrite <- R. header_word. lia. Qed.
Lemma h_version_flat : h_version b = 17.
Proof. unfold h_version. header_word. unfold FDT_LAST_SUPPORTED_VERSION. lia. Qed.
Lemma h_last_comp_version_flat : h_last_comp_version b = 16.
Proof. unfold h_last_comp_version. header_word. unfold FDT_LAST_COMPATIBLE_VERSION. lia. Qed.
Lemma h_size_dt_strings_flat : h_size_dt_strings b = fdt_size_dt_strings f.
Proof. pose proof sizes as (S1 & S2 & S3). unfold h_size_dt_strings. header_word. unfold INT_MAX in *. lia. Qed.
Lemma h_size_dt_struct_flat : h_size_dt_struct b = fdt_size_dt_struct f.
Proof. pose proof sizes as (S1 & S2 & S3). unfold h_size_dt_struct. header_word. unfold INT_MAX in *. lia. Qed.


Lemma flat_block : block b 56 (fdt_struct f) (fdt_strings f).
Proof.
  pose proof sizes as (S1 & S2 & S3). constructor; rewrite ?h_off_dt_struct_flat, ?h_version_flat, ?h_size_dt_struct_flat, ?h_totalsize_flat by done; try done.
  - destruct Ok as [_ _ _ Os T _ _ _]. fold (fdt_size_dt_struct f). lia.
  - destruct Ok as [_ _ _ _ _ _ F _]. eapply Forall_impl; [exact F|]. by intros [].
Qed.

(** A tag and the bytes behind it. *)
Lemma at_tag pre t post :
  fdt_struct f = pre ++ t :: post ->
  drop (Z.to_nat (56 + struct_size pre)) b = enc_tag t ++ enc_struct post ++ fdt_strings f /\
  0 <= struct_size pre /\ struct_size pre + tag_size t <= fdt_size_dt_struct f /\ tag_flat (fdt_strings f) t.
Proof.
  intros E. destruct (block_tag _ _ _ _ flat_block _ _ _ E) as (D & P & S & _). split; [done|]. split; [done|]. split; [done|].
  destruct Ok as [_ _ _ _ _ _ F _]. rewrite E in F. apply Forall_app in F as [_ F]. by apply Forall_cons in F as [F _].
Qed.

Lemma next_tag_flat pre t post :
  fdt_struct f = pre ++ t :: post -> fdt_next_tag b (struct_size pre) = (tag_code t, struct_size (pre ++ [t])).
Proof. apply (next_tag_block _ _ _ _ flat_block). Qed.

Lemma ro_probe_flat : fdt_ro_probe_ b = fdt_totalsize f.
Proof.
  destruct Ok as [_ _ _ _ _ M _ _]. unfold fdt_ro_probe_. cbv zeta.
  rewrite h_magic_flat, h_totalsize_flat, h_version_flat, h_last_comp_version_flat by done.
  rewrite (proj2 (Z.ltb_lt _ _) M). done.
Qed.

Lemma check_header_flat : check_header b = 0.
Proof.
  pose proof sizes as (S1 & S2 & S3). unfold INT_MAX in S3. destruct Ok as [_ _ _ Os T M _ _]. unfold INT_MAX in M. unfold check_header.
  rewrite h_magic_flat, h_totalsize_flat, h_version_flat, h_last_comp_version_flat, h_off_mem_rsvmap_flat, h_off_dt_struct_flat,
    h_off_dt_strings_flat, h_size_dt_struct_flat, h_size_dt_strings_flat by done.
  cbv zeta. change (fdt_header_size_ 17) with 40. cbn [negb Z.eqb Pos.eqb orb]. unfold check_block_, check_off_, INT_MAX.
  rewrite !u32_small by lia. rewrite T, Os.
  repeat match goal with
         | |- context [?x <? ?y] => first [rewrite (proj2 (Z.ltb_ge x y)) by lia | rewrite (proj2 (Z.ltb_lt x y)) by lia]
         | |- context [?x <=? ?y] => rewrite (proj2 (Z.leb_le x y)) by lia
         end.
  done.
Qed.

Lemma drop_strings off : 0 <= off -> drop (Z.to_nat (off + (56 + fdt_size_dt_struct f))) b = drop (Z.to_nat off) (fdt_strings f).
Proof.
  intros O. pose proof sizes as (S1 & _). rewrite Z.add_comm, Z2Nat.inj_add by lia. rewrite <- drop_drop. f_equal.
  destruct flat_block as [_ _ _ _ _ D _]. apply (drop_more b 56 _ (enc_struct (fdt_struct f))); [lia|apply enc_struct_len|done].
Qed.

Lemma get_string_flat off :
  0 <= off < zlen (fdt_strings f) -> fdt_get_string b off = inr (cstr_of (drop (Z.to_nat off) (fdt_strings f))).
Proof.
  intros O. pose proof sizes as (S1 & S2 & S3). unfold INT_MAX in S3. destruct Ok as [_ _ _ Os T M _ Tab].
  unfold fdt_get_string. rewrite ro_probe_flat. cbv zeta.
  rewrite h_magic_flat, h_off_dt_strings_flat, h_version_flat, h_size_dt_strings_flat by done. fold (fdt_size_dt_strings f) in O.
  rewrite u32_small by lia. rewrite (proj2 (Z.ltb_ge (fdt_totalsize f) 0)), (proj2 (Z.leb_gt (fdt_totalsize f) _)) by lia.
  rewrite Z.eqb_refl, (proj2 (Z.ltb_ge off 0)), (proj2 (Z.leb_gt _ off)) by lia. change (17 <=? 17) with true. cbv iota.
  rewrite (proj2 (Z.ltb_ge (fdt_size_dt_strings f - off) _)) by lia. rewrite drop_strings by lia.
  rewrite take_ge by (rewrite length_drop; unfold fdt_size_dt_strings, zlen in *; lia).
  pose proof (split_at_spec 0 (drop (Z.to_nat off) (fdt_strings f))) as P. unfold cstr_of.
  destruct (split_at 0 _) as [a [r|]]; [done|]. destruct P as [_ P]. destruct P. unfold fdt_size_dt_strings in O.
  destruct Tab as [E | [t E]]; [rewrite E in O; change (zlen (@nil Z)) with 0 in O; lia|]. rewrite E in *. rewrite zlen_app, zlen_cons in O. change (zlen (@nil Z)) with 0 in O.
  rewrite drop_app_le by (unfold zlen in *; lia). apply elem_of_app. right. by left.
Qed.

(** *** By the names of the properties *)

Lemma contents_at pre t post :
  contents f = pre ++ t :: post ->
  exists pre' t' post', fdt_struct f = pre' ++ t' :: post' /\ struct_size pre' = struct_size pre /\ t = name_tag (fdt_strings f) t'.
Proof.
  unfold contents. intros E. apply map_eq_app in E as (pre' & r & E & <- & E'). apply map_eq_cons in E' as (t' & post' & -> & <- & _).
  exists pre', t', post'. by rewrite name_tags_size.
Qed.

Lemma next_tag_contents pre t post :
  contents f = pre ++ t :: post -> fdt_next_tag b (struct_size pre) = (tag_code t, struct_size (pre ++ [t])).
Proof.
  intros E. apply contents_at in E as (pre' & t' & post' & E & S & ->). rewrite <- S, (next_tag_flat _ _ _ E), !struct_size_app, S.
  change (struct_size [name_tag (fdt_strings f) t']) with (tag_size (name_tag (fdt_strings f) t') + 0). rewrite name_tag_size. by destruct t'.
Qed.

Lemma prop_flat pre n d post :
  contents f = pre ++ FDT_PROP n d :: post ->
  word b (56 + struct_size pre + 4) = zlen d /\ zlen d < 2 ^ 31 /\
  (forall name, fdt_string_eq_ b (s32 (word b (56 + struct_size pre + 8))) name = streq n name) /\
  take (Z.to_nat (zlen d)) (drop (Z.to_nat (56 + struct_size pre + 12)) b) = d.
Proof.
  intros E. apply contents_at in E as (pre' & t' & post' & E & <- & T). destruct t' as [|  |off d'|]; try done. injection T as -> ->.
  destruct (next_tag_prop _ _ _ _ flat_block _ _ _ _ E) as [_ W]. destruct (at_tag _ _ _ E) as (D & P & S & F). cbn [enc_tag tag_size tag_flat] in *.
  pose proof (tagalign_bounds (zlen d') (zlen_nonneg d')) as A. pose proof sizes as (S1 & S2 & S3). unfold INT_MAX in S3.
  rewrite <- !app_assoc in D. rewrite app_assoc in D.
  assert (L8 : zlen (be 4 PROP ++ be 4 (zlen d')) = 8) by (by rewrite zlen_app, !zlen_be).
  pose proof (drop_more _ (56 + struct_size pre') 8 _ _ ltac:(lia) L8 D) as D8.
  pose proof (drop_more _ (56 + struct_size pre' + 8) 4 _ _ ltac:(lia) (zlen_be 4 _) D8) as D12.
  split; [done|]. split; [lia|]. split.
  - intros name. unfold fdt_size_dt_strings in *. rewrite (word_of _ _ off _ ltac:(lia) D8), s32_small by lia. unfold fdt_string_eq_. by rewrite get_string_flat.
  - rewrite <- Z.add_assoc in D12. change (8 + 4) with 12 in D12. rewrite D12. apply take_app_length'. unfold zlen. lia.
Qed.

Lemma name_flat pre nm post :
  contents f = pre ++ FDT_BEGIN_NODE nm :: post -> cstr_of (drop (Z.to_nat (56 + struct_size pre + 4)) b) = nm.
Proof.
  intros E. apply contents_at in E as (pre' & t' & post' & E & <- & T). destruct t' as [nm'| | |]; try done. injection T as ->.
  destruct (at_tag _ _ _ E) as (D & P & S & F). cbn [enc_tag tag_flat] in *. rewrite <- !app_assoc in D.
  rewrite (drop_more _ (56 + struct_size pre') 4 _ _ ltac:(lia) (zlen_be 4 _) D). by apply cstr_of_app.
Qed.

Lemma contents_fuel : (4 * length (contents f) <= length b)%nat.
Proof.
  unfold contents. rewrite length_map. unfold b, flatten. rewrite !length_app. pose proof (enc_struct_len (fdt_struct f)) as L.
  enough (4 * zlen (fdt_struct f) <= struct_size (fdt_struct f)) by (unfold zlen in *; lia).
  clear L. induction (fdt_struct f) as [|t ts IH]; [done|]. rewrite zlen_cons. unfold struct_size in *. cbn [foldr]. pose proof (tag_size_pos t). lia.
Qed.


Lemma check_offset_flat pre t post :
  contents f = pre ++ t :: post -> check_offset b (tag_code t) (struct_size pre) = struct_size (pre ++ [t]).
Proof.
  intros E. unfold check_offset. rewrite struct_size_mod, (next_tag_contents _ _ _ E), !Z.eqb_refl.
  by rewrite (proj2 (Z.ltb_ge _ _) (struct_size_nonneg pre)).
Qed.

(** *** The properties of a node *)

Definition ends_props (ts : list (tag (list Z))) : Prop := match ts with FDT_BEGIN_NODE _ :: _ | FDT_END_NODE :: _ => True | _ => False end.

Lemma nextprop_flat fuel pre ps rest :
  contents f = pre ++ map prop_tag ps ++ rest -> ends_props rest ->
  nextprop_ b (S fuel) (struct_size pre) = match ps with [] => - FDT_ERR_NOTFOUND | _ => struct_size pre end.
Proof.
  intros E R. cbn [nextprop_]. destruct ps as [|[n d] ps]; cbn [map app] in E.
  - destruct rest as [|t rest]; [done|]. rewrite (next_tag_contents _ _ _ E). by destruct t.
  - by rewrite (next_tag_contents _ _ _ E).
Qed.

Lemma get_property_flat name ps pre rest fuel k :
  contents f = pre ++ map prop_tag ps ++ rest -> ends_props rest -> (length ps < fuel)%nat ->
  match get_property_loop b fuel (nextprop_ b (S k) (struct_size pre)) name with
  | inl e => e = - FDT_ERR_NOTFOUND /\ prop_lookup ps name = None
  | inr (_, prop, len) => prop_lookup ps name = Some (take (Z.to_nat len) (drop (Z.to_nat (prop + 12)) b))
  end.
Proof.
  intros E R. revert pre fuel k E. induction ps as [|[n d] ps IH]; intros pre fuel k E L; rewrite (nextprop_flat _ _ _ _ E R); (destruct fuel as [|fuel]; [cbn [length] in L; lia|]); [done|].
  cbn [map app] in E. cbn [get_property_loop]. rewrite (proj2 (Z.ltb_ge _ _) (struct_size_nonneg pre)).
  pose proof (check_offset_flat _ _ _ E) as C. cbn [tag_code prop_tag] in C. destruct (prop_flat _ _ _ _ E) as (W & B & Q & V).
  unfold fdt_get_property_by_offset_, fdt_next_property_offset, fdt_check_prop_offset_. rewrite C. cbv zeta.
  rewrite (proj2 (Z.ltb_ge _ _) (struct_size_nonneg _)), h_off_dt_struct_flat by done. cbn [fst snd] in *.
  rewrite Q, W, s32_small by (pose proof (zlen_nonneg d); lia). cbn [prop_lookup]. destruct (streq n name); [by rewrite V|].
  pose proof contents_fuel as F. rewrite E, !length_app in F. cbn [length] in F. destruct (length b) as [|lb]; [lia|].
  apply IH; [by rewrite <- app_assoc|cbn [length] in L; lia].
Qed.

(** The node at an offset of the blob. *)
Definition node_at (off : Z) (n : node) : Prop := exists pre post, contents f = pre ++ toks n ++ post ++ [FDT_END] /\ off = struct_size pre.

Lemma node_at_tags off nm ps ks :
  node_at off (Node nm ps ks) -> exists pre rest, off = struct_size pre /\ contents f = pre ++ FDT_BEGIN_NODE nm :: map prop_tag ps ++ rest /\ ends_props rest.
Proof.
  intros (pre & post & E & ->). exists pre, (concat (map toks ks) ++ FDT_END_NODE :: post ++ [FDT_END]). split; [done|]. cbn [toks] in E. rewrite E. split.
  - cbn [app]. by rewrite <- !app_assoc.
  - by destruct ks as [|[] ks].
Qed.

Lemma getprop_flat off n name : node_at off n -> getprop b off name = Fdt.fdt_getprop n name.
Proof.
  destruct n as [nm ps ks]. intros N. apply node_at_tags in N as (pre & rest & -> & E & R). unfold Fdt.fdt_getprop. cbn [node_props].
  pose proof contents_fuel as F. rewrite E, !length_app in F. cbn [length] in F. rewrite length_app, length_map in F.
  unfold getprop, fdt_getprop_namelen, fdt_get_property_namelen_, fdt_first_property_offset, fdt_check_node_offset_.
  pose proof (check_offset_flat _ _ _ E) as C. cbn [tag_code] in C. rewrite C, (proj2 (Z.ltb_ge _ _) (struct_size_nonneg _)). cbv zeta.
  replace (pre ++ FDT_BEGIN_NODE nm :: map prop_tag ps ++ rest) with ((pre ++ [FDT_BEGIN_NODE nm]) ++ map prop_tag ps ++ rest) in E by (by rewrite <- app_assoc).
  destruct (length b) as [|lb] eqn:Lb; [lia|].
  pose proof (get_property_flat name ps _ rest (S lb) lb E R ltac:(lia)) as G.
  destruct (get_property_loop _ _ _ _) as [e|[[po prop] len]]; [by destruct G as [_ ->]|]. rewrite h_version_flat. by rewrite G.
Qed.

Lemma get_name_flat pre nm post :
  contents f = pre ++ FDT_BEGIN_NODE nm :: post -> fdt_get_name b (struct_size pre) = inr nm.
Proof.
  intros E. unfold fdt_get_name. rewrite ro_probe_flat. cbv zeta. pose proof sizes as (S1 & S2 & S3). destruct Ok as [_ _ _ Os T _ _ _].
  rewrite (proj2 (Z.ltb_ge (fdt_totalsize f) 0)) by lia. unfold fdt_check_node_offset_.
  pose proof (check_offset_flat _ _ _ E) as C. cbn [tag_code] in C. rewrite C, (proj2 (Z.ltb_ge _ _) (struct_size_nonneg _)).
  by rewrite h_version_flat, h_off_dt_struct_flat, (name_flat _ _ _ E) by done.
Qed.

(** *** The subnodes of a node *)

Lemma next_node_flat pre nm post d :
  contents f = pre ++ FDT_BEGIN_NODE nm :: post ->
  fdt_next_node b (struct_size pre) d = next_node_loop b (length b) (struct_size (pre ++ [FDT_BEGIN_NODE nm])) d.
Proof.
  intros E. unfold fdt_next_node, fdt_check_node_offset_. pose proof (check_offset_flat _ _ _ E) as C. cbn [tag_code] in C.
  rewrite (proj2 (Z.leb_le _ _) (struct_size_nonneg pre)), C, (proj2 (Z.ltb_ge _ _) (struct_size_nonneg _)). done.
Qed.

Lemma nodename_eq_flat pre nm post name :
  contents f = pre ++ FDT_BEGIN_NODE nm :: post -> nodename_eq b (struct_size pre) name = fdt_nodename_eq_ nm name.
Proof. intros E. unfold nodename_eq. by rewrite (get_name_flat _ _ _ E). Qed.

Lemma tags_fuel_more pre ts : contents f = pre ++ ts ++ [FDT_END] -> (S (length ts) < length b)%nat.
Proof. intros E. pose proof contents_fuel as F. rewrite E, !length_app in F. cbn [length] in F. lia. Qed.

Lemma tags_fuel pre ts : contents f = pre ++ ts ++ [FDT_END] -> (length ts < length b)%nat.
Proof. intros E. pose proof (tags_fuel_more _ _ E). lia. Qed.

(** One step of [fdt_next_node]'s loop, as its callers see it. *)
Lemma loop_walk (after : Z -> Z -> Z) (p : list Z -> bool) :
  (forall off d, d < 0 -> after off d = - FDT_ERR_NOTFOUND) ->
  (forall d, 0 <= d -> after (- FDT_ERR_NOTFOUND) d = - FDT_ERR_NOTFOUND) ->
  forall ts pre fuel d, contents f = pre ++ ts ++ [FDT_END] -> (length ts < fuel)%nat -> 0 <= d ->
  (forall us nm vs e, ts = us ++ FDT_BEGIN_NODE nm :: vs -> 0 <= e <= d ->
     after (struct_size (pre ++ us)) (e + 1) = walk p (FDT_BEGIN_NODE nm :: vs) (struct_size (pre ++ us)) e) ->
  (let '(o, e) := next_node_loop b fuel (struct_size pre) d in after o e) = walk p ts (struct_size pre) d.
Proof.
  intros A1 A2 ts. induction ts as [|t ts IH]; intros pre fuel d E L D B; (destruct fuel as [|fuel]; [cbn [length] in L; lia|]); cbn [next_node_loop app] in *.
  - rewrite (next_tag_contents _ _ _ E). cbn [tag_code]. cbn -[struct_size]. rewrite (proj2 (Z.leb_le _ _) (struct_size_nonneg _)). by apply A2.
  - rewrite (next_tag_contents _ _ _ E).
    assert (N : forall e, 0 <= e <= d -> (let '(o, e) := next_node_loop b fuel (struct_size (pre ++ [t])) e in after o e) = walk p ts (struct_size pre + tag_size t) e).
    { intros e He. replace (struct_size pre + tag_size t) with (struct_size (pre ++ [t])) by (rewrite struct_size_app; cbn; lia).
      apply IH; [by rewrite <- app_assoc|cbn [length] in L; lia|lia|]. intros us nm vs e' -> He'. rewrite <- app_assoc. apply (B (t :: us)); [done|lia]. }
    destruct t as [nm| |n v|]; cbn [tag_code].
    + cbn -[struct_size walk]. rewrite <- (app_nil_r pre). apply (B []); [done|lia].
    + cbn -[struct_size walk]. cbn [walk]. destruct (Z.ltb_spec (d - 1) 0); [by apply A1|]. apply N. lia.
    + apply N. lia.
    + cbn -[struct_size]. rewrite (proj2 (Z.leb_le _ _) (struct_size_nonneg _)). by apply A2.
Qed.

Lemma subnode_walk name fuel ts pre k d :
  contents f = pre ++ ts ++ [FDT_END] -> (length ts < k)%nat -> (length ts < fuel)%nat -> 0 <= d ->
  (let '(o, e) := next_node_loop b k (struct_size pre) d in subnode_loop b fuel o e name) = walk (fun nm => fdt_nodename_eq_ nm name) ts (struct_size pre) d.
Proof.
  revert ts pre k d. induction fuel as [|fuel IH]; intros ts pre k d E K L D; [lia|]. apply loop_walk; try done.
  - intros off e He. cbn [subnode_loop]. rewrite (proj2 (Z.leb_gt 0 e)), andb_false_r, (proj2 (Z.ltb_lt e 0)) by lia. done.
  - intros e He. cbn [subnode_loop]. cbn [Z.leb Z.compare Z.opp FDT_ERR_NOTFOUND andb]. by rewrite (proj2 (Z.ltb_ge e 0)) by lia.
  - intros us nm vs e -> He. rewrite <- app_assoc, app_assoc in E. cbn [app] in E. cbn [subnode_loop walk].
    rewrite (proj2 (Z.leb_le _ _) (struct_size_nonneg _)), (proj2 (Z.leb_le 0 (e + 1))) by lia. cbn [andb].
    rewrite (nodename_eq_flat _ _ _ _ E). replace (e + 1 =? 1) with (e =? 0) by lia. destruct ((e =? 0) && _); [done|].
    rewrite (next_node_flat _ _ _ _ E). rewrite length_app in L, K. cbn [length] in L, K.
    replace ((pre ++ us) ++ FDT_BEGIN_NODE nm :: vs ++ [FDT_END]) with (((pre ++ us) ++ [FDT_BEGIN_NODE nm]) ++ vs ++ [FDT_END]) in E by (by rewrite <- (app_assoc (pre ++ us))).
    rewrite (IH vs); [|done|by eapply tags_fuel|lia|lia]. f_equal. rewrite (struct_size_app (pre ++ us)). cbn [struct_size foldr tag_size]. lia.
Qed.

Lemma next_subnode_walk fuel ts pre k d :
  contents f = pre ++ ts ++ [FDT_END] -> (length ts < k)%nat -> (length ts < fuel)%nat -> 0 <= d ->
  (let '(o, e) := next_node_loop b k (struct_size pre) d in
   if (o <? 0) || (e <? 1) then - FDT_ERR_NOTFOUND else if 1 <? e then next_subnode_loop b fuel o e else o) = walk (fun _ => true) ts (struct_size pre) d.
Proof.
  revert ts pre k d. induction fuel as [|fuel IH]; intros ts pre k d E K L D; [lia|].
  apply (loop_walk (fun o e => if (o <? 0) || (e <? 1) then - FDT_ERR_NOTFOUND else if 1 <? e then next_subnode_loop b (S fuel) o e else o)); try done.
  - intros off e He. rewrite (proj2 (Z.ltb_lt e 1)), orb_true_r by lia. done.
  - intros us nm vs e -> He. rewrite <- app_assoc, app_assoc in E. cbn [app] in E. cbn [walk].
    rewrite (proj2 (Z.ltb_ge _ _) (struct_size_nonneg _)), (proj2 (Z.ltb_ge (e + 1) 1)) by lia. cbn [orb].
    rewrite andb_true_r. replace (1 <? e + 1) with (negb (e =? 0)) by lia. destruct (e =? 0); [done|]. cbn [negb next_subnode_loop].
    rewrite (next_node_flat _ _ _ _ E). rewrite length_app in L, K. cbn [length] in L, K.
    replace ((pre ++ us) ++ FDT_BEGIN_NODE nm :: vs ++ [FDT_END]) with (((pre ++ us) ++ [FDT_BEGIN_NODE nm]) ++ vs ++ [FDT_END]) in E by (by rewrite <- (app_assoc (pre ++ us))).
    rewrite (IH vs); [|done|by eapply tags_fuel|lia|lia]. f_equal. rewrite (struct_size_app (pre ++ us)). cbn [struct_size foldr tag_size]. lia.
Qed.

(** The subnodes [ks] of one node, the first at [off]. *)
Definition kids_at (off : Z) (ks : list node) (post : list (tag (list Z))) : Prop :=
  exists pre, contents f = pre ++ (concat (map toks ks) ++ FDT_END_NODE :: post) ++ [FDT_END] /\ off = struct_size pre.

Lemma kids_at_cons off k ks post : kids_at off (k :: ks) post -> node_at off k /\ kids_at (off + struct_size (toks k)) ks post.
Proof.
  intros (pre & E & ->). cbn [map concat] in E. rewrite <- !app_assoc in E. split.
  - exists pre, (concat (map toks ks) ++ FDT_END_NODE :: post). by rewrite <- app_assoc.
  - exists (pre ++ toks k). by rewrite struct_size_app, <- !app_assoc.
Qed.

Lemma kids_at_offs off ks post : kids_at off ks post -> Forall2 node_at (kid_offs off ks) ks.
Proof.
  revert off. induction ks as [|k ks IH]; intros off K; cbn [kid_offs]; constructor; apply kids_at_cons in K as [N K]; [done|by apply IH].
Qed.

Lemma first_kid off nm ps ks :
  node_at off (Node nm ps ks) -> exists pre o post, off = struct_size pre /\ kids_at o ks post /\
  contents f = (pre ++ [FDT_BEGIN_NODE nm]) ++ (map prop_tag ps ++ concat (map toks ks) ++ FDT_END_NODE :: post) ++ [FDT_END] /\
  forall p d, walk p (map prop_tag ps ++ concat (map toks ks) ++ FDT_END_NODE :: post) (struct_size (pre ++ [FDT_BEGIN_NODE nm])) d =
    walk p (concat (map toks ks) ++ FDT_END_NODE :: post) o d.
Proof.
  intros (pre & post & E & ->). exists pre, (struct_size ((pre ++ [FDT_BEGIN_NODE nm]) ++ map prop_tag ps)), post. split; [done|].
  assert (E' : contents f = (pre ++ [FDT_BEGIN_NODE nm]) ++ (map prop_tag ps ++ concat (map toks ks) ++ FDT_END_NODE :: post) ++ [FDT_END]).
  { rewrite E. cbn [toks]. rewrite <- !app_assoc. cbn [app]. by rewrite <- !app_assoc. }
  split; [|split; [exact E'|]].
  - exists ((pre ++ [FDT_BEGIN_NODE nm]) ++ map prop_tag ps). split; [|done]. rewrite E', <- !app_assoc. done.
  - intros p d. by rewrite walk_props, (struct_size_app (pre ++ _) (map prop_tag ps)).
Qed.

Lemma begin_tag pre nm rest : contents f = (pre ++ [FDT_BEGIN_NODE nm]) ++ rest -> contents f = pre ++ FDT_BEGIN_NODE nm :: rest.
Proof. by rewrite <- app_assoc. Qed.

(** The first of the nodes a list stands for, or none. *)
Definition first_of (o : Z) (ks : list node) : Z := match ks with [] => - FDT_ERR_NOTFOUND | _ => o end.

Lemma walk_first ks post o : walk (fun _ => true) (concat (map toks ks) ++ FDT_END_NODE :: post) o 0 = first_of o ks.
Proof. by destruct ks as [|[nm ps kk] ks]. Qed.

Lemma subnodes_flat off nm ps ks :
  node_at off (Node nm ps ks) -> exists o post, kids_at o ks post /\ fdt_first_subnode b off = first_of o ks /\
  forall name, subnode_offset b off name = walk (fun n => fdt_nodename_eq_ n name) (concat (map toks ks) ++ FDT_END_NODE :: post) o 0.
Proof.
  intros N. destruct (first_kid _ _ _ _ N) as (pre & o & post & -> & K & E & W). exists o, post. split; [done|].
  pose proof (tags_fuel _ _ E) as F. pose proof (begin_tag _ _ _ E) as B. split.
  - rewrite <- (walk_first ks post o), <- W. unfold fdt_first_subnode. rewrite (next_node_flat _ _ _ _ B).
    apply (loop_walk (fun o e => if (o <? 0) || negb (e =? 1) then - FDT_ERR_NOTFOUND else o)); try done.
    + intros x e He. rewrite (proj2 (Z.eqb_neq e 1)), orb_true_r by lia. done.
    + intros us nm' vs e _ He. replace e with 0 by lia. cbn [walk]. rewrite (proj2 (Z.ltb_ge _ _) (struct_size_nonneg _)). done.
  - intros name. rewrite <- W. unfold subnode_offset, fdt_subnode_offset_namelen. rewrite ro_probe_flat. cbv zeta.
    pose proof sizes as (S1 & S2 & S3). destruct Ok as [_ _ _ Os T _ _ _]. rewrite (proj2 (Z.ltb_ge (fdt_totalsize f) 0)) by lia.
    cbn [subnode_loop]. rewrite (proj2 (Z.leb_le _ _) (struct_size_nonneg _)). cbn [andb Z.leb Z.eqb Z.compare].
    rewrite (next_node_flat _ _ _ _ B). by apply subnode_walk.
Qed.

Lemma next_subnode_flat o k ks post : kids_at o (k :: ks) post -> fdt_next_subnode b o = first_of (o + struct_size (toks k)) ks.
Proof.
  intros K. destruct k as [nm ps kk]. destruct K as (pre & E & ->). cbn [map concat toks app] in E. rewrite <- !app_assoc in E. cbn [app] in E.
  set (rest := concat (map toks ks) ++ FDT_END_NODE :: post) in *.
  assert (E' : contents f = (pre ++ [FDT_BEGIN_NODE nm]) ++ (map prop_tag ps ++ concat (map toks kk) ++ FDT_END_NODE :: rest) ++ [FDT_END]).
  { rewrite E. unfold rest. rewrite <- (app_assoc pre), <- (app_assoc (map prop_tag ps)), <- (app_assoc (concat (map toks kk))). cbn [app]. by rewrite <- (app_assoc (concat (map toks ks))). }
  clear E. rename E' into E.
  pose proof (tags_fuel_more _ _ E) as F. unfold fdt_next_subnode. destruct (length b) as [|lb] eqn:Lb; [lia|]. cbn [next_subnode_loop].
  rewrite (next_node_flat _ _ _ _ (begin_tag _ _ _ E)), Lb.
  rewrite (next_subnode_walk lb _ _ _ 1 E) by lia.
  rewrite walk_props, walk_nodes by lia. cbn [walk]. change (1 - 1) with 0. change (0 <? 0) with false. cbv iota. unfold rest. rewrite walk_first. unfold first_of. destruct ks; [done|].
  cbn [toks]. rewrite !struct_size_app, !struct_size_cons, !struct_size_app. cbn [struct_size foldr tag_size]. lia.
Qed.

Lemma for_each_flat fuel o ks post : kids_at o ks post -> (length ks < fuel)%nat -> for_each_loop b fuel (first_of o ks) = kid_offs o ks.
Proof.
  revert fuel o. induction ks as [|k ks IH]; intros fuel o K L; (destruct fuel as [|fuel]; [cbn [length] in L; lia|]); [done|].
  cbn [for_each_loop first_of kid_offs]. rewrite (next_subnode_flat _ _ _ _ K).
  assert (O : 0 <= o) by (destruct K as (pre & _ & ->); apply struct_size_nonneg). rewrite (proj2 (Z.leb_le _ _) O). f_equal.
  apply kids_at_cons in K as [_ K]. apply IH; [done|cbn [length] in L; lia].
Qed.

Lemma kids_length ks : (length ks <= length (concat (map toks ks)))%nat.
Proof. induction ks as [|[nm ps kk] ks IH]; [done|]. cbn [map concat toks app length]. rewrite !length_app. lia. Qed.

Lemma node_at_reads n off : node_at off n -> reads b off n.
Proof.
  revert off. induction n as [nm ps ks IH] using node_nested_ind. intros off N.
  destruct (subnodes_flat _ _ _ _ N) as (o & post & K & F & Sub).
  assert (Each : fdt_for_each_subnode b off = kid_offs o ks).
  { unfold fdt_for_each_subnode. rewrite F. eapply for_each_flat; [exact K|]. destruct K as (pre & E & _). pose proof (tags_fuel _ _ E) as L.
    rewrite length_app in L. pose proof (kids_length ks). lia. }
  constructor.
  - destruct (node_at_tags _ _ _ _ N) as (pre & rest & -> & E & _). by eapply get_name_flat.
  - intros name. by apply getprop_flat.
  - intros name. rewrite Each, Sub. unfold Fdt.fdt_subnode_offset. cbn [node_kids].
    pose proof (walk_kids (fun n => fdt_nodename_eq_ n name) ks post o) as W.
    pose proof (find_list_find (fun k => fdt_nodename_eq_ (node_name k) name) ks) as L.
    destruct (list_find _ ks) as [[i k]|]; [|by rewrite L]. destruct L as [-> L]. by exists i.
  - rewrite Each. apply kids_at_offs in K. clear -IH K. revert K. generalize (kid_offs o ks). induction IH as [|k ks Hk _ IH]; intros os K.
    + apply Forall2_nil_inv_r in K as ->. constructor.
    + apply Forall2_cons_inv_r in K as (x & os' & N & K & ->). constructor; [by apply Hk|by apply IH].
Qed.

End Flat.

(** ** The blobs that are built *)

Definition begin_ok (t : tag (list Z)) : Prop := match t with FDT_BEGIN_NODE nm => cstring nm | _ => True end.

Definition ends0 (tab : list Z) : Prop := tab = [] \/ exists t, tab = t ++ [0].

Lemma intern_ends0 tab s : ends0 tab -> ends0 (intern tab s).1.
Proof.
  intros E. unfold intern. destruct (find_string _ _); [done|]. right. destruct E as [-> | [t ->]]; [by exists s|].
  exists (s ++ 0 :: t). by rewrite <- app_assoc.
Qed.

Lemma pushes_ends0 ts f : ends0 (fdt_strings f) -> ends0 (fdt_strings (pushes ts f)).
Proof.
  revert f. induction ts as [|t ts IH]; intros f E; [done|]. apply (IH (push f t)). destruct t as [|  |n d|]; try done.
  cbn [push]. pose proof (intern_ends0 _ n E). by destruct (intern _ _).
Qed.

Lemma fix_nameoff_size n ts : struct_size (map (fix_nameoff n) ts) = struct_size ts.
Proof. induction ts as [|t ts IH]; [done|]. cbn [map]. rewrite !struct_size_cons, IH. by destruct t. Qed.

(** The tags and strings of a finished buffer. *)
Lemma try_build_shape fn ts size f :
  emits fn ts -> 64 <= size <= 4 * 1024 * 1024 -> fdtutil_try_build fn size = Ok f ->
  fdt_struct f = map (fix_nameoff (zlen (fdt_strings f))) (fdt_struct (pushes ts (fresh size)) ++ [FDT_END]) /\
  fdt_strings f = fdt_strings (pushes ts (fresh size)) /\ fdt_totalsize f = 64 + fdt_size_dt_struct f + fdt_size_dt_strings f.
Proof.
  intros [_ E] S. pose proof (fresh_writing size S) as W. rewrite try_build_fresh, E by (done || lia). case_bool; [|done].
  unfold fdt_finish. destruct (fdt_sw_probe_struct_ _); [|done]. unfold fdt_grab_space_. case_bool; [done|]. intros [= <-]. split; [done|]. split; [done|].
  unfold fdt_size_dt_struct, fdt_size_dt_strings. cbn [with_struct fdt_totalsize fdt_off_dt_struct fdt_struct fdt_strings].
  destruct (pushes_fields ts (fresh size)) as (_ & _ & -> & _). by rewrite fix_nameoff_size.
Qed.

Lemma names_flat tab ts us :
  Forall2 (names tab) ts us -> Forall begin_ok us -> Forall (tag_flat tab) (map (fix_nameoff (zlen tab)) ts).
Proof.
  induction 1 as [|t u ts us N _ IH]; intros B; [constructor|]. apply Forall_cons in B as [Bu B]. constructor; [|by apply IH].
  destruct t as [a| |off d|], u as [c| |n d'|]; cbn in *; try done; [by subst|]. destruct N as (_ & R & _). lia.
Qed.

Lemma pack_flat fn ts size f :
  emits fn ts -> Forall begin_ok ts -> 64 <= size <= 4 * 1024 * 1024 -> fdtutil_try_build fn size = Ok f ->
  flat_ok (fdt_pack f) /\ contents (fdt_pack f) = ts ++ [FDT_END].
Proof.
  intros E B S R. pose proof (try_build_emits fn ts size E S) as P. destruct (Z.leb_spec (need ts) size) as [L|L]; [|congruence].
  destruct P as (f' & R' & C & M & _ & T). rewrite R in R'. injection R' as <-. split; [|done].
  destruct (try_build_shape _ _ _ _ E S R) as (St & Tab & U). destruct E as [Ok2 _].
  constructor; try done.
  - cbn [fdt_pack fdt_totalsize]. change (FDT_ALIGN 40 8 + 16) with 56. unfold INT_MAX. lia.
  - cbn [fdt_pack fdt_struct fdt_strings]. rewrite St. rewrite Tab. apply (names_flat _ _ (ts ++ [FDT_END])).
    + apply Forall2_app; [|by constructor]. apply (pushes_names ts (fresh size) []); [done|constructor].
    + apply Forall_app. split; [done|by constructor].
  - cbn [fdt_pack fdt_strings]. rewrite Tab. apply pushes_ends0. by left.
Qed.

Lemma build_packs `{AllocOk} fuel fn size f :
  64 <= size -> size * 2 ^ Z.of_nat fuel = 4 * 1024 * 1024 -> build_loop (S fuel) fn size = Some (Ok f) ->
  exists size' g, 64 <= size' <= 4 * 1024 * 1024 /\ fdtutil_try_build fn size' = Ok g /\ f = fdt_pack g.
Proof.
  revert size. induction fuel as [|fuel IH]; intros size S P.
  - cbn [build_loop]. rewrite alloc_ok. cbn [negb]. destruct (fdtutil_try_build fn size) as [g|e] eqn:T.
    + intros [= <-]. exists size, g. split; [lia|done].
    + case_bool; [done|]. rewrite (proj2 (Z.leb_le _ _)) by lia. done.
  - rewrite Nat2Z.inj_succ, Z.pow_succ_r in P by lia. assert (size * 2 <= 4 * 1024 * 1024) by nia.
    cbn [build_loop]. rewrite alloc_ok. cbn [negb]. destruct (fdtutil_try_build fn size) as [g|e] eqn:T.
    + intros [= <-]. exists size, g. split; [lia|done].
    + case_bool; [done|]. case_bool; [done|]. apply (IH (size * 2)); lia.
Qed.

(** ** Paths *)

Fixpoint tree_path (n : node) (cs : list (list Z)) : option node :=
  match cs with
  | [] => Some n
  | c :: cs => match Fdt.fdt_subnode_offset n c with Some k => tree_path k cs | None => None end
  end.

(** A path from the root, by its components. *)
Definition path_of (cs : list (list Z)) : list Z := concat (map (cons (ch "/")) cs).
Definition comp_ok (c : list Z) : Prop := c <> [] /\ ch "/" ∉ c.

Lemma for_each_nonneg b fuel o : Forall (fun x => 0 <= x) (for_each_loop b fuel o).
Proof.
  revert o. induction fuel as [|fuel IH]; intros o; cbn [for_each_loop]; [constructor|]. destruct (Z.leb_spec 0 o); constructor; done.
Qed.

Lemma reads_subnode b off n name :
  reads b off n ->
  match Fdt.fdt_subnode_offset n name with
  | Some k => 0 <= subnode_offset b off name /\ reads b (subnode_offset b off name) k
  | None => subnode_offset b off name = - FDT_ERR_NOTFOUND
  end.
Proof.
  intros R. destruct R as [off nm ps ks _ _ S F]. specialize (S name). destruct (Fdt.fdt_subnode_offset _ _) as [k|]; [|done].
  destruct S as (i & K & O). split.
  - pose proof (for_each_nonneg b (length b) (fdt_first_subnode b off)) as N. rewrite Forall_lookup in N. by apply (N i).
  - destruct (Forall2_lookup_l _ _ _ _ _ F O) as (k' & K' & R). congruence.
Qed.

Lemma path_head c cs : comp_ok c -> skip_slashes (path_of (c :: cs)) = c ++ path_of cs /\ c ++ path_of cs <> [].
Proof.
  intros [N C]. unfold path_of. cbn [map concat app skip_slashes]. rewrite Z.eqb_refl. destruct c as [|x c]; [done|]. cbn [app skip_slashes].
  apply not_elem_of_cons in C as [C _]. by rewrite (proj2 (Z.eqb_neq x _)) by congruence.
Qed.

Lemma path_split c cs :
  comp_ok c -> exists q, split_at (ch "/") (c ++ path_of cs) = (c, q) /\ (match q with Some q => q | None => [] end) = path_of cs.
Proof.
  intros [_ C]. destruct cs as [|d cs]; unfold path_of; cbn [map concat app].
  - rewrite app_nil_r, split_at_none by done. by exists None.
  - rewrite split_at_some by done. by eexists.
Qed.

Lemma path_loop_reads b cs fuel off n :
  Forall comp_ok cs -> (length cs < fuel)%nat -> 0 <= off -> reads b off n ->
  match tree_path n cs with
  | Some k => 0 <= path_loop b fuel off (path_of cs) /\ reads b (path_loop b fuel off (path_of cs)) k
  | None => path_loop b fuel off (path_of cs) = - FDT_ERR_NOTFOUND
  end.
Proof.
  intros C. revert fuel off n. induction C as [|c cs Hc _ IH]; intros fuel off n L O R; (destruct fuel as [|fuel]; [cbn [length] in L; lia|]); [done|].
  cbn [path_loop tree_path]. destruct (path_head c cs Hc) as [-> N]. destruct (path_split c cs Hc) as (q & Q & Eq).
  destruct (c ++ path_of cs) as [|x p]; [done|]. rewrite Q, Eq. pose proof (reads_subnode _ _ _ c R) as S. unfold subnode_offset in S.
  destruct (Fdt.fdt_subnode_offset n c) as [k|].
  - destruct S as [P S]. cbv zeta. rewrite (proj2 (Z.ltb_ge _ _) P). apply IH; [cbn [length] in L; lia|done|done].
  - by rewrite S.
Qed.

Lemma path_of_length cs : (length cs <= length (path_of cs))%nat.
Proof. unfold path_of. induction cs as [|c cs IH]; [done|]. cbn [map concat length]. rewrite length_app. cbn [length]. lia. Qed.

(** A path from the root leads where its components lead in the tree. *)
Lemma path_reads b cs t :
  0 <= fdt_ro_probe_ b -> Forall comp_ok cs -> cs <> [] -> reads b 0 t ->
  match tree_path t cs with
  | Some k => reads b (path_offset b (path_of cs)) k
  | None => path_offset b (path_of cs) = - FDT_ERR_NOTFOUND
  end.
Proof.
  intros P C N R. pose proof (path_loop_reads b cs (S (length (path_of cs))) 0 t C) as L. pose proof (path_of_length cs) as F.
  unfold path_offset. cbv zeta. rewrite (proj2 (Z.ltb_ge _ _) P). rewrite bool_decide_false by (by destruct cs).
  replace (c0 (path_of cs)) with (ch "/") by (by destruct cs). rewrite Z.eqb_refl. specialize (L ltac:(lia) ltac:(lia) R).
  destruct (tree_path t cs); [by destruct L|done].
Qed.

Definition path_found (b : list Z) (t : node) : Prop :=
  forall cs, cs <> [] -> Forall comp_ok cs ->
  match tree_path t cs with
  | Some k => reads b (path_offset b (path_of cs)) k
  | None => path_offset b (path_of cs) = - FDT_ERR_NOTFOUND
  end.

(** The bytes of a blob say the tree [t]. *)
Definition spells (b : list Z) (t : node) : Prop := check_header b = 0 /\ reads b 0 t /\ path_found b t.

Lemma build_spells `{AllocOk} fn t :
  emits fn (toks t) -> Forall begin_ok (toks t) -> need (toks t) <= 4 * 1024 * 1024 ->
  exists f, fdtutil_build fn = Ok f /\ zlen (flatten f) = fdt_totalsize f /\ spells (flatten f) t.
Proof.
  intros E B L. pose proof (build_builds fn t E) as Bu. unfold builds in Bu. rewrite (proj2 (Z.leb_le _ _) L) in Bu. destruct Bu as (f & Bu & _).
  exists f. split; [done|]. unfold fdtutil_build in Bu. destruct (build_loop 9 fn (16 * 1024)) as [r|] eqn:R; [|done]. subst r.
  apply build_packs in R as (size & g & S & T & ->); [|lia|done]. destruct (pack_flat _ _ _ _ E B S T) as [F C].
  assert (Rd : reads (flatten (fdt_pack g)) 0 t) by (apply (node_at_reads _ F); exists [], []; by rewrite C).
  assert (Tot : zlen (flatten (fdt_pack g)) = fdt_totalsize (fdt_pack g)).
  { unfold flatten. rewrite !zlen_app, header_len, zlen_replicate, enc_struct_len. unfold fdt_pack, fdt_size_dt_struct, fdt_size_dt_strings.
    cbn [fdt_struct fdt_strings fdt_totalsize]. change (FDT_ALIGN 40 8) with 40. lia. }
  split; [done|]. split; [by apply check_header_flat|]. split; [done|]. intros cs N Cs. apply path_reads; [|done..].
  rewrite ro_probe_flat, <- Tot by done. apply zlen_nonneg.
Qed.

(** The bytes of a blob that [fdtutil_build] makes spell the tree its
    callback wrote, when that needs at most 4 MiB; otherwise the build ends
    with [ENOSPC].  libfdt's byte-level reader, with every bounds check it
    makes, accepts the header and finds at offset 0 exactly that tree: each
    node's name, for every name the value of its property or none, the
    subnodes in their order when iterating, and the subnode of a given name
    or [-FDT_ERR_NOTFOUND]; a path from the root leads to the node its
    components lead to in the tree. *)
Theorem blob_reads_as_tree `{AllocOk} fn t :
  emits fn (toks t) -> Forall begin_ok (toks t) ->
  (need (toks t) <= 4 * 1024 * 1024 -> exists f, fdtutil_build fn = Ok f /\ zlen (flatten f) = fdt_totalsize f /\ spells (flatten f) t) /\
  (4 * 1024 * 1024 < need (toks t) -> fdtutil_build fn = Err ENOSPC).
Proof.
  intros E B. split; [by apply build_spells|]. intros N. pose proof (build_builds fn t E) as Bu. unfold builds in Bu.
  by rewrite (proj2 (Z.leb_gt _ _) N) in Bu.
Qed.

(** A root with one subnode of one property. *)
Definition one_kid (kid name data : list Z) (f : fdt) : result fdt :=
  let? f := fdt_begin_node f [] in
  let? f := fdt_begin_node f kid in
  let? f := fdt_property f name data in
  let? f := fdt_end_node f in
  fdt_end_node f.

Lemma one_kid_emits kid name data :
  zlen kid < 2 ^ 31 - 4 -> short_name name = true -> zlen data < 2 ^ 31 - 4 ->
  emits (one_kid kid name data) (toks (Node [] [] [Node kid [(name, data)] []])).
Proof. intros K S L. unfold one_kid. eapply emits_eq; [emit_calls; done|done]. Qed.

Lemma blob_reads_as_tree_witness :
  let t := Node [] [] [Node (str "memory@1") [(str "id", [1; 2])] []] in
  need (toks t) <= 4 * 1024 * 1024 /\
  exists f, @fdtutil_build alloc_always (one_kid (str "memory@1") (str "id") [1; 2]) = Ok f /\ zlen (flatten f) = fdt_totalsize f /\ spells (flatten f) t.
Proof.
  split; [vm_compute; discriminate|].
  refine (proj1 (blob_reads_as_tree (H := alloc_always) _ _ _ _) _).
  - by apply one_kid_emits.
  - repeat constructor.
  - vm_compute. discriminate.
Defined.

(** ** Bytes nobody checked

    A blob from elsewhere whose header [fdt_check_header] accepts and whose
    bytes are all there, as [fdtutil_check] asks; the rest of it is arbitrary. *)
Record untrusted (b : list Z) : Prop := {
  un_bytes : Forall (fun c => 0 <= c < 256) b;
  un_header : check_header b = 0;
  un_whole : h_totalsize b <= zlen b }.

Section Untrusted.
Context (b : list Z) (U : untrusted b).

Lemma word_range p : 0 <= word b p < two32.
Proof.
  unfold word, be_val. assert (F := Forall_take _ 4%nat _ (Forall_drop _ (Z.to_nat p) _ (un_bytes _ U))).
  pose proof (be_val_bytes _ 0 F ltac:(lia)) as B. pose proof (length_take (drop (Z.to_nat p) b) 4) as L.
  assert (P : 256 ^ zlen (take 4 (drop (Z.to_nat p) b)) <= 256 ^ 4) by (apply Z.pow_le_mono_r; unfold zlen; lia). lia.
Qed.

Lemma header_sane : h_totalsize b <= INT_MAX /\ 28 <= h_off_dt_struct b <= h_totalsize b.
Proof.
  pose proof (un_header _ U) as C. unfold check_header in C. cbv zeta in C.
  repeat match type of C with (if ?x then _ else _) = _ => destruct x eqn:?; [discriminate|] end.
  apply orb_false_elim in Heqb3 as [_ T]. apply Z.ltb_ge in T. split; [done|].
  assert (O : check_off_ (fdt_header_size_ (h_version b)) (h_totalsize b) (h_off_dt_struct b) = true).
  { destruct (h_version b <? 17); [by apply negb_false_iff|]. apply negb_false_iff in Heqb5. unfold check_block_ in Heqb5. by b2p. }
  assert (H : 28 <= fdt_header_size_ (h_version b)) by (unfold fdt_header_size_; repeat case_bool; lia).
  unfold check_off_ in O. b2p. lia.
Qed.

(** No pointer into the structure block reaches past the blob. *)
Lemma offset_ptr_in_bounds off len p :
  off < 2 ^ 31 -> 0 <= len < two32 -> fdt_offset_ptr b off len = Some p ->
  0 <= off /\ p = h_off_dt_struct b + off /\ p + len <= h_totalsize b.
Proof.
  intros O L. pose proof header_sane as [M S]. unfold INT_MAX in M. unfold fdt_offset_ptr. cbv zeta.
  destruct (Z.ltb_spec off 0) as [?|P]; [done|]. destruct (_ || _ || _) eqn:A; [done|]. destruct (_ && _); [done|]. intros [= <-].
  apply orb_false_elim in A as [A A3]. apply orb_false_elim in A as [A1 A2]. apply Z.ltb_ge in A1, A2, A3.
  rewrite (u32_small off) in A1 by lia. rewrite (u32_small (off + _)) in * by lia. split; [done|]. split; [done|].
  assert (C : off + h_off_dt_struct b + len < two32); [|rewrite u32_small in A3 by lia; lia].
  destruct (Z.ltb_spec (off + h_off_dt_struct b + len) two32) as [?|G]; [done|]. exfalso.
  assert (E : u32 (off + h_off_dt_struct b + len) = off + h_off_dt_struct b + len - two32) by (unfold u32; symmetry; apply (Z.mod_unique _ _ 1); lia).
  rewrite E in A2. lia.
Qed.

Lemma skip_name_in_bounds fuel off o :
  0 <= off < 2 ^ 31 -> skip_name b fuel off = Some o -> off + 1 <= o /\ h_off_dt_struct b + o <= h_totalsize b.
Proof.
  pose proof header_sane as [M S]. unfold INT_MAX in M. revert off. induction fuel as [|fuel IH]; intros off O; cbn [skip_name]; [done|].
  destruct (fdt_offset_ptr b off 1) as [p|] eqn:P; [|done]. apply offset_ptr_in_bounds in P as (_ & -> & P); [|lia..].
  case_bool; [intros [= <-]; lia|]. intros E. apply IH in E; lia.
Qed.

(** Where a tag ends and the next begins. *)
Lemma finish_in_bounds off o p :
  0 <= off < 2 ^ 31 -> off + 4 <= o < off + two32 -> fdt_offset_ptr b off (u32 (o - off)) = Some p ->
  h_off_dt_struct b + o <= h_totalsize b /\ off + 4 <= FDT_TAGALIGN o <= h_totalsize b.
Proof.
  intros O L P. rewrite u32_small in P by lia. apply offset_ptr_in_bounds in P as (_ & -> & P); [|lia..].
  pose proof header_sane as [_ S]. pose proof (tagalign_bounds o ltac:(lia)). lia.
Qed.

(** The value of a property at [off] lies in the blob. *)
Definition prop_fits (off : Z) : Prop := h_off_dt_struct b + off + 12 + word b (h_off_dt_struct b + off + 4) <= h_totalsize b.

Lemma prop_end off len :
  0 <= off < 2 ^ 31 -> 0 <= len -> len + (off + 4) < INT_MAX -> h_off_dt_struct b + off + 12 + len <= h_totalsize b -> s32 (off + 4 + 8 + len) = off + 12 + len.
Proof. intros O L S F. pose proof header_sane as [M H]. unfold INT_MAX in *. rewrite s32_small; lia. Qed.

Lemma s32_wrap x : 0 <= x < two32 -> s32 x = x \/ s32 x = x - two32.
Proof. intros X. unfold s32. cbv zeta. rewrite u32_small by lia. case_bool; [by left|by right]. Qed.

Lemma u32_sub x y : u32 (x - two32 - y) = u32 (x - y).
Proof. unfold u32. replace (x - two32 - y) with (x - y + (-1) * two32) by lia. apply Z.mod_add. lia. Qed.

(** The property behind a tag, and the [realign]ment of old blobs. *)
Lemma prop_in_bounds off len x p (re : bool) :
  0 <= off < 2 ^ 31 -> 0 <= len -> len + (off + 4) < INT_MAX -> x = s32 (off + 4 + 8 + len) ->
  fdt_offset_ptr b off (u32 ((if re then x + 4 else x) - off)) = Some p ->
  h_off_dt_struct b + off + 12 + len <= h_totalsize b /\ off + 4 <= FDT_TAGALIGN (if re then x + 4 else x) <= h_totalsize b.
Proof.
  intros O L S -> P. pose proof header_sane as [M H]. unfold INT_MAX in *.
  set (k := if re then 4 else 0). replace (if re then s32 (off + 4 + 8 + len) + 4 else s32 (off + 4 + 8 + len)) with (s32 (off + 4 + 8 + len) + k) in * by (unfold k; destruct re; lia).
  assert (K : 0 <= k <= 4) by (unfold k; destruct re; lia).
  assert (F : h_off_dt_struct b + off + 12 + len <= h_totalsize b).
  { destruct (s32_wrap (off + 4 + 8 + len) ltac:(lia)) as [E|E]; rewrite E in P;
      [|replace (off + 4 + 8 + len - two32 + k - off) with (off + 4 + 8 + len + k - two32 - off) in P by lia; rewrite u32_sub in P];
      rewrite u32_small in P by lia; apply offset_ptr_in_bounds in P as (_ & -> & P); lia. }
  split; [done|]. rewrite (prop_end off len) in * by (done || unfold INT_MAX; lia). apply finish_in_bounds in P; lia.
Qed.

Lemma next_tag_steps off t next :
  0 <= off < 2 ^ 31 -> fdt_next_tag b off = (t, next) ->
  next < 0 /\ t = END \/ off + 4 <= next <= h_totalsize b /\ (t = PROP -> prop_fits off).
Proof.
  intros O. pose proof header_sane as [M S]. unfold INT_MAX in M. unfold fdt_next_tag.
  destruct (fdt_offset_ptr b off 4) as [tagp|] eqn:P; [|intros [= <- <-]; left; done].
  apply offset_ptr_in_bounds in P as (_ & -> & P); [|lia..]. cbv zeta. unfold FDT_ERR_BADSTRUCTURE.
  destruct (_ =? BEGIN_NODE) eqn:B.
  { destruct (skip_name _ _ _) as [o|] eqn:N; [|intros [= <- <-]; left; done]. apply skip_name_in_bounds in N; [|lia].
    destruct (fdt_offset_ptr _ _ _) eqn:F; [|intros [= <- <-]; left; done]. intros [= <- <-]. apply finish_in_bounds in F; [|lia..].
    right. split; [lia|]. intros E. apply Z.eqb_eq in B. rewrite B in E. done. }
  destruct (_ =? PROP) eqn:Q.
  { destruct (fdt_offset_ptr b (off + 4) 4) as [lenp|] eqn:L; [|intros [= <- <-]; left; done]. apply offset_ptr_in_bounds in L as (_ & -> & L); [|lia..].
    replace (h_off_dt_struct b + (off + 4)) with (h_off_dt_struct b + off + 4) by lia.
    pose proof (word_range (h_off_dt_struct b + off + 4)) as W. set (len := word b (h_off_dt_struct b + off + 4)) in *.
    destruct (_ || _) eqn:A; [intros [= <- <-]; left; done|]. apply orb_false_elim in A as [A1 A2]. apply Z.leb_gt in A1. apply Z.ltb_ge in A2.
    assert (Nw : len + (off + 4) < INT_MAX).
    { destruct (Z.ltb_spec (len + (off + 4)) two32) as [?|G]; [by rewrite u32_small in A1 by lia|]. exfalso.
      assert (E : u32 (len + (off + 4)) = len + (off + 4) - two32) by (unfold u32; symmetry; apply (Z.mod_unique _ _ 1); lia). rewrite E in A2. lia. }
    destruct (fdt_offset_ptr _ _ (u32 _)) eqn:F; [|intros [= <- <-]; left; done]. intros [= <- <-].
    apply (prop_in_bounds off len) in F; [|done|lia|done|reflexivity]. right. split; [lia|]. intros _. unfold prop_fits. fold len. lia. }
  destruct (_ || _); [|intros [= <- <-]; left; done]. destruct (fdt_offset_ptr _ _ (u32 _)) eqn:F; [|intros [= <- <-]; left; done]. intros [= <- <-].
  apply finish_in_bounds in F; [|lia..]. right. split; [lia|]. intros E. apply Z.eqb_neq in Q. done.
Qed.

(** *** How far a loop moves *)

Lemma next_node_loop_steps k off d o e : 0 <= off <= h_totalsize b -> next_node_loop b k off d = (o, e) -> o < 0 \/ off <= o <= h_totalsize b.
Proof.
  revert off d. induction k as [|k IH]; intros off d O; cbn [next_node_loop]; [intros [= <- <-]; by left|].
  pose proof header_sane as [M _]. unfold INT_MAX in M.
  destruct (fdt_next_tag b off) as [t next] eqn:T. apply next_tag_steps in T as [[Ng ->] | [N _]]; [| |lia].
  - cbn -[Z.leb Z.opp]. rewrite (proj2 (Z.leb_gt _ _)) by lia. intros [= <- <-]. by left.
  - unfold FDT_ERR_NOTFOUND. repeat case_bool; try (intros E; apply IH in E; lia); intros [= <- <-]; lia.
Qed.

Lemma check_offset_steps t off : 0 <= off <= h_totalsize b -> check_offset b t off < 0 \/ off + 4 <= check_offset b t off <= h_totalsize b.
Proof.
  intros O. pose proof header_sane as [M _]. unfold INT_MAX in M. unfold check_offset, FDT_ERR_BADOFFSET. case_bool; [lia|].
  destruct (fdt_next_tag b off) as [u next] eqn:T. apply next_tag_steps in T; [|lia]. case_bool; lia.
Qed.

Lemma next_node_steps off d o e : 0 <= off <= h_totalsize b -> fdt_next_node b off d = (o, e) -> o < 0 \/ off + 4 <= o <= h_totalsize b.
Proof.
  intros O. unfold fdt_next_node. rewrite (proj2 (Z.leb_le _ _)) by lia. cbn [andb].
  destruct (check_offset_steps BEGIN_NODE off O) as [C|C]; unfold fdt_check_node_offset_.
  - rewrite (proj2 (Z.ltb_lt _ _)) by lia. intros [= <- <-]. lia.
  - rewrite (proj2 (Z.ltb_ge _ _)) by lia. intros E. apply next_node_loop_steps in E; lia.
Qed.

Lemma nextprop_steps k off : 0 <= off <= h_totalsize b -> nextprop_ b k off < 0 \/ off <= nextprop_ b k off <= h_totalsize b.
Proof.
  revert off. induction k as [|k IH]; intros off O; cbn [nextprop_]; [by left|]. pose proof header_sane as [M _]. unfold INT_MAX in M.
  destruct (fdt_next_tag b off) as [t next] eqn:T. apply next_tag_steps in T as [[N ->] | [N _]]; [| |lia].
  - cbn -[Z.leb Z.opp]. rewrite (proj2 (Z.leb_gt _ _)) by lia. by left.
  - case_bool; [rewrite (proj2 (Z.leb_le _ _)) by lia; by left|]. case_bool; [right; lia|]. case_bool; [|by left]. specialize (IH next). lia.
Qed.

Lemma next_property_steps off :
  0 <= off <= h_totalsize b -> fdt_next_property_offset b off < 0 \/ off + 4 <= fdt_next_property_offset b off <= h_totalsize b.
Proof.
  intros O. unfold fdt_next_property_offset, fdt_check_prop_offset_. destruct (check_offset_steps PROP off O) as [C|C].
  - rewrite (proj2 (Z.ltb_lt _ _)) by lia. lia.
  - rewrite (proj2 (Z.ltb_ge _ _)) by lia. pose proof (nextprop_steps (length b) (check_offset b PROP off)). lia.
Qed.

Lemma next_subnode_steps k off d : 0 <= off <= h_totalsize b -> next_subnode_loop b k off d < 0 \/ off + 4 <= next_subnode_loop b k off d <= h_totalsize b.
Proof.
  revert off d. induction k as [|k IH]; intros off d O; cbn [next_subnode_loop]; [by left|].
  destruct (fdt_next_node b off d) as [o e] eqn:N. apply next_node_steps in N; [|lia]. case_bool; [by left|].
  apply orb_false_elim in Heqb0 as [Ng _]. apply Z.ltb_ge in Ng. case_bool; [|lia]. specialize (IH o e). lia.
Qed.

(** What a property lookup returns lies in the blob. *)
Lemma property_by_offset_in_bounds off prop len :
  0 <= off < 2 ^ 31 -> fdt_get_property_by_offset_ b off = inr (prop, len) ->
  0 <= prop /\ 0 <= len /\ prop + 12 + len <= h_totalsize b.
Proof.
  intros O. pose proof header_sane as [M S]. unfold INT_MAX in M. unfold fdt_get_property_by_offset_, fdt_check_prop_offset_, check_offset. cbv zeta.
  destruct (fdt_next_tag b off) as [t next] eqn:T. apply next_tag_steps in T; [|done].
  destruct (_ || _); [done|]. destruct (Z.eqb_spec t PROP) as [-> | ?]; cbn [negb]; [|done]. case_bool; [done|]. intros [= <- <-].
  destruct T as [[_ T] | [N T]]; [by vm_compute in T|]. unfold prop_fits in T. specialize (T eq_refl). pose proof (word_range (h_off_dt_struct b + off + 4)).
  rewrite s32_small by lia. lia.
Qed.

Lemma property_loop_in_bounds name k off po prop len :
  off <= h_totalsize b -> get_property_loop b k off name = inr (po, prop, len) -> 0 <= prop /\ 0 <= len /\ prop + 12 + len <= h_totalsize b.
Proof.
  pose proof header_sane as [M _]. unfold INT_MAX in M. revert off. induction k as [|k IH]; intros off O; cbn [get_property_loop]; [done|].
  destruct (Z.ltb_spec off 0) as [|P]; [done|]. destruct (fdt_get_property_by_offset_ b off) as [|[pr ln]] eqn:G; [done|]. case_bool.
  - intros [= <- <- <-]. apply property_by_offset_in_bounds in G; [done|lia].
  - intros E. apply IH in E; [done|]. pose proof (next_property_steps off). lia.
Qed.

Lemma first_property_bound off : off <= h_totalsize b -> fdt_first_property_offset b off <= h_totalsize b.
Proof.
  intros O. pose proof header_sane as [_ S]. unfold fdt_first_property_offset, fdt_check_node_offset_.
  destruct (Z.ltb_spec off 0) as [P|P].
  - unfold check_offset. rewrite (proj2 (Z.ltb_lt _ _) P). cbn [orb]. change (- FDT_ERR_BADOFFSET <? 0) with true. cbv iota. unfold FDT_ERR_BADOFFSET. lia.
  - destruct (check_offset_steps BEGIN_NODE off) as [C|C]; [lia|rewrite (proj2 (Z.ltb_lt _ _) C); lia|]. rewrite (proj2 (Z.ltb_ge _ _)) by lia.
    pose proof (nextprop_steps (length b) (check_offset b BEGIN_NODE off)). lia.
Qed.

End Untrusted.

(** ** Every loop of the reader ends *)

(** One round of each loop: what it goes on with, or what it returns. *)
Section Rounds.
Context (b : list Z).

Definition skip_name_step (offset : Z) : Z + option Z :=
  match fdt_offset_ptr b offset 1 with
  | None => inr None
  | Some p => if byte b p =? 0 then inr (Some (offset + 1)) else inl (offset + 1)
  end.

Definition next_node_step (x : Z * Z) : Z * Z + Z * Z :=
  let '(offset, depth) := x in
  let '(tag, nextoffset) := fdt_next_tag b offset in
  if (tag =? PROP) || (tag =? NOP) then inl (nextoffset, depth)
  else if tag =? BEGIN_NODE then inr (offset, depth + 1)
  else if tag =? END_NODE then
    let depth := depth - 1 in
    if depth <? 0 then inr (nextoffset, depth) else inl (nextoffset, depth)
  else inr ((if 0 <=? nextoffset then - FDT_ERR_NOTFOUND else nextoffset), depth).

Definition next_subnode_step (x : Z * Z) : Z * Z + Z :=
  let '(offset, depth) := fdt_next_node b x.1 x.2 in
  if (offset <? 0) || (depth <? 1) then inr (- FDT_ERR_NOTFOUND)
  else if 1 <? depth then inl (offset, depth) else inr offset.

Definition nextprop_step (offset : Z) : Z + Z :=
  let '(tag, nextoffset) := fdt_next_tag b offset in
  if tag =? END then inr (if 0 <=? nextoffset then - FDT_ERR_BADSTRUCTURE else nextoffset)
  else if tag =? PROP then inr offset
  else if tag =? NOP then inl nextoffset
  else inr (- FDT_ERR_NOTFOUND).

Definition get_property_step (name : list Z) (offset : Z) : Z + (Z + Z * Z * Z) :=
  if offset <? 0 then inr (inl offset) else
  match fdt_get_property_by_offset_ b offset with
  | inl _ => inr (inl (- FDT_ERR_INTERNAL))
  | inr (prop, len) =>
      if fdt_string_eq_ b (s32 (word b (prop + 8))) name then inr (inr (offset, prop, len))
      else inl (fdt_next_property_offset b offset)
  end.

Definition subnode_step (name : list Z) (x : Z * Z) : Z * Z + Z :=
  let '(offset, depth) := x in
  if (0 <=? offset) && (0 <=? depth) then
    if (depth =? 1) && nodename_eq b offset name then inr offset else inl (fdt_next_node b offset depth)
  else inr (if depth <? 0 then - FDT_ERR_NOTFOUND else offset).

(** The path still to resolve, and the node it starts at. *)
Definition path_step (x : Z * list Z) : Z * list Z + Z :=
  let '(offset, p) := x in
  match skip_slashes p with
  | [] => inr offset
  | p =>
      let '(comp, q) := split_at (ch "/") p in
      let offset := fdt_subnode_offset_namelen b offset comp in
      if offset <? 0 then inr offset else inl (offset, match q with Some q => q | None => [] end)
  end.

(** The next subnode, and those visited. *)
Definition for_each_step (x : Z * list Z) : Z * list Z + list Z :=
  let '(node, seen) := x in
  if 0 <=? node then inl (fdt_next_subnode b node, seen ++ [node]) else inr seen.

End Rounds.

Section Ends.
Context (b : list Z) (U : untrusted b).

(** Rounds enough to walk from [off] to the end in steps of a tag, and for
    the round that notices. *)
Definition room (n : nat) (off : Z) : Prop := (1 <= n)%nat /\ (0 <= off -> off <= h_totalsize b /\ h_totalsize b - off < 4 * (Z.of_nat n - 1)).

Lemma room_next n off next : room (S n) off -> 0 <= off -> next < 0 \/ off + 4 <= next <= h_totalsize b -> room n next.
Proof. unfold room. lia. Qed.

Lemma room_length off : off <= h_totalsize b -> room (length b) off.
Proof. intros O. pose proof (un_whole _ U) as W. pose proof (header_sane b U) as [_ S]. unfold room, zlen in *. lia. Qed.

Lemma room_none off : ~ room O off.
Proof. unfold room. lia. Qed.

Lemma total_small : h_totalsize b < 2 ^ 31.
Proof. pose proof (header_sane b U) as [M _]. unfold INT_MAX in M. lia. Qed.

Lemma room_tag n off t next :
  room (S n) off -> 0 <= off -> fdt_next_tag b off = (t, next) -> t = END \/ 0 <= next /\ room n next.
Proof.
  intros R O T. assert (Q := total_small). destruct R as [R1 R2]. destruct (next_tag_steps b U off t next) as [[_ ->] | [N _]]; [lia|done|by left|].
  right. split; [lia|]. eapply room_next; [by split|done|lia].
Qed.

Lemma skip_name_ends off :
  0 <= off <= h_totalsize b -> ends (skip_name_step b) (S (length b)) off (skip_name b (S (length b)) off).
Proof.
  intros O. assert (Q := total_small). pose proof (header_sane b U) as [_ S]. pose proof (un_whole _ U) as W. unfold zlen in W.
  apply (ends_with_fuel _ _ (fun n off => 0 <= off <= h_totalsize b /\ h_totalsize b - off < Z.of_nat n)).
  - intros n x. cbn [skip_name]. unfold skip_name_step. by repeat case_match.
  - lia.
  - intros n x y [X R]. unfold skip_name_step. destruct (fdt_offset_ptr b x 1) as [p|] eqn:P; [|done]. case_bool; [done|]. intros [= <-].
    apply (offset_ptr_in_bounds b U) in P; lia.
  - lia.
Qed.

Lemma next_node_ends off d :
  0 <= off <= h_totalsize b -> ends (next_node_step b) (length b) (off, d) (next_node_loop b (length b) off d).
Proof.
  intros O. apply (ends_with_fuel _ (fun n x => next_node_loop b n x.1 x.2) (fun n x => 0 <= x.1 /\ room n x.1)).
  - intros n [o e]. cbn [next_node_loop fst snd]. unfold next_node_step. by repeat case_match.
  - intros [o e] [_ R]. by apply room_none in R.
  - intros n [o e] y [P R]. unfold next_node_step. destruct (fdt_next_tag b o) as [t next] eqn:T. cbn [fst] in *.
    destruct (room_tag n o t next R P T) as [-> | N]; [done|]. repeat case_bool; try done; by intros [= <-].
  - split; [|apply room_length]; cbn [fst]; lia.
Qed.

Lemma next_subnode_ends off d :
  0 <= off <= h_totalsize b -> ends (next_subnode_step b) (length b) (off, d) (next_subnode_loop b (length b) off d).
Proof.
  intros O. apply (ends_with_fuel _ (fun n x => next_subnode_loop b n x.1 x.2) (fun n x => 0 <= x.1 /\ room n x.1)).
  - intros n [o e]. cbn [next_subnode_loop fst snd]. unfold next_subnode_step. cbn [fst snd]. by repeat case_match.
  - intros [o e] [_ R]. by apply room_none in R.
  - intros n [o e] y [P R]. unfold next_subnode_step. cbn [fst snd] in *. destruct (fdt_next_node b o e) as [next e'] eqn:N.
    apply (next_node_steps b U) in N; [|unfold room in R; lia]. case_bool; [done|]. case_bool; [|done]. intros [= <-]. cbn [fst].
    apply orb_false_elim in Heqb0 as [Ng _]. apply Z.ltb_ge in Ng. split; [done|]. by eapply room_next.
  - split; [|apply room_length]; cbn [fst]; lia.
Qed.

Lemma nextprop_ends off : 0 <= off <= h_totalsize b -> ends (nextprop_step b) (length b) off (nextprop_ b (length b) off).
Proof.
  intros O. apply (ends_with_fuel _ _ (fun n o => 0 <= o /\ room n o)).
  - intros n o. cbn [nextprop_]. unfold nextprop_step. by repeat case_match.
  - intros o [_ R]. by apply room_none in R.
  - intros n o y [P R]. unfold nextprop_step. destruct (fdt_next_tag b o) as [t next] eqn:T.
    destruct (room_tag n o t next R P T) as [-> | N]; [done|]. repeat case_bool; try done; by intros [= <-].
  - split; [|apply room_length]; lia.
Qed.

Lemma get_property_ends name off :
  off <= h_totalsize b -> ends (get_property_step b name) (length b) off (get_property_loop b (length b) off name).
Proof.
  intros O. apply (ends_with_fuel _ (fun n o => get_property_loop b n o name) room).
  - intros n o. cbn [get_property_loop]. unfold get_property_step. by repeat case_match.
  - apply room_none.
  - intros n o y R. unfold get_property_step. destruct (Z.ltb_spec o 0); [done|]. destruct (fdt_get_property_by_offset_ b o) as [|[p l]]; [done|].
    case_bool; [done|]. intros [= <-]. eapply room_next; [done..|]. apply next_property_steps; [done|]. unfold room in R. lia.
  - by apply room_length.
Qed.

Lemma subnode_ends name off d :
  off <= h_totalsize b -> ends (subnode_step b name) (S (length b)) (off, d) (subnode_loop b (S (length b)) off d name).
Proof.
  intros O. apply (ends_with_fuel _ (fun n x => subnode_loop b n x.1 x.2 name) (fun n x => room n x.1)).
  - intros n [o e]. cbn [subnode_loop fst snd]. unfold subnode_step. destruct (_ && _); [|done]. case_bool; [done|]. by destruct (fdt_next_node b o e).
  - intros [o e]. apply room_none.
  - intros n [o e] y R. unfold subnode_step. destruct (_ && _) eqn:A; [|done]. b2p. case_bool; [done|]. intros [= <-].
    destruct (fdt_next_node b o e) as [next e'] eqn:N. cbn [fst] in *. eapply room_next; [done..|]. eapply next_node_steps; [done| |done]. unfold room in R. lia.
  - cbn [fst]. pose proof (room_length off O) as R. unfold room in *. lia.
Qed.

Lemma for_each_ends off :
  off <= h_totalsize b -> ends (for_each_step b) (length b) (off, []) (for_each_loop b (length b) off).
Proof.
  intros O. apply (ends_with_fuel _ (fun n x => x.2 ++ for_each_loop b n x.1) (fun n x => room n x.1)).
  - intros n [o l]. cbn [for_each_loop fst snd]. unfold for_each_step. case_bool; [|by rewrite app_nil_r]. cbn [fst snd]. by rewrite <- app_assoc.
  - intros [o l]. apply room_none.
  - intros n [o l] y R. unfold for_each_step. destruct (Z.leb_spec 0 o); [|done]. intros [= <-]. cbn [fst] in *. eapply room_next; [done..|].
    apply next_subnode_steps; [done|]. unfold room in R. lia.
  - by apply room_length.
Qed.

End Ends.

Lemma skip_slashes_rest p : (length (skip_slashes p) <= length p)%nat /\ c0 (skip_slashes p) <> ch "/".
Proof. induction p as [|c p IH]; [done|]. cbn [skip_slashes]. case_bool; [cbn [length]; lia|]. apply Z.eqb_neq in Heqb. by split; [|]. Qed.

Lemma split_at_length c s a q : split_at c s = (a, Some q) -> (length q <= length s)%nat.
Proof.
  revert a. induction s as [|x s IH]; intros a; [done|]. cbn [split_at]. case_bool; [by intros [= <- <-]|].
  destruct (split_at c s) as [a' [t|]]; [|done]. intros [= <- <-]. specialize (IH a' eq_refl). cbn [length]. lia.
Qed.

Lemma path_ends b off path : ends (path_step b) (S (length path)) (off, path) (path_loop b (S (length path)) off path).
Proof.
  apply (ends_with_fuel _ (fun n x => path_loop b n x.1 x.2) (fun n x => (length x.2 < n)%nat)).
  - intros n [o p]. cbn [path_loop fst snd]. unfold path_step. destruct (skip_slashes p); [done|]. destruct (split_at _ _) as [comp q]. cbv zeta. by case_bool.
  - cbn. lia.
  - intros n [o p] y L. unfold path_step. pose proof (skip_slashes_rest p) as [S N]. destruct (skip_slashes p) as [|x s]; [done|].
    cbn [c0 split_at] in *. rewrite (proj2 (Z.eqb_neq _ _) N). destruct (split_at (ch "/") s) as [comp q] eqn:Q. cbv zeta.
    case_bool; [done|]. intros [= <-]. cbn [fst snd length] in *. destruct q as [q|]; [apply split_at_length in Q; lia|]. cbn [length]. lia.
  - cbn. lia.
Qed.

(** C32: No blob makes libfdt's reader loop for ever.  On arbitrary bytes
    behind a header [fdt_check_header] accepts, every loop of the reader --
    over a name, to the next node, over properties, subnodes and their names,
    and over the components of a path -- comes to a [return] of its body
    after at most as many rounds as the blob (the path) has bytes, one more
    at most, and the function with fuel gives what it returns: its fuel never
    runs out. *)
Theorem reader_terminates b off d name path :
  untrusted b -> 0 <= off <= h_totalsize b ->
  ends (skip_name_step b) (S (length b)) off (skip_name b (S (length b)) off) /\
  ends (next_node_step b) (length b) (off, d) (next_node_loop b (length b) off d) /\
  ends (next_subnode_step b) (length b) (off, d) (next_subnode_loop b (length b) off d) /\
  ends (nextprop_step b) (length b) off (nextprop_ b (length b) off) /\
  ends (get_property_step b name) (length b) off (get_property_loop b (length b) off name) /\
  ends (subnode_step b name) (S (length b)) (off, d) (subnode_loop b (S (length b)) off d name) /\
  ends (for_each_step b) (length b) (off, []) (for_each_loop b (length b) off) /\
  ends (path_step b) (S (length path)) (off, path) (path_loop b (S (length path)) off path).
Proof.
  intros U O. split_and!; [apply skip_name_ends|apply next_node_ends|apply next_subnode_ends|apply nextprop_ends|apply get_property_ends
    |apply subnode_ends|apply for_each_ends|apply path_ends]; done || lia.
Qed.

(** C33: Whatever the bytes of a blob, a property the reader hands out lies in
    the blob: the header of the property and the length it reports stay
    within the total size, so the value a caller copies is part of it. *)
Theorem property_in_bounds b off name po prop len :
  untrusted b -> off <= h_totalsize b -> fdt_get_property_namelen_ b off name = inr (po, prop, len) ->
  0 <= prop /\ 0 <= len /\ prop + 12 + len <= zlen b.
Proof.
  intros U O E. apply property_loop_in_bounds in E; [|done|by apply first_property_bound]. pose proof (un_whole _ U). lia.
Qed.

(** A blob of one node, with one property whose length field is the last
    thing that fits. *)
Definition small_blob : list Z := flatten (fdt_pack (mk_fdt FDT_MAGIC 0 0 0 0
  [FDT_BEGIN_NODE []; FDT_PROP 0 [7]; FDT_END_NODE; FDT_END] (str "id" ++ [0]))).

Lemma small_blob_untrusted : untrusted small_blob.
Proof.
  constructor; [|vm_compute; reflexivity|apply Z.leb_le; vm_compute; reflexivity].
  apply (bool_decide_unpack _). vm_compute. reflexivity.
Qed.

Lemma reader_terminates_witness :
  untrusted small_blob /\ 0 <= 8 <= h_totalsize small_blob /\
  ends (nextprop_step small_blob) (length small_blob) 8 8.
Proof.
  split; [exact small_blob_untrusted|]. split; [split; apply Z.leb_le; vm_compute; reflexivity|].
  pose proof (reader_terminates small_blob 8 0 (str "id") (str "/") small_blob_untrusted) as T.
  destruct T as (_ & _ & _ & T & _); [split; apply Z.leb_le; vm_compute; reflexivity|].
  replace (nextprop_ small_blob (length small_blob) 8) with 8 in T by (vm_compute; reflexivity). exact T.
Defined.

Lemma property_in_bounds_witness :
  fdt_get_property_namelen_ small_blob 0 (str "id") = inr (8, 64, 1) /\ 64 + 12 + 1 <= zlen small_blob.
Proof.
  split; [vm_compute; reflexivity|].
  refine (proj2 (proj2 (property_in_bounds small_blob 0 (str "id") 8 64 1 _ _ _))).
  - exact small_blob_untrusted.
  - apply Z.leb_le. vm_compute. reflexivity.
  - vm_compute. reflexivity.
Defined.
