(* ===== verification/FdtWrite.v ===== *)
(** * Writing a device tree, byte by byte

    lib/fdt/fdt_sw.c and [fdt_pack] of fdt_rw.c on the buffer itself: every
    store, copy and header field, with the fix of the name offsets that
    [fdt_finish] makes by walking the tags it wrote.  The writer of [Fdt],
    which keeps a list of tags and a string table, is refined by it: the bytes
    in the buffer are those of that blob, whatever was in the memory before. *)

From S2P Require Import Prelude Cstr Ranges Parse Fdt FdtBytes.

(** ** Memory *)

(** [memcpy(b + pos, s, ...)] *)
Definition store (pos : Z) (s b : list Z) : list Z := take (Z.to_nat pos) b ++ s ++ drop (Z.to_nat pos + length s) b.
(** [memmove(b + dst, b + src, n)] *)
Definition memmove (dst src n : Z) (b : list Z) : list Z := store dst (take (Z.to_nat n) (drop (Z.to_nat src) b)) b.
Definition zfill (n : Z) : list Z := replicate (Z.to_nat n) 0.

Definition fdt_set_magic (v : Z) (b : list Z) : list Z := store 0 (be 4 v) b.
Definition fdt_set_totalsize (v : Z) (b : list Z) : list Z := store 4 (be 4 v) b.
Definition fdt_set_off_dt_struct (v : Z) (b : list Z) : list Z := store 8 (be 4 v) b.
Definition fdt_set_off_dt_strings (v : Z) (b : list Z) : list Z := store 12 (be 4 v) b.
Definition fdt_set_off_mem_rsvmap (v : Z) (b : list Z) : list Z := store 16 (be 4 v) b.
Definition fdt_set_version (v : Z) (b : list Z) : list Z := store 20 (be 4 v) b.
Definition fdt_set_last_comp_version (v : Z) (b : list Z) : list Z := store 24 (be 4 v) b.
Definition fdt_set_size_dt_strings (v : Z) (b : list Z) : list Z := store 32 (be 4 v) b.
Definition fdt_set_size_dt_struct (v : Z) (b : list Z) : list Z := store 36 (be 4 v) b.

(** ** lib/fdt/fdt_sw.c *)

Definition FDT_ERR_BADLAYOUT : Z := 12.
Definition FDT_ERR_BADFLAGS : Z := 18.
Definition FDT_CREATE_FLAG_NO_NAME_DEDUP : Z := 1.
Definition FDT_CREATE_FLAGS_ALL : Z := FDT_CREATE_FLAG_NO_NAME_DEDUP.

Definition fdt_sw_probe_ (b : list Z) : result unit :=
  if h_magic b =? FDT_MAGIC then Err FDT_ERR_BADSTATE
  else if negb (h_magic b =? FDT_SW_MAGIC) then Err FDT_ERR_BADMAGIC
  else Ok tt.
Definition fdt_sw_probe_memrsv_ (b : list Z) : result unit :=
  let? _ := fdt_sw_probe_ b in
  if negb (h_off_dt_strings b =? 0) then Err FDT_ERR_BADSTATE else Ok tt.
Definition fdt_sw_probe_struct_ (b : list Z) : result unit :=
  let? _ := fdt_sw_probe_ b in
  if negb (h_off_dt_strings b =? h_totalsize b) then Err FDT_ERR_BADSTATE else Ok tt.
Definition sw_flags (b : list Z) : Z := h_last_comp_version b.

(** Where the space is. *)
Definition fdt_grab_space_ (len : Z) (b : list Z) : option (Z * list Z) :=
  let offset := h_size_dt_struct b in
  let spaceleft := u32 (h_totalsize b - h_off_dt_struct b - h_size_dt_strings b) in
  if (u64 (offset + len) <? offset) || (spaceleft <? u64 (offset + len)) then None
  else Some (h_off_dt_struct b + offset, fdt_set_size_dt_struct (offset + len) b).

Definition fdt_create_with_flags (bufsize flags : Z) (b : list Z) : result unit * list Z :=
  let hdrsize := FDT_ALIGN 40 16 in
  if bufsize <? hdrsize then (Err FDT_ERR_NOSPACE, b)
  else if negb (Z.land flags (Z.lnot FDT_CREATE_FLAGS_ALL) =? 0) then (Err FDT_ERR_BADFLAGS, b)
  else
    let b := zfill bufsize ++ drop (Z.to_nat bufsize) b in
    let b := fdt_set_magic FDT_SW_MAGIC b in
    let b := fdt_set_version FDT_LAST_SUPPORTED_VERSION b in
    let b := fdt_set_last_comp_version flags b in
    let b := fdt_set_totalsize bufsize b in
    let b := fdt_set_off_mem_rsvmap hdrsize b in
    let b := fdt_set_off_dt_struct (h_off_mem_rsvmap b) b in
    let b := fdt_set_off_dt_strings 0 b in
    (Ok tt, b).
Definition fdt_create (bufsize : Z) (b : list Z) : result unit * list Z := fdt_create_with_flags bufsize 0 b.

Definition fdt_add_reservemap_entry (addr size : Z) (b : list Z) : result unit * list Z :=
  match fdt_sw_probe_memrsv_ b with
  | Err e => (Err e, b)
  | Ok _ =>
      let offset := h_off_dt_struct b in
      if h_totalsize b <? offset + 16 then (Err FDT_ERR_NOSPACE, b) else
      let b := store offset (be 8 addr) b in
      let b := store (offset + 8) (be 8 size) b in
      (Ok tt, fdt_set_off_dt_struct (offset + 16) b)
  end.
Definition fdt_finish_reservemap (b : list Z) : result unit * list Z :=
  match fdt_add_reservemap_entry 0 0 b with
  | (Err e, b) => (Err e, b)
  | (Ok _, b) => (Ok tt, fdt_set_off_dt_strings (h_totalsize b) b)
  end.

Definition fdt_begin_node (name : list Z) (b : list Z) : result unit * list Z :=
  match fdt_sw_probe_struct_ b with
  | Err e => (Err e, b)
  | Ok _ =>
      let namelen := zlen name + 1 in
      match fdt_grab_space_ (4 + FDT_TAGALIGN namelen) b with
      | None => (Err FDT_ERR_NOSPACE, b)
      | Some (nh, b) => (Ok tt, store (nh + 4) (name ++ [0]) (store nh (be 4 BEGIN_NODE) b))
      end
  end.

Definition fdt_end_node (b : list Z) : result unit * list Z :=
  match fdt_sw_probe_struct_ b with
  | Err e => (Err e, b)
  | Ok _ =>
      match fdt_grab_space_ 4 b with
      | None => (Err FDT_ERR_NOSPACE, b)
      | Some (en, b) => (Ok tt, store en (be 4 END_NODE) b)
      end
  end.

(** The offset is from the end of the table, 0 for no room. *)
Definition fdt_add_string_ (s : list Z) (b : list Z) : Z * list Z :=
  let strtab := h_totalsize b in
  let strtabsize := h_size_dt_strings b in
  let len := zlen s + 1 in
  let offset := u32 (strtabsize + len) in
  let struct_top := u32 (h_off_dt_struct b + h_size_dt_struct b) in
  if u32 (h_totalsize b - offset) <? struct_top then (0, b)
  else (s32 (- offset), fdt_set_size_dt_strings (strtabsize + len) (store (strtab - offset) (s ++ [0]) b)).

Definition fdt_del_last_string_ (s : list Z) (b : list Z) : list Z :=
  let strtabsize := h_size_dt_strings b in
  let len := zlen s + 1 in
  fdt_set_size_dt_strings (strtabsize - len) b.

Definition fdt_find_add_string_ (s : list Z) (b : list Z) : Z * bool * list Z :=
  let strtab := h_totalsize b in
  let strtabsize := h_size_dt_strings b in
  match find_string (take (Z.to_nat strtabsize) (drop (Z.to_nat (strtab - strtabsize)) b)) (s ++ [0]) with
  | Some p => (p - strtabsize, false, b)
  | None => let '(off, b) := fdt_add_string_ s b in (off, true, b)
  end.

(** Where the value goes. *)
Definition fdt_property_placeholder (name : list Z) (len : Z) (b : list Z) : result Z * list Z :=
  match fdt_sw_probe_struct_ b with
  | Err e => (Err e, b)
  | Ok _ =>
      let '(nameoff, allocated, b) :=
        if negb (Z.land (sw_flags b) FDT_CREATE_FLAG_NO_NAME_DEDUP =? 0) then let '(off, b) := fdt_add_string_ name b in (off, true, b)
        else fdt_find_add_string_ name b in
      if nameoff =? 0 then (Err FDT_ERR_NOSPACE, b) else
      match fdt_grab_space_ (12 + FDT_TAGALIGN len) b with
      | None => (Err FDT_ERR_NOSPACE, if allocated then fdt_del_last_string_ name b else b)
      | Some (prop, b) =>
          let b := store prop (be 4 PROP) b in
          let b := store (prop + 8) (be 4 nameoff) b in
          let b := store (prop + 4) (be 4 len) b in
          (Ok (prop + 12), b)
      end
  end.

Definition fdt_property (name val : list Z) (b : list Z) : result unit * list Z :=
  match fdt_property_placeholder name (zlen val) b with
  | (Err e, b) => (Err e, b)
  | (Ok ptr, b) => (Ok tt, store ptr val b)
  end.

(** The [while] of [fdt_finish] over the tags; the last [nextoffset]. *)
Fixpoint fix_loop (fuel : nat) (offset : Z) (b : list Z) : Z * list Z :=
  match fuel with
  | O => (- FDT_ERR_BADSTRUCTURE, b)
  | S fuel =>
      let '(tag, nextoffset) := fdt_next_tag b offset in
      if tag =? END then (nextoffset, b) else
      let b := if tag =? PROP
               then let prop := h_off_dt_struct b + offset in
                    let nameoff := s32 (word b (prop + 8)) + h_size_dt_strings b in
                    store (prop + 8) (be 4 nameoff) b
               else b in
      fix_loop fuel nextoffset b
  end.

Definition fdt_finish (b : list Z) : result unit * list Z :=
  match fdt_sw_probe_struct_ b with
  | Err e => (Err e, b)
  | Ok _ =>
      match fdt_grab_space_ 4 b with
      | None => (Err FDT_ERR_NOSPACE, b)
      | Some (end_, b) =>
          let b := store end_ (be 4 END) b in
          let oldstroffset := h_totalsize b - h_size_dt_strings b in
          let newstroffset := h_off_dt_struct b + h_size_dt_struct b in
          let b := memmove newstroffset oldstroffset (h_size_dt_strings b) b in
          let b := fdt_set_off_dt_strings newstroffset b in
          let '(nextoffset, b) := fix_loop (length b) 0 b in
          if nextoffset <? 0 then (Err (- nextoffset), b) else
          let b := fdt_set_totalsize (newstroffset + h_size_dt_strings b) b in
          let b := fdt_set_last_comp_version FDT_LAST_COMPATIBLE_VERSION b in
          (Ok tt, fdt_set_magic FDT_MAGIC b)
      end
  end.

(** ** lib/fdt/fdt_ro.c and fdt_rw.c *)

Definition word64 (b : list Z) (pos : Z) : Z := be_val (take 8 (drop (Z.to_nat pos) b)).

Definition fdt_mem_rsv (b : list Z) (n : Z) : option Z :=
  let offset := u32 (n * 16) in
  let absoffset := u32 (h_off_mem_rsvmap b + offset) in
  if absoffset <? h_off_mem_rsvmap b then None
  else if u64 (h_totalsize b - 16) <? absoffset then None
  else Some (h_off_mem_rsvmap b + n * 16).

Fixpoint num_mem_rsv_loop (fuel : nat) (i : Z) (b : list Z) : Z :=
  match fuel with
  | O => - FDT_ERR_TRUNCATED
  | S fuel =>
      match fdt_mem_rsv b i with
      | None => - FDT_ERR_TRUNCATED
      | Some re => if word64 b (re + 8) =? 0 then i else num_mem_rsv_loop fuel (i + 1) b
      end
  end.
Definition fdt_num_mem_rsv (b : list Z) : Z := num_mem_rsv_loop (S (length b)) 0 b.

Definition fdt_blocks_misordered_ (b : list Z) (mem_rsv_size struct_size : Z) : bool :=
  (h_off_mem_rsvmap b <? FDT_ALIGN 40 8)
  || (h_off_dt_struct b <? u32 (h_off_mem_rsvmap b + mem_rsv_size))
  || (h_off_dt_strings b <? u32 (h_off_dt_struct b + struct_size))
  || (h_totalsize b <? u32 (h_off_dt_strings b + h_size_dt_strings b)).

Definition fdt_rw_probe_ (b : list Z) : result unit * list Z :=
  let probe := fdt_ro_probe_ b in
  if probe <? 0 then (Err (- probe), b)
  else if h_version b <? 17 then (Err FDT_ERR_BADVERSION, b)
  else if fdt_blocks_misordered_ b 16 (h_size_dt_struct b) then (Err FDT_ERR_BADLAYOUT, b)
  else (Ok tt, if 17 <? h_version b then fdt_set_version 17 b else b).

Definition fdt_data_size_ (b : list Z) : Z := u32 (h_off_dt_strings b + h_size_dt_strings b).

(** In place, as [fdt_pack] calls it. *)
Definition fdt_packblocks_ (mem_rsv_size struct_size strings_size : Z) (b : list Z) : list Z :=
  let mem_rsv_off := FDT_ALIGN 40 8 in
  let struct_off := mem_rsv_off + mem_rsv_size in
  let strings_off := struct_off + struct_size in
  let b := memmove mem_rsv_off (h_off_mem_rsvmap b) mem_rsv_size b in
  let b := fdt_set_off_mem_rsvmap mem_rsv_off b in
  let b := memmove struct_off (h_off_dt_struct b) struct_size b in
  let b := fdt_set_off_dt_struct struct_off b in
  let b := fdt_set_size_dt_struct struct_size b in
  let b := memmove strings_off (h_off_dt_strings b) strings_size b in
  let b := fdt_set_off_dt_strings strings_off b in
  fdt_set_size_dt_strings (h_size_dt_strings b) b.

Definition fdt_pack (b : list Z) : result unit * list Z :=
  match fdt_rw_probe_ b with
  | (Err e, b) => (Err e, b)
  | (Ok _, b) =>
      let mem_rsv_size := (fdt_num_mem_rsv b + 1) * 16 in
      let b := fdt_packblocks_ mem_rsv_size (h_size_dt_struct b) (h_size_dt_strings b) b in
      (Ok tt, fdt_set_totalsize (fdt_data_size_ b) b)
  end.

(** ** lib/fdtutil.c *)

(** The calls a callback makes, named by the tags they write. *)
Definition write_tag (t : tag (list Z)) (b : list Z) : result unit * list Z :=
  match t with
  | FDT_BEGIN_NODE name => fdt_begin_node name b
  | FDT_END_NODE => fdt_end_node b
  | FDT_PROP name data => fdt_property name data b
  | FDT_END => fdt_finish b
  end.
Fixpoint write_tags (ts : list (tag (list Z))) (b : list Z) : result unit * list Z :=
  match ts with
  | [] => (Ok tt, b)
  | t :: ts => match write_tag t b with (Err e, b) => (Err e, b) | (Ok _, b) => write_tags ts b end
  end.

Definition fdtutil_try_build (ts : list (tag (list Z))) (size : Z) (b : list Z) : result unit * list Z :=
  let '(ret, b) := fdt_create size b in
  let '(ret, b) := match ret with Ok _ => fdt_finish_reservemap b | Err e => (Err e, b) end in
  let '(ret, b) := match ret with Ok _ => write_tags ts b | Err e => (Err e, b) end in
  match ret with Ok _ => fdt_finish b | Err e => (Err e, b) end.

(** [realloc] gives [size] bytes of whatever was there. *)
Fixpoint build_loop `{Alloc} (realloc : Z -> list Z) (fuel : nat) (ts : list (tag (list Z))) (size : Z) : option (result (list Z)) :=
  match fuel with
  | O => None
  | S fuel =>
      if negb (alloc size) then Some (Err ENOMEM) else
      match fdtutil_try_build ts size (realloc size) with
      | (Ok _, b) => let b := (fdt_pack b).2 in Some (Ok (take (Z.to_nat (h_totalsize b)) b))
      | (Err e, _) =>
          if negb (e =? FDT_ERR_NOSPACE) then Some (Err EINVAL)
          else if 4 * 1024 * 1024 <=? size then Some (Err ENOSPC)
          else build_loop realloc fuel ts (size * 2)
      end
  end.

(** The bytes [*blob] of length [*len]. *)
Definition fdtutil_build `{Alloc} (realloc : Z -> list Z) (ts : list (tag (list Z))) : result (list Z) :=
  match build_loop realloc 9 ts (16 * 1024) with Some r => r | None => Err ENOSPC end.

(** ** Stores into a buffer whose parts are known *)

Lemma zlen_zfill n : 0 <= n -> zlen (zfill n) = n.
Proof. intros N. unfold zfill. rewrite zlen_replicate. lia. Qed.

Lemma zfill_add m n : 0 <= m -> 0 <= n -> zfill (m + n) = zfill m ++ zfill n.
Proof. intros M N. unfold zfill. by rewrite Z2Nat.inj_add, replicate_add. Qed.

Lemma take_z {A} (a c : list A) n : n = zlen a -> take (Z.to_nat n) (a ++ c) = a.
Proof. intros ->. apply take_app_length'. unfold zlen. lia. Qed.

Lemma drop_z {A} (a c : list A) n : n = zlen a -> drop (Z.to_nat n) (a ++ c) = c.
Proof. intros ->. apply drop_app_length'. unfold zlen. lia. Qed.

Lemma store_split pos s a m c : pos = zlen a -> zlen m = zlen s -> store pos s (a ++ m ++ c) = a ++ s ++ c.
Proof.
  intros P L. unfold store. rewrite take_z by done. f_equal. f_equal. rewrite app_assoc. apply drop_app_length'.
  rewrite length_app. unfold zlen in *. lia.
Qed.

Lemma store_inside pos k s a m c : pos = zlen a + k -> 0 <= k -> k + zlen s <= zlen m -> store pos s (a ++ m ++ c) = a ++ store k s m ++ c.
Proof.
  intros P K L. unfold zlen in *. unfold store. rewrite (take_app_ge a), take_app_le by lia. rewrite (drop_app_ge a), drop_app_le by lia.
  rewrite <- !app_assoc. do 2 f_equal; [f_equal; lia|]. do 2 f_equal; f_equal; lia.
Qed.

Lemma store_len pos s b : 0 <= pos -> pos + zlen s <= zlen b -> zlen (store pos s b) = zlen b.
Proof. intros P L. unfold store, zlen in *. rewrite !length_app, length_take, length_drop. lia. Qed.

Lemma memmove_store dst src n a s c : src = zlen a -> n = zlen s -> memmove dst src n (a ++ s ++ c) = store dst s (a ++ s ++ c).
Proof. intros S N. unfold memmove. by rewrite drop_z, take_z. Qed.

(** Bytes move down over [m]; as many are left behind. *)
Lemma memmove_split dst src n a m s c :
  dst = zlen a -> src = zlen a + zlen m -> n = zlen s ->
  memmove dst src n (a ++ m ++ s ++ c) = a ++ s ++ drop (length s) (m ++ s) ++ c.
Proof.
  intros D S N. rewrite (app_assoc a), memmove_store by (rewrite ?zlen_app; lia). rewrite <- app_assoc. unfold store. rewrite take_z by done.
  do 2 f_equal. rewrite (app_assoc m), drop_app_ge by (unfold zlen in *; lia). rewrite drop_app_le; [do 2 f_equal; unfold zlen in *; lia|].
  rewrite length_app. unfold zlen in *. lia.
Qed.

Lemma left_behind (m s : list Z) : zlen (drop (length s) (m ++ s)) = zlen m.
Proof. unfold zlen. rewrite length_drop, length_app. lia. Qed.

(** ** The header as its words *)

Definition hdr (ws : list Z) : list Z := concat (map (be 4) ws).

Lemma hdr_app a c : hdr (a ++ c) = hdr a ++ hdr c.
Proof. unfold hdr. by rewrite map_app, concat_app. Qed.

Lemma hdr_len ws : zlen (hdr ws) = 4 * zlen ws.
Proof. induction ws as [|w ws IH]; [done|]. unfold hdr in *. cbn [map concat]. rewrite zlen_app, zlen_be, IH, zlen_cons. lia. Qed.

Lemma word_hdr ws i x body pos : ws !! i = Some x -> pos = 4 * Z.of_nat i -> 0 <= x < two32 -> word (hdr ws ++ body) pos = x.
Proof.
  intros E -> X. pose proof (take_drop_middle ws i x E) as T. rewrite <- T, hdr_app, <- app_assoc. unfold hdr at 2. cbn [map concat].
  rewrite <- app_assoc. apply word_at; [|done]. rewrite hdr_len. unfold zlen. rewrite length_take_le; [done|]. apply lookup_lt_Some in E. lia.
Qed.

Lemma store_hdr ws i v body pos : (i < length ws)%nat -> pos = 4 * Z.of_nat i -> store pos (be 4 v) (hdr ws ++ body) = hdr (<[i:=v]> ws) ++ body.
Proof.
  intros L ->. destruct (lookup_lt_is_Some_2 ws i L) as [x E]. pose proof (take_drop_middle ws i x E) as T.
  rewrite insert_take_drop by done. rewrite <- T at 1. rewrite !hdr_app. unfold hdr at 2 4. cbn [map concat]. rewrite <- !app_assoc.
  apply store_split; [|by rewrite !zlen_be]. rewrite hdr_len. unfold zlen. by rewrite length_take_le by lia.
Qed.

(** Magic, total size, structure, strings, reserve map, last compatible
    version, and the sizes of the strings and the structure. *)
Definition hd (m T so st r lc nt ns : Z) : list Z := [m; T; so; st; r; FDT_LAST_SUPPORTED_VERSION; lc; 0; nt; ns].

Section Header.
Context (m T so st r lc nt ns : Z) (body : list Z).
Let b := hdr (hd m T so st r lc nt ns) ++ body.

Lemma hd_len : zlen (hdr (hd m T so st r lc nt ns)) = 40.
Proof. by rewrite hdr_len. Qed.

Lemma hd_magic : 0 <= m < two32 -> h_magic b = m.
Proof. by apply (word_hdr _ 0). Qed.
Lemma hd_total : 0 <= T < two32 -> h_totalsize b = T.
Proof. by apply (word_hdr _ 1). Qed.
Lemma hd_struct : 0 <= so < two32 -> h_off_dt_struct b = so.
Proof. by apply (word_hdr _ 2). Qed.
Lemma hd_strings : 0 <= st < two32 -> h_off_dt_strings b = st.
Proof. by apply (word_hdr _ 3). Qed.
Lemma hd_rsvmap : 0 <= r < two32 -> h_off_mem_rsvmap b = r.
Proof. by apply (word_hdr _ 4). Qed.
Lemma hd_version : h_version b = 17.
Proof. by apply (word_hdr _ 5). Qed.
Lemma hd_last : 0 <= lc < two32 -> h_last_comp_version b = lc.
Proof. by apply (word_hdr _ 6). Qed.
Lemma hd_nt : 0 <= nt < two32 -> h_size_dt_strings b = nt.
Proof. by apply (word_hdr _ 8). Qed.
Lemma hd_ns : 0 <= ns < two32 -> h_size_dt_struct b = ns.
Proof. by apply (word_hdr _ 9). Qed.

Lemma set_magic v : fdt_set_magic v b = hdr (hd v T so st r lc nt ns) ++ body.
Proof. apply (store_hdr (hd m T so st r lc nt ns) 0 v body 0); [cbn; lia|done]. Qed.
Lemma set_total v : fdt_set_totalsize v b = hdr (hd m v so st r lc nt ns) ++ body.
Proof. apply (store_hdr (hd m T so st r lc nt ns) 1 v body 4); [cbn; lia|done]. Qed.
Lemma set_struct v : fdt_set_off_dt_struct v b = hdr (hd m T v st r lc nt ns) ++ body.
Proof. apply (store_hdr (hd m T so st r lc nt ns) 2 v body 8); [cbn; lia|done]. Qed.
Lemma set_strings v : fdt_set_off_dt_strings v b = hdr (hd m T so v r lc nt ns) ++ body.
Proof. apply (store_hdr (hd m T so st r lc nt ns) 3 v body 12); [cbn; lia|done]. Qed.
Lemma set_rsvmap v : fdt_set_off_mem_rsvmap v b = hdr (hd m T so st v lc nt ns) ++ body.
Proof. apply (store_hdr (hd m T so st r lc nt ns) 4 v body 16); [cbn; lia|done]. Qed.
Lemma set_last v : fdt_set_last_comp_version v b = hdr (hd m T so st r v nt ns) ++ body.
Proof. apply (store_hdr (hd m T so st r lc nt ns) 6 v body 24); [cbn; lia|done]. Qed.
Lemma set_nt v : fdt_set_size_dt_strings v b = hdr (hd m T so st r lc v ns) ++ body.
Proof. apply (store_hdr (hd m T so st r lc nt ns) 8 v body 32); [cbn; lia|done]. Qed.
Lemma set_ns v : fdt_set_size_dt_struct v b = hdr (hd m T so st r lc nt v) ++ body.
Proof. apply (store_hdr (hd m T so st r lc nt ns) 9 v body 36); [cbn; lia|done]. Qed.

End Header.

#[local] Opaque hdr.

(** ** The buffer while the structure is written *)

(** The structure [E] grows up, the strings [S] grow down, zeros between. *)
Definition sw (T : Z) (E S : list Z) : list Z :=
  hdr (hd FDT_SW_MAGIC T 64 T 48 0 (zlen S) (zlen E)) ++ zfill 24 ++ E ++ zfill (T - 64 - zlen E - zlen S) ++ S.

Definition fits (T : Z) (E S : list Z) : Prop := 64 + zlen E + zlen S <= T <= 4 * 1024 * 1024.

(** [M] is being written into space that was grabbed. *)
Definition grabbed (T : Z) (E M S : list Z) : list Z :=
  hdr (hd FDT_SW_MAGIC T 64 T 48 0 (zlen S) (zlen E + zlen M)) ++ zfill 24 ++ E ++ M ++ zfill (T - 64 - zlen E - zlen M - zlen S) ++ S.

Lemma grabbed_sw T E M S : grabbed T E M S = sw T (E ++ M) S.
Proof. unfold grabbed, sw. rewrite zlen_app. rewrite <- !app_assoc. by replace (T - 64 - (zlen E + zlen M) - zlen S) with (T - 64 - zlen E - zlen M - zlen S) by lia. Qed.

Lemma sw_magic_range : 0 <= FDT_SW_MAGIC < two32.
Proof. unfold FDT_SW_MAGIC, UINT32_MAX, FDT_MAGIC. lia. Qed.

Ltac sized := repeat match goal with
  | |- context [@zlen ?A ?l] => lazymatch goal with H : 0 <= zlen l |- _ => fail | _ => pose proof (@zlen_nonneg A l) end
  | _ : context [@zlen ?A ?l] |- _ => lazymatch goal with H : 0 <= zlen l |- _ => fail | _ => pose proof (@zlen_nonneg A l) end
  end; lia.

Lemma sw_probe T E S : fits T E S -> fdt_sw_probe_struct_ (sw T E S) = Ok tt.
Proof.
  intros F. unfold fits in F. unfold fdt_sw_probe_struct_, fdt_sw_probe_, sw. rewrite hd_magic by apply sw_magic_range.
  rewrite hd_strings, hd_total by sized. rewrite !Z.eqb_refl. done.
Qed.

Lemma sw_grab T E S len :
  fits T E S -> 0 <= len < two32 ->
  fdt_grab_space_ len (sw T E S) = if 64 + zlen E + len + zlen S <=? T then Some (64 + zlen E, grabbed T E (zfill len) S) else None.
Proof.
  intros F L. unfold fits in F. pose proof (zlen_nonneg E). pose proof (zlen_nonneg S). unfold fdt_grab_space_, sw. cbv zeta.
  rewrite hd_ns, hd_total, hd_struct, hd_nt by lia. rewrite (u32_small (T - 64 - zlen S)), u64_small by lia.
  rewrite (proj2 (Z.ltb_ge (zlen E + len) (zlen E))) by lia. cbn [orb].
  destruct (Z.ltb_spec (T - 64 - zlen S) (zlen E + len)) as [G|G]; [by rewrite (proj2 (Z.leb_gt _ _)) by lia|].
  rewrite (proj2 (Z.leb_le _ _)) by lia. do 2 f_equal. rewrite set_ns. unfold grabbed. rewrite zlen_zfill by lia. do 3 f_equal.
  rewrite app_assoc, <- zfill_add by lia. f_equal. f_equal. lia.
Qed.

(** A store into the space that was grabbed. *)
Lemma grabbed_store T E M S k s pos :
  pos = 64 + zlen E + k -> 0 <= k -> k + zlen s <= zlen M -> store pos s (grabbed T E M S) = grabbed T E (store k s M) S.
Proof.
  intros P K L. unfold grabbed at 2. rewrite store_len by done. unfold grabbed.
  rewrite (app_assoc (zfill 24)), !(app_assoc (hdr _)). rewrite (store_inside _ k); [by rewrite <- !app_assoc| |done|done].
  rewrite !zlen_app, hd_len, zlen_zfill by lia. lia.
Qed.

Lemma store_zfill k s pre n : k = zlen pre -> zlen s <= n -> store k s (pre ++ zfill n) = pre ++ s ++ zfill (n - zlen s).
Proof.
  intros K L. replace n with (zlen s + (n - zlen s)) at 1 by lia. pose proof (zlen_nonneg s). rewrite zfill_add by lia.
  apply store_split; [done|]. by rewrite zlen_zfill.
Qed.

Lemma store_zfill0 s n : zlen s <= n -> store 0 s (zfill n) = s ++ zfill (n - zlen s).
Proof. intros L. by apply (store_zfill 0 s []). Qed.

Lemma write_begin name : store 4 (name ++ [0]) (store 0 (be 4 BEGIN_NODE) (zfill (4 + FDT_TAGALIGN (zlen name + 1)))) = enc_tag (FDT_BEGIN_NODE name).
Proof.
  pose proof (zlen_nonneg name). pose proof (tagalign_bounds (zlen name + 1) ltac:(lia)) as A.
  rewrite store_zfill0 by (rewrite zlen_be; lia). rewrite zlen_be.
  rewrite store_zfill by (rewrite ?zlen_be, ?zlen_app; change (zlen [0]) with 1; lia). cbn [enc_tag]. rewrite <- app_assoc. do 3 f_equal.
  unfold pad, zfill. f_equal. rewrite zlen_app. change (zlen [0]) with 1. f_equal. lia.
Qed.

Lemma write_word w : store 0 (be 4 w) (zfill 4) = be 4 w.
Proof. rewrite store_zfill0 by (by rewrite zlen_be). rewrite zlen_be. change (zfill (4 - Z.of_nat 4)) with (@nil Z). by rewrite app_nil_r. Qed.

Lemma write_prop off val :
  store 12 val (store 4 (be 4 (zlen val)) (store 8 (be 4 off) (store 0 (be 4 PROP) (zfill (12 + FDT_TAGALIGN (zlen val)))))) = enc_tag (FDT_PROP off val).
Proof.
  pose proof (tagalign_bounds (zlen val) (zlen_nonneg val)) as A. pose proof (zlen_nonneg val).
  rewrite store_zfill0 by (rewrite zlen_be; lia). rewrite zlen_be.
  replace (12 + FDT_TAGALIGN (zlen val) - Z.of_nat 4) with (4 + (4 + FDT_TAGALIGN (zlen val))) by lia.
  rewrite zfill_add, app_assoc by lia. rewrite store_zfill by (rewrite ?zlen_app, ?zlen_be, ?zlen_zfill; lia). rewrite zlen_be, <- app_assoc.
  rewrite store_split by (rewrite ?zlen_be, ?zlen_zfill; lia). rewrite !app_assoc.
  rewrite store_zfill by (rewrite ?zlen_app, ?zlen_be; lia). cbn [enc_tag]. rewrite <- !app_assoc. do 4 f_equal. unfold pad, zfill. do 2 f_equal. lia.
Qed.

Lemma sw_front T E S : fits T E S -> zlen (hdr (hd FDT_SW_MAGIC T 64 T 48 0 (zlen S) (zlen E)) ++ zfill 24 ++ E) = 64 + zlen E.
Proof. intros F. rewrite !zlen_app, hd_len, zlen_zfill by lia. lia. Qed.

Lemma sw_table T E S : fits T E S -> take (Z.to_nat (zlen S)) (drop (Z.to_nat (T - zlen S)) (sw T E S)) = S.
Proof.
  intros F. unfold sw. rewrite !app_assoc. rewrite drop_z; [rewrite take_ge; [done|unfold zlen; lia]|].
  unfold fits in F. rewrite <- (app_assoc (hdr _)), zlen_app, sw_front, zlen_zfill by (done || lia). lia.
Qed.

Section Fields.
Context (T : Z) (E S : list Z) (F : fits T E S).

Lemma sw_h_total : h_totalsize (sw T E S) = T.
Proof. unfold fits in F. apply hd_total. sized. Qed.
Lemma sw_h_struct : h_off_dt_struct (sw T E S) = 64.
Proof. by apply hd_struct. Qed.
Lemma sw_h_nt : h_size_dt_strings (sw T E S) = zlen S.
Proof. unfold fits in F. apply hd_nt. sized. Qed.
Lemma sw_h_ns : h_size_dt_struct (sw T E S) = zlen E.
Proof. unfold fits in F. apply hd_ns. sized. Qed.
Lemma sw_h_last : h_last_comp_version (sw T E S) = 0.
Proof. by apply hd_last. Qed.

End Fields.

(** The negative offset of a name, as an [int]. *)
Lemma s32_neg x : 0 < x <= 2 ^ 31 -> s32 (- x) = - x.
Proof.
  intros X. unfold s32. cbv zeta. assert (E : u32 (- x) = two32 - x) by (unfold u32; symmetry; apply (Z.mod_unique _ _ (-1)); lia).
  rewrite E. rewrite (proj2 (Z.ltb_ge _ _)) by lia. lia.
Qed.

Lemma sw_add_string T E S s :
  fits T E S -> zlen s < 64 ->
  fdt_add_string_ s (sw T E S) =
  if 64 + zlen E + zlen S + (zlen s + 1) <=? T then (- (zlen S + (zlen s + 1)), sw T E (s ++ 0 :: S)) else (0, sw T E S).
Proof.
  intros F L. pose proof F as F'. unfold fits in F'. pose proof (zlen_nonneg E). pose proof (zlen_nonneg S). pose proof (zlen_nonneg s).
  unfold fdt_add_string_. cbv zeta. rewrite sw_h_total, sw_h_nt, sw_h_struct, sw_h_ns by done.
  rewrite (u32_small (zlen S + _)), !u32_small by lia.
  destruct (Z.ltb_spec (T - (zlen S + (zlen s + 1))) (64 + zlen E)) as [G|G]; [by rewrite (proj2 (Z.leb_gt _ _)) by lia|].
  rewrite (proj2 (Z.leb_le _ _)) by lia. rewrite s32_neg by lia. f_equal.
  replace (store _ _ (sw T E S)) with (hdr (hd FDT_SW_MAGIC T 64 T 48 0 (zlen S) (zlen E)) ++ zfill 24 ++ E ++ zfill (T - 64 - zlen E - zlen S - (zlen s + 1)) ++ s ++ 0 :: S).
  - rewrite set_nt. unfold sw. rewrite zlen_app, zlen_cons. replace (zlen s + (1 + zlen S)) with (zlen S + (zlen s + 1)) by lia.
    by replace (T - 64 - zlen E - (zlen S + (zlen s + 1))) with (T - 64 - zlen E - zlen S - (zlen s + 1)) by lia.
  - unfold sw. symmetry. rewrite !app_assoc. rewrite <- (app_assoc (hdr _)).
    replace (T - 64 - zlen E - zlen S) with ((T - 64 - zlen E - zlen S - (zlen s + 1)) + (zlen s + 1)) at 1 by lia.
    rewrite zfill_add by lia. rewrite (app_assoc (_ ++ _ ++ _) (zfill _)), <- app_assoc, store_split; [by rewrite <- !app_assoc| |].
    + rewrite zlen_app, sw_front, zlen_zfill by (done || lia). lia.
    + rewrite zlen_zfill, zlen_app by lia. done.
Qed.

Lemma sw_find_add T E S s :
  fits T E S -> zlen s < 64 ->
  fdt_find_add_string_ s (sw T E S) =
  match find_string S (s ++ [0]) with
  | Some i => (i - zlen S, false, sw T E S)
  | None => if 64 + zlen E + zlen S + (zlen s + 1) <=? T then (- (zlen S + (zlen s + 1)), true, sw T E (s ++ 0 :: S)) else (0, true, sw T E S)
  end.
Proof.
  intros F L. unfold fdt_find_add_string_. cbv zeta. rewrite sw_h_total, sw_h_nt, sw_table by done. destruct (find_string S (s ++ [0])); [done|].
  rewrite sw_add_string by done. by case_bool.
Qed.

(** ** Each call keeps step with the list of tags *)

Lemma sw_begin T E S name :
  fits T E S -> zlen name < 2 ^ 31 - 4 ->
  fdt_begin_node name (sw T E S) =
  if 64 + zlen E + tag_size (@FDT_BEGIN_NODE Z name) + zlen S <=? T then (Ok tt, sw T (E ++ enc_tag (FDT_BEGIN_NODE name)) S) else (Err FDT_ERR_NOSPACE, sw T E S).
Proof.
  intros F L. pose proof (zlen_nonneg name). pose proof (tagalign_bounds (zlen name + 1) ltac:(lia)) as A. unfold fdt_begin_node. rewrite sw_probe by done. cbv zeta.
  rewrite sw_grab by (done || lia). cbn [tag_size]. case_bool; [|done]. f_equal.
  rewrite (grabbed_store _ _ _ _ 0) by (rewrite ?zlen_be, ?zlen_zfill; lia).
  rewrite (grabbed_store _ _ _ _ 4); [by rewrite write_begin, grabbed_sw|done|done|].
  rewrite store_len, zlen_app, zlen_zfill by (rewrite ?zlen_be, ?zlen_zfill; lia). change (zlen [0]) with 1. lia.
Qed.

(** A tag of one word. *)
Lemma sw_word T E S w t :
  fits T E S -> enc_tag t = be 4 w ->
  match fdt_grab_space_ 4 (sw T E S) with None => None | Some (en, b) => Some (store en (be 4 w) b) end =
  if 64 + zlen E + 4 + zlen S <=? T then Some (sw T (E ++ enc_tag t) S) else None.
Proof.
  intros F X. rewrite sw_grab by (done || lia). case_bool; [|done]. f_equal.
  rewrite (grabbed_store _ _ _ _ 0), write_word, <- X, grabbed_sw by (rewrite ?zlen_be, ?zlen_zfill; lia). done.
Qed.

Lemma sw_end T E S :
  fits T E S ->
  fdt_end_node (sw T E S) = if 64 + zlen E + 4 + zlen S <=? T then (Ok tt, sw T (E ++ enc_tag FDT_END_NODE) S) else (Err FDT_ERR_NOSPACE, sw T E S).
Proof.
  intros F. unfold fdt_end_node. rewrite sw_probe by done. pose proof (sw_word T E S END_NODE FDT_END_NODE F eq_refl) as W.
  destruct (fdt_grab_space_ 4 (sw T E S)) as [[en b]|]; destruct (_ <=? T); try done. f_equal. congruence.
Qed.

Lemma sw_grab_prop T E S off val :
  fits T E S -> zlen val < 2 ^ 31 - 4 ->
  match fdt_grab_space_ (12 + FDT_TAGALIGN (zlen val)) (sw T E S) with
  | None => None
  | Some (prop, b) => Some (store (prop + 12) val (store (prop + 4) (be 4 (zlen val)) (store (prop + 8) (be 4 off) (store prop (be 4 PROP) b))))
  end = if 64 + zlen E + (12 + FDT_TAGALIGN (zlen val)) + zlen S <=? T then Some (sw T (E ++ enc_tag (FDT_PROP off val)) S) else None.
Proof.
  intros F V. pose proof (zlen_nonneg val). pose proof (tagalign_bounds (zlen val) (zlen_nonneg val)) as A.
  rewrite sw_grab by (done || lia). case_bool; [|done]. f_equal. set (n := 12 + FDT_TAGALIGN (zlen val)). assert (N : zlen (zfill n) = n) by (apply zlen_zfill; unfold n; lia).
  rewrite (grabbed_store _ _ _ _ 0) by (rewrite ?zlen_be, ?N; unfold n; lia).
  rewrite (grabbed_store _ _ _ _ 8); [|done|done|rewrite store_len; rewrite ?zlen_be, ?N; unfold n; lia].
  rewrite (grabbed_store _ _ _ _ 4); [|done|done|rewrite !store_len; rewrite ?store_len; rewrite ?zlen_be, ?N; unfold n; lia].
  rewrite (grabbed_store _ _ _ _ 12); [|done|done|rewrite !store_len; rewrite ?store_len; rewrite ?store_len; rewrite ?zlen_be, ?N; unfold n; lia].
  unfold n. by rewrite write_prop, grabbed_sw.
Qed.

(** The part of [fdt_property] behind the name. *)
Lemma sw_property_named T E S name off al val :
  fits T E S -> zlen val < 2 ^ 31 - 4 -> off <> 0 ->
  let r := match (if off =? 0 then (Err FDT_ERR_NOSPACE, sw T E S) else
                  match fdt_grab_space_ (12 + FDT_TAGALIGN (zlen val)) (sw T E S) with
                  | None => (Err FDT_ERR_NOSPACE, if al : bool then fdt_del_last_string_ name (sw T E S) else sw T E S)
                  | Some (prop, b) => (Ok (prop + 12), store (prop + 4) (be 4 (zlen val)) (store (prop + 8) (be 4 off) (store prop (be 4 PROP) b)))
                  end) with
           | (Err e, b) => (Err e, b)
           | (Ok ptr, b) => (Ok tt, store ptr val b)
           end in
  if 64 + zlen E + (12 + FDT_TAGALIGN (zlen val)) + zlen S <=? T then r = (Ok tt, sw T (E ++ enc_tag (FDT_PROP off val)) S) else r.1 = Err FDT_ERR_NOSPACE.
Proof.
  intros F V N. cbv zeta. rewrite (proj2 (Z.eqb_neq _ _) N). pose proof (sw_grab_prop T E S off val F V) as G.
  destruct (fdt_grab_space_ _ (sw T E S)) as [[prop b]|]; destruct (_ <=? T); try done. f_equal. congruence.
Qed.

Lemma sw_property T E S name val :
  fits T E S -> zlen name < 64 -> zlen val < 2 ^ 31 - 4 ->
  if 64 + zlen E + (12 + FDT_TAGALIGN (zlen val)) + zlen (intern S name).1 <=? T
  then fdt_property name val (sw T E S) = (Ok tt, sw T (E ++ enc_tag (FDT_PROP (intern S name).2 val)) (intern S name).1)
  else (fdt_property name val (sw T E S)).1 = Err FDT_ERR_NOSPACE.
Proof.
  intros F L V. pose proof (zlen_nonneg name). pose proof (zlen_nonneg S). pose proof (zlen_nonneg val). pose proof (tagalign_bounds (zlen val) (zlen_nonneg val)) as A.
  unfold fdt_property, fdt_property_placeholder. rewrite sw_probe by done. unfold sw_flags. rewrite sw_h_last by done.
  change (negb (Z.land 0 FDT_CREATE_FLAG_NO_NAME_DEDUP =? 0)) with false. cbv iota. rewrite sw_find_add by done. unfold intern.
  destruct (find_string S (name ++ [0])) as [i|] eqn:Fs; cbn [fst snd].
  - apply find_string_bound in Fs as (_ & Hl & _); [|by destruct name]. rewrite zlen_app in Hl. change (zlen [0]) with 1 in Hl.
    apply (sw_property_named T E S name (i - zlen S) false); [done|done|lia].
  - assert (N : zlen (name ++ 0 :: S) = zlen S + (zlen name + 1)) by (rewrite zlen_app, zlen_cons; lia).
    destruct (Z.leb_spec (64 + zlen E + zlen S + (zlen name + 1)) T) as [G|G].
    + apply (sw_property_named T E (name ++ 0 :: S) name _ true); [unfold fits in *; lia|done|lia].
    + cbn [Z.eqb]. rewrite (proj2 (Z.leb_gt _ _)) by lia. done.
Qed.

(** The buffer [b] holds what [f] says. *)
Definition rep (b : list Z) (f : fdt) : Prop := writing f /\ b = sw (fdt_totalsize f) (enc_struct (fdt_struct f)) (fdt_strings f).

Lemma writing_fits f : writing f -> fits (fdt_totalsize f) (enc_struct (fdt_struct f)) (fdt_strings f).
Proof. intros [_ _ O U M]. unfold fits. rewrite enc_struct_len. unfold used, fdt_size_dt_struct, fdt_size_dt_strings in U. lia. Qed.

Lemma enc_struct_app a c : enc_struct (a ++ c) = enc_struct a ++ enc_struct c.
Proof. unfold enc_struct. by rewrite map_app, concat_app. Qed.

Lemma enc_struct_one t : enc_struct [t] = enc_tag t.
Proof. unfold enc_struct. cbn [map concat]. by rewrite app_nil_r. Qed.

(** The tag [t] appended under the name offset the table gives it. *)
Lemma rep_push b f t u S :
  writing f -> used (push f t) <= fdt_totalsize f -> fdt_struct (push f t) = fdt_struct f ++ [u] -> fdt_strings (push f t) = S ->
  b = sw (fdt_totalsize f) (enc_struct (fdt_struct f) ++ enc_tag u) S -> rep b (push f t).
Proof.
  intros W U E1 E2 ->. split; [by apply (pushes_writing [t])|]. destruct (push_fields f t) as (_ & -> & _).
  by rewrite E1, E2, enc_struct_app, enc_struct_one.
Qed.

Lemma push_used_eq f t u S :
  writing f -> fdt_struct (push f t) = fdt_struct f ++ [u] -> fdt_strings (push f t) = S ->
  used (push f t) = 64 + zlen (enc_struct (fdt_struct f)) + tag_size u + zlen S.
Proof.
  intros [_ _ O _ _] E1 E2. unfold used, fdt_size_dt_struct, fdt_size_dt_strings. destruct (push_fields f t) as (_ & _ & -> & _).
  rewrite E1, E2, struct_size_app, enc_struct_len, O. change (struct_size [u]) with (tag_size u + 0). lia.
Qed.

Lemma write_tag_keeps_step b f t :
  rep b f -> tag_ok t -> t <> FDT_END ->
  if used (push f t) <=? fdt_totalsize f
  then exists b', write_tag t b = (Ok tt, b') /\ rep b' (push f t)
  else (write_tag t b).1 = Err FDT_ERR_NOSPACE.
Proof.
  intros [W ->] K N. pose proof (writing_fits f W) as F. destruct t as [name| |name val|]; [| | |done]; cbn [write_tag].
  - rewrite (push_used_eq f _ (FDT_BEGIN_NODE name) (fdt_strings f) W) by done. rewrite sw_begin by done.
    destruct (Z.leb_spec (64 + zlen (enc_struct (fdt_struct f)) + tag_size (@FDT_BEGIN_NODE Z name) + zlen (fdt_strings f)) (fdt_totalsize f)); [|done].
    eexists. split; [done|]. eapply rep_push; [done| |done|done|done]. by rewrite (push_used_eq f _ (FDT_BEGIN_NODE name) (fdt_strings f) W).
  - rewrite (push_used_eq f _ FDT_END_NODE (fdt_strings f) W) by done. rewrite sw_end by done. cbn [tag_size].
    destruct (Z.leb_spec (64 + zlen (enc_struct (fdt_struct f)) + 4 + zlen (fdt_strings f)) (fdt_totalsize f)); [|done].
    eexists. split; [done|]. eapply rep_push; [done| |done|done|done]. by rewrite (push_used_eq f _ FDT_END_NODE (fdt_strings f) W).
  - destruct K as (_ & Ln & Lv). pose proof (sw_property _ _ _ name val F Ln Lv) as P.
    assert (E1 : fdt_struct (push f (FDT_PROP name val)) = fdt_struct f ++ [FDT_PROP (intern (fdt_strings f) name).2 val]) by (cbn [push]; by destruct (intern _ _)).
    assert (E2 : fdt_strings (push f (FDT_PROP name val)) = (intern (fdt_strings f) name).1) by (cbn [push]; by destruct (intern _ _)).
    pose proof (push_used_eq f _ _ _ W E1 E2) as U. rewrite U. cbn [tag_size] in *.
    destruct (Z.leb_spec (64 + zlen (enc_struct (fdt_struct f)) + (12 + FDT_TAGALIGN (zlen val)) + zlen (intern (fdt_strings f) name).1) (fdt_totalsize f)); [|done].
    eexists. split; [done|]. eapply rep_push; [done|lia|done|done|done].
Qed.

Lemma write_tags_keep_step ts b f :
  rep b f -> Forall tag_ok ts -> Forall (fun t => t <> FDT_END) ts ->
  if used (pushes ts f) <=? fdt_totalsize f
  then exists b', write_tags ts b = (Ok tt, b') /\ rep b' (pushes ts f)
  else (write_tags ts b).1 = Err FDT_ERR_NOSPACE.
Proof.
  revert b f. induction ts as [|t ts IH]; intros b f R K N.
  - destruct R as [W E]. cbn [write_tags pushes foldl]. rewrite (proj2 (Z.leb_le _ _)) by apply W. by exists b.
  - apply Forall_cons in K as [Kt K]. apply Forall_cons in N as [Nt N]. cbn [write_tags]. change (pushes (t :: ts) f) with (pushes ts (push f t)).
    pose proof (write_tag_keeps_step b f t R Kt Nt) as S. destruct (push_fields f t) as (_ & T & _).
    destruct (Z.leb_spec (used (push f t)) (fdt_totalsize f)) as [U|U].
    + destruct S as (b' & -> & R'). rewrite <- T. by apply IH.
    + pose proof (pushes_used ts (push f t)). rewrite (proj2 (Z.leb_gt _ _)) by lia. destruct (write_tag t b) as [[]]; [done|]. exact S.
Qed.

(** ** The start *)

Lemma create_bytes size junk :
  64 <= size <= 4 * 1024 * 1024 -> zlen junk = size ->
  fdt_create size junk = (Ok tt, hdr (hd FDT_SW_MAGIC size 48 0 48 0 0 0) ++ zfill (size - 40)).
Proof.
  intros S J. unfold fdt_create, fdt_create_with_flags. change (FDT_ALIGN 40 16) with 48. rewrite (proj2 (Z.ltb_ge _ _)) by lia.
  change (negb (Z.land 0 (Z.lnot FDT_CREATE_FLAGS_ALL) =? 0)) with false. cbv iota zeta. f_equal.
  rewrite drop_ge, app_nil_r by (unfold zlen in J; lia). replace (zfill size) with (hdr (replicate 10 0) ++ zfill (size - 40)).
  2: { replace size with (40 + (size - 40)) at 2 by lia. by rewrite zfill_add by lia. }
  unfold fdt_set_magic, fdt_set_version, fdt_set_last_comp_version, fdt_set_totalsize, fdt_set_off_mem_rsvmap, fdt_set_off_dt_struct, fdt_set_off_dt_strings.
  rewrite (store_hdr _ 0), (store_hdr _ 5), (store_hdr _ 6), (store_hdr _ 1), (store_hdr _ 4), (store_hdr _ 2), (store_hdr _ 3) by (cbn; lia || done).
  unfold h_off_mem_rsvmap. rewrite (word_hdr _ 4 48) by (done || lia). done.
Qed.

Lemma reservemap_bytes size :
  64 <= size <= 4 * 1024 * 1024 ->
  fdt_finish_reservemap (hdr (hd FDT_SW_MAGIC size 48 0 48 0 0 0) ++ zfill (size - 40)) = (Ok tt, sw size [] []).
Proof.
  intros S. unfold fdt_finish_reservemap, fdt_add_reservemap_entry, fdt_sw_probe_memrsv_, fdt_sw_probe_.
  rewrite hd_magic by apply sw_magic_range. rewrite hd_strings, hd_total, hd_struct by lia. change (FDT_SW_MAGIC =? FDT_MAGIC) with false. rewrite Z.eqb_refl.
  change (negb (0 =? 0)) with false. cbv iota zeta. cbn [negb]. rewrite (proj2 (Z.ltb_ge _ _)) by lia.
  assert (Z8 : be 8 0 = zfill 8) by done. rewrite Z8.
  replace (zfill (size - 40)) with (zfill 8 ++ zfill 8 ++ zfill 8 ++ zfill (size - 64)) by (rewrite <- !zfill_add by lia; f_equal; lia).
  rewrite (app_assoc (hdr _) (zfill 8)), (store_split 48) by (rewrite ?zlen_app, ?hd_len; done).
  rewrite (app_assoc (_ ++ _) (zfill 8) (zfill 8 ++ _)), (store_split (48 + 8)) by (rewrite ?zlen_app, ?hd_len; done).
  rewrite <- !app_assoc, set_struct, hd_total, set_strings by lia. unfold sw. change (zlen (@nil Z)) with 0. rewrite !Z.sub_0_r. cbn [app]. rewrite app_nil_r.
  done.
Qed.

Lemma fresh_rep size : 64 <= size <= 4 * 1024 * 1024 -> rep (sw size [] []) (fresh size).
Proof. intros S. split; [by apply fresh_writing|done]. Qed.

(** ** The end *)

(** The tags while names are counted from the end of a table of [n] bytes. *)
Definition open_tag (n : Z) (t : tag Z) : Prop :=
  match t with FDT_PROP off _ => - n <= off < 0 | FDT_BEGIN_NODE nm => cstring nm | FDT_END => False | FDT_END_NODE => True end.

Lemma be_mod n x : be n x = be n (x mod 256 ^ Z.of_nat n).
Proof.
  revert x. induction n as [|n IH]; intros x; [done|]. cbn [be]. rewrite Nat2Z.inj_succ, Z.pow_succ_r by lia.
  set (M := 256 ^ Z.of_nat n) in *. assert (P : 0 < M) by (apply Z.pow_pos_nonneg; lia). pose proof (Z.mod_pos_bound x 256 ltac:(lia)) as B.
  assert (R : x mod (256 * M) = x mod 256 + (x / 256) mod M * 256) by (rewrite Z.rem_mul_r by lia; lia).
  assert (D : x mod (256 * M) / 256 = (x / 256) mod M) by (rewrite R, Z.div_add, Z.div_small by lia; lia).
  assert (L : x mod (256 * M) mod 256 = x mod 256) by (rewrite R, Z.mod_add, Zmod_mod by lia; done).
  by rewrite D, L, <- IH.
Qed.

(** A negative name offset read back from its word. *)
Lemma word_neg b p off t : - 2 ^ 31 <= off < 0 -> drop (Z.to_nat p) b = be 4 off ++ t -> s32 (word b p) = off.
Proof.
  intros O D. rewrite be_mod in D. change (256 ^ Z.of_nat 4) with two32 in D. fold (u32 off) in D.
  assert (U : 0 <= u32 off < two32) by (apply Z.mod_pos_bound; lia). rewrite (word_of b p (u32 off) t U D).
  replace (s32 (u32 off)) with (s32 off) by (unfold s32; by rewrite (u32_small (u32 off))).
  replace off with (- (- off)) at 1 by lia. rewrite s32_neg; lia.
Qed.

(** A buffer in [fdt_finish]: the strings are in place. *)
Definition moved (T n nt : Z) (ts : list (tag Z)) (rest : list Z) : list Z :=
  hdr (hd FDT_SW_MAGIC T 64 n 48 0 nt (struct_size ts)) ++ zfill 24 ++ enc_struct ts ++ rest.

Lemma moved_block T n nt ts rest :
  64 + struct_size ts <= T <= 4 * 1024 * 1024 -> Forall tag_named ts -> block (moved T n nt ts rest) 64 ts rest.
Proof.
  intros S N. pose proof (struct_size_nonneg ts). unfold moved. constructor; rewrite ?hd_struct, ?hd_version, ?hd_ns, ?hd_total by lia; try done; unfold INT_MAX; try lia.
Qed.

Lemma moved_struct T n nt ts rest : h_off_dt_struct (moved T n nt ts rest) = 64.
Proof. by apply hd_struct. Qed.
Lemma moved_nt T n nt ts rest : 0 <= nt < two32 -> h_size_dt_strings (moved T n nt ts rest) = nt.
Proof. apply hd_nt. Qed.

Lemma open_named n ts : Forall (open_tag n) ts -> Forall tag_named ts.
Proof. intros F. eapply Forall_impl; [exact F|]. by intros []. Qed.

(** The offset of one name is corrected where it is. *)
Lemma fix_prop T n nt pre off d post rest :
  - 2 ^ 31 <= off < 0 -> 0 <= nt < two32 ->
  let b := moved T n nt (pre ++ FDT_PROP off d :: post) rest in
  store (64 + struct_size pre + 8) (be 4 (s32 (word b (64 + struct_size pre + 8)) + nt)) b = moved T n nt (pre ++ FDT_PROP (off + nt) d :: post) rest.
Proof.
  intros O N b. pose proof (struct_size_nonneg pre).
  assert (Z : moved T n nt (pre ++ FDT_PROP (off + nt) d :: post) rest =
    (hdr (hd FDT_SW_MAGIC T 64 n 48 0 nt (struct_size (pre ++ FDT_PROP off d :: post))) ++ zfill 24 ++ enc_struct pre ++ be 4 PROP ++ be 4 (zlen d)) ++
    be 4 (off + nt) ++ d ++ pad (zlen d) ++ enc_struct post ++ rest).
  { unfold moved. rewrite !struct_size_app, enc_struct_app. unfold enc_struct at 2. cbn [map concat enc_tag]. rewrite <- !app_assoc. done. }
  assert (B : b = (hdr (hd FDT_SW_MAGIC T 64 n 48 0 nt (struct_size (pre ++ FDT_PROP off d :: post))) ++ zfill 24 ++ enc_struct pre ++ be 4 PROP ++ be 4 (zlen d)) ++
    be 4 off ++ d ++ pad (zlen d) ++ enc_struct post ++ rest).
  { unfold b, moved. rewrite enc_struct_app. unfold enc_struct at 2. cbn [map concat enc_tag]. rewrite <- !app_assoc. done. }
  match type of B with _ = ?a ++ _ => assert (L : zlen a = 64 + struct_size pre + 8) by (rewrite !zlen_app, hd_len, enc_struct_len, !zlen_be, zlen_zfill by lia; lia) end.
  rewrite Z. replace (s32 (word b (64 + struct_size pre + 8))) with off.
  - rewrite B. apply store_split; [done|by rewrite !zlen_be].
  - symmetry. eapply word_neg; [done|]. rewrite B. by apply drop_z.
Qed.

Lemma fix_loop_bytes T n nt todo pre rest fuel :
  64 + struct_size (pre ++ todo ++ [FDT_END]) <= T <= 4 * 1024 * 1024 -> 0 <= nt <= 2 ^ 31 -> Forall tag_named pre -> Forall (open_tag nt) todo ->
  (length todo < fuel)%nat ->
  fix_loop fuel (struct_size pre) (moved T n nt (pre ++ todo ++ [FDT_END]) rest) =
  (struct_size (pre ++ todo ++ [FDT_END]), moved T n nt (pre ++ map (fix_nameoff nt) todo ++ [FDT_END]) rest).
Proof.
  intros S N P O. revert pre fuel S P. induction O as [|t todo Ot O IH]; intros pre fuel S P L; (destruct fuel as [|fuel]; [cbn [length] in L; lia|]); cbn [fix_loop app map].
  - assert (Nm : Forall tag_named (pre ++ [FDT_END])) by (apply Forall_app; by repeat constructor).
    by rewrite (next_tag_block _ _ _ _ (moved_block T n nt (pre ++ [FDT_END]) rest S Nm) pre FDT_END []).
  - assert (Nm : Forall tag_named (pre ++ t :: todo ++ [FDT_END])).
    { apply Forall_app. split; [done|]. constructor; [by destruct t|]. apply Forall_app. split; [by eapply open_named|by repeat constructor]. }
    cbn [app] in S. rewrite (next_tag_block _ _ _ _ (moved_block _ _ _ _ _ S Nm) pre t (todo ++ [FDT_END])) by done.
    assert (G : forall u, tag_size u = tag_size t -> tag_named u -> fix_loop fuel (struct_size (pre ++ [t])) (moved T n nt (pre ++ u :: todo ++ [FDT_END]) rest) =
      (struct_size (pre ++ t :: todo ++ [FDT_END]), moved T n nt (pre ++ u :: map (fix_nameoff nt) todo ++ [FDT_END]) rest)).
    { intros u Su Nu. assert (E : forall l, struct_size ((pre ++ [u]) ++ l) = struct_size (pre ++ t :: l)) by (intros l; rewrite !struct_size_app, !struct_size_cons; cbn; lia).
      replace (struct_size (pre ++ [t])) with (struct_size (pre ++ [u])) by (rewrite !struct_size_app, !struct_size_cons; lia).
      replace (pre ++ u :: todo ++ [FDT_END]) with ((pre ++ [u]) ++ todo ++ [FDT_END]) by (by rewrite <- app_assoc).
      rewrite IH; [|rewrite E; done|apply Forall_app; by repeat constructor|cbn [length] in L; lia]. rewrite E. by rewrite <- (app_assoc pre [u]). }
    destruct t as [nm| |off d|]; [| | |done]; cbn [tag_code fix_nameoff].
    + by apply G.
    + by apply G.
    + change (PROP =? END) with false. change (PROP =? PROP) with true. cbv iota zeta. pose proof (struct_size_nonneg (pre ++ FDT_PROP off d :: todo ++ [FDT_END])).
      rewrite moved_struct, moved_nt by lia. cbn in Ot. rewrite fix_prop by lia. by apply G.
Qed.

Lemma struct_size_ge {N} (ts : list (tag N)) : 4 * zlen ts <= struct_size ts.
Proof. induction ts as [|t ts IH]; [done|]. rewrite zlen_cons, struct_size_cons. pose proof (tag_size_pos t). lia. Qed.

(** A finished blob, not yet packed. *)
Definition finished (f : fdt) : list Z :=
  hdr (hd FDT_MAGIC (fdt_totalsize f) 64 (fdt_off_dt_strings f) 48 FDT_LAST_COMPATIBLE_VERSION (fdt_size_dt_strings f) (fdt_size_dt_struct f)) ++
  zfill 24 ++ enc_struct (fdt_struct f) ++ fdt_strings f.

(** The string table moves down behind the last tag. *)
Lemma strings_moved T ts S :
  fits T (enc_struct ts) S -> exists junk,
  fdt_set_off_dt_strings (64 + struct_size ts) (memmove (64 + struct_size ts) (T - zlen S) (zlen S) (sw T (enc_struct ts) S)) =
  moved T (64 + struct_size ts) (zlen S) ts (S ++ junk).
Proof.
  intros F. pose proof F as F'. unfold fits in F'. rewrite enc_struct_len in F'. pose proof (struct_size_nonneg ts).
  exists (drop (length S) (zfill (T - 64 - struct_size ts - zlen S) ++ S)). unfold sw. rewrite enc_struct_len.
  match goal with |- context [memmove _ _ _ (?h ++ ?z ++ ?e ++ ?g ++ S)] => replace (h ++ z ++ e ++ g ++ S) with ((h ++ z ++ e) ++ g ++ S ++ []) by (by rewrite app_nil_r, <- !app_assoc) end.
  rewrite memmove_split; [| | |done].
  - rewrite <- !app_assoc, set_strings. unfold moved. by rewrite app_nil_r.
  - rewrite !zlen_app, hd_len, enc_struct_len, zlen_zfill by lia. lia.
  - rewrite !zlen_app, hd_len, enc_struct_len, !zlen_zfill by lia. lia.
Qed.

Lemma finish_keeps_step b g :
  rep b g -> Forall (open_tag (zlen (fdt_strings g))) (fdt_struct g) ->
  match Fdt.fdt_finish g with
  | Ok f => exists junk, fdt_finish b = (Ok tt, finished f ++ junk)
  | Err e => (fdt_finish b).1 = Err e
  end.
Proof.
  intros [W ->] O. pose proof (writing_fits g W) as F. unfold Fdt.fdt_finish, fdt_finish. rewrite probe_writing, sw_probe by done.
  rewrite grab_writing by (done || cbn; lia). cbv zeta. set (T := fdt_totalsize g) in *. set (S := fdt_strings g) in *.
  pose proof (sw_word T (enc_struct (fdt_struct g)) S END FDT_END F eq_refl) as K. rewrite <- (enc_struct_one FDT_END), <- enc_struct_app in K.
  set (ts := fdt_struct g ++ [FDT_END]) in *. pose proof W as [_ _ Og _ Mx]. fold T in Mx.
  assert (U : used (with_struct ts g) = 64 + zlen (enc_struct (fdt_struct g)) + 4 + zlen S).
  { unfold used, fdt_size_dt_struct, fdt_size_dt_strings. cbn [with_struct fdt_off_dt_struct fdt_struct fdt_strings]. rewrite Og, enc_struct_len. unfold ts.
    rewrite struct_size_app. cbn [struct_size foldr tag_size]. fold S. unfold struct_size. lia. }
  rewrite U. destruct (Z.leb_spec (64 + zlen (enc_struct (fdt_struct g)) + 4 + zlen S) T) as [L|L]; destruct (fdt_grab_space_ 4 _) as [[en b]|]; try done.
  assert (Kb : store en (be 4 END) b = sw T (enc_struct ts) S) by congruence. rewrite Kb.
  assert (F' : fits T (enc_struct ts) S).
  { unfold fits in *. rewrite !enc_struct_len in *. unfold ts. rewrite struct_size_app. change (struct_size [FDT_END]) with 4. lia. }
  rewrite sw_h_total, sw_h_nt, sw_h_struct, sw_h_ns, enc_struct_len by done. destruct (strings_moved T ts S F') as [junk ->].
  pose proof F' as F2. unfold fits in F2. rewrite enc_struct_len in F2. pose proof (zlen_nonneg S). pose proof (struct_size_nonneg ts).
  pose proof (fix_loop_bytes T (64 + struct_size ts) (zlen S) (fdt_struct g) [] (S ++ junk)) as X. cbn [app] in X. fold ts in X. change (struct_size []) with 0 in X.
  rewrite X; [|lia|lia|constructor|done|].
  2: { pose proof (struct_size_ge ts). unfold moved. rewrite !length_app. pose proof (enc_struct_len ts). unfold ts, zlen in *. rewrite length_app in *. cbn [length] in *. lia. }
  rewrite (proj2 (Z.ltb_ge _ _)) by lia. exists junk. f_equal. rewrite moved_nt by lia. unfold moved. rewrite set_total, set_last, set_magic. unfold finished.
  cbn [fdt_totalsize fdt_off_dt_strings fdt_strings fdt_struct with_struct fdt_off_dt_struct]. rewrite Og. unfold fdt_size_dt_struct, fdt_size_dt_strings. cbn [fdt_struct fdt_strings with_struct].
  fold S. assert (M : map (fix_nameoff (zlen S)) ts = map (fix_nameoff (zlen S)) (fdt_struct g) ++ [FDT_END]) by (unfold ts; by rewrite map_app).
  rewrite M. by rewrite <- !app_assoc.
Qed.

(** ** Packing *)

Definition packs (f : fdt) : Prop :=
  fdt_magic f = FDT_MAGIC /\ fdt_off_dt_strings f = 64 + fdt_size_dt_struct f /\
  fdt_totalsize f = fdt_off_dt_strings f + fdt_size_dt_strings f /\ fdt_totalsize f <= 4 * 1024 * 1024.

Section Pack.
Context (E S junk : list Z) (F : 64 + zlen E + zlen S <= 4 * 1024 * 1024).
Let ns := zlen E.
Let nt := zlen S.
Let b := hdr (hd FDT_MAGIC (64 + ns + nt) 64 (64 + ns) 48 FDT_LAST_COMPATIBLE_VERSION nt ns) ++ zfill 24 ++ E ++ S ++ junk.

Lemma pack_sizes : 0 <= ns /\ 0 <= nt /\ 64 + ns + nt <= 4 * 1024 * 1024.
Proof. unfold ns, nt. pose proof (zlen_nonneg E). pose proof (zlen_nonneg S). lia. Qed.

Lemma pack_probe : fdt_rw_probe_ b = (Ok tt, b).
Proof.
  pose proof pack_sizes as (N1 & N2 & N3). unfold fdt_rw_probe_, fdt_ro_probe_, fdt_blocks_misordered_. cbv zeta. unfold b.
  rewrite hd_magic, hd_total, hd_version, hd_last, hd_rsvmap, hd_struct, hd_strings, hd_ns, hd_nt by (unfold FDT_MAGIC, FDT_LAST_COMPATIBLE_VERSION; lia).
  rewrite Z.eqb_refl. change ((17 <? FDT_FIRST_SUPPORTED_VERSION) || (FDT_LAST_SUPPORTED_VERSION <? FDT_LAST_COMPATIBLE_VERSION)) with false. cbv iota.
  rewrite (proj2 (Z.ltb_lt (64 + ns + nt) INT_MAX)) by (unfold INT_MAX; lia). rewrite (proj2 (Z.ltb_ge (64 + ns + nt) 0)) by lia.
  change (17 <? 17) with false. change (48 <? FDT_ALIGN 40 8) with false. rewrite !u32_small by lia.
  rewrite !(proj2 (Z.ltb_ge _ _)) by lia. done.
Qed.

Lemma pack_num_rsv : fdt_num_mem_rsv b = 0.
Proof.
  pose proof pack_sizes as (N1 & N2 & N3). unfold fdt_num_mem_rsv. cbn [num_mem_rsv_loop]. unfold fdt_mem_rsv. cbv zeta.
  assert (R : h_off_mem_rsvmap b = 48) by (by apply hd_rsvmap). assert (T : h_totalsize b = 64 + ns + nt) by (apply hd_total; lia).
  rewrite R, T. change (u32 (0 * 16)) with 0. rewrite !u32_small, u64_small by lia. rewrite !(proj2 (Z.ltb_ge _ _)) by lia.
  replace (word64 b (48 + 0 * 16 + 8)) with 0; [done|]. unfold word64. change (48 + 0 * 16 + 8) with 56. unfold b.
  change (zfill 24) with (zfill 16 ++ zfill 8). rewrite <- !app_assoc, (app_assoc (hdr _)), drop_z by (rewrite zlen_app, hd_len; done). done.
Qed.

Lemma pack_blocks :
  exists rest, fdt_packblocks_ 16 ns nt b = hdr (hd FDT_MAGIC (64 + ns + nt) 56 (56 + ns) 40 FDT_LAST_COMPATIBLE_VERSION nt ns) ++ zfill 16 ++ E ++ S ++ rest.
Proof.
  pose proof pack_sizes as (N1 & N2 & N3). unfold fdt_packblocks_. cbv zeta. change (FDT_ALIGN 40 8) with 40. change (40 + 16) with 56.
  assert (R : h_off_mem_rsvmap b = 48) by (by apply hd_rsvmap). rewrite R.
  replace (memmove 40 48 16 b) with b.
  2: { unfold b. change (zfill 24) with (zfill 8 ++ zfill 16). rewrite <- !app_assoc, (app_assoc (hdr _)), memmove_store by (rewrite ?zlen_app, ?hd_len; done).
       rewrite <- app_assoc. change (zfill 8 ++ zfill 16 ++ E ++ S ++ junk) with (zfill 16 ++ zfill 8 ++ E ++ S ++ junk). by rewrite store_split by (rewrite ?hd_len; done). }
  unfold b. rewrite set_rsvmap, hd_struct by lia. change (zfill 24) with (zfill 16 ++ zfill 8). rewrite <- app_assoc, (app_assoc (hdr _)).
  rewrite memmove_split by (rewrite ?zlen_app, ?hd_len; done). rewrite <- app_assoc, set_struct, set_ns, hd_strings by lia.
  set (left := drop (length E) (zfill 8 ++ E)). assert (Ll : zlen left = 8) by apply left_behind.
  rewrite (app_assoc (zfill 16)), (app_assoc (hdr _)), memmove_split;
    [|rewrite !zlen_app, hd_len, zlen_zfill by lia; fold ns; lia|rewrite !zlen_app, hd_len, zlen_zfill, Ll by lia; fold ns; lia|done].
  rewrite <- !app_assoc, set_strings, hd_nt, set_nt by lia. eexists. reflexivity.
Qed.

End Pack.

Lemma pack_bytes f junk :
  packs f -> exists rest, (fdt_pack (finished f ++ junk)).2 = flatten (Fdt.fdt_pack f) ++ rest /\
  h_totalsize (flatten (Fdt.fdt_pack f) ++ rest) = zlen (flatten (Fdt.fdt_pack f)).
Proof.
  intros (M & St & To & Mx). rewrite To, St in Mx. unfold fdt_size_dt_struct, fdt_size_dt_strings in *. unfold finished. rewrite To, St, <- !app_assoc.
  unfold fdt_size_dt_struct, fdt_size_dt_strings. rewrite <- enc_struct_len in *. set (E := enc_struct (fdt_struct f)) in *. set (S := fdt_strings f) in *.
  unfold fdt_pack. rewrite pack_probe by done. cbv zeta. rewrite pack_num_rsv by done. change ((0 + 1) * 16) with 16. pose proof (zlen_nonneg E). pose proof (zlen_nonneg S).
  rewrite hd_ns, hd_nt by lia. destruct (pack_blocks E S junk Mx) as [rest ->]. unfold fdt_data_size_. rewrite hd_strings, hd_nt, set_total, u32_small by lia. exists rest. cbn [snd].
  assert (X : flatten (Fdt.fdt_pack f) = hdr (hd FDT_MAGIC (56 + zlen E + zlen S) 56 (56 + zlen E) 40 FDT_LAST_COMPATIBLE_VERSION (zlen S) (zlen E)) ++ zfill 16 ++ E ++ S).
  { unfold flatten, header, Fdt.fdt_pack, fdt_size_dt_struct, fdt_size_dt_strings. cbn [fdt_magic fdt_totalsize fdt_off_dt_struct fdt_off_dt_strings fdt_off_mem_rsvmap fdt_strings fdt_struct].
    rewrite M, <- enc_struct_len. done. }
  rewrite X, <- !app_assoc. split; [done|]. rewrite hd_total by lia. rewrite !zlen_app, hd_len, zlen_zfill by lia. lia.
Qed.

(** ** A build from memory that held anything *)

Lemma names_open tab ts us :
  Forall2 (names tab) ts us -> Forall begin_ok us -> Forall (fun t => t <> FDT_END) us -> Forall (open_tag (zlen tab)) ts.
Proof.
  induction 1 as [|t u ts us N _ IH]; intros B E; [constructor|]. apply Forall_cons in B as [Bu B]. apply Forall_cons in E as [Eu E]. constructor; [|by apply IH].
  destruct t as [a| |off d|], u as [c| |n d'|]; cbn in *; try done; [by subst|]. by destruct N as (_ & R & _).
Qed.

Lemma finish_packs g f : writing g -> Fdt.fdt_finish g = Ok f -> packs f.
Proof.
  intros W. pose proof W as [_ _ Og _ Mx]. unfold Fdt.fdt_finish. rewrite probe_writing, grab_writing by (done || cbn; lia). cbv zeta.
  destruct (Z.leb_spec (used (with_struct (fdt_struct g ++ [FDT_END]) g)) (fdt_totalsize g)) as [U|U]; [|done].
  unfold used, fdt_size_dt_struct, fdt_size_dt_strings in U. cbn [with_struct fdt_off_dt_struct fdt_struct fdt_strings] in U.
  intros [= <-]. unfold packs, fdt_size_dt_struct, fdt_size_dt_strings.
  cbn [with_struct fdt_magic fdt_off_dt_struct fdt_off_dt_strings fdt_totalsize fdt_struct fdt_strings]. rewrite fix_nameoff_size, Og in *. split_and!; [done|done|done|lia].
Qed.

Section Build.
Context (fn : fdt -> result fdt) (ts : list (tag (list Z))).
Hypothesis Emits : emits fn ts.
Hypothesis Names : Forall begin_ok ts.
Hypothesis Open : Forall (fun t => t <> FDT_END) ts.

Lemma try_build_keeps_step size junk :
  64 <= size <= 4 * 1024 * 1024 -> zlen junk = size ->
  match Fdt.fdtutil_try_build fn size with
  | Ok f => exists rest, fdtutil_try_build ts size junk = (Ok tt, finished f ++ rest) /\ packs f
  | Err e => (fdtutil_try_build ts size junk).1 = Err e
  end.
Proof.
  intros S J. pose proof Emits as [K E]. unfold fdtutil_try_build. rewrite create_bytes, reservemap_bytes by done.
  pose proof (fresh_writing size S) as W. rewrite try_build_fresh, E by (done || lia).
  pose proof (write_tags_keep_step ts _ _ (fresh_rep size S) K Open) as P. change (fdt_totalsize (fresh size)) with size in *.
  destruct (Z.leb_spec (used (pushes ts (fresh size))) size) as [U|U].
  - destruct P as (b & -> & R). assert (O : Forall (open_tag (zlen (fdt_strings (pushes ts (fresh size))))) (fdt_struct (pushes ts (fresh size)))).
    { apply (names_open _ _ ts); [|done|done]. by apply (pushes_names ts (fresh size) []). }
    pose proof (finish_keeps_step _ _ R O) as G. destruct (Fdt.fdt_finish (pushes ts (fresh size))) as [f|e] eqn:Fin; [|done].
    destruct G as [rest G]. exists rest. split; [done|]. eapply finish_packs; [|done]. apply R.
  - destruct (write_tags ts (sw size [] [])) as [[|e] b]; [done|]. cbn in P |- *. done.
Qed.

Context `{Alloc} (realloc : Z -> list Z).
Hypothesis Realloc : forall size, 0 <= size -> zlen (realloc size) = size.

(** One round of each loop, given the same continuation. *)
Lemma round_bytes fuel size next :
  64 <= size <= 4 * 1024 * 1024 ->
  (size < 4 * 1024 * 1024 -> build_loop realloc fuel ts (size * 2) = next) ->
  (size < 4 * 1024 * 1024 -> next = match Fdt.build_loop fuel fn (size * 2) with
                                    | Some (Ok f) => Some (Ok (flatten f))
                                    | Some (Err e) => Some (Err e)
                                    | None => None
                                    end) ->
  build_loop realloc (S fuel) ts size = match Fdt.build_loop (S fuel) fn size with
                                        | Some (Ok f) => Some (Ok (flatten f))
                                        | Some (Err e) => Some (Err e)
                                        | None => None
                                        end.
Proof.
  intros S N1 N2. pose proof (try_build_keeps_step size (realloc size) S (Realloc size ltac:(lia))) as T.
  change (build_loop realloc (Datatypes.S fuel) ts size) with
    (if negb (alloc size) then Some (Err ENOMEM) else
     match fdtutil_try_build ts size (realloc size) with
     | (Ok _, b) => Some (Ok (take (Z.to_nat (h_totalsize (fdt_pack b).2)) (fdt_pack b).2))
     | (Err e, _) => if negb (e =? FDT_ERR_NOSPACE) then Some (Err EINVAL) else if 4 * 1024 * 1024 <=? size then Some (Err ENOSPC) else build_loop realloc fuel ts (size * 2)
     end).
  change (Fdt.build_loop (Datatypes.S fuel) fn size) with
    (if negb (alloc size) then Some (Err ENOMEM) else
     match Fdt.fdtutil_try_build fn size with
     | Ok f => Some (Ok (Fdt.fdt_pack f))
     | Err e => if negb (e =? FDT_ERR_NOSPACE) then Some (Err EINVAL) else if 4 * 1024 * 1024 <=? size then Some (Err ENOSPC) else Fdt.build_loop fuel fn (size * 2)
     end).
  destruct (negb (alloc size)); [done|]. destruct (Fdt.fdtutil_try_build fn size) as [f|e].
  - destruct T as (rest & -> & K). destruct (pack_bytes f rest K) as (r & -> & ->). by rewrite take_z.
  - destruct (fdtutil_try_build ts size (realloc size)) as [[|e'] b]; [done|]. injection T as ->. destruct (negb _); [done|].
    destruct (Z.leb_spec (4 * 1024 * 1024) size) as [L|L]; [done|]. by rewrite N1, N2.
Qed.

Lemma build_loop_bytes fuel size :
  64 <= size -> size * 2 ^ Z.of_nat fuel = 4 * 1024 * 1024 ->
  build_loop realloc (S fuel) ts size = match Fdt.build_loop (S fuel) fn size with
                                        | Some (Ok f) => Some (Ok (flatten f))
                                        | Some (Err e) => Some (Err e)
                                        | None => None
                                        end.
Proof.
  revert size. induction fuel as [|fuel IH]; intros size S P.
  - eapply round_bytes; [lia|done|lia].
  - rewrite Nat2Z.inj_succ, Z.pow_succ_r in P by lia. pose proof (Z.pow_pos_nonneg 2 (Z.of_nat fuel) ltac:(lia) ltac:(lia)).
    eapply round_bytes; [nia|done|]. intros L. apply IH; lia.
Qed.

(** Byte for byte the blob of the writer that keeps lists. *)
Lemma build_bytes : fdtutil_build realloc ts = match Fdt.fdtutil_build fn with Ok f => Ok (flatten f) | Err e => Err e end.
Proof.
  unfold fdtutil_build, Fdt.fdtutil_build. rewrite (build_loop_bytes 8) by (done || lia). by destruct (Fdt.build_loop 9 fn (16 * 1024)) as [[]|].
Qed.

End Build.

Lemma toks_open t : Forall (fun u => u <> FDT_END) (toks t).
Proof.
  induction t as [nm ps ks IH] using node_nested_ind. cbn [toks]. constructor; [done|]. apply Forall_app. split; [|apply Forall_app; split; [|by repeat constructor]].
  - apply Forall_map, Forall_forall. by intros [].
  - apply Forall_concat, Forall_map. done.
Qed.

(** C31: What leaves the writer is the tree, in bytes.  In whatever memory
    [realloc] returns, the stores and moves of the sequential writer, its
    correction of the name offsets and [fdt_pack] make exactly the bytes of the
    blob the callback's tags stand for; these bytes, read by libfdt's reader
    with every bounds check it makes, have an accepted header and spell the
    tree that was written: each node's name, the value of every property, the
    subnodes in order and by name, and the nodes paths lead to.  A tree that
    needs more than 4 MiB ends the build with [ENOSPC]. *)
Theorem built_bytes_spell `{AllocOk} fn t realloc :
  emits fn (toks t) -> Forall begin_ok (toks t) -> (forall size, 0 <= size -> zlen (realloc size) = size) ->
  (need (toks t) <= 4 * 1024 * 1024 ->
     exists f, Fdt.fdtutil_build fn = Ok f /\ fdtutil_build realloc (toks t) = Ok (flatten f) /\ zlen (flatten f) = fdt_totalsize f /\ spells (flatten f) t) /\
  (4 * 1024 * 1024 < need (toks t) -> fdtutil_build realloc (toks t) = Err ENOSPC).
Proof.
  intros E B R. rewrite (build_bytes fn (toks t) E B (toks_open t) realloc R). split.
  - intros L. destruct (build_spells fn t E B L) as (f & Bu & Z & Sp). exists f. by rewrite Bu.
  - intros L. pose proof (build_builds fn t E) as Bu. unfold builds in Bu. rewrite (proj2 (Z.leb_gt _ _) L) in Bu. by rewrite Bu.
Qed.

(** Memory full of 0xaa. *)
Definition dirty (size : Z) : list Z := replicate (Z.to_nat size) 0xaa.

Lemma built_bytes_spell_witness :
  let t := Node [] [] [Node (str "memory@1") [(str "id", [1; 2])] []] in
  need (toks t) <= 4 * 1024 * 1024 /\
  exists f, @Fdt.fdtutil_build alloc_always (one_kid (str "memory@1") (str "id") [1; 2]) = Ok f /\
    @fdtutil_build alloc_always dirty (toks t) = Ok (flatten f) /\ zlen (flatten f) = fdt_totalsize f /\ spells (flatten f) t.
Proof.
  split; [vm_compute; discriminate|].
  refine (proj1 (built_bytes_spell (H := alloc_always) _ _ _ _ _ _) _).
  - by apply one_kid_emits.
  - repeat constructor.
  - intros size S. unfold dirty. rewrite zlen_replicate. lia.
  - vm_compute. discriminate.
Defined.
