(* ===== verification/HostTree.v ===== *)
(** * lib/host_tree.c: the machine as the predecessor sees it

    The host tree is written as a device tree node into the overlay that
    creates the successor's instance ([host_tree_emit]), placed by the
    kernel under the successor's [/chosen], and read back by the successor
    from [/proc/device-tree] ([host_tree_read]).  [TreeFiles] is that view
    of a node: a directory per node, a file per property.  The PCI device
    nodes are written by lib/dt.c's [dt_emit_pci_devices]. *)

From S2P Require Import Prelude Cstr Ranges Parse Files Fdt.

(** ** Data *)

Record pci_ids : Type := mk_pci {
  pci_id : list Z;
  pci_vendor : Z;
  pci_device : Z;
  pci_class : Z;
  pci_iommu : Z }.
Definition pci_list : Type := list pci_ids.

Record vmcore_info : Type := mk_vmcore {
  vi_has_page_offset : bool;
  vi_page_offset : Z;
  vi_vmcoreinfo : range;
  vi_cpu_notes : rangelist }.
Definition VMCORE_INFO_INIT : vmcore_info := mk_vmcore false 0 (Range 0 0) [].

Definition vmcore_info_present (vi : vmcore_info) : bool :=
  vi_has_page_offset vi || negb (r_size (vi_vmcoreinfo vi) =? 0) || negb (zlen (vi_cpu_notes vi) =? 0).

Record host_tree : Type := mk_host_tree {
  ht_cpus : cpulist;
  ht_ram : rangeset;
  ht_devices : pci_list;
  ht_vmcore : vmcore_info }.

Definition PATH_MAX : Z := 4096.
Definition NAME_MAX : Z := 255.
Definition slash : list Z := str "/".

(** ** Writing *)

(** lib/dt.c: every colon and dot of the name becomes an underscore. *)
Definition node_char (c : Z) : Z := if (c =? ch ":") || (c =? ch ".") then ch "_" else c.
Definition pci_node_name (id : list Z) : list Z := map node_char (snprintf [] 32 (str "pci_" ++ id)).

Definition emit_pci_device_node (host : bool) (_ : Z) (d : pci_ids) (f : fdt) : result fdt :=
  let? f := fdt_begin_node f (pci_node_name (pci_id d)) in
  let? f := fdt_property_string f (str "device-type") (str "pci") in
  let? f := fdt_property_string f (str "pci-id") (pci_id d) in
  let? f := fdt_property_u32 f (str "vendor-id") (pci_vendor d) in
  let? f := fdt_property_u32 f (str "device-id") (pci_device d) in
  let? f := if host then fdt_property_u32 f (str "class-code") (pci_class d) else Ok f in
  let? f := if host && negb (pci_iommu d =? 0)
            then fdt_property_u64 f (str "multikernel,iommu-base") (pci_iommu d) else Ok f in
  fdt_end_node f.

Definition emit_pci_device_nodes (devices : pci_list) (host : bool) (f : fdt) : result fdt :=
  each (emit_pci_device_node host) 0 devices f.

Definition dt_emit_pci_devices (devices : pci_list) (f : fdt) : result fdt :=
  let? f := fdt_begin_node f (str "devices") in
  let? f := emit_pci_device_nodes devices true f in
  fdt_end_node f.

Definition emit_cells (f : fdt) : result fdt :=
  let? f := fdt_property_u32 f (str "#address-cells") 2 in
  fdt_property_u32 f (str "#size-cells") 2.

Section Alloc.
Context `{Alloc}.

Definition emit_vmcore (vi : vmcore_info) (f : fdt) : result fdt :=
  let? f := fdt_begin_node f (str "vmcore") in
  let? f := emit_cells f in
  let? f := if vi_has_page_offset vi
            then fdt_property_u64 f (str "page-offset") (vi_page_offset vi) else Ok f in
  let? f := if negb (r_size (vi_vmcoreinfo vi) =? 0) then
              let? f := fdt_begin_node f (str "vmcoreinfo") in
              let? f := fdtutil_prop_reg f (r_base (vi_vmcoreinfo vi)) (r_size (vi_vmcoreinfo vi)) in
              fdt_end_node f
            else Ok f in
  let? f := if negb (zlen (vi_cpu_notes vi) =? 0) then
              let? f := fdt_begin_node f (str "cpu-notes") in
              let? f := fdtutil_prop_regs f (vi_cpu_notes vi) in
              fdt_end_node f
            else Ok f in
  fdt_end_node f.

Definition memory_node_name (base : Z) : list Z := snprintf [] 32 (str "memory@" ++ hex base).

Definition emit_ram_node (_ : Z) (r : range) (f : fdt) : result fdt :=
  let? f := fdt_begin_node f (memory_node_name (r_base r)) in
  let? f := fdt_property_string f (str "device_type") (str "memory") in
  let? f := fdtutil_prop_reg f (r_base r) (r_size r) in
  fdt_end_node f.

Definition host_tree_emit (ht : host_tree) (f : fdt) : result fdt :=
  if (zlen (ht_cpus ht) =? 0) || (zlen (rs_r (ht_ram ht)) =? 0) then Err EINVAL else
  let? f := emit_cells f in
  let? f := fdtutil_prop_cpulist f (str "cpus") (ht_cpus ht) in
  let? f := each emit_ram_node 0 (rs_r (ht_ram ht)) f in
  let? f := if negb (zlen (ht_devices ht) =? 0) then dt_emit_pci_devices (ht_devices ht) f else Ok f in
  if vmcore_info_present (ht_vmcore ht) then emit_vmcore (ht_vmcore ht) f else Ok f.

End Alloc.

(** ** Reading *)

(** [strcmp] order, that of [alphasort] in the C locale *)
Fixpoint strle (a b : list Z) : bool :=
  match a, b with
  | [], _ => true
  | _ :: _, [] => false
  | x :: a, y :: b => if x =? y then strle a b else x <? y
  end.
Definition name_le (a b : list Z) : Prop := strle a b = true.
#[export] Instance name_le_dec a b : Decision (name_le a b).
Proof. unfold name_le. apply _. Defined.

Definition alphasort (l : list (list Z)) : list (list Z) := merge_sort name_le l.

Section Reading.
Context `{Alloc} `{Files}.

(** [scandir] with a prefix filter, in name order *)
Definition scandir (path prefix : list Z) : result (list (list Z)) :=
  let? names := dir_list path in Ok (alphasort (List.filter (starts prefix) names)).

Definition read_reg_file (dir name : list Z) (ram : rangeset) : result rangeset :=
  let path := snprintf [] PATH_MAX (dir ++ slash ++ name ++ str "/reg") in
  let? cells := file_read path in
  if zlen cells =? 2 * 8 then
    match rangeset_add ram (cell64 cells 0) (cell64 cells 1) with
    | (Ok _, ram) => Ok ram
    | (Err e, _) => Err e
    end
  else Err EINVAL.

Fixpoint read_reg_files (dir : list Z) (names : list (list Z)) (ram : rangeset) : result rangeset :=
  match names with
  | [] => Ok ram
  | name :: names => let? ram := read_reg_file dir name ram in read_reg_files dir names ram
  end.

(** A missing file is no file rather than an error. *)
Definition read_optional (dir rel : list Z) : result (option (list Z)) :=
  match file_read (snprintf [] PATH_MAX (dir ++ slash ++ rel)) with
  | Ok buf => Ok (Some buf)
  | Err e => if e =? ENOENT then Ok None else Err e
  end.

Definition read_vmcore (dir : list Z) (vi : vmcore_info) : result vmcore_info :=
  let? buf := read_optional dir (str "vmcore/page-offset") in
  let? vi := match buf with
             | None => Ok vi
             | Some buf =>
                 if negb (zlen buf =? 8) then Err EINVAL
                 else Ok (mk_vmcore true (cell64 buf 0) (vi_vmcoreinfo vi) (vi_cpu_notes vi))
             end in
  let? buf := read_optional dir (str "vmcore/vmcoreinfo/reg") in
  let? vi := match buf with
             | None => Ok vi
             | Some buf =>
                 if negb (zlen buf =? 2 * 8) then Err EINVAL
                 else Ok (mk_vmcore (vi_has_page_offset vi) (vi_page_offset vi)
                            (Range (cell64 buf 0) (cell64 buf 1)) (vi_cpu_notes vi))
             end in
  let? buf := read_optional dir (str "vmcore/cpu-notes/reg") in
  match buf with
  | None => Ok vi
  | Some buf =>
      let? notes := fdtutil_cells_to_rangelist buf in
      Ok (mk_vmcore (vi_has_page_offset vi) (vi_page_offset vi) (vi_vmcoreinfo vi) notes)
  end.

(** The value in the file, or what was there before. *)
Definition read_device_u32 (dir node prop : list Z) (v : Z) : result Z :=
  let rel := snprintf [] (NAME_MAX + 32) (str "devices/" ++ node ++ slash ++ prop) in
  let? cell := read_optional dir rel in
  match cell with
  | None => Ok v
  | Some cell => if zlen cell =? 4 then Ok (cell32 cell 0) else Err EINVAL
  end.

Definition read_pci_device (dir node : list Z) : result pci_ids :=
  let path := snprintf [] PATH_MAX (dir ++ str "/devices/" ++ node ++ str "/pci-id") in
  let? id := file_read path in
  let len := zlen id in
  if negb (negb (len =? 0) && (len <=? 16) && (cn id (length id - 1) =? 0)) then Err EINVAL else
  let? vendor := read_device_u32 dir node (str "vendor-id") 0 in
  let? device := read_device_u32 dir node (str "device-id") 0 in
  let? class := read_device_u32 dir node (str "class-code") 0 in
  Ok (mk_pci (cstr_of id) vendor device class 0).

Fixpoint read_pci_devices (dir : list Z) (nodes : list (list Z)) (out : pci_list) : result pci_list :=
  match nodes with
  | [] => Ok out
  | n :: nodes => let? d := read_pci_device dir n in read_pci_devices dir nodes (out ++ [d])
  end.

(** [sizeof(struct pci_ids)] is 40. *)
Definition read_devices (dir : list Z) : result pci_list :=
  match scandir (snprintf [] PATH_MAX (dir ++ str "/devices")) (str "pci_") with
  | Err e => if e =? ENOENT then Ok [] else Err e
  | Ok nodes => if negb (alloc ((zlen nodes + 1) * 40)) then Err ENOMEM else read_pci_devices dir nodes []
  end.

Definition host_tree_read (dir : list Z) : result host_tree :=
  let? cells := file_read (snprintf [] PATH_MAX (dir ++ str "/cpus")) in
  let? cpus := fdtutil_cells_to_cpulist cells in
  let? nodes := scandir dir (str "memory@") in
  let? ram := read_reg_files dir nodes RANGESET_INIT in
  let? devices := read_devices dir in
  let? vmcore := read_vmcore dir VMCORE_INFO_INIT in
  Ok (mk_host_tree cpus ram devices vmcore).

End Reading.

(** ** A node as /proc/device-tree shows it *)

Fixpoint node_file (fuel : nat) (n : node) (rel : list Z) : result (list Z) :=
  match fuel with
  | O => Err ENOENT
  | S fuel =>
      let '(name, rest) := split_at (ch "/") rel in
      match rest with
      | None => match fdt_getprop n name with Some d => Ok d | None => Err ENOENT end
      | Some rest =>
          match List.find (fun k => streq (node_name k) name) (node_kids n) with
          | Some k => node_file fuel k (drop 1 rest)
          | None => Err ENOENT
          end
      end
  end.

Definition node_entries (n : node) : list (list Z) := map fst (node_props n) ++ map node_name (node_kids n).

Fixpoint node_dir (fuel : nat) (n : node) (rel : list Z) : result (list (list Z)) :=
  match fuel with
  | O => Err ENOENT
  | S fuel =>
      match rel with
      | [] => Ok (node_entries n)
      | _ :: rel =>
          let '(name, rest) := split_at (ch "/") rel in
          match List.find (fun k => streq (node_name k) name) (node_kids n) with
          | Some k => node_dir fuel k (match rest with Some r => r | None => [] end)
          | None => Err ENOENT
          end
      end
  end.

(** The part of [p] below [dir]. *)
Definition below (dir p : list Z) : option (list Z) :=
  if starts dir p then Some (drop (length dir) p) else None.

Definition TreeFiles (dir : list Z) (n : node) : Files := {|
  file_read p := match below (dir ++ slash) p with
                 | Some rel => node_file (S (length rel)) n rel
                 | None => Err ENOENT end;
  dir_list p := match below dir p with
                | Some rel => node_dir (S (length rel)) n rel
                | None => Err ENOENT end |}.

#[export] Instance name_le_total : Total name_le.
Proof.
  intros a. unfold name_le. induction a as [|x a IH]; intros [|y b]; cbn [strle]; auto.
  rewrite (Z.eqb_sym y x). destruct (Z.eqb_spec x y); [apply IH|].
  rewrite !Z.ltb_lt. lia.
Qed.

#[export] Instance name_le_trans : Transitive name_le.
Proof.
  intros a. unfold name_le. induction a as [|x a IH]; intros [|y b] [|z c]; cbn [strle]; try done.
  destruct (Z.eqb_spec x y), (Z.eqb_spec y z), (Z.eqb_spec x z); subst; rewrite ?Z.ltb_lt; try lia; eauto.
Qed.

#[export] Instance name_le_antisymm : AntiSymm (=) name_le.
Proof.
  intros a. unfold name_le. induction a as [|x a IH]; intros [|y b]; cbn [strle]; try done.
  rewrite (Z.eqb_sym y x). destruct (Z.eqb_spec x y); [subst; intros; f_equal; auto|].
  rewrite !Z.ltb_lt. lia.
Qed.

Lemma alphasort_perm l : alphasort l ≡ₚ l.
Proof. apply merge_sort_Permutation. Qed.

Lemma alphasort_sorted l : StronglySorted name_le l -> alphasort l = l.
Proof.
  intros S. apply (StronglySorted_unique name_le); [|done|apply alphasort_perm].
  apply Sorted_StronglySorted; [apply _|]. apply Sorted_merge_sort. apply _.
Qed.

(** ** What is written *)

Definition zstr (s : list Z) : list Z := s ++ [0].

Definition pci_node (host : bool) (d : pci_ids) : node :=
  Node (pci_node_name (pci_id d))
    ([(str "device-type", zstr (str "pci")); (str "pci-id", zstr (pci_id d));
      (str "vendor-id", cpu_to_fdt32 (pci_vendor d)); (str "device-id", cpu_to_fdt32 (pci_device d))]
     ++ (if host then [(str "class-code", cpu_to_fdt32 (pci_class d))] else [])
     ++ (if host && negb (pci_iommu d =? 0)
         then [(str "multikernel,iommu-base", cpu_to_fdt64 (pci_iommu d))] else [])) [].

Definition cells_props : list (list Z * list Z) :=
  [(str "#address-cells", cpu_to_fdt32 2); (str "#size-cells", cpu_to_fdt32 2)].

Definition reg_node (name : list Z) (regs : list range) : node :=
  Node name [(str "reg", concat (map reg_cells regs))] [].

Definition vmcore_node (vi : vmcore_info) : node :=
  Node (str "vmcore")
    (cells_props ++ if vi_has_page_offset vi then [(str "page-offset", cpu_to_fdt64 (vi_page_offset vi))] else [])
    ((if negb (r_size (vi_vmcoreinfo vi) =? 0) then [reg_node (str "vmcoreinfo") [vi_vmcoreinfo vi]] else [])
     ++ if negb (zlen (vi_cpu_notes vi) =? 0) then [reg_node (str "cpu-notes") (vi_cpu_notes vi)] else []).

Definition ram_node (r : range) : node :=
  Node (memory_node_name (r_base r)) [(str "device_type", zstr (str "memory")); (str "reg", reg_cells r)] [].

Definition devices_node (l : pci_list) : node := Node (str "devices") [] (map (pci_node true) l).

Definition ht_props (ht : host_tree) : list (list Z * list Z) :=
  cells_props ++ [(str "cpus", cells64 (ht_cpus ht))].
Definition ht_kids (ht : host_tree) : list node :=
  map ram_node (rs_r (ht_ram ht))
  ++ (if negb (zlen (ht_devices ht) =? 0) then [devices_node (ht_devices ht)] else [])
  ++ (if vmcore_info_present (ht_vmcore ht) then [vmcore_node (ht_vmcore ht)] else []).

(** The node of a host tree. *)
Definition host_node (name : list Z) (ht : host_tree) : node := Node name (ht_props ht) (ht_kids ht).

(** A host tree as [gather_host_tree] makes it: ids that are C strings
    without slashes, numbers at their widths, nodes in name order. *)
Record pci_wf (d : pci_ids) : Prop := {
  pw_id : cstring (pci_id d) /\ (length (pci_id d) <= 15)%nat /\ ch "/" ∉ pci_id d;
  pw_vendor : 0 <= pci_vendor d < two32;
  pw_device : 0 <= pci_device d < two32;
  pw_class : 0 <= pci_class d < two32;
  pw_iommu : is_u64 (pci_iommu d) }.

Record vmcore_wf (vi : vmcore_info) : Prop := {
  vw_page : is_u64 (vi_page_offset vi);
  vw_no_page : vi_has_page_offset vi = false -> vi_page_offset vi = 0;
  vw_info : range_u64 (vi_vmcoreinfo vi);
  vw_no_info : r_size (vi_vmcoreinfo vi) = 0 -> r_base (vi_vmcoreinfo vi) = 0;
  vw_notes : Forall range_u64 (vi_cpu_notes vi);
  vw_count : zlen (vi_cpu_notes vi) < 2 ^ 26 }.

Definition node_names (l : pci_list) : list (list Z) := map (fun d => pci_node_name (pci_id d)) l.

Record ht_wf (ht : host_tree) : Prop := {
  hw_cpus : Forall is_u64 (ht_cpus ht);
  hw_some_cpu : 0 < zlen (ht_cpus ht) < 2 ^ 27;
  hw_ram : rs_wf (ht_ram ht);
  hw_some_ram : rs_r (ht_ram ht) <> [];
  hw_pci : Forall pci_wf (ht_devices ht);
  hw_names : NoDup (node_names (ht_devices ht));
  hw_vmcore : vmcore_wf (ht_vmcore ht) }.

Lemma snprintf_short n s : (Z.of_nat (length s) < n) -> snprintf [] n s = s.
Proof. intros L. unfold snprintf. destruct (Z.eqb_spec n 0); [lia|]. apply take_ge. lia. Qed.

Lemma snprintf_length n s : 0 < n -> zlen (snprintf [] n s) < n.
Proof. intros L. unfold snprintf, zlen. destruct (Z.eqb_spec n 0); [lia|]. rewrite length_take. lia. Qed.

Lemma emits_pci_node host i d : pci_wf d -> emits (emit_pci_device_node host i d) (toks (pci_node host d)).
Proof.
  intros [(_ & L & _) _ _ _ _]. unfold emit_pci_device_node. eapply emits_eq; [emit_calls|].
  - unfold pci_node_name, zlen. rewrite length_map. pose proof (snprintf_length 32 (str "pci_" ++ pci_id d)). unfold zlen in *. lia.
  - unfold zlen. lia.
  - cbn [toks pci_node]. destruct host; cbn [andb]; [destruct (negb _)|]; reflexivity.
Qed.

Lemma concat_imap_const {A B} (g : A -> list B) (l : list A) :
  concat (imap (fun _ x => g x) l) = concat (map g l).
Proof. f_equal. change (fun _ => g) with (const g : nat -> A -> list B). induction l as [|x l IH]; [done|]. cbn. f_equal. apply IH. Qed.

Lemma emits_each_nodes {A} (op : Z -> A -> fdt -> result fdt) (t : A -> node) i l :
  (forall j x, x ∈ l -> emits (op j x) (toks (t x))) ->
  emits (each op i l) (concat (map toks (map t l))).
Proof.
  intros E. eapply emits_eq; [apply (emits_each op (fun _ x => toks (t x))); done|].
  rewrite concat_imap_const. by rewrite map_map.
Qed.

Lemma emits_pci_nodes host l :
  Forall pci_wf l -> emits (emit_pci_device_nodes l host) (concat (map toks (map (pci_node host) l))).
Proof.
  intros F. apply emits_each_nodes. intros j d D. rewrite Forall_forall in F. by apply emits_pci_node, F.
Qed.

Lemma emits_devices l : Forall pci_wf l -> emits (dt_emit_pci_devices l) (toks (devices_node l)).
Proof.
  intros F. unfold dt_emit_pci_devices. eapply emits_eq.
  - eapply emits_bind; [by apply emits_begin_node|]. eapply emits_bind; [by apply emits_pci_nodes|apply emits_end_node].
  - done.
Qed.

Lemma emits_cells : emits emit_cells (map prop_tag cells_props).
Proof. unfold emit_cells. eapply emits_eq; [emit_calls|done]. Qed.

Lemma regs_length l : zlen (concat (map reg_cells l)) = zlen l * 16.
Proof. rewrite regs_flat. unfold zlen. rewrite cells64_length, flat_length. lia. Qed.

Section EmitAlloc.
Context `{AllocOk}.

Lemma emits_prop_cpulist n l :
  short_name n = true -> zlen l < 2 ^ 27 -> emits (fun f => fdtutil_prop_cpulist f n l) [FDT_PROP n (cells64 l)].
Proof.
  intros S L. unfold fdtutil_prop_cpulist. rewrite alloc_ok. apply emits_prop; [done|].
  unfold zlen in *. change (concat (map cpu_to_fdt64 l)) with (cells64 l). rewrite cells64_length. lia.
Qed.

Lemma emits_prop_regs l :
  zlen l < 2 ^ 26 -> emits (fun f => fdtutil_prop_regs f l) [FDT_PROP (str "reg") (concat (map reg_cells l))].
Proof.
  intros L. unfold fdtutil_prop_regs. rewrite alloc_ok. apply emits_prop; [done|]. rewrite regs_length. lia.
Qed.

Lemma emits_vmcore vi : vmcore_wf vi -> emits (emit_vmcore vi) (toks (vmcore_node vi)).
Proof.
  intros []. unfold emit_vmcore. eapply emits_eq.
  - eapply emits_bind; [by apply emits_begin_node|]. eapply emits_bind; [apply emits_cells|].
    emit_calls. by apply emits_prop_regs.
  - cbn [toks vmcore_node]. repeat case_bool; reflexivity.
Qed.

Lemma emits_ram_node i r : emits (emit_ram_node i r) (toks (ram_node r)).
Proof.
  unfold emit_ram_node. eapply emits_eq; [emit_calls|].
  - pose proof (snprintf_length 32 (str "memory@" ++ hex (r_base r))). unfold memory_node_name. lia.
  - by destruct r.
Qed.

Lemma emits_host_tree ht :
  ht_wf ht -> emits (host_tree_emit ht) (map prop_tag (ht_props ht) ++ concat (map toks (ht_kids ht))).
Proof.
  intros []. unfold host_tree_emit.
  rewrite (proj2 (Z.eqb_neq (zlen (ht_cpus ht)) 0)) by lia.
  rewrite (proj2 (Z.eqb_neq (zlen (rs_r (ht_ram ht))) 0)) by (destruct (rs_r _); [done|rewrite zlen_cons; pose proof (zlen_nonneg l); lia]).
  cbn [orb]. eapply emits_eq.
  - eapply emits_bind; [apply emits_cells|]. eapply emits_bind; [apply emits_prop_cpulist; [done|lia]|].
    eapply emits_bind; [apply (emits_each_nodes emit_ram_node ram_node); intros; apply emits_ram_node|].
    eapply emits_bind; apply emits_if; intros _; [by apply emits_devices|by apply emits_vmcore].
  - unfold ht_props, ht_kids. rewrite !map_app, !concat_app, <- !app_assoc. f_equal. cbn [app map]. f_equal. f_equal.
    do 2 (case_bool; [cbn [map concat]; rewrite ?app_nil_r|]); reflexivity.
Qed.

End EmitAlloc.

(** ** The round trip *)

Definition no_slash (s : list Z) : bool := forallb (fun c => negb (c =? ch "/")) s.

Lemma no_slash_spec s : no_slash s = true <-> ch "/" ∉ s.
Proof.
  unfold no_slash. rewrite forallb_forall. split.
  - intros N I. apply list_elem_of_In, N in I. by rewrite Z.eqb_refl in I.
  - intros N c C. apply negb_true_iff, Z.eqb_neq. intros ->. by apply N, list_elem_of_In.
Qed.

Lemma no_slash_app a b : no_slash (a ++ b) = no_slash a && no_slash b.
Proof. apply forallb_app. Qed.

Lemma below_app p q : below p (p ++ q) = Some q.
Proof.
  unfold below. rewrite (proj2 (starts_spec p (p ++ q))) by eauto. by rewrite drop_app_length.
Qed.

Definition kid (n : node) (a : list Z) : option node :=
  List.find (fun k => streq (node_name k) a) (node_kids n).

Lemma node_file_leaf fuel n a :
  no_slash a = true ->
  node_file (S fuel) n a = match fdt_getprop n a with Some d => Ok d | None => Err ENOENT end.
Proof. intros N. cbn [node_file]. by rewrite split_at_none by (by apply no_slash_spec). Qed.

Lemma node_file_kid fuel n a rel :
  no_slash a = true ->
  node_file (S fuel) n (a ++ slash ++ rel)
  = match kid n a with Some k => node_file fuel k rel | None => Err ENOENT end.
Proof.
  intros N. cbn [node_file]. change (slash ++ rel) with (ch "/" :: rel).
  rewrite split_at_some by (by apply no_slash_spec). done.
Qed.

Lemma tree_file dir n rel :
  Z.of_nat (length dir + length rel) < 4095 ->
  @file_read (TreeFiles dir n) (snprintf [] PATH_MAX (dir ++ slash ++ rel)) = node_file (S (length rel)) n rel.
Proof.
  intros L. rewrite snprintf_short.
  - cbn [file_read TreeFiles]. by rewrite app_assoc, below_app.
  - rewrite !length_app. change (length slash) with 1%nat. unfold PATH_MAX. lia.
Qed.

Lemma find_kid ks k :
  NoDup (map node_name ks) -> k ∈ ks -> List.find (fun k' => streq (node_name k') (node_name k)) ks = Some k.
Proof.
  induction ks as [|x ks IH]; intros N I; [by apply not_elem_of_nil in I|]. cbn [List.find map] in *.
  apply NoDup_cons in N as [N1 N2]. unfold streq. case_bool_decide as E.
  - apply elem_of_cons in I as [->|I]; [done|]. destruct N1. rewrite E. by apply list_elem_of_fmap_2.
  - apply elem_of_cons in I as [->|I]; [done|]. by apply IH.
Qed.

Lemma find_kid_none ks a :
  a ∉ map node_name ks -> List.find (fun k => streq (node_name k) a) ks = None.
Proof.
  induction ks as [|x ks IH]; intros N; [done|]. cbn [List.find map] in *.
  apply not_elem_of_cons in N as [N1 N2]. unfold streq. rewrite bool_decide_eq_false_2 by done. by apply IH.
Qed.

Lemma hex_inj a b : is_u64 a -> is_u64 b -> hex a = hex b -> a = b.
Proof.
  intros Ha Hb E. pose proof (digits_num 16 a [] ltac:(lia) ltac:(unfold is_u64 in *; lia) eq_refl) as A.
  pose proof (digits_num 16 b [] ltac:(lia) ltac:(unfold is_u64 in *; lia) eq_refl) as B.
  fold (hex a) in A. fold (hex b) in B. rewrite E, B in A. congruence.
Qed.

Lemma num_fuel_length16 fuel k n acc :
  0 <= n < 16 ^ Z.of_nat k -> (0 < k)%nat -> (length (num_fuel 16 fuel n acc) <= k + length acc)%nat.
Proof.
  revert k n acc. induction fuel as [|fuel IH]; intros k n acc Hn Hk; cbn [num_fuel]; [lia|].
  destruct (Z.eqb_spec (n / 16) 0) as [E|E]; [cbn [length]; lia|].
  destruct k as [|k]; [lia|]. rewrite Nat2Z.inj_succ, Z.pow_succ_r in Hn by lia.
  assert (0 <= n / 16 < 16 ^ Z.of_nat k).
  { split; [apply Z.div_pos; lia|apply Z.div_lt_upper_bound; lia]. }
  destruct k as [|k]; [cbn in *; lia|].
  pose proof (IH (S k) (n / 16) (digit_char (n mod 16) :: acc) ltac:(done) ltac:(lia)) as I. cbn [length] in I. lia.
Qed.

Lemma hex_length x : is_u64 x -> (length (hex x) <= 16)%nat.
Proof. intros H. pose proof (num_fuel_length16 64 16 x [] H ltac:(lia)) as L. cbn [length] in L. unfold hex. lia. Qed.

Lemma hex_no_slash x : is_u64 x -> no_slash (hex x) = true.
Proof.
  intros H. destruct (num_fuel_spec 16 64 x [] ltac:(lia)) as (d & ds & E & F & _); [unfold is_u64 in H; change (16 ^ Z.of_nat 64) with (16 ^ 64); lia|lia|].
  unfold hex. rewrite E, app_nil_r. apply forallb_forall. intros c C. apply list_elem_of_In in C.
  rewrite Forall_forall in F. destruct (F c C) as [D _]. apply negb_true_iff, Z.eqb_neq. intros ->. by vm_compute in D.
Qed.

Lemma memory_name_eq x : is_u64 x -> memory_node_name x = str "memory@" ++ hex x.
Proof.
  intros H. unfold memory_node_name. apply snprintf_short. rewrite length_app.
  pose proof (hex_length x H). change (length (str "memory@")) with 7%nat. lia.
Qed.

Lemma memory_name_no_slash x : is_u64 x -> no_slash (memory_node_name x) = true.
Proof. intros H. by rewrite memory_name_eq, no_slash_app, hex_no_slash. Qed.

Lemma memory_name_inj x y : is_u64 x -> is_u64 y -> memory_node_name x = memory_node_name y -> x = y.
Proof. intros Hx Hy. rewrite !memory_name_eq by done. intros E. apply app_inv_head in E. by apply hex_inj. Qed.

Lemma pci_name_eq id : (length id <= 15)%nat -> pci_node_name id = str "pci_" ++ map node_char id.
Proof.
  intros L. unfold pci_node_name. rewrite snprintf_short.
  - by rewrite map_app.
  - rewrite length_app. change (length (str "pci_")) with 4%nat. lia.
Qed.

Lemma pci_name_no_slash d : pci_wf d -> no_slash (pci_node_name (pci_id d)) = true.
Proof.
  intros [(_ & L & N) _ _ _ _]. rewrite pci_name_eq, no_slash_app by done.
  change (no_slash (str "pci_")) with true. cbn [andb]. apply no_slash_spec in N.
  unfold no_slash in *. rewrite forallb_forall in *. intros c C. apply in_map_iff in C as (x & <- & X).
  apply N in X. unfold node_char. by case_bool.
Qed.

Lemma pci_name_length d : pci_wf d -> (length (pci_node_name (pci_id d)) <= 19)%nat.
Proof. intros [(_ & L & _) _ _ _ _]. rewrite pci_name_eq, length_app, length_map by done. change (length (str "pci_")) with 4%nat. lia. Qed.

Section Travel.
Context `{AllocOk} (dir name : list Z) (ht : host_tree).
Hypothesis dir_short : Z.of_nat (length dir) < 3000.
Hypothesis wf : ht_wf ht.

Let n : node := host_node name ht.
#[local] Instance travel_files : Files := TreeFiles dir n.

Definition mname (r : range) : list Z := memory_node_name (r_base r).

Lemma ram_u64 r : r ∈ rs_r (ht_ram ht) -> is_u64 (r_base r) /\ is_u64 (r_size r) /\ 0 < r_size r /\ r_base r + r_size r < two64.
Proof.
  destruct wf as [_ _ [W _] _ _ _ _]. apply wf_from_ends in W. rewrite Forall_forall in W. intros R.
  apply W in R. unfold is_u64. lia.
Qed.

Lemma mname_starts r : r ∈ rs_r (ht_ram ht) -> exists t, mname r = str "memory@" ++ t.
Proof. intros R. apply ram_u64 in R as (B & _). unfold mname. rewrite memory_name_eq by done. eauto. Qed.

Lemma mnames_nodup : NoDup (map mname (rs_r (ht_ram ht))).
Proof.
  pose proof ram_u64 as U. destruct wf as [_ _ [W _] _ _ _ _]. revert W U. generalize (-1).
  induction (rs_r (ht_ram ht)) as [|r l IH]; intros lo W U; cbn [map]; [constructor|].
  destruct W as (H1 & H2 & H3 & H4). constructor.
  - intros I. apply list_elem_of_fmap_1 in I as (r' & E & R).
    apply memory_name_inj in E; [|apply U; by left|apply U; by right].
    apply wf_from_ends in H4. rewrite Forall_forall in H4. apply H4 in R. lia.
  - apply (IH _ H4). intros r' R. apply U. by right.
Qed.

Definition tail_kids : list node :=
  (if negb (zlen (ht_devices ht) =? 0) then [devices_node (ht_devices ht)] else [])
  ++ (if vmcore_info_present (ht_vmcore ht) then [vmcore_node (ht_vmcore ht)] else []).

Lemma kid_names : map node_name (ht_kids ht) = map mname (rs_r (ht_ram ht)) ++ map node_name tail_kids.
Proof. unfold ht_kids. rewrite map_app, map_map. done. Qed.

Lemma tail_names k : k ∈ tail_kids -> node_name k = str "devices" \/ node_name k = str "vmcore".
Proof.
  unfold tail_kids. repeat case_bool; cbn [app]; rewrite ?elem_of_cons, ?elem_of_nil; intuition subst; auto.
Qed.

Lemma kids_nodup : NoDup (map node_name (ht_kids ht)).
Proof.
  rewrite kid_names. apply NoDup_app. split; [apply mnames_nodup|]. split.
  - intros a A T. apply list_elem_of_fmap_1 in A as (r & -> & R). apply mname_starts in R as (t & S).
    apply list_elem_of_fmap_1 in T as (k & E & K). rewrite S in E.
    apply tail_names in K as [K|K]; rewrite K in E; discriminate E.
  - unfold tail_kids. repeat case_bool; cbn; repeat constructor; rewrite ?elem_of_cons, ?elem_of_nil; intros [E|[]] || intros []; discriminate E.
Qed.

Lemma kid_in k : k ∈ ht_kids ht -> kid n (node_name k) = Some k.
Proof. intros K. apply (find_kid (ht_kids ht)); [apply kids_nodup|done]. Qed.

Lemma kid_out a :
  (forall t, a <> str "memory@" ++ t) -> (forall k, k ∈ tail_kids -> node_name k <> a) -> kid n a = None.
Proof.
  intros M T. apply find_kid_none. cbn [node_kids n host_node]. rewrite kid_names, elem_of_app.
  intros [I|I]; apply list_elem_of_fmap_1 in I as (x & -> & X).
  - apply mname_starts in X as (t & E). by apply (M t).
  - by eapply T.
Qed.

(** *** CPUs and memory *)

Lemma read_cpus : @file_read travel_files (snprintf [] PATH_MAX (dir ++ str "/cpus")) = Ok (cells64 (ht_cpus ht)).
Proof.
  change (str "/cpus") with (slash ++ str "cpus"). unfold travel_files. rewrite tree_file; [|change (length (str "cpus")) with 4%nat; lia].
  by rewrite node_file_leaf.
Qed.

Lemma read_ram_reg r ram :
  r ∈ rs_r (ht_ram ht) ->
  read_reg_file dir (mname r) ram
  = match rangeset_add ram (r_base r) (r_size r) with (Ok _, s) => Ok s | (Err e, _) => Err e end.
Proof.
  intros R. pose proof (ram_u64 r R) as (B & S & _). unfold read_reg_file, travel_files. cbv zeta.
  assert (Ln : (length (mname r) < 32)%nat).
  { unfold mname. pose proof (snprintf_length 32 (str "memory@" ++ hex (r_base r)) ltac:(lia)).
    unfold memory_node_name, zlen in *. lia. }
  change (str "/reg") with (slash ++ str "reg").
  rewrite tree_file by (rewrite !length_app; change (length slash) with 1%nat; change (length (str "reg")) with 3%nat; lia).
  rewrite node_file_kid by (unfold mname; by apply memory_name_no_slash).
  replace (kid n (mname r)) with (Some (ram_node r)).
  2: { symmetry. apply (kid_in (ram_node r)). unfold ht_kids. apply elem_of_app. left. by apply list_elem_of_fmap_2. }
  rewrite length_app. change (length (slash ++ str "reg")) with 4%nat. rewrite Nat.add_comm. cbn [Nat.add].
  rewrite node_file_leaf by done. cbn [fdt_getprop ram_node node_props prop_lookup].
  change (streq (str "device_type") (str "reg")) with false. change (streq (str "reg") (str "reg")) with true. cbv match beta.
  assert (E : reg_cells r = cells64 [r_base r; r_size r]) by (unfold cells64; cbn [map concat]; by rewrite app_nil_r).
  rewrite E. unfold zlen. rewrite cells64_length. change (Z.of_nat (8 * length [r_base r; r_size r]) =? 2 * 8) with true. cbv match.
  assert (F : Forall is_u64 [r_base r; r_size r]) by (constructor; [done|]; by constructor).
  by rewrite (cells64_at _ 0 (r_base r) F eq_refl), (cells64_at _ 1 (r_size r) F eq_refl).
Qed.

Lemma read_ram_regs rs ram :
  rs ⊆ rs_r (ht_ram ht) -> rs_wf ram ->
  exists out, read_reg_files dir (map mname rs) ram = Ok out /\ rs_wf out /\
    forall x, rs_mem out x <-> rs_mem ram x \/ mem rs x.
Proof.
  revert ram. induction rs as [|r rs IH]; intros ram Sub W; cbn [map read_reg_files].
  - exists ram. split; [done|]. split; [done|]. intros x. rewrite mem_nil. tauto.
  - assert (R : r ∈ rs_r (ht_ram ht)) by (apply Sub; by left). pose proof (ram_u64 r R) as (B & S & P & T).
    rewrite read_ram_reg by done. pose proof (rangeset_add_ok ram _ _ W B S) as O.
    pose proof (set_op_returns _ _ _ _ _ O) as Q. rewrite decide_True in Q by lia.
    destruct O as [W' M]. rewrite Q in M. destruct (rangeset_add _ _ _) as [ret ram']. cbn [fst snd] in *. subst ret.
    destruct (IH ram') as (out & E & Wo & Mo); [intros y Y; apply Sub; by right|done|].
    exists out. split; [done|]. split; [done|]. intros x. rewrite Mo, mem_cons. destruct M as (_ & _ & M). rewrite M.
    unfold in_range. tauto.
Qed.

Lemma filter_all {A} (p : A -> bool) l : (forall x, x ∈ l -> p x = true) -> List.filter p l = l.
Proof.
  induction l as [|x l IH]; intros F; [done|]. cbn [List.filter]. rewrite F by (by left). f_equal.
  apply IH. intros y Y. apply F. by right.
Qed.

Lemma filter_none {A} (p : A -> bool) l : (forall x, x ∈ l -> p x = false) -> List.filter p l = [].
Proof.
  induction l as [|x l IH]; intros F; [done|]. cbn [List.filter]. rewrite F by (by left).
  apply IH. intros y Y. apply F. by right.
Qed.

Lemma mem_perm l k x : l ≡ₚ k -> mem l x <-> mem k x.
Proof. intros P. unfold mem. by rewrite P. Qed.

Lemma memory_entries : List.filter (starts (str "memory@")) (node_entries n) = map mname (rs_r (ht_ram ht)).
Proof.
  unfold node_entries. cbn [n host_node node_props node_kids]. rewrite List.filter_app.
  change (List.filter (starts (str "memory@")) (map fst (ht_props ht))) with (@nil (list Z)). cbn [app].
  rewrite kid_names, List.filter_app, filter_all, filter_none; [by rewrite app_nil_r| |].
  - intros a A. apply list_elem_of_fmap_1 in A as (k & -> & K). by apply tail_names in K as [-> | ->].
  - intros a A. apply list_elem_of_fmap_1 in A as (r & -> & R). apply mname_starts in R. by apply starts_spec.
Qed.

Lemma read_ram :
  exists ram, (let? nodes := scandir dir (str "memory@") in read_reg_files dir nodes RANGESET_INIT) = Ok ram /\
    rs_wf ram /\ rs_r ram = rs_r (ht_ram ht).
Proof.
  assert (D : scandir dir (str "memory@") = Ok (alphasort (map mname (rs_r (ht_ram ht))))).
  { unfold scandir. cbn [dir_list travel_files TreeFiles].
    replace (below dir dir) with (Some (@nil Z)) by (symmetry; rewrite <- (app_nil_r dir) at 2; apply below_app).
    cbn [node_dir length]. by rewrite memory_entries. }
  rewrite D. pose proof (alphasort_perm (map mname (rs_r (ht_ram ht)))) as P.
  apply Permutation_map_inv in P as (rs & -> & Pr).
  destruct (read_ram_regs rs RANGESET_INIT) as (out & E & W & M).
  { intros y Y. by rewrite Pr. }
  { split; [done|cbn; lia]. }
  exists out. split; [exact E|]. split; [done|]. destruct W as [W _]. destruct wf as [_ _ [W' _] _ _ _ _].
  apply (wf_from_unique _ _ _ _ W W'). intros x. specialize (M x). unfold rs_mem in M. rewrite M. cbn [RANGESET_INIT rs_r].
  rewrite mem_nil, <- (mem_perm _ _ x Pr). tauto.
Qed.

(** *** Devices *)

(** What comes back of a device: the IOMMU's base is for the kernel only. *)
Definition no_iommu (d : pci_ids) : pci_ids := mk_pci (pci_id d) (pci_vendor d) (pci_device d) (pci_class d) 0.

Lemma devices_kid :
  ht_devices ht <> [] -> kid n (str "devices") = Some (devices_node (ht_devices ht)).
Proof.
  intros D. apply (kid_in (devices_node (ht_devices ht))). unfold ht_kids. apply elem_of_app. right.
  apply elem_of_app. left. destruct (ht_devices ht) as [|d l]; [done|].
  rewrite zlen_cons, (proj2 (Z.eqb_neq _ _)) by (pose proof (zlen_nonneg l); lia). by left.
Qed.

Lemma device_kid d :
  d ∈ ht_devices ht -> kid (devices_node (ht_devices ht)) (pci_node_name (pci_id d)) = Some (pci_node true d).
Proof.
  intros D. apply (find_kid (map (pci_node true) (ht_devices ht)) (pci_node true d)).
  - rewrite map_map. destruct wf as [_ _ _ _ _ O _]. exact O.
  - by apply list_elem_of_fmap_2.
Qed.

(** The base of a device's IOMMU is in its node for the kernel to read. *)
Lemma iommu_base_sent d :
  d ∈ ht_devices ht -> exists ds k, kid n (str "devices") = Some ds /\ kid ds (pci_node_name (pci_id d)) = Some k /\
    fdt_getprop k (str "multikernel,iommu-base") = if pci_iommu d =? 0 then None else Some (cpu_to_fdt64 (pci_iommu d)).
Proof.
  intros D. exists (devices_node (ht_devices ht)), (pci_node true d). split; [|split; [by apply device_kid|]].
  - apply devices_kid. intros E. rewrite E in D. by apply not_elem_of_nil in D.
  - unfold fdt_getprop, pci_node. destruct (pci_iommu d =? 0); reflexivity.
Qed.

Lemma device_file d prop :
  d ∈ ht_devices ht -> no_slash prop = true -> (length prop < 100)%nat ->
  @file_read travel_files (snprintf [] PATH_MAX (dir ++ slash ++ str "devices/" ++ pci_node_name (pci_id d) ++ slash ++ prop))
  = match fdt_getprop (pci_node true d) prop with Some v => Ok v | None => Err ENOENT end.
Proof.
  intros D N L. assert (P : pci_wf d) by (destruct wf as [_ _ _ _ F _ _]; rewrite Forall_forall in F; by apply F).
  pose proof (pci_name_length d P). unfold travel_files.
  rewrite tree_file by (rewrite !length_app; change (length (str "devices/")) with 8%nat; change (length slash) with 1%nat; lia).
  change (str "devices/") with (str "devices" ++ slash). rewrite <- app_assoc, node_file_kid by done.
  rewrite devices_kid by (intros E; rewrite E in D; by apply not_elem_of_nil in D).
  rewrite length_app. change (length (str "devices")) with 7%nat. rewrite Nat.add_comm, Nat.add_succ_r.
  rewrite node_file_kid by (by apply pci_name_no_slash). rewrite device_kid by done.
  rewrite !length_app, Nat.add_comm, Nat.add_succ_r. by rewrite node_file_leaf.
Qed.

Lemma device_u32 d prop v :
  d ∈ ht_devices ht -> no_slash prop = true -> (length prop < 100)%nat -> 0 <= v < two32 ->
  fdt_getprop (pci_node true d) prop = Some (cpu_to_fdt32 v) ->
  read_device_u32 dir (pci_node_name (pci_id d)) prop 0 = Ok v.
Proof.
  intros D N L V E. assert (P : pci_wf d) by (destruct wf as [_ _ _ _ F _ _]; rewrite Forall_forall in F; by apply F).
  pose proof (pci_name_length d P). unfold read_device_u32, read_optional. cbv zeta.
  rewrite (snprintf_short (NAME_MAX + 32)) by (unfold NAME_MAX; rewrite !length_app; change (length (str "devices/")) with 8%nat; change (length slash) with 1%nat; lia).
  rewrite device_file, E by done. unfold zlen, cpu_to_fdt32. rewrite be_length. cbn [Z.of_nat Pos.of_succ_nat Pos.succ Z.eqb Pos.eqb].
  f_equal. by apply cell32_of.
Qed.

Lemma read_one_device d : d ∈ ht_devices ht -> read_pci_device dir (pci_node_name (pci_id d)) = Ok (no_iommu d).
Proof.
  intros D. assert (P : pci_wf d) by (destruct wf as [_ _ _ _ F _ _]; rewrite Forall_forall in F; by apply F).
  destruct P as [(Cs & L & _) Pv Pd Pc _]. unfold read_pci_device. cbv zeta.
  change (str "/devices/") with (slash ++ str "devices/"). change (str "/pci-id") with (slash ++ str "pci-id").
  rewrite <- app_assoc, device_file by (done || (cbn; lia)).
  change (fdt_getprop (pci_node true d) (str "pci-id")) with (Some (zstr (pci_id d))). cbv match.
  assert (Z : zlen (zstr (pci_id d)) = zlen (pci_id d) + 1) by (unfold zstr; by rewrite zlen_app).
  rewrite Z, (proj2 (Z.eqb_neq _ _)) by (pose proof (zlen_nonneg (pci_id d)); lia).
  rewrite (proj2 (Z.leb_le _ _)) by (unfold zlen; lia).
  replace (cn (zstr (pci_id d)) (length (zstr (pci_id d)) - 1)) with 0.
  2: { unfold cn, zstr. rewrite length_app. cbn [length]. rewrite Nat.add_sub, drop_app_length. done. }
  cbn [negb andb Z.eqb].
  rewrite (device_u32 d (str "vendor-id") (pci_vendor d)), (device_u32 d (str "device-id") (pci_device d)),
    (device_u32 d (str "class-code") (pci_class d)) by (done || (cbn; lia)).
  unfold no_iommu, zstr. f_equal. f_equal. by apply cstr_of_app.
Qed.

Lemma read_each_device l out :
  l ⊆ ht_devices ht -> read_pci_devices dir (node_names l) out = Ok (out ++ map no_iommu l).
Proof.
  revert out. induction l as [|d l IH]; intros out Sub; cbn [node_names map read_pci_devices]; [by rewrite app_nil_r|].
  rewrite read_one_device by (apply Sub; by left).
  change (map (fun d => pci_node_name (pci_id d)) l) with (node_names l). rewrite IH; [by rewrite <- app_assoc|].
  intros y Y. apply Sub. by right.
Qed.

Lemma devices_scan :
  scandir (snprintf [] PATH_MAX (dir ++ str "/devices")) (str "pci_")
  = if zlen (ht_devices ht) =? 0 then Err ENOENT else Ok (alphasort (node_names (ht_devices ht))).
Proof.
  rewrite snprintf_short by (rewrite length_app; change (length (str "/devices")) with 8%nat; unfold PATH_MAX; lia).
  unfold scandir. cbn [dir_list travel_files TreeFiles]. rewrite below_app.
  change (node_dir (S (length (str "/devices"))) n (str "/devices"))
    with (match kid n (str "devices") with Some k => node_dir 8 k [] | None => Err ENOENT end).
  destruct (decide (ht_devices ht = [])) as [E|E].
  - rewrite kid_out, E; [done| |].
    + intros t. discriminate.
    + intros k K. unfold tail_kids in K. rewrite E in K. change (zlen (@nil pci_ids) =? 0) with true in K. cbn [negb app] in K.
      case_bool; [apply list_elem_of_singleton in K as ->; discriminate|by apply not_elem_of_nil in K].
  - rewrite devices_kid by done. cbn [node_dir].
    replace (zlen (ht_devices ht) =? 0) with false.
    2: { symmetry. apply Z.eqb_neq. destruct (ht_devices ht) as [|d l]; [done|]. rewrite zlen_cons. pose proof (zlen_nonneg l). lia. }
    unfold node_entries, devices_node. cbn [node_props node_kids map app]. rewrite map_map.
    change (map (fun x => node_name (pci_node true x)) (ht_devices ht)) with (node_names (ht_devices ht)).
    destruct wf as [_ _ _ _ F _ _]. rewrite filter_all; [done|].
    intros a A. apply list_elem_of_fmap_1 in A as (d & -> & D). rewrite Forall_forall in F.
    destruct (F d D) as [(_ & L & _) _ _ _ _]. rewrite pci_name_eq by done. apply starts_spec. eauto.
Qed.

(** In the order of their node names. *)
Lemma read_all_devices :
  exists ds, ds ≡ₚ ht_devices ht /\ node_names ds = alphasort (node_names (ht_devices ht)) /\ read_devices dir = Ok (map no_iommu ds).
Proof.
  pose proof (alphasort_perm (node_names (ht_devices ht))) as P. unfold node_names at 2 in P. apply Permutation_map_inv in P as (ds & E & P).
  exists ds. split; [by symmetry|]. split; [done|]. unfold read_devices. rewrite devices_scan. destruct (Z.eqb_spec (zlen (ht_devices ht)) 0) as [Z|Z].
  - destruct (ht_devices ht) as [|d l]; [|rewrite zlen_cons in Z; pose proof (zlen_nonneg l); lia]. by apply Permutation_nil in P as ->.
  - rewrite alloc_ok. cbn [negb]. rewrite E. fold (node_names ds). rewrite read_each_device; [done|]. intros y Y. by rewrite P.
Qed.

(** *** The vmcore node *)

Lemma vmcore_kid :
  kid n (str "vmcore") = if vmcore_info_present (ht_vmcore ht) then Some (vmcore_node (ht_vmcore ht)) else None.
Proof.
  destruct (vmcore_info_present (ht_vmcore ht)) eqn:E.
  - apply (kid_in (vmcore_node (ht_vmcore ht))). unfold ht_kids. rewrite E. apply elem_of_app. right. apply elem_of_app. right. by left.
  - apply kid_out; [intros t; discriminate|]. intros k K. unfold tail_kids in K. rewrite E, app_nil_r in K.
    case_bool; [apply list_elem_of_singleton in K as ->; discriminate|by apply not_elem_of_nil in K].
Qed.

Lemma vmcore_file fuel rel :
  node_file (S (S fuel)) n (str "vmcore" ++ slash ++ rel)
  = if vmcore_info_present (ht_vmcore ht) then node_file (S fuel) (vmcore_node (ht_vmcore ht)) rel else Err ENOENT.
Proof. rewrite node_file_kid by done. rewrite vmcore_kid. by case_bool. Qed.

Lemma read_vmcore_page :
  read_optional dir (str "vmcore/page-offset")
  = Ok (if vi_has_page_offset (ht_vmcore ht) then Some (cpu_to_fdt64 (vi_page_offset (ht_vmcore ht))) else None).
Proof.
  unfold read_optional, travel_files. rewrite tree_file by (change (length (str "vmcore/page-offset")) with 18%nat; lia).
  change (str "vmcore/page-offset") with (str "vmcore" ++ slash ++ str "page-offset").
  change (length (str "vmcore" ++ slash ++ str "page-offset")) with 18%nat.
  rewrite vmcore_file, node_file_leaf by done. unfold vmcore_info_present.
  destruct (vi_has_page_offset (ht_vmcore ht)) eqn:E; cbn [orb].
  - unfold fdt_getprop, vmcore_node. rewrite E. reflexivity.
  - unfold fdt_getprop, vmcore_node. rewrite E. case_bool; reflexivity.
Qed.

Lemma read_vmcore_info :
  read_optional dir (str "vmcore/vmcoreinfo/reg")
  = Ok (if r_size (vi_vmcoreinfo (ht_vmcore ht)) =? 0 then None else Some (reg_cells (vi_vmcoreinfo (ht_vmcore ht)))).
Proof.
  unfold read_optional, travel_files. rewrite tree_file by (change (length (str "vmcore/vmcoreinfo/reg")) with 21%nat; lia).
  change (str "vmcore/vmcoreinfo/reg") with (str "vmcore" ++ slash ++ str "vmcoreinfo" ++ slash ++ str "reg").
  change (length (str "vmcore" ++ slash ++ str "vmcoreinfo" ++ slash ++ str "reg")) with 21%nat.
  rewrite vmcore_file, node_file_kid by done. unfold vmcore_info_present, kid, vmcore_node. cbn [node_kids].
  destruct (r_size (vi_vmcoreinfo (ht_vmcore ht)) =? 0) eqn:E; cbn [negb].
  - cbn [app]. destruct (zlen (vi_cpu_notes (ht_vmcore ht)) =? 0), (vi_has_page_offset (ht_vmcore ht)); reflexivity.
  - rewrite orb_true_r. cbn [orb app List.find reg_node node_name].
    change (streq (str "vmcoreinfo") (str "vmcoreinfo")) with true. cbv match. rewrite node_file_leaf by done.
    change (fdt_getprop (reg_node (str "vmcoreinfo") [vi_vmcoreinfo (ht_vmcore ht)]) (str "reg"))
      with (Some (reg_cells (vi_vmcoreinfo (ht_vmcore ht)) ++ [])). by rewrite app_nil_r.
Qed.

Lemma read_vmcore_notes :
  read_optional dir (str "vmcore/cpu-notes/reg")
  = Ok (if zlen (vi_cpu_notes (ht_vmcore ht)) =? 0 then None else Some (concat (map reg_cells (vi_cpu_notes (ht_vmcore ht))))).
Proof.
  unfold read_optional, travel_files. rewrite tree_file by (change (length (str "vmcore/cpu-notes/reg")) with 20%nat; lia).
  change (str "vmcore/cpu-notes/reg") with (str "vmcore" ++ slash ++ str "cpu-notes" ++ slash ++ str "reg").
  change (length (str "vmcore" ++ slash ++ str "cpu-notes" ++ slash ++ str "reg")) with 20%nat.
  rewrite vmcore_file, node_file_kid by done. unfold vmcore_info_present, kid, vmcore_node. cbn [node_kids].
  destruct (zlen (vi_cpu_notes (ht_vmcore ht)) =? 0); cbn [negb].
  - destruct (r_size (vi_vmcoreinfo (ht_vmcore ht)) =? 0), (vi_has_page_offset (ht_vmcore ht)); reflexivity.
  - rewrite orb_true_r. destruct (r_size (vi_vmcoreinfo (ht_vmcore ht)) =? 0); reflexivity.
Qed.

Lemma read_whole_vmcore : read_vmcore dir VMCORE_INFO_INIT = Ok (ht_vmcore ht).
Proof.
  destruct wf as [_ _ _ _ _ _ [Hp Hnp [Hb Hs] Hni Hn _]]. unfold read_vmcore.
  rewrite read_vmcore_page. destruct (ht_vmcore ht) as [has page info notes] eqn:EV.
  cbn [vi_has_page_offset vi_page_offset vi_vmcoreinfo vi_cpu_notes] in *.
  pose proof (reg_cells_at info (conj Hb Hs)) as R.
  destruct R as (R0 & R1 & RL). pose proof read_vmcore_info as I. pose proof read_vmcore_notes as N. rewrite EV in I, N.
  cbn [vi_vmcoreinfo vi_cpu_notes] in I, N. rewrite I, N. clear I N.
  replace (if has then Some (cpu_to_fdt64 page) else None) with (if has then Some (cpu_to_fdt64 page) else None) by done.
  assert (Page : match (if has then Some (cpu_to_fdt64 page) else None) with
                 | None => Ok VMCORE_INFO_INIT
                 | Some buf => if negb (zlen buf =? 8) then Err EINVAL
                     else Ok (mk_vmcore true (cell64 buf 0) (vi_vmcoreinfo VMCORE_INFO_INIT) (vi_cpu_notes VMCORE_INFO_INIT))
                 end = Ok (mk_vmcore has page (Range 0 0) [])).
  { destruct has; [|by rewrite Hnp]. unfold zlen. unfold cpu_to_fdt64 at 1. rewrite be_length. cbn [Z.of_nat Pos.of_succ_nat Pos.succ Z.eqb Pos.eqb negb]. by rewrite cell64_of. }
  rewrite Page. clear Page.
  destruct (Z.eqb_spec (r_size info) 0) as [E|E]; [|rewrite RL, R0, R1; change (negb (16 =? 2 * 8)) with false; cbv match];
    (destruct (Z.eqb_spec (zlen notes) 0) as [E'|E']; [destruct notes as [|x l]; [|rewrite zlen_cons in E'; pose proof (zlen_nonneg l); lia]
      |rewrite cells_to_rangelist_cells by done]); cbn [vi_has_page_offset vi_page_offset vi_vmcoreinfo vi_cpu_notes];
    try (by destruct info); destruct info as [b s]; cbn [r_size r_base] in *; subst s; by rewrite Hni.
Qed.

Lemma host_tree_read_back :
  exists ram ds, host_tree_read dir = Ok (mk_host_tree (ht_cpus ht) ram (map no_iommu ds) (ht_vmcore ht)) /\
    rs_wf ram /\ rs_r ram = rs_r (ht_ram ht) /\ ds ≡ₚ ht_devices ht /\ node_names ds = alphasort (node_names (ht_devices ht)).
Proof.
  destruct read_ram as (ram & R & W & E). destruct read_all_devices as (ds & P & N & D). exists ram, ds. split; [|done]. unfold host_tree_read.
  rewrite read_cpus, cells_to_cpulist_cells by (by destruct wf).
  destruct (scandir dir (str "memory@")) as [nodes|e]; [|done].
  rewrite R, D, read_whole_vmcore. done.
Qed.

End Travel.
