(* ===== verification/Elfcore.v ===== *)
(** * lib/elfcore.c: the layout of a vmcore

    An ELF64 core with a PT_NOTE segment first and one PT_LOAD segment per
    memory range, as bytes.  The definitions are those of a little-endian
    build for x86-64; on arm64 only [ELFCORE_MACHINE] differs. *)

From S2P Require Import Prelude Cstr Ranges Fdt.

Definition ELFCORE_PAGE : Z := 4096.
Definition ELFCORE_NO_VADDR : Z := UINT64_MAX.
Definition ELFCORE_MACHINE : Z := 62.
Definition UINT16_MAX : Z := 65535.
Definition PT_LOAD : Z := 1.
Definition PT_NOTE : Z := 4.
Definition PF_RWX : Z := 7.
Definition ET_CORE : Z := 4.

(** ** Bytes *)

Fixpoint le (n : nat) (x : Z) : list Z :=
  match n with O => [] | S n => x mod 256 :: le n (x / 256) end.
Fixpoint le_val (s : list Z) : Z :=
  match s with [] => 0 | b :: s => b + 256 * le_val s end.
(** The [n] bytes at offset [off]. *)
Definition bytes_at (off : Z) (n : nat) (s : list Z) : list Z := take n (drop (Z.to_nat off) s).
Definition le_at (off : Z) (n : nat) (s : list Z) : Z := le_val (bytes_at off n s).
Definition zeros (n : Z) : list Z := replicate (Z.to_nat n) 0.

(** ** Notes *)

Definition page_align (v : Z) : Z := Z.land (u64 (v + ELFCORE_PAGE - 1)) (u64 (Z.lnot (ELFCORE_PAGE - 1))).
Definition note_align (v : Z) : Z := Z.land (u64 (v + 3)) (u64 (Z.lnot 3)).

(** [sizeof(Elf64_Nhdr)] *)
Definition NHDR : Z := 12.

(** Each round takes a record of 12 bytes or more. *)
Fixpoint notes_loop (fuel : nat) (buf : list Z) (len off : Z) : Z :=
  match fuel with
  | O => off
  | S fuel =>
      if len <? off + NHDR then off else
      let namesz := le_at off 4 buf in
      let descsz := le_at (off + 4) 4 buf in
      if (namesz =? 0) && (descsz =? 0) then off else
      let rec := NHDR + note_align namesz + note_align descsz in
      if len <? off + rec then off else notes_loop fuel buf len (off + rec)
  end.

Definition elfcore_notes_len (buf : list Z) : Z := notes_loop (S (length buf)) buf (zlen buf) 0.

(** ** Headers *)

Definition EHDR : Z := 64.
Definition PHDR : Z := 56.

Definition fill_ehdr (phnum : Z) : list Z :=
  [0x7f; 0x45; 0x4c; 0x46] ++ [2; 1; 1; 0] ++ zeros 8 ++
  le 2 ET_CORE ++ le 2 ELFCORE_MACHINE ++ le 4 1 ++ le 8 0 ++ le 8 EHDR ++ le 8 0 ++ le 4 0 ++
  le 2 EHDR ++ le 2 PHDR ++ le 2 phnum ++ le 2 0 ++ le 2 0 ++ le 2 0.

(** [Elf64_Phdr] *)
Record phdr : Type := mk_phdr {
  p_type : Z; p_flags : Z; p_offset : Z; p_vaddr : Z; p_paddr : Z; p_filesz : Z; p_memsz : Z; p_align : Z }.

Definition phdr_bytes (p : phdr) : list Z :=
  le 4 (p_type p) ++ le 4 (p_flags p) ++ le 8 (p_offset p) ++ le 8 (p_vaddr p) ++ le 8 (p_paddr p) ++
  le 8 (p_filesz p) ++ le 8 (p_memsz p) ++ le 8 (p_align p).

Definition note_phdr (note_off notes_len : Z) : phdr := mk_phdr PT_NOTE 0 note_off 0 0 notes_len notes_len 4.

Definition load_phdr (has_page_offset : bool) (page_offset : Z) (r : range) (cur : Z) : phdr :=
  mk_phdr PT_LOAD PF_RWX cur (if has_page_offset then u64 (page_offset + r_base r) else ELFCORE_NO_VADDR)
    (r_base r) (r_size r) (r_size r) ELFCORE_PAGE.

(** The file offset of each range, and the offset after the last. *)
Fixpoint load_offsets (rs : list range) (cur : Z) : list Z * Z :=
  match rs with
  | [] => ([], cur)
  | r :: rs => let '(offs, total) := load_offsets rs (page_align (u64 (cur + r_size r))) in (cur :: offs, total)
  end.

Record layout : Type := mk_layout {
  el_header : list Z;
  el_header_len : Z;
  el_offsets : list Z;
  el_total : Z }.

(** A note is the bytes of its records. *)
Definition elfcore_layout `{Alloc} (ranges : rangeset) (notes : list (list Z)) (has_page_offset : bool) (page_offset : Z)
    : result layout :=
  let phnum := 1 + zlen (rs_r ranges) in
  let note_off := EHDR + phnum * PHDR in
  if UINT16_MAX - 1 <? zlen (rs_r ranges) then Err E2BIG else
  let notes_len := foldl (fun n note => u64 (n + zlen note)) 0 notes in
  let header_len := page_align (u64 (note_off + notes_len)) in
  if negb (alloc header_len) || negb (alloc ((zlen (rs_r ranges) + 1) * 8)) then Err ENOMEM else
  let '(offsets, total) := load_offsets (rs_r ranges) header_len in
  let loads := zip_with (load_phdr has_page_offset page_offset) (rs_r ranges) offsets in
  let used := fill_ehdr phnum ++ concat (map phdr_bytes (note_phdr note_off notes_len :: loads)) ++ concat notes in
  Ok (mk_layout (used ++ zeros (header_len - zlen used)) header_len offsets total).

(** ** Reading an ELF file back

    What a reader of the format finds: the program headers that the ELF
    header points to. *)
Definition read_phdr (off : Z) (s : list Z) : phdr :=
  mk_phdr (le_at off 4 s) (le_at (off + 4) 4 s) (le_at (off + 8) 8 s) (le_at (off + 16) 8 s)
    (le_at (off + 24) 8 s) (le_at (off + 32) 8 s) (le_at (off + 40) 8 s) (le_at (off + 48) 8 s).

Fixpoint read_phdrs (n : nat) (off size : Z) (s : list Z) : list phdr :=
  match n with O => [] | S n => read_phdr off s :: read_phdrs n (off + size) size s end.

Definition elf_core_phdrs (s : list Z) : option (list phdr) :=
  if bool_decide (take 8 s = [0x7f; 0x45; 0x4c; 0x46; 2; 1; 1; 0]) && (le_at 16 2 s =? ET_CORE)
  then Some (read_phdrs (Z.to_nat (le_at 56 2 s)) (le_at 32 8 s) (le_at 54 2 s) s)
  else None.

(** ** Lemmas on bytes *)

Lemma le_length n x : length (le n x) = n.
Proof. revert x. induction n as [|n IH]; intros x; cbn; [done|by rewrite IH]. Qed.

Lemma le_val_le n x : 0 <= x < 256 ^ Z.of_nat n -> le_val (le n x) = x.
Proof.
  revert x. induction n as [|n IH]; intros x R; cbn [le le_val].
  - change (256 ^ Z.of_nat 0) with 1 in R. lia.
  - rewrite IH; [pose proof (Z.div_mod x 256); lia|]. rewrite Nat2Z.inj_succ, Z.pow_succ_r in R by lia.
    split; [apply Z.div_pos; lia|apply Z.div_lt_upper_bound; lia].
Qed.

Lemma bytes_at_shift a k n s : 0 <= k -> bytes_at (zlen a + k) n (a ++ s) = bytes_at k n s.
Proof.
  intros K. unfold bytes_at, zlen. rewrite Z2Nat.inj_add, Nat2Z.id by lia. by rewrite drop_app_add.
Qed.

Lemma le_at_shift a k n s : 0 <= k -> le_at (zlen a + k) n (a ++ s) = le_at k n s.
Proof. intros K. unfold le_at. by rewrite bytes_at_shift. Qed.

Lemma zlen_zeros n : 0 <= n -> zlen (zeros n) = n.
Proof. intros N. unfold zlen, zeros. rewrite length_replicate. lia. Qed.

Definition phdr_ok (p : phdr) : Prop :=
  0 <= p_type p < 2 ^ 32 /\ 0 <= p_flags p < 2 ^ 32 /\ is_u64 (p_offset p) /\ is_u64 (p_vaddr p) /\ is_u64 (p_paddr p) /\
  is_u64 (p_filesz p) /\ is_u64 (p_memsz p) /\ is_u64 (p_align p).

Lemma phdr_bytes_length p : zlen (phdr_bytes p) = PHDR.
Proof. reflexivity. Qed.

Lemma read_phdr_here p s : phdr_ok p -> read_phdr 0 (phdr_bytes p ++ s) = p.
Proof.
  intros (T & F & O & V & P & Fs & Ms & A). unfold read_phdr. rewrite !Z.add_0_l.
  change (le_at 0 4 (phdr_bytes p ++ s)) with (le_val (le 4 (p_type p))).
  change (le_at 4 4 (phdr_bytes p ++ s)) with (le_val (le 4 (p_flags p))).
  change (le_at 8 8 (phdr_bytes p ++ s)) with (le_val (le 8 (p_offset p))).
  change (le_at 16 8 (phdr_bytes p ++ s)) with (le_val (le 8 (p_vaddr p))).
  change (le_at 24 8 (phdr_bytes p ++ s)) with (le_val (le 8 (p_paddr p))).
  change (le_at 32 8 (phdr_bytes p ++ s)) with (le_val (le 8 (p_filesz p))).
  change (le_at 40 8 (phdr_bytes p ++ s)) with (le_val (le 8 (p_memsz p))).
  change (le_at 48 8 (phdr_bytes p ++ s)) with (le_val (le 8 (p_align p))).
  rewrite !le_val_le by (unfold is_u64 in *; cbn; lia). by destruct p.
Qed.

Lemma read_phdr_shift a s : read_phdr (zlen a) (a ++ s) = read_phdr 0 s.
Proof. unfold read_phdr. rewrite <- (Z.add_0_r (zlen a)) at 1. by rewrite !le_at_shift by lia. Qed.

Lemma read_phdrs_here a ps s :
  Forall phdr_ok ps -> read_phdrs (length ps) (zlen a) PHDR (a ++ concat (map phdr_bytes ps) ++ s) = ps.
Proof.
  intros F. revert a. induction F as [|p ps P F IH]; intros a; [done|]. cbn [length read_phdrs map concat].
  f_equal.
  - rewrite read_phdr_shift, <- app_assoc. by apply read_phdr_here.
  - rewrite <- !app_assoc, (app_assoc a). rewrite <- (phdr_bytes_length p), <- zlen_app. apply IH.
Qed.

(** ** Alignment *)

Lemma land_lnot_ones v k : 0 <= k -> Z.land v (Z.lnot (2 ^ k - 1)) = v / 2 ^ k * 2 ^ k.
Proof.
  intros K. replace (2 ^ k - 1) with (Z.ones k) by (rewrite Z.ones_equiv; lia).
  rewrite <- Z.ldiff_land, Z.ldiff_ones_r by lia. rewrite Z.shiftl_mul_pow2, Z.shiftr_div_pow2 by lia. done.
Qed.

Lemma align_u64 v k : 0 <= k < 64 -> is_u64 v -> Z.land v (u64 (Z.lnot (2 ^ k - 1))) = v / 2 ^ k * 2 ^ k.
Proof.
  intros K V. rewrite <- (land_lnot_ones v k) by lia. unfold u64. change two64 with (2 ^ 64).
  rewrite <- Z.land_ones by lia. rewrite (Z.land_comm (Z.lnot _)), Z.land_assoc, Z.land_ones, Z.mod_small by (unfold is_u64 in V; lia).
  done.
Qed.

Lemma page_align_spec v :
  0 <= v < two64 - 4096 -> v <= page_align v < v + 4096 /\ page_align v mod 4096 = 0.
Proof.
  intros V. unfold page_align, ELFCORE_PAGE. change (u64 (Z.lnot (4096 - 1))) with (u64 (Z.lnot (2 ^ 12 - 1))).
  rewrite u64_small, align_u64 by (unfold is_u64; lia). change (2 ^ 12) with 4096.
  pose proof (Z.div_mod (v + 4096 - 1) 4096 ltac:(lia)). pose proof (Z.mod_pos_bound (v + 4096 - 1) 4096 ltac:(lia)).
  split; [lia|]. apply Z.mod_mul. lia.
Qed.

(** ** Where the ranges are put *)

(** Each range's extent starts on a page at or after the end of the one
    before, the first at or after [lo], and all end by [hi]. *)
Fixpoint laid (rs : list range) (offs : list Z) (lo hi : Z) : Prop :=
  match rs, offs with
  | [], [] => lo <= hi
  | r :: rs, o :: offs => lo <= o /\ o mod 4096 = 0 /\ laid rs offs (o + r_size r) hi
  | _, _ => False
  end.

(** What the ranges take in the file, at most. *)
Definition pages_for (rs : list range) : Z := foldr (fun r n => r_size r + 4096 + n) 0 rs.

Lemma pages_for_nonneg rs : Forall (fun r => 0 <= r_size r) rs -> 0 <= pages_for rs.
Proof. induction 1; unfold pages_for in *; cbn [foldr]; lia. Qed.

Lemma laid_weaken rs offs lo lo' hi : lo' <= lo -> laid rs offs lo hi -> laid rs offs lo' hi.
Proof. intros L. destruct rs, offs; cbn; try done; [lia|]. intros (? & ? & ?). repeat split; try done. lia. Qed.

Lemma laid_bounds rs offs lo hi :
  laid rs offs lo hi -> Forall (fun r => 0 <= r_size r) rs -> 
  lo <= hi /\ forall i r o, rs !! i = Some r -> offs !! i = Some o -> lo <= o /\ o + r_size r <= hi.
Proof.
  revert offs lo. induction rs as [|r rs IH]; intros [|o offs] lo; cbn [laid]; try done.
  intros (L & _ & R) F. apply Forall_cons in F as [S F]. destruct (IH _ _ R F) as [L' B]. split; [lia|].
  intros [|i] r' o'; cbn; [intros [= <-] [= <-]; lia|]. intros A1 A2. destruct (B i r' o' A1 A2). lia.
Qed.

Lemma load_offsets_laid rs cur :
  Forall (fun r => 0 <= r_size r) rs -> 0 <= cur -> cur mod 4096 = 0 -> cur + pages_for rs < two64 ->
  laid rs (load_offsets rs cur).1 cur (load_offsets rs cur).2 /\ (load_offsets rs cur).2 <= cur + pages_for rs /\
  (load_offsets rs cur).2 mod 4096 = 0 /\ Forall is_u64 (load_offsets rs cur).1.
Proof.
  intros F. revert cur. induction F as [|r rs S F IH]; intros cur C A B; cbn [load_offsets pages_for foldr] in *.
  - cbn. repeat split; [lia|lia|done|constructor].
  - pose proof (pages_for_nonneg rs F) as P. fold (pages_for rs) in *.
    rewrite u64_small by lia. destruct (page_align_spec (cur + r_size r) ltac:(lia)) as [R M].
    destruct (IH (page_align (cur + r_size r)) ltac:(lia) M ltac:(lia)) as (L & T & Tm & U).
    destruct (load_offsets rs _) as [offs total]. cbn [fst snd laid] in *.
    split; [|split; [lia|split; [done|constructor; [unfold is_u64; lia|done]]]].
    split; [lia|]. split; [done|]. eapply laid_weaken; [|exact L]. lia.
Qed.

Lemma load_offsets_length rs cur : length (load_offsets rs cur).1 = length rs.
Proof.
  revert cur. induction rs as [|r rs IH]; intros cur; cbn [load_offsets]; [done|].
  specialize (IH (page_align (u64 (cur + r_size r)))). destruct (load_offsets rs _). cbn in *. by rewrite IH.
Qed.

Lemma notes_len_sum notes n :
  0 <= n -> n + zlen (concat notes) < two64 -> foldl (fun n (note : list Z) => u64 (n + zlen note)) n notes = n + zlen (concat notes).
Proof.
  revert n. induction notes as [|a l IH]; intros n N B; cbn [foldl concat] in *; [by rewrite Z.add_0_r|].
  rewrite zlen_app in *. pose proof (zlen_nonneg a). pose proof (zlen_nonneg (concat l)).
  rewrite u64_small by lia. rewrite IH by lia. lia.
Qed.

(** ** The layout *)

(** Everything the layout needs is below 2^64. *)
Definition layout_room (ranges : rangeset) (notes : list (list Z)) : Prop :=
  EHDR + (1 + zlen (rs_r ranges)) * PHDR + zlen (concat notes) + 4096 + pages_for (rs_r ranges) < two64.

Lemma load_phdr_ok hp po r cur : range_u64 r -> is_u64 cur -> phdr_ok (load_phdr hp po r cur).
Proof.
  intros [B S] C. unfold phdr_ok, load_phdr. cbn.
  assert (is_u64 (if hp then u64 (po + r_base r) else ELFCORE_NO_VADDR)) by (destruct hp; [apply u64_range|done]).
  repeat split; try done; unfold is_u64 in *; lia.
Qed.

Lemma header_found phnum loads rest note_off notes_len :
  0 <= phnum <= UINT16_MAX -> phnum = 1 + zlen loads -> phdr_ok (note_phdr note_off notes_len) -> Forall phdr_ok loads ->
  elf_core_phdrs (fill_ehdr phnum ++ concat (map phdr_bytes (note_phdr note_off notes_len :: loads)) ++ rest)
  = Some (note_phdr note_off notes_len :: loads).
Proof.
  intros P E N F. unfold elf_core_phdrs. set (s := _ ++ _).
  change (take 8 s) with [0x7f; 0x45; 0x4c; 0x46; 2; 1; 1; 0]. change (le_at 16 2 s) with ET_CORE.
  change (le_at 32 8 s) with (zlen (fill_ehdr phnum)). change (le_at 54 2 s) with PHDR.
  change (le_at 56 2 s) with (le_val (le 2 phnum)). rewrite le_val_le by (unfold UINT16_MAX in P; cbn; lia).
  rewrite bool_decide_eq_true_2 by done. cbn [andb Z.eqb]. f_equal.
  replace (Z.to_nat phnum) with (length (note_phdr note_off notes_len :: loads)) by (unfold zlen in E; cbn [length]; lia).
  apply read_phdrs_here. by constructor.
Qed.

Lemma elfcore_layout_ok `{AllocOk} ranges notes hp po :
  rs_wf ranges -> layout_room ranges notes -> zlen (rs_r ranges) <= UINT16_MAX - 1 ->
  exists l note_off, elfcore_layout ranges notes hp po = Ok l /\
    zlen (el_header l) = el_header_len l /\ el_header_len l mod 4096 = 0 /\
    elf_core_phdrs (el_header l)
      = Some (note_phdr note_off (zlen (concat notes)) :: zip_with (load_phdr hp po) (rs_r ranges) (el_offsets l)) /\
    bytes_at note_off (length (concat notes)) (el_header l) = concat notes /\
    laid (rs_r ranges) (el_offsets l) (el_header_len l) (el_total l).
Proof.
  intros [W _] R E. unfold elfcore_layout, layout_room in *. cbv zeta. destruct (Z.ltb_spec (UINT16_MAX - 1) (zlen (rs_r ranges))); [lia|].
  rewrite !alloc_ok. cbn [negb orb]. pose proof (wf_from_ends _ _ W) as We.
  assert (Sz : Forall (fun r => 0 <= r_size r) (rs_r ranges)) by (eapply Forall_impl; [exact We|]; cbn; lia).
  assert (Ru : Forall range_u64 (rs_r ranges)) by (eapply Forall_impl; [exact We|]; unfold range_u64, is_u64; cbn; lia).
  pose proof (pages_for_nonneg _ Sz) as Pn. pose proof (zlen_nonneg (concat notes)). pose proof (zlen_nonneg (rs_r ranges)).
  set (n := zlen (rs_r ranges)) in *. rewrite (notes_len_sum notes 0), Z.add_0_l by (unfold EHDR, PHDR in R; lia).
  set (note_off := EHDR + (1 + n) * PHDR) in *. rewrite u64_small by (unfold note_off, EHDR, PHDR in *; lia).
  destruct (page_align_spec (note_off + zlen (concat notes)) ltac:(unfold note_off, EHDR, PHDR in *; lia)) as [Al Am].
  set (hl := page_align _) in *.
  destruct (load_offsets_laid (rs_r ranges) hl Sz ltac:(unfold note_off, EHDR, PHDR in *; lia) Am ltac:(lia)) as (L & T & _ & U).
  pose proof (load_offsets_length (rs_r ranges) hl) as Lo. destruct (load_offsets (rs_r ranges) hl) as [offs total]. cbn [fst snd] in *.
  eexists _, note_off. split; [reflexivity|]. cbn [el_header el_header_len el_offsets el_total].
  set (loads := zip_with _ _ _). assert (Ll : zlen loads = n) by (unfold loads, n, zlen; rewrite length_zip_with; lia).
  assert (Lc : forall ps, zlen (concat (map phdr_bytes ps)) = zlen ps * PHDR).
  { induction ps as [|p ps IH]; [done|]. cbn [map concat]. rewrite zlen_app, zlen_cons, IH, phdr_bytes_length. lia. }
  set (head := fill_ehdr (1 + n) ++ concat (map phdr_bytes (note_phdr note_off (zlen (concat notes)) :: loads))).
  assert (Lh : zlen head = note_off).
  { unfold head. rewrite zlen_app, Lc, zlen_cons, Ll. reflexivity. }
  rewrite !(app_assoc (fill_ehdr (1 + n))). fold head.
  assert (Lu : zlen (head ++ concat notes) = note_off + zlen (concat notes)) by (by rewrite zlen_app, Lh).
  split; [rewrite zlen_app, zlen_zeros; lia|]. split; [done|]. split; [|split; [|done]].
  - unfold head. rewrite <- !app_assoc. apply header_found; [lia|lia| |].
    + unfold phdr_ok, note_phdr, is_u64, note_off, EHDR, PHDR, PT_NOTE in *. cbn. lia.
    + unfold loads. apply Forall_forall. intros p I. apply list_elem_of_lookup in I as (i & I).
      apply lookup_zip_with_Some in I as (r & o & -> & Ir & Io). apply load_phdr_ok.
      * rewrite Forall_forall in Ru. apply Ru. by eapply list_elem_of_lookup_2.
      * rewrite Forall_forall in U. apply U. by eapply list_elem_of_lookup_2.
  - rewrite <- Lh, <- app_assoc. rewrite <- (Z.add_0_r (zlen head)), bytes_at_shift by lia.
    unfold bytes_at. change (Z.to_nat 0) with 0%nat. by rewrite drop_0, take_app_length.
Qed.

(** A debugger finds the machine's memory in the file.  For memory below
    the limits of the format, [elfcore_layout] returns a header of whole
    pages that reads as an ELF core: its program headers are the notes, which
    are at the place they name, and one PT_LOAD for each range with the
    range's physical address and size, at page-aligned offsets after the
    header where no two ranges overlap; the offsets are those the dump
    writes at.  More ranges than [e_phnum] can count give [-E2BIG]. *)
Theorem elfcore_layout_readable `{AllocOk} ranges notes hp po :
  rs_wf ranges -> layout_room ranges notes ->
  if UINT16_MAX - 1 <? zlen (rs_r ranges) then elfcore_layout ranges notes hp po = Err E2BIG
  else exists l note_off, elfcore_layout ranges notes hp po = Ok l /\
    zlen (el_header l) = el_header_len l /\ el_header_len l mod 4096 = 0 /\
    elf_core_phdrs (el_header l)
      = Some (note_phdr note_off (zlen (concat notes)) :: zip_with (load_phdr hp po) (rs_r ranges) (el_offsets l)) /\
    bytes_at note_off (length (concat notes)) (el_header l) = concat notes /\
    laid (rs_r ranges) (el_offsets l) (el_header_len l) (el_total l).
Proof.
  intros W R. destruct (Z.ltb_spec (UINT16_MAX - 1) (zlen (rs_r ranges))) as [E|E]; [|by apply elfcore_layout_ok].
  unfold elfcore_layout. by destruct (Z.ltb_spec (UINT16_MAX - 1) (zlen (rs_r ranges))); [|lia].
Qed.

Definition demo_core : rangeset := Rangeset [Range 0x1000 0x2345; Range 0x100000 0x10] 8.

Lemma elfcore_layout_readable_witness :
  exists l note_off, elfcore_layout (H := alloc_always) demo_core [[1; 2; 3; 4]] true 0xffff888000000000 = Ok l /\
    zlen (el_header l) = el_header_len l /\ el_header_len l mod 4096 = 0 /\
    elf_core_phdrs (el_header l) = Some (note_phdr note_off 4 :: zip_with (load_phdr true 0xffff888000000000) (rs_r demo_core) (el_offsets l)) /\
    bytes_at note_off 4 (el_header l) = [1; 2; 3; 4] /\
    laid (rs_r demo_core) (el_offsets l) (el_header_len l) (el_total l).
Proof.
  apply (elfcore_layout_readable (H := alloc_always) demo_core [[1; 2; 3; 4]] true 0xffff888000000000);
    [split; [by repeat split|unfold rs_count; cbn; lia]|vm_compute; reflexivity].
Defined.

(** ** Which notes are kept *)

Lemma note_align_spec v : 0 <= v < 2 ^ 32 -> v <= note_align v < v + 4.
Proof.
  intros V. unfold note_align. change (u64 (Z.lnot 3)) with (u64 (Z.lnot (2 ^ 2 - 1))).
  rewrite u64_small, align_u64 by (unfold is_u64; lia). change (2 ^ 2) with 4.
  pose proof (Z.div_mod (v + 3) 4 ltac:(lia)). pose proof (Z.mod_pos_bound (v + 3) 4 ltac:(lia)). lia.
Qed.

(** A note record as the kernel writes it. *)
Record note : Type := mk_note { nt_name : list Z; nt_desc : list Z; nt_type : Z }.
Definition pad (s : list Z) : list Z := s ++ zeros (note_align (zlen s) - zlen s).
Definition note_record (n : note) : list Z :=
  le 4 (zlen (nt_name n)) ++ le 4 (zlen (nt_desc n)) ++ le 4 (nt_type n) ++ pad (nt_name n) ++ pad (nt_desc n).
Definition note_ok (n : note) : Prop :=
  zlen (nt_name n) < 2 ^ 32 /\ zlen (nt_desc n) < 2 ^ 32 /\ 0 < zlen (nt_name n) + zlen (nt_desc n).

(** Nothing more to read: too short for a record, or an empty one. *)
Definition note_end (s : list Z) : Prop := zlen s < NHDR \/ (le_at 0 4 s = 0 /\ le_at 4 4 s = 0).

Lemma pad_length s : zlen s < 2 ^ 32 -> zlen (pad s) = note_align (zlen s).
Proof.
  intros L. pose proof (zlen_nonneg s). destruct (note_align_spec (zlen s) ltac:(lia)).
  unfold pad. rewrite zlen_app, zlen_zeros; lia.
Qed.

Lemma note_record_length n : note_ok n -> zlen (note_record n) = NHDR + note_align (zlen (nt_name n)) + note_align (zlen (nt_desc n)).
Proof.
  intros (N & D & _). unfold note_record. rewrite !zlen_app, !pad_length by done. unfold zlen, NHDR. rewrite !le_length. lia.
Qed.

Lemma notes_loop_records fuel done l rest :
  Forall note_ok l -> note_end rest -> (length l < fuel)%nat ->
  notes_loop fuel (done ++ concat (map note_record l) ++ rest) (zlen (done ++ concat (map note_record l) ++ rest)) (zlen done)
  = zlen (done ++ concat (map note_record l)).
Proof.
  intros F E. revert done fuel. induction F as [|n l N F IH]; intros done fuel L; (destruct fuel as [|fuel]; [lia|]); cbn [notes_loop]; cbv zeta.
  - cbn [map concat app]. rewrite app_nil_r, zlen_app.
    destruct (Z.ltb_spec (zlen done + zlen rest) (zlen done + NHDR)); [done|]. destruct E as [E|[E1 E2]]; [lia|].
    rewrite <- (Z.add_0_r (zlen done)) at 1. rewrite !le_at_shift by lia. by rewrite E1, E2.
  - cbn [map concat] in *. rewrite <- app_assoc.
    pose proof (note_record_length n N) as R. destruct N as (Nn & Nd & Np).
    pose proof (zlen_nonneg (nt_name n)). pose proof (zlen_nonneg (nt_desc n)).
    destruct (note_align_spec (zlen (nt_name n)) ltac:(lia)), (note_align_spec (zlen (nt_desc n)) ltac:(lia)).
    set (more := concat (map note_record l) ++ rest). pose proof (zlen_nonneg more).
    assert (Ln : zlen (done ++ note_record n ++ more) = zlen done + zlen (note_record n) + zlen more) by (rewrite !zlen_app; lia).
    destruct (Z.ltb_spec (zlen (done ++ note_record n ++ more)) (zlen done + NHDR)); [lia|].
    assert (A : le_at (zlen done) 4 (done ++ note_record n ++ more) = zlen (nt_name n)).
    { rewrite <- (Z.add_0_r (zlen done)), le_at_shift by lia.
      change (le_at 0 4 (note_record n ++ more)) with (le_val (le 4 (zlen (nt_name n)))). apply le_val_le. cbn. lia. }
    assert (B : le_at (zlen done + 4) 4 (done ++ note_record n ++ more) = zlen (nt_desc n)).
    { rewrite le_at_shift by lia.
      change (le_at 4 4 (note_record n ++ more)) with (le_val (le 4 (zlen (nt_desc n)))). apply le_val_le. cbn. lia. }
    rewrite A, B.
    destruct (Z.eqb_spec (zlen (nt_name n)) 0), (Z.eqb_spec (zlen (nt_desc n)) 0); try lia; cbn [andb].
    all: rewrite <- R; destruct (Z.ltb_spec (zlen (done ++ note_record n ++ more)) (zlen done + zlen (note_record n))); [lia|].
    all: rewrite <- zlen_app, app_assoc; unfold more; rewrite IH by (cbn in L; lia); by rewrite <- app_assoc.
Qed.

(** The records a crash buffer holds are all kept, and nothing after them. *)
Theorem elfcore_notes_len_exact l rest :
  Forall note_ok l -> note_end rest ->
  elfcore_notes_len (concat (map note_record l) ++ rest) = zlen (concat (map note_record l)).
Proof.
  intros F E. unfold elfcore_notes_len. apply (notes_loop_records _ [] l rest F E).
  apply le_n_S. rewrite length_app. clear E. induction F as [|n l N F IH]; [cbn; lia|].
  cbn [length map concat]. rewrite length_app. assert (12 <= length (note_record n))%nat; [|lia].
  unfold note_record. rewrite !length_app, !le_length. lia.
Qed.
