(* ===== verification/Dump.v ===== *)
(** * lib/dump.c: writing the predecessor's memory out

    The memory is a function from physical addresses to bytes, read through
    [mmap]; the output is a regular file, where zero pages are left as
    holes, or a pipe, where gaps are filled.  What each [write] returns is a
    script; past its end every write is complete, so a script stands for any
    behaviour that ends. *)

From S2P Require Import Prelude Cstr Ranges Files Fdt HostTree Elfcore.

Definition DUMP_CHUNK : Z := 2 ^ 20.
Definition DUMP_NOTE_MAX : Z := 2 ^ 20.

(** ** The source *)

(** [limit], the memory behind the descriptor, and whether [mmap] succeeds. *)
Record source : Type := mk_source {
  src_limit : Z;
  src_mem : Z -> Z;
  src_map : Z -> Z -> result unit }.

Definition source_read (src : source) (len off : Z) : result (list Z) :=
  let start := Z.land off (u64 (Z.lnot (ELFCORE_PAGE - 1))) in
  let maplen := u64 (off - start + len) in
  if (src_limit src <? off) || (src_limit src - off <? len) then Err EIO else
  let? _ := src_map src start maplen in
  Ok (map (fun i => src_mem src (off + Z.of_nat i)) (seq 0 (Z.to_nat len))).

(** ** The sink *)

(** [pos] counts what was written in sequence; [size] and [byte] are the file
    or what went through the pipe. *)
Record sink : Type := mk_sink {
  sk_seekable : bool;
  sk_pos : Z;
  sk_size : Z;
  sk_byte : Z -> Z;
  sk_script : list write_step }.

Definition put (f : Z -> Z) (off : Z) (bytes : list Z) : Z -> Z := fun x =>
  if (off <=? x) && (x <? off + zlen bytes) then List.nth (Z.to_nat (x - off)) bytes 0 else f x.

(** The bytes reach the file at [off], or the end of the pipe. *)
Definition sink_put (s : sink) (off : Z) (bytes : list Z) (script : list write_step) : sink :=
  let at_ := if sk_seekable s then off else sk_size s in
  mk_sink (sk_seekable s) (sk_pos s) (Z.max (sk_size s) (at_ + zlen bytes)) (put (sk_byte s) at_ bytes) script.

Definition sink_skip (s : sink) (script : list write_step) : sink :=
  mk_sink (sk_seekable s) (sk_pos s) (sk_size s) (sk_byte s) script.

Definition sink_at (s : sink) (pos : Z) : sink :=
  mk_sink (sk_seekable s) pos (sk_size s) (sk_byte s) (sk_script s).

(** The [while] loop of [write_all]; [n] never exceeds what was asked. *)
Fixpoint dump_write_all (script : list write_step) (s : sink) (p : list Z) (off : Z) : result unit * sink :=
  match p, script with
  | [], _ => (Ok tt, sink_skip s script)
  | _, [] => (Ok tt, sink_put s off p [])
  | _, WriteErr e :: script => (Err e, sink_skip s script)
  | _, WriteIntr :: script => dump_write_all script s p off
  | _, WriteCount n :: script =>
      let n := Nat.min n (length p) in
      if (n =? 0)%nat then (Err EIO, sink_skip s script)
      else dump_write_all script (sink_put s off (take n p) script) (drop n p) (off + Z.of_nat n)
  end.

Definition write_all_to (s : sink) (p : list Z) (off : Z) : result unit * sink :=
  dump_write_all (sk_script s) s p off.

(** Zeros up to [off], a page at a time. *)
Fixpoint fill_gap (fuel : nat) (s : sink) (off : Z) : result unit * sink :=
  match fuel with
  | O => (Ok tt, s)
  | S fuel =>
      if sk_pos s <? off then
        let gap := if off - sk_pos s <? ELFCORE_PAGE then off - sk_pos s else ELFCORE_PAGE in
        match write_all_to s (zeros gap) 0 with
        | (Err e, s) => (Err e, s)
        | (Ok _, s) => fill_gap fuel (sink_at s (sk_pos s + gap)) off
        end
      else (Ok tt, s)
  end.

Definition gap_fuel (s : sink) (off : Z) : nat := S (Z.to_nat ((off - sk_pos s) / ELFCORE_PAGE + 1)).

Definition sink_write (s : sink) (buf : list Z) (off : Z) : result unit * sink :=
  if sk_seekable s then write_all_to s buf off else
  match fill_gap (gap_fuel s off) s off with
  | (Err e, s) => (Err e, s)
  | (Ok _, s) => write_all_to (sink_at s (sk_pos s + zlen buf)) buf off
  end.

Definition page_is_zero (p : list Z) : bool := forallb (Z.eqb 0) p.

(** [buf + a] for [n] bytes *)
Definition part (a n : Z) (buf : list Z) : list Z := take (Z.to_nat n) (drop (Z.to_nat a) buf).

(** The [for] loop of [write_chunk], one page per round. *)
Fixpoint chunk_loop (fuel : nat) (s : sink) (buf : list Z) (off start i : Z) : result Z * sink :=
  match fuel with
  | O => (Ok start, s)
  | S fuel =>
      let len := zlen buf in
      if i <? len then
        let page := if len - i <? ELFCORE_PAGE then len - i else ELFCORE_PAGE in
        let zero := (page =? ELFCORE_PAGE) && page_is_zero (part i page buf) in
        let '(ret, s) := if zero && (start <? i) then sink_write s (part start (i - start) buf) (off + start) else (Ok tt, s) in
        match ret with
        | Err e => (Err e, s)
        | Ok _ => chunk_loop fuel s buf off (if zero then i + page else start) (i + ELFCORE_PAGE)
        end
      else (Ok start, s)
  end.

Definition chunk_fuel (len : Z) : nat := S (Z.to_nat (len / ELFCORE_PAGE + 1)).

Definition write_chunk (s : sink) (buf : list Z) (off : Z) : result unit * sink :=
  if negb (sk_seekable s) then sink_write s buf off else
  match chunk_loop (chunk_fuel (zlen buf)) s buf off 0 0 with
  | (Err e, s) => (Err e, s)
  | (Ok start, s) =>
      if start <? zlen buf then sink_write s (part start (zlen buf - start) buf) (off + start) else (Ok tt, s)
  end.

Fixpoint copy_loop (fuel : nat) (src : source) (s : sink) (base size off : Z) : result unit * sink :=
  match fuel with
  | O => (Ok tt, s)
  | S fuel =>
      if size =? 0 then (Ok tt, s) else
      let want := if size <? DUMP_CHUNK then size else DUMP_CHUNK in
      match source_read src want base with
      | Err e => (Err e, s)
      | Ok buf =>
          match write_chunk s buf off with
          | (Err e, s) => (Err e, s)
          | (Ok _, s) => copy_loop fuel src s (base + want) (size - want) (off + want)
          end
      end
  end.

Definition copy_range (src : source) (s : sink) (base size off : Z) : result unit * sink :=
  copy_loop (S (Z.to_nat (size / DUMP_CHUNK + 1))) src s base size off.

(** ** Notes *)

Section Dump.
Context `{Alloc}.

(** No bytes: no note. *)
Definition read_note (src : source) (r : range) : result (list Z) :=
  if (r_size r =? 0) || (DUMP_NOTE_MAX <? r_size r) then Ok [] else
  if negb (alloc (r_size r)) then Err ENOMEM else
  match source_read src (r_size r) (r_base r) with
  | Err _ => Ok []
  | Ok buf => Ok (take (Z.to_nat (elfcore_notes_len buf)) buf)
  end.

Fixpoint read_notes (src : source) (l : list range) (notes : list (list Z)) : result (list (list Z)) :=
  match l with
  | [] => Ok notes
  | r :: l =>
      let? cur := read_note src r in
      read_notes src l (if bool_decide (cur = []) then notes else notes ++ [cur])
  end.

Record dump_stats : Type := mk_stats { ds_cpu_notes : Z; ds_vmcoreinfo : bool }.

Definition collect_notes (src : source) (vi : vmcore_info) : result (list (list Z) * dump_stats) :=
  if negb (alloc ((zlen (vi_cpu_notes vi) + 1) * 16)) then Err ENOMEM else
  let? notes := read_notes src (vi_cpu_notes vi) [] in
  let? cur := read_note src (vi_vmcoreinfo vi) in
  if bool_decide (cur = []) then Ok (notes, mk_stats (zlen notes) false)
  else Ok (notes ++ [cur], mk_stats (zlen notes) true).

(** ** The dump *)

(** What the kernel answers besides: opening the memory, opening the output
    and what it is, [fstat], [ftruncate], [fsync] and [close]. *)
Record dump_env : Type := mk_dump_env {
  de_source : result source;
  de_open : result bool;
  de_fstat : result unit;
  de_truncate : result unit;
  de_script : list write_step;
  de_fsync : result unit;
  de_close : result unit }.

(** A regular file has [total] zeros; a pipe has nothing. *)
Definition open_sink (e : dump_env) (total : Z) : result sink :=
  let? seekable := de_open e in
  let? _ := de_fstat e in
  if seekable : bool then
    let? _ := de_truncate e in Ok (mk_sink true 0 total (fun _ => 0) (de_script e))
  else Ok (mk_sink false 0 0 (fun _ => 0) (de_script e)).

Fixpoint copy_ranges (src : source) (s : sink) (rs : list range) (offsets : list Z) : result unit * sink :=
  match rs, offsets with
  | r :: rs, off :: offsets =>
      match copy_range src s (r_base r) (r_size r) off with
      | (Err e, s) => (Err e, s)
      | (Ok _, s) => copy_ranges src s rs offsets
      end
  | _, _ => (Ok tt, s)
  end.

(** From the header to the trailing padding. *)
Definition write_core (src : source) (ranges : rangeset) (l : layout) (s : sink) : result unit * sink :=
  match sink_write s (el_header l) 0 with
  | (Err e, s) => (Err e, s)
  | (Ok _, s) =>
      match copy_ranges src s (rs_r ranges) (el_offsets l) with
      | (Err e, s) => (Err e, s)
      | (Ok _, s) => if negb (sk_seekable s) && (sk_pos s <? el_total l) then sink_write s [] (el_total l) else (Ok tt, s)
      end
  end.

(** The result, what was written, and the layout it was written by. *)
Definition dump_vmcore (e : dump_env) (ranges : rangeset) (vi : vmcore_info) : result unit * option (layout * sink) :=
  match de_source e with
  | Err err => (Err err, None)
  | Ok src =>
      match collect_notes src vi with
      | Err err => (Err err, None)
      | Ok (notes, _) =>
          match elfcore_layout ranges notes (vi_has_page_offset vi) (vi_page_offset vi) with
          | Err err => (Err err, None)
          | Ok l =>
              match open_sink e (el_total l) with
              | Err err => (Err err, None)
              | Ok s =>
                  let '(ret, s) := if negb (alloc DUMP_CHUNK) then (Err ENOMEM, s) else write_core src ranges l s in
                  let ret := match ret with
                             | Ok _ => if sk_seekable s then de_fsync e else Ok tt
                             | Err err => Err err
                             end in
                  let ret := match ret with Ok _ => de_close e | Err err => Err err end in
                  (ret, Some (l, s))
              end
          end
      end
  end.

End Dump.

(** ** What the writes do *)

Lemma put_nil f off x : put f off [] x = f x.
Proof. unfold put. change (zlen []) with 0. destruct (Z.leb_spec off x), (Z.ltb_spec x (off + 0)); done || lia. Qed.

Lemma put_app f off p q x : put (put f off p) (off + zlen p) q x = put f off (p ++ q) x.
Proof.
  unfold put. pose proof (zlen_nonneg p). pose proof (zlen_nonneg q). rewrite zlen_app.
  destruct (Z.leb_spec (off + zlen p) x), (Z.ltb_spec x (off + zlen p + zlen q)), (Z.leb_spec off x),
    (Z.ltb_spec x (off + zlen p)), (Z.ltb_spec x (off + (zlen p + zlen q))); try lia; cbn [andb]; try done.
  - rewrite List.app_nth2; [f_equal|]; unfold zlen in *; lia.
  - rewrite List.app_nth1; [done|]. unfold zlen in *. lia.
Qed.

Lemma put_ext f g off p x : (forall x, f x = g x) -> put f off p x = put g off p x.
Proof. intros E. unfold put. by rewrite E. Qed.

Definition place (s : sink) (off : Z) : Z := if sk_seekable s then off else sk_size s.

(** [s'] is [s] with [p] written at [off]. *)
Record written (s : sink) (off : Z) (p : list Z) (s' : sink) : Prop := {
  wr_seekable : sk_seekable s' = sk_seekable s;
  wr_pos : sk_pos s' = sk_pos s;
  wr_byte : forall x, sk_byte s' x = put (sk_byte s) (place s off) p x;
  wr_size : sk_size s' = if sk_seekable s then sk_size s else sk_size s + zlen p }.

Lemma written_put s off p script :
  (sk_seekable s = true -> off + zlen p <= sk_size s) -> written s off p (sink_put s off p script).
Proof.
  intros B. pose proof (zlen_nonneg p). constructor; try done. cbn. destruct (sk_seekable s); [specialize (B eq_refl)|]; lia.
Qed.

Lemma written_trans s off p s1 q s2 :
  written s off p s1 -> written s1 (off + zlen p) q s2 -> written s off (p ++ q) s2.
Proof.
  intros [S1 P1 B1 Z1] [S2 P2 B2 Z2]. constructor.
  - congruence.
  - congruence.
  - intros x. rewrite B2. unfold place in *. rewrite S1, Z1. rewrite <- put_app.
    destruct (sk_seekable s); by apply put_ext.
  - rewrite Z2, S1, Z1. destruct (sk_seekable s); [done|]. rewrite zlen_app. lia.
Qed.

Lemma written_nil s off script : written s off [] (sink_skip s script).
Proof.
  constructor; try done; [intros x; by rewrite put_nil|]. cbn. change (zlen (@nil Z)) with 0. destruct (sk_seekable s); lia.
Qed.

Lemma write_all_written script s p off s' :
  (sk_seekable s = true -> off + zlen p <= sk_size s) ->
  dump_write_all script s p off = (Ok tt, s') -> written s off p s'.
Proof.
  revert s p off. induction script as [|st script IH]; intros s p off B E.
  - destruct p as [|b p]; injection E as <-; [apply written_nil|by apply written_put].
  - destruct p as [|b p]; [injection E as <-; apply written_nil|].
    cbn [dump_write_all] in E. destruct st as [n| |e]; [|by apply IH in E|done]. set (m := Nat.min n (length (b :: p))) in *.
    destruct (m =? 0)%nat; [done|]. rewrite <- (take_drop m (b :: p)).
    assert (Lm : zlen (take m (b :: p)) = Z.of_nat m) by (unfold zlen; rewrite length_take; lia).
    assert (W : written s off (take m (b :: p)) (sink_put s off (take m (b :: p)) script)).
    { apply written_put. intros S. specialize (B S). rewrite Lm. unfold zlen in B. lia. }
    eapply written_trans; [exact W|]. rewrite Lm. eapply IH; [|exact E].
    destruct W as [S _ _ Z]. rewrite S, Z. intros T. specialize (B T). rewrite T.
    unfold zlen in *. rewrite length_drop. lia.
Qed.

(** No write fails or writes nothing. *)
Definition fine_step (st : write_step) : Prop := match st with WriteCount n => (0 < n)%nat | WriteIntr => True | WriteErr _ => False end.
Definition fine (s : sink) : Prop := Forall fine_step (sk_script s).

Lemma write_all_fine script s p off :
  Forall fine_step script -> (dump_write_all script s p off).1 = Ok tt /\ fine (dump_write_all script s p off).2.
Proof.
  intros F. revert s p off. induction F as [|st script St F IH]; intros s p off; destruct p as [|b p]; cbn [dump_write_all];
    [split; [done|by constructor]..|].
  destruct st as [n| |e]; [|by apply IH|done]. cbn in St. destruct (Nat.eqb_spec (Nat.min n (length (b :: p))) 0); [cbn in *; lia|]. apply IH.
Qed.

(** ** The file as it should be *)

(** [s] holds [G] up to [hi] and zeros beyond; a regular file has [total]
    bytes, and a pipe has received exactly [hi]. *)
Record agrees (total : Z) (G : Z -> Z) (s : sink) (hi : Z) : Prop := {
  ag_hi : 0 <= hi;
  ag_byte : forall x, 0 <= x < hi -> sk_byte s x = G x;
  ag_zero : forall x, hi <= x -> sk_byte s x = 0;
  ag_size : sk_size s = if sk_seekable s then total else hi;
  ag_pos : sk_seekable s = false -> sk_pos s = hi }.

(** Zeros need not be written to a regular file. *)
Lemma agrees_hole total G s hi hi' :
  agrees total G s hi -> sk_seekable s = true -> hi <= hi' -> (forall x, hi <= x < hi' -> G x = 0) -> agrees total G s hi'.
Proof.
  intros [H B Z S P] K L G0. constructor; [lia| |intros x X; apply Z; lia|by rewrite S, K|by rewrite K].
  intros x X. destruct (Z.lt_ge_cases x hi); [by apply B; lia|]. rewrite Z, G0; lia.
Qed.

Lemma agrees_written total G s hi off p s' :
  agrees total G s hi -> written s off p s' -> hi <= off -> place s off = off -> 
  (forall x, hi <= x < off -> G x = 0) -> (forall x, off <= x < off + zlen p -> G x = List.nth (Z.to_nat (x - off)) p 0) ->
  agrees total G (sink_at s' (if sk_seekable s then sk_pos s' else off + zlen p)) (off + zlen p).
Proof.
  intros [H B Z S P] [Ws Wp Wb Wz] L Pl G0 Gp. pose proof (zlen_nonneg p). rewrite Pl in Wb. constructor; cbn.
  - lia.
  - intros x X. rewrite Wb. unfold put. destruct (Z.leb_spec off x), (Z.ltb_spec x (off + zlen p)); try lia; cbn [andb].
    + symmetry. apply Gp. lia.
    + destruct (Z.lt_ge_cases x hi); [by apply B; lia|]. rewrite Z, G0; lia.
  - intros x X. rewrite Wb. unfold put. destruct (Z.leb_spec off x), (Z.ltb_spec x (off + zlen p)); try lia; cbn [andb]. apply Z. lia.
  - rewrite Wz, Ws. unfold place in Pl. destruct (sk_seekable s); [by rewrite S|]. lia.
  - rewrite Ws. intros ->. done.
Qed.

Lemma nth_zeros n k : List.nth k (zeros n) 0 = 0.
Proof. unfold zeros. generalize (Z.to_nat n). intros m. revert k. induction m as [|m IH]; intros [|k]; cbn; auto. Qed.

Lemma sink_at_same s : sink_at s (sk_pos s) = s.
Proof. by destruct s. Qed.

Lemma sink_at_at s a b : sink_at (sink_at s a) b = sink_at s b.
Proof. done. Qed.

Lemma fill_gap_agrees fuel total G s hi off s' :
  agrees total G s hi -> sk_seekable s = false -> hi <= off -> off - hi <= 4096 * Z.of_nat fuel ->
  (forall x, hi <= x < off -> G x = 0) -> fill_gap fuel s off = (Ok tt, s') -> agrees total G s' off /\ sk_seekable s' = false.
Proof.
  revert s hi. induction fuel as [|fuel IH]; intros s hi A K L F G0 E; cbn [fill_gap] in E.
  - injection E as <-. assert (hi = off) as <- by lia. done.
  - pose proof (ag_pos _ _ _ _ A K) as P. rewrite P in E. destruct (Z.ltb_spec hi off); [|injection E as <-; by assert (hi = off) as <- by lia].
    set (gap := if off - hi <? ELFCORE_PAGE then off - hi else ELFCORE_PAGE) in *.
    assert (Gp : 0 < gap <= off - hi /\ (gap = off - hi \/ gap = 4096)).
    { unfold gap, ELFCORE_PAGE. destruct (Z.ltb_spec (off - hi) 4096); lia. }
    destruct (write_all_to s (zeros gap) 0) as [[[]|e] s1] eqn:W; [|done].
    apply write_all_written in W; [|by rewrite K].
    assert (W' : written s hi (zeros gap) s1) by (destruct W; constructor; try done; unfold place in *; by rewrite K in *).
    pose proof (zlen_zeros gap ltac:(lia)) as Lz.
    assert (A1 : agrees total G (sink_at s1 (hi + gap)) (hi + gap)).
    { pose proof (agrees_written _ _ _ _ hi _ _ A W' ltac:(lia) ltac:(unfold place; rewrite K; pose proof (ag_size _ _ _ _ A) as Z; by rewrite K in Z)
        ltac:(intros; lia) ltac:(intros x X; rewrite nth_zeros; apply G0; lia)) as Q. rewrite Lz, K in Q. exact Q. }
    assert (K1 : sk_seekable s1 = false) by (by rewrite (wr_seekable _ _ _ _ W)).
    assert (P1 : sk_pos s1 = hi) by (rewrite (wr_pos _ _ _ _ W); done). rewrite P1 in E.
    apply (IH _ (hi + gap) A1 K1 ltac:(lia)); [lia|intros x X; apply G0; lia|done].
Qed.

Lemma sink_write_agrees total G s hi buf off s' :
  agrees total G s hi -> hi <= off -> off + zlen buf <= total -> (forall x, hi <= x < off -> G x = 0) ->
  (forall x, off <= x < off + zlen buf -> G x = List.nth (Z.to_nat (x - off)) buf 0) ->
  sink_write s buf off = (Ok tt, s') -> agrees total G s' (off + zlen buf) /\ sk_seekable s' = sk_seekable s.
Proof.
  intros A L T G0 Gp. unfold sink_write, write_all_to. destruct (sk_seekable s) eqn:K; intros E.
  - apply write_all_written in E; [|intros _; rewrite (ag_size _ _ _ _ A), K; lia]. pose proof (wr_seekable _ _ _ _ E) as S. rewrite K in S.
    split; [|done].
    pose proof (agrees_written _ _ _ _ off _ _ A E L ltac:(unfold place; by rewrite K) G0 Gp) as Q. rewrite K, sink_at_same in Q. done.
  - destruct (fill_gap (gap_fuel s off) s off) as [[[]|e] s1] eqn:F; [|done].
    assert (Fu : off - hi <= 4096 * Z.of_nat (gap_fuel s off)).
    { unfold gap_fuel, ELFCORE_PAGE. rewrite (ag_pos _ _ _ _ A K). pose proof (Z.div_mod (off - hi) 4096 ltac:(lia)).
      pose proof (Z.mod_pos_bound (off - hi) 4096 ltac:(lia)). pose proof (Z.div_pos (off - hi) 4096 ltac:(lia) ltac:(lia)). lia. }
    destruct (fill_gap_agrees _ _ _ _ _ _ _ A K L Fu G0 F) as [A1 K1].
    pose proof (ag_pos _ _ _ _ A1 K1) as P1. pose proof (ag_size _ _ _ _ A1) as Z1. rewrite K1 in Z1.
    apply write_all_written in E; [|by cbn; rewrite K1].
    assert (W : written s1 off buf (sink_at s' (sk_pos s1))) by (destruct E; constructor; done).
    pose proof (agrees_written _ _ _ _ off _ _ A1 W ltac:(lia) ltac:(unfold place; by rewrite K1) ltac:(intros; lia) Gp) as Q.
    rewrite K1, sink_at_at in Q. pose proof (wr_pos _ _ _ _ E) as Ps. pose proof (wr_seekable _ _ _ _ E) as Ks. cbn in Ps, Ks.
    rewrite <- P1, <- Ps, sink_at_same in Q. rewrite Ps, P1 in Q. by rewrite Ks, K1.
Qed.

Lemma part_length a n buf : 0 <= a -> 0 <= n -> a + n <= zlen buf -> zlen (part a n buf) = n.
Proof. intros. unfold part, zlen in *. rewrite length_take, length_drop. lia. Qed.

Lemma part_nth a n buf k : 0 <= a -> 0 <= k < n -> List.nth (Z.to_nat k) (part a n buf) 0 = List.nth (Z.to_nat (a + k)) buf 0.
Proof.
  intros A K. unfold part. rewrite !nth_lookup, lookup_take, lookup_drop. rewrite decide_True by lia.
  do 2 f_equal. lia.
Qed.

(** The bytes of [buf] are what belongs at [off]. *)
Definition belongs (G : Z -> Z) (buf : list Z) (off : Z) : Prop :=
  forall x, off <= x < off + zlen buf -> G x = List.nth (Z.to_nat (x - off)) buf 0.

Lemma write_part total G s hi buf off a n s' :
  agrees total G s hi -> hi = off + a -> belongs G buf off -> 0 <= off -> 0 <= a -> 0 <= n -> a + n <= zlen buf -> off + zlen buf <= total ->
  sink_write s (part a n buf) (off + a) = (Ok tt, s') -> agrees total G s' (off + a + n) /\ sk_seekable s' = sk_seekable s.
Proof.
  intros Ag -> B O A N L T E. rewrite <- (part_length a n buf) at 1 by lia.
  eapply sink_write_agrees; [exact Ag|lia|rewrite part_length; lia|intros; lia| |exact E].
  intros x X. rewrite part_length in X by lia. rewrite part_nth by lia. rewrite B by lia. do 2 f_equal. lia.
Qed.

Lemma page_zero G buf off i :
  belongs G buf off -> 0 <= i -> i + 4096 <= zlen buf -> page_is_zero (part i 4096 buf) = true ->
  forall x, off + i <= x < off + i + 4096 -> G x = 0.
Proof.
  intros B I L Z x X. rewrite B by lia. replace (x - off) with (i + (x - off - i)) by lia. rewrite <- (part_nth i 4096) by lia.
  unfold page_is_zero in Z. rewrite forallb_forall in Z. pose proof (part_length i 4096 buf I ltac:(lia) L) as P. unfold zlen in P.
  specialize (Z _ (List.nth_In (part i 4096 buf) 0 (n := Z.to_nat (x - off - i)) ltac:(lia))). lia.
Qed.

Lemma chunk_loop_agrees fuel total G s buf off start i st' s' :
  agrees total G s (off + start) -> sk_seekable s = true -> belongs G buf off -> 0 <= off -> 0 <= start <= i -> start <= zlen buf ->
  off + zlen buf <= total -> zlen buf - i <= 4096 * Z.of_nat fuel ->
  chunk_loop fuel s buf off start i = (Ok st', s') ->
  agrees total G s' (off + st') /\ sk_seekable s' = true /\ 0 <= st' <= zlen buf.
Proof.
  revert s start i. induction fuel as [|fuel IH]; intros s start i A K B O SI SL T F; cbn [chunk_loop]; [intros [= <- <-]; split_and!; done || lia|].
  cbv zeta. destruct (Z.ltb_spec i (zlen buf)); [|intros [= <- <-]; split_and!; done || lia].
  set (page := if zlen buf - i <? ELFCORE_PAGE then zlen buf - i else ELFCORE_PAGE).
  assert (Pg : 0 < page /\ i + page <= zlen buf /\ (i + page = zlen buf \/ page = 4096)).
  { unfold page, ELFCORE_PAGE. destruct (Z.ltb_spec (zlen buf - i) 4096); lia. }
  change ELFCORE_PAGE with 4096. destruct ((page =? 4096) && page_is_zero (part i page buf)) eqn:Zp; cbn [andb].
  - apply andb_prop in Zp as [Z1 Z2]. apply Z.eqb_eq in Z1. rewrite Z1 in *.
    pose proof (page_zero G buf off i B ltac:(lia) ltac:(lia) Z2) as G0.
    assert (Next : forall s1, agrees total G s1 (off + i) -> sk_seekable s1 = true ->
      chunk_loop fuel s1 buf off (i + 4096) (i + 4096) = (Ok st', s') ->
      agrees total G s' (off + st') /\ sk_seekable s' = true /\ 0 <= st' <= zlen buf).
    { intros s1 A1 K1. apply IH; [|done|done|lia..].
      eapply agrees_hole; [exact A1|done|lia|]. intros x X. apply G0. lia. }
    destruct (Z.ltb_spec start i).
    + destruct (sink_write s (part start (i - start) buf) (off + start)) as [[[]|e] s1] eqn:W; [|done].
      apply (write_part total G s (off + start) buf off start (i - start)) in W as [A1 K1]; [|done|done|done|lia|lia|lia|lia|lia].
      replace (off + start + (i - start)) with (off + i) in A1 by lia. apply Next; [done|by rewrite K1].
    + assert (start = i) as -> by lia. by apply Next.
  - apply IH; done || lia.
Qed.

Lemma write_chunk_agrees total G s hi buf off s' :
  agrees total G s hi -> hi <= off -> (forall x, hi <= x < off -> G x = 0) -> belongs G buf off -> 0 <= off -> off + zlen buf <= total ->
  write_chunk s buf off = (Ok tt, s') -> agrees total G s' (off + zlen buf) /\ sk_seekable s' = sk_seekable s.
Proof.
  intros A L G0 B O T. unfold write_chunk. destruct (sk_seekable s) eqn:K; cbn [negb].
  2: { rewrite <- K. by eapply sink_write_agrees. }
  assert (A0 : agrees total G s (off + 0)) by (rewrite Z.add_0_r; by eapply agrees_hole).
  destruct (chunk_loop _ s buf off 0 0) as [[st|e] s1] eqn:C; [|done]. pose proof (zlen_nonneg buf).
  apply chunk_loop_agrees with (total := total) (G := G) in C as (A1 & K1 & R); [|done|done|done|done|lia|lia|lia|].
  2: { unfold chunk_fuel, ELFCORE_PAGE. pose proof (Z.div_mod (zlen buf) 4096 ltac:(lia)).
       pose proof (Z.mod_pos_bound (zlen buf) 4096 ltac:(lia)). pose proof (Z.div_pos (zlen buf) 4096 ltac:(lia) ltac:(lia)). lia. }
  destruct (Z.ltb_spec st (zlen buf)); intros E.
  - apply (write_part total G s1 (off + st) buf off st (zlen buf - st)) in E as [A2 K2]; [|done|done|done|lia|lia|lia|lia|lia].
    replace (off + st + (zlen buf - st)) with (off + zlen buf) in A2 by lia. by rewrite K2.
  - injection E as <-. by assert (st = zlen buf) as -> by lia.
Qed.

(** ** Ranges *)

Lemma source_read_spec src len off buf :
  0 <= len -> source_read src len off = Ok buf ->
  zlen buf = len /\ forall k, 0 <= k < len -> List.nth (Z.to_nat k) buf 0 = src_mem src (off + k).
Proof.
  intros L. unfold source_read. cbv zeta. case_bool; [done|]. destruct (src_map _ _ _); [|done]. intros [= <-].
  split; [unfold zlen; rewrite length_map, length_seq; lia|]. intros k K.
  rewrite nth_lookup. rewrite list_lookup_fmap, lookup_seq_lt by lia. cbn. do 2 f_equal. lia.
Qed.

Lemma copy_loop_agrees fuel total G src s hi base size off s' :
  agrees total G s hi -> hi <= off -> (forall x, hi <= x < off -> G x = 0) -> 0 <= off -> 0 <= size -> off + size <= total ->
  (forall x, off <= x < off + size -> G x = src_mem src (base + (x - off))) -> size <= DUMP_CHUNK * Z.of_nat fuel ->
  copy_loop fuel src s base size off = (Ok tt, s') ->
  (size = 0 /\ s' = s) \/ (agrees total G s' (off + size) /\ sk_seekable s' = sk_seekable s).
Proof.
  revert s hi base size off. induction fuel as [|fuel IH]; intros s hi base size off A L G0 O Sz T Gm F; cbn [copy_loop].
  - intros [= <-]. left. split; [lia|done].
  - destruct (Z.eqb_spec size 0); [intros [= <-]; by left|]. cbv zeta.
    set (want := if size <? DUMP_CHUNK then size else DUMP_CHUNK).
    assert (Wt : 0 < want <= size /\ size - want <= DUMP_CHUNK * Z.of_nat fuel).
    { unfold want, DUMP_CHUNK in *. destruct (Z.ltb_spec size (2 ^ 20)); lia. }
    destruct (source_read src want base) as [buf|] eqn:R; [|done]. apply source_read_spec in R as [Lb Nb]; [|lia].
    destruct (write_chunk s buf off) as [[[]|e] s1] eqn:W; [|done].
    apply write_chunk_agrees with (total := total) (G := G) (hi := hi) in W as [A1 K1]; [|done|done|done| |done|lia].
    2: { intros x X. rewrite Gm by lia. rewrite Nb by lia. f_equal. }
    rewrite Lb in A1. intros E. right.
    apply (IH s1 (off + want)) in E; [|done|lia|intros; lia|lia|lia|lia| |lia].
    + destruct E as [[Z ->]|[A2 K2]].
      * by replace (off + size) with (off + want) by lia.
      * replace (off + want + (size - want)) with (off + size) in A2 by lia. by rewrite K2, K1.
    + intros x X. rewrite Gm by lia. f_equal. lia.
Qed.

(** The memory part of the file. *)
Fixpoint core_byte (mem : Z -> Z) (rs : list range) (offs : list Z) (x : Z) : Z :=
  match rs, offs with
  | r :: rs, o :: offs =>
      if (o <=? x) && (x <? o + r_size r) then mem (r_base r + (x - o)) else core_byte mem rs offs x
  | _, _ => 0
  end.

Lemma core_byte_below mem rs offs lo hi x :
  laid rs offs lo hi -> Forall (fun r => 0 <= r_size r) rs -> x < lo -> core_byte mem rs offs x = 0.
Proof.
  revert offs lo. induction rs as [|r rs IH]; intros [|o offs] lo; cbn [laid core_byte]; try done.
  intros (L & _ & R) F X. apply Forall_cons in F as [S F]. destruct (Z.leb_spec o x); [lia|]. cbn [andb]. eapply IH; [done|done|lia].
Qed.

Lemma copy_ranges_agrees total G src rs offs lo s hi s' :
  laid rs offs lo total -> Forall (fun r => 0 < r_size r) rs -> 0 <= lo -> agrees total G s hi -> hi <= lo ->
  (forall x, hi <= x < lo -> G x = 0) -> (forall x, lo <= x -> G x = core_byte (src_mem src) rs offs x) ->
  copy_ranges src s rs offs = (Ok tt, s') ->
  exists e, agrees total G s' e /\ e <= total /\ sk_seekable s' = sk_seekable s /\ (forall x, e <= x -> G x = 0).
Proof.
  revert offs lo s hi. induction rs as [|r rs IH]; intros offs lo s hi Ld F Lo A H G0 Gc E.
  - destruct offs; [|done]. cbn in Ld. injection E as <-. exists hi. split; [done|]. split; [lia|]. split; [done|].
    intros x X. destruct (Z.lt_ge_cases x lo); [by apply G0|]. by rewrite Gc.
  - destruct offs as [|o offs]; [done|]. destruct Ld as (L & _ & Ld). apply Forall_cons in F as [S F]. cbn [copy_ranges] in E.
    assert (F0 : Forall (fun r => 0 <= r_size r) rs) by (eapply Forall_impl; [exact F|]; cbn; lia).
    pose proof (laid_bounds _ _ _ _ Ld F0) as [Lt _].
    destruct (copy_range src s (r_base r) (r_size r) o) as [[[]|e] s1] eqn:C; [|done].
    assert (Gr : forall x, o <= x < o + r_size r -> G x = src_mem src (r_base r + (x - o))).
    { intros x X. rewrite Gc by lia. cbn [core_byte]. destruct (Z.leb_spec o x), (Z.ltb_spec x (o + r_size r)); try lia. done. }
    assert (Gg : forall x, hi <= x < o -> G x = 0).
    { intros x X. destruct (Z.lt_ge_cases x lo); [apply G0; lia|]. rewrite Gc by lia. cbn [core_byte].
      destruct (Z.leb_spec o x); [lia|]. cbn [andb]. eapply core_byte_below; [exact Ld|done|lia]. }
    apply copy_loop_agrees with (total := total) (G := G) (hi := hi) in C; [|done|lia|done|lia|lia|lia|done|].
    2: { unfold DUMP_CHUNK. pose proof (Z.div_mod (r_size r) (2 ^ 20) ltac:(lia)).
         pose proof (Z.mod_pos_bound (r_size r) (2 ^ 20) ltac:(lia)). pose proof (Z.div_pos (r_size r) (2 ^ 20) ltac:(lia) ltac:(lia)). lia. }
    destruct C as [[? _]|[A1 K1]]; [lia|]. rewrite <- K1.
    eapply (IH offs (o + r_size r) s1); [done|done|lia|exact A1|lia|intros; lia| |done].
    intros x X. rewrite Gc by lia. cbn [core_byte]. destruct (Z.ltb_spec x (o + r_size r)); [lia|]. by rewrite andb_false_r.
Qed.

(** ** The whole file *)

(** The byte at [x] of a core laid out by [l]. *)
Definition core_image (mem : Z -> Z) (rs : list range) (l : layout) (x : Z) : Z :=
  if x <? el_header_len l then List.nth (Z.to_nat x) (el_header l) 0 else core_byte mem rs (el_offsets l) x.

Lemma write_core_image src ranges l s s' :
  zlen (el_header l) = el_header_len l -> laid (rs_r ranges) (el_offsets l) (el_header_len l) (el_total l) ->
  Forall (fun r => 0 < r_size r) (rs_r ranges) -> agrees (el_total l) (core_image (src_mem src) (rs_r ranges) l) s 0 ->
  write_core src ranges l s = (Ok tt, s') ->
  agrees (el_total l) (core_image (src_mem src) (rs_r ranges) l) s' (el_total l) /\ sk_seekable s' = sk_seekable s.
Proof.
  intros Lh Ld F A. unfold write_core. set (G := core_image _ _ _) in *. pose proof (zlen_nonneg (el_header l)).
  assert (F0 : Forall (fun r => 0 <= r_size r) (rs_r ranges)) by (eapply Forall_impl; [exact F|]; cbn; lia).
  pose proof (laid_bounds _ _ _ _ Ld F0) as [Lt _].
  destruct (sink_write s (el_header l) 0) as [[[]|e] s1] eqn:W; [|done].
  apply (sink_write_agrees (el_total l) G) with (hi := 0) in W as [A1 K1]; [|done|lia|lia|intros; lia|].
  2: { intros x X. unfold G, core_image. destruct (Z.ltb_spec x (el_header_len l)); [|lia]. by rewrite Z.sub_0_r. }
  rewrite Z.add_0_l, Lh in A1.
  destruct (copy_ranges src s1 _ _) as [[[]|e] s2] eqn:C; [|done].
  apply (copy_ranges_agrees (el_total l) G) with (lo := el_header_len l) (hi := el_header_len l) in C as (e & A2 & Le & K2 & G0); [|done|done|lia|done|lia|intros; lia|].
  2: { intros x X. unfold G, core_image. destruct (Z.ltb_spec x (el_header_len l)); [lia|done]. }
  rewrite K2, K1. destruct (sk_seekable s) eqn:K; cbn [negb andb].
  - intros [= <-]. split; [|by rewrite K2, K1]. eapply agrees_hole; [exact A2|by rewrite K2, K1|done|]. intros x X. apply G0. lia.
  - rewrite (ag_pos _ _ _ _ A2) by (by rewrite K2, K1). destruct (Z.ltb_spec e (el_total l)); intros E.
    + apply (sink_write_agrees (el_total l) G) with (hi := e) in E as [A3 K3]; [|done|done|change (zlen []) with 0; lia|intros x X; apply G0; lia|].
      * change (zlen []) with 0 in A3. rewrite Z.add_0_r in A3. by rewrite K3, K2, K1.
      * change (zlen []) with 0. intros; lia.
    + injection E as <-. assert (e = el_total l) as -> by lia. by rewrite K2, K1.
Qed.

(** Notes are at most a megabyte each. *)
Lemma read_note_length `{Alloc} src r n : read_note src r = Ok n -> zlen n <= DUMP_NOTE_MAX.
Proof.
  unfold read_note. case_bool; [by intros [= <-]|]. b2p. case_bool; [done|].
  destruct (source_read src (r_size r) (r_base r)) as [buf|] eqn:S; [|by intros [= <-]]. intros [= <-].
  destruct (Z.lt_ge_cases (r_size r) 0).
  - unfold source_read in S. cbv zeta in S. case_bool; [done|]. destruct (src_map _ _ _); [|done]. injection S as <-.
    rewrite (Z2Nat.nonpos (r_size r)) by lia. cbn [seq map]. by rewrite take_nil.
  - apply source_read_spec in S as [L _]; [|lia]. unfold zlen in *. rewrite length_take. lia.
Qed.

Lemma read_notes_length `{Alloc} src l acc notes :
  read_notes src l acc = Ok notes -> zlen (concat notes) <= zlen (concat acc) + zlen l * DUMP_NOTE_MAX.
Proof.
  revert acc. induction l as [|r l IH]; intros acc; cbn [read_notes]; [intros [= <-]; unfold zlen; cbn; lia|].
  destruct (read_note src r) as [cur|] eqn:R; [|done]. apply read_note_length in R. intros E. apply IH in E. rewrite zlen_cons.
  revert E. case_bool_decide as D; [unfold DUMP_NOTE_MAX; lia|]. rewrite concat_app, zlen_app. cbn [concat]. rewrite app_nil_r. lia.
Qed.

Lemma collect_notes_length `{Alloc} src vi notes st :
  collect_notes src vi = Ok (notes, st) -> zlen (concat notes) <= (zlen (vi_cpu_notes vi) + 1) * DUMP_NOTE_MAX.
Proof.
  unfold collect_notes. case_bool; [done|]. destruct (read_notes src (vi_cpu_notes vi) []) as [ns|] eqn:R; [|done].
  apply read_notes_length in R. change (zlen (concat [])) with 0 in R. destruct (read_note src (vi_vmcoreinfo vi)) as [cur|] eqn:C; [|done].
  apply read_note_length in C. case_bool_decide; intros [= <- <-]; [unfold DUMP_NOTE_MAX in *; lia|].
  rewrite concat_app, zlen_app. cbn [concat]. rewrite app_nil_r. lia.
Qed.

(** Memory below [hi] takes that much of the file and a page for each range. *)
Lemma pages_for_wf lo rs hi :
  wf_from lo rs -> Forall (fun r => r_base r + r_size r <= hi) rs -> lo <= hi -> pages_for rs <= hi - lo + 4096 * zlen rs.
Proof.
  revert lo. induction rs as [|r rs IH]; intros lo W F B; [unfold zlen; cbn; lia|].
  destruct W as (L & P & _ & W). apply Forall_cons in F as [Fr F]. specialize (IH _ W F Fr).
  unfold pages_for in *. cbn [foldr]. rewrite zlen_cons. lia.
Qed.

Lemma core_byte_at mem rs offs lo hi i r o j :
  laid rs offs lo hi -> Forall (fun r => 0 <= r_size r) rs -> rs !! i = Some r -> offs !! i = Some o -> 0 <= j < r_size r ->
  core_byte mem rs offs (o + j) = mem (r_base r + j).
Proof.
  revert offs lo i. induction rs as [|r0 rs IH]; intros [|o0 offs] lo i; cbn [laid]; try done.
  intros (L & _ & Ld) F. apply Forall_cons in F as [S F]. destruct i as [|i]; cbn [lookup list_lookup core_byte].
  - intros [= ->] [= ->] J. destruct (Z.leb_spec o (o + j)), (Z.ltb_spec (o + j) (o + r_size r)); try lia. cbn [andb]. f_equal. lia.
  - intros Ir Io J. destruct (laid_bounds _ _ _ _ Ld F) as [_ B]. destruct (B i r o Ir Io).
    destruct (Z.ltb_spec (o + j) (o0 + r_size r0)); [lia|]. rewrite andb_false_r. by eapply IH.
Qed.

(** What the file holds in its first [n] bytes. *)
Definition first_bytes (s : sink) (n : Z) : list Z := map (fun i => sk_byte s (Z.of_nat i)) (seq 0 (Z.to_nat n)).

Lemma first_bytes_header s (h : list Z) :
  (forall x, 0 <= x < zlen h -> sk_byte s x = List.nth (Z.to_nat x) h 0) -> first_bytes s (zlen h) = h.
Proof.
  intros B. unfold first_bytes, zlen in *. rewrite Nat2Z.id. apply list_eq. intros i.
  destruct (decide (i < length h)%nat) as [I|I].
  - rewrite list_lookup_fmap, lookup_seq_lt by done. cbn. rewrite B, Nat2Z.id by lia.
    destruct (lookup_lt_is_Some_2 h i I) as [x X]. rewrite X. by rewrite (nth_lookup_Some h i 0 x X).
  - rewrite !lookup_ge_None_2; [done|lia|]. rewrite length_map, length_seq. lia.
Qed.

(** What a dump needs of the machine: memory below 2^62 and a sane number of
    CPU notes. *)
Definition dumpable (ranges : rangeset) (vi : vmcore_info) : Prop :=
  rs_wf ranges /\ Forall (fun r => r_base r + r_size r <= 2 ^ 62) (rs_r ranges) /\ zlen (vi_cpu_notes vi) < 2 ^ 32.

Lemma dumpable_room `{Alloc} src ranges vi notes st :
  dumpable ranges vi -> collect_notes src vi = Ok (notes, st) -> zlen (rs_r ranges) <= UINT16_MAX - 1 -> layout_room ranges notes.
Proof.
  intros ([W _] & L & N) C R. apply collect_notes_length in C. pose proof (pages_for_wf _ _ (2 ^ 62) W L ltac:(lia)) as P.
  unfold layout_room, EHDR, PHDR, UINT16_MAX, DUMP_NOTE_MAX in *. lia.
Qed.

Lemma laid_zip_ranges hp po rs offs lo hi :
  laid rs offs lo hi -> map (fun p => Range (p_paddr p) (p_filesz p)) (zip_with (load_phdr hp po) rs offs) = rs.
Proof.
  revert offs lo. induction rs as [|r rs IH]; intros [|o offs] lo; cbn [laid]; try done. intros (_ & _ & L).
  cbn. rewrite (IH _ _ L). by destruct r.
Qed.

(** ** Nothing stops a dump when the kernel cooperates *)

Lemma fine_at s p : fine s -> fine (sink_at s p).
Proof. done. Qed.

Lemma fill_gap_fine fuel s off : fine s -> (fill_gap fuel s off).1 = Ok tt /\ fine (fill_gap fuel s off).2.
Proof.
  revert s. induction fuel as [|fuel IH]; intros s F; cbn [fill_gap]; [done|]. case_bool; [|done].
  match goal with |- context [write_all_to s (zeros ?g) 0] => set (gap := g) end.
  pose proof (write_all_fine _ s (zeros gap) 0 F) as W. unfold write_all_to.
  destruct (dump_write_all _ _ _ _) as [r s1]. cbn [fst snd] in W. destruct W as [-> W]. by apply IH.
Qed.

Lemma sink_write_fine s buf off : fine s -> (sink_write s buf off).1 = Ok tt /\ fine (sink_write s buf off).2.
Proof.
  intros F. unfold sink_write, write_all_to. case_bool; [by apply write_all_fine|].
  pose proof (fill_gap_fine (gap_fuel s off) s off F) as W. destruct (fill_gap _ _ _) as [r s1]. cbn [fst snd] in W. destruct W as [-> W].
  by apply write_all_fine.
Qed.

Lemma chunk_loop_fine fuel s buf off start i :
  fine s -> exists st, (chunk_loop fuel s buf off start i).1 = Ok st /\ fine (chunk_loop fuel s buf off start i).2.
Proof.
  revert s start i. induction fuel as [|fuel IH]; intros s start i F; cbn [chunk_loop]; [by exists start|]. cbv zeta.
  case_bool; [|by exists start]. set (z := _ && page_is_zero _).
  destruct (z && (start <? i)); [|by apply IH].
  pose proof (sink_write_fine s (part start (i - start) buf) (off + start) F) as W. destruct (sink_write _ _ _) as [r s1].
  cbn [fst snd] in W. destruct W as [-> W]. by apply IH.
Qed.

Lemma write_chunk_fine s buf off : fine s -> (write_chunk s buf off).1 = Ok tt /\ fine (write_chunk s buf off).2.
Proof.
  intros F. unfold write_chunk. case_bool; [by apply sink_write_fine|].
  destruct (chunk_loop_fine (chunk_fuel (zlen buf)) s buf off 0 0 F) as (st & E & W). destruct (chunk_loop _ _ _ _ _ _) as [r s1].
  cbn [fst snd] in E, W. rewrite E. case_bool; [by apply sink_write_fine|done].
Qed.

(** [mmap] succeeds and the ranges are within the limit. *)
Definition readable (src : source) (r : range) : Prop :=
  (forall a n, src_map src a n = Ok tt) /\ r_base r + r_size r <= src_limit src.

Lemma copy_loop_fine fuel src s base size off :
  readable src (Range base size) -> 0 <= size -> fine s ->
  (copy_loop fuel src s base size off).1 = Ok tt /\ fine (copy_loop fuel src s base size off).2.
Proof.
  revert s base size off. induction fuel as [|fuel IH]; intros s base size off [M L] S F; cbn [copy_loop]; [done|].
  destruct (Z.eqb_spec size 0); [done|]. cbv zeta. cbn [r_base r_size] in L. set (want := if size <? DUMP_CHUNK then size else DUMP_CHUNK).
  assert (Wt : 0 < want <= size) by (unfold want, DUMP_CHUNK; destruct (Z.ltb_spec size (2 ^ 20)); lia).
  unfold source_read. cbv zeta. rewrite M. destruct (Z.ltb_spec (src_limit src) base), (Z.ltb_spec (src_limit src - base) want); try lia. cbn [orb].
  pose proof (write_chunk_fine s (map (fun i => src_mem src (base + Z.of_nat i)) (seq 0 (Z.to_nat want))) off F) as W.
  destruct (write_chunk _ _ _) as [r s1]. cbn [fst snd] in W. destruct W as [-> W]. apply IH; [split; [done|cbn; lia]|lia|done].
Qed.

Lemma copy_ranges_fine src rs offs s :
  Forall (readable src) rs -> Forall (fun r => 0 < r_size r) rs -> fine s ->
  (copy_ranges src s rs offs).1 = Ok tt /\ fine (copy_ranges src s rs offs).2.
Proof.
  intros R. revert offs s. induction R as [|r rs Rr R IH]; intros offs s Sz F; [by destruct offs|].
  destruct offs as [|o offs]; [done|]. apply Forall_cons in Sz as [Sr Sz]. cbn [copy_ranges]. unfold copy_range.
  pose proof (copy_loop_fine (S (Z.to_nat (r_size r / DUMP_CHUNK + 1))) src s (r_base r) (r_size r) o) as W.
  destruct W as [E W]; [destruct Rr; by split|lia|done|]. destruct (copy_loop _ _ _ _ _ _) as [q s1]. cbn [fst snd] in E, W. rewrite E. by apply IH.
Qed.

Lemma write_core_fine src ranges l s :
  Forall (readable src) (rs_r ranges) -> Forall (fun r => 0 < r_size r) (rs_r ranges) -> fine s -> (write_core src ranges l s).1 = Ok tt.
Proof.
  intros R Sz F. unfold write_core. destruct (sink_write_fine s (el_header l) 0 F) as [E W].
  destruct (sink_write s _ _) as [q s1]. cbn [fst snd] in E, W. rewrite E.
  destruct (copy_ranges_fine src (rs_r ranges) (el_offsets l) s1 R Sz W) as [E2 W2].
  destruct (copy_ranges _ _ _ _) as [q2 s2]. cbn [fst snd] in E2, W2. rewrite E2. case_bool; [by apply sink_write_fine|done].
Qed.

(** Every call of the kernel succeeds, though writes may be short or
    interrupted. *)
Record cooperates (e : dump_env) (src : source) (ranges : rangeset) : Prop := {
  co_open : is_Some (match de_open e with Ok b => Some b | Err _ => None end);
  co_fstat : de_fstat e = Ok tt;
  co_truncate : de_truncate e = Ok tt;
  co_script : Forall fine_step (de_script e);
  co_fsync : de_fsync e = Ok tt;
  co_close : de_close e = Ok tt;
  co_ranges : Forall (readable src) (rs_r ranges) }.

(** Reading notes fails only for want of memory. *)
Lemma collect_notes_ok `{AllocOk} src vi : exists p, collect_notes src vi = Ok p.
Proof.
  assert (N : forall r, exists n, read_note src r = Ok n).
  { intros r. unfold read_note. case_bool; [by eexists|]. rewrite alloc_ok. cbn [negb]. destruct (source_read _ _ _); by eexists. }
  assert (L : forall l acc, exists ns, read_notes src l acc = Ok ns).
  { induction l as [|r l IH]; intros acc; cbn [read_notes]; [by eexists|]. destruct (N r) as [n ->]. apply IH. }
  unfold collect_notes. rewrite alloc_ok. cbn [negb]. destruct (L (vi_cpu_notes vi) []) as [ns ->], (N (vi_vmcoreinfo vi)) as [n ->].
  case_bool_decide; by eexists.
Qed.

(** C26: a vmcore holds the predecessor's memory, byte for byte.  When
    [dump_vmcore] returns 0, the output, a file or a pipe, has exactly the
    size laid out and begins with an ELF core header whose PT_LOAD segments
    are the given ranges, and every byte of every segment is the byte the
    memory holds at that physical address, although zero pages were skipped
    and writes cut short; and it does return 0 when the kernel refuses
    nothing. *)
Theorem dump_is_the_memory `{AllocOk} e ranges vi src :
  dumpable ranges vi -> zlen (rs_r ranges) <= UINT16_MAX - 1 -> de_source e = Ok src ->
  (forall l s, dump_vmcore e ranges vi = (Ok tt, Some (l, s)) ->
    sk_size s = el_total l /\
    exists note loads, elf_core_phdrs (first_bytes s (el_header_len l)) = Some (note :: loads) /\
      map (fun p => Range (p_paddr p) (p_filesz p)) loads = rs_r ranges /\
      forall p j, p ∈ loads -> 0 <= j < p_filesz p ->
        p_offset p + j < sk_size s /\ sk_byte s (p_offset p + j) = src_mem src (p_paddr p + j)) /\
  (cooperates e src ranges -> exists l s, dump_vmcore e ranges vi = (Ok tt, Some (l, s))).
Proof.
  intros D N Es. destruct (collect_notes_ok src vi) as [[notes st] C]. pose proof (dumpable_room _ _ _ _ _ D C N) as Rm.
  destruct D as (W & _ & _).
  assert (Sz : Forall (fun r => 0 < r_size r) (rs_r ranges)) by (eapply Forall_impl; [exact (wf_from_ends _ _ (proj1 W))|]; cbn; lia).
  assert (Sz0 : Forall (fun r => 0 <= r_size r) (rs_r ranges)) by (eapply Forall_impl; [exact Sz|]; cbn; lia).
  destruct (elfcore_layout_ok ranges notes (vi_has_page_offset vi) (vi_page_offset vi) W Rm N) as (l & no & El & Lh & _ & Ph & _ & Ld).
  pose proof (laid_bounds _ _ _ _ Ld Sz0) as [Lt Lb].
  unfold dump_vmcore. rewrite Es, C, El, alloc_ok. cbn [negb]. split.
  - intros l' s. destruct (open_sink e (el_total l)) as [s0|] eqn:O; [|done].
    destruct (write_core src ranges l s0) as [r s1] eqn:Wc.
    destruct r as [[]|]; [|by intros [=]]. intros [= E <- <-].
    assert (A0 : agrees (el_total l) (core_image (src_mem src) (rs_r ranges) l) s0 0).
    { unfold open_sink in O. destruct (de_open e) as [[]|]; [..|done]; (destruct (de_fstat e); [|done]); [destruct (de_truncate e); [|done]|];
        injection O as <-; (constructor; cbn; [lia|intros; lia|done|done|done]). }
    destruct (write_core_image _ _ _ _ _ Lh Ld Sz A0 Wc) as [A K]. pose proof (ag_size _ _ _ _ A) as Z.
    assert (Ez : sk_size s1 = el_total l) by (by destruct (sk_seekable s1)). split; [done|]. rewrite Ez.
    exists (note_phdr no (zlen (concat notes))), (zip_with (load_phdr (vi_has_page_offset vi) (vi_page_offset vi)) (rs_r ranges) (el_offsets l)).
    split; [|split].
    + rewrite <- Lh, first_bytes_header; [done|]. intros x X. rewrite (ag_byte _ _ _ _ A) by lia.
      unfold core_image. destruct (Z.ltb_spec x (el_header_len l)); [done|lia].
    + apply laid_zip_ranges with (1 := Ld).
    + intros p j I J. apply list_elem_of_lookup in I as (i & I). apply lookup_zip_with_Some in I as (r & o & -> & Ir & Io).
      cbn [load_phdr p_filesz p_offset p_paddr] in *. destruct (Lb i r o Ir Io) as [Lo Hi]. pose proof (zlen_nonneg (el_header l)).
      split; [lia|]. rewrite (ag_byte _ _ _ _ A) by lia. unfold core_image. destruct (Z.ltb_spec (o + j) (el_header_len l)); [lia|].
      by eapply core_byte_at.
  - intros [[sk Eo] Ef Et Sc Ey Ec R]. unfold open_sink. destruct (de_open e) as [b|]; [|done]. rewrite Ef, Et, Ey, Ec.
    destruct b; cbv zeta; (match goal with |- context [write_core src ranges l ?s0] => pose proof (write_core_fine src ranges l s0 R Sz Sc) as F;
      destruct (write_core src ranges l s0) as [r s1] end); cbn [fst] in F; rewrite F; eexists _, _; by destruct (sk_seekable s1).
Qed.

(** A page of zeros and a few bytes after it, to a file with short and
    interrupted writes. *)
Definition demo_source : source := mk_source UINT64_MAX (fun x => if x <? 0x2000 then 0 else x mod 251) (fun _ _ => Ok tt).
Definition demo_dump_env : dump_env :=
  mk_dump_env (Ok demo_source) (Ok true) (Ok tt) (Ok tt) [WriteCount 100; WriteIntr; WriteCount 4000] (Ok tt) (Ok tt).
Definition demo_dumped : rangeset := Rangeset [Range 0x1000 0x1010] 8.
Definition demo_dump_out : option (layout * sink) := (dump_vmcore (H := alloc_always) demo_dump_env demo_dumped VMCORE_INFO_INIT).2.

Lemma dump_is_the_memory_witness :
  (forall l s, dump_vmcore (H := alloc_always) demo_dump_env demo_dumped VMCORE_INFO_INIT = (Ok tt, Some (l, s)) ->
    sk_size s = el_total l /\
    exists note loads, elf_core_phdrs (first_bytes s (el_header_len l)) = Some (note :: loads) /\
      map (fun p => Range (p_paddr p) (p_filesz p)) loads = rs_r demo_dumped /\
      forall p j, p ∈ loads -> 0 <= j < p_filesz p ->
        p_offset p + j < sk_size s /\ sk_byte s (p_offset p + j) = src_mem demo_source (p_paddr p + j)) /\
  (cooperates demo_dump_env demo_source demo_dumped ->
    exists l s, dump_vmcore (H := alloc_always) demo_dump_env demo_dumped VMCORE_INFO_INIT = (Ok tt, Some (l, s))).
Proof.
  apply (dump_is_the_memory (H := alloc_always) demo_dump_env demo_dumped VMCORE_INFO_INIT demo_source); [|vm_compute; congruence|reflexivity].
  split; [split; [by repeat split|unfold rs_count; cbn; lia]|]. split; [repeat constructor; cbn; lia|done].
Defined.

Lemma demo_cooperates : cooperates demo_dump_env demo_source demo_dumped.
Proof.
  constructor; [exists true; reflexivity|reflexivity|reflexivity| |reflexivity|reflexivity|].
  - repeat (apply Forall_cons; split); [cbn; lia|exact I|cbn; lia|apply Forall_nil; exact I].
  - apply Forall_cons. split; [|apply Forall_nil; exact I]. split; [reflexivity|].
    change (4096 + 4112 <= UINT64_MAX). unfold UINT64_MAX. lia.
Qed.

(** The zero page of the example stays a hole. *)
Definition size_and_bytes (xs : list Z) (out : option (layout * sink)) : option (Z * list Z) :=
  match out with Some (_, s) => Some (sk_size s, map (sk_byte s) xs) | None => None end.
Example demo_dump_runs : size_and_bytes [4096; 8191; 8192; 8207] demo_dump_out = Some (12288, [0; 0; 160; 175]).
Proof. vm_compute. reflexivity. Qed.
