(* ===== verification/Cpio.v ===== *)
(** * lib/cpio.c: newc archives in memory

    The archive is the bytes written so far, the size of the buffer they are
    in and the next inode number.  The reader at the end is what the kernel
    does with an archive: it unpacks entry after entry up to the trailer. *)

From S2P Require Import Prelude Cstr Fdt HostTree Elfcore.

Definition NEWC_HEADER : Z := 110.
Definition S_IFDIR : Z := 0x4000.
Definition S_IFREG : Z := 0x8000.
Definition SLASH : Z := ch "/".

Record cpio : Type := mk_cpio { cp_data : list Z; cp_cap : Z; cp_ino : Z }.
Definition CPIO_INIT : cpio := mk_cpio [] 0 1.

Definition cp_len (c : cpio) : Z := zlen (cp_data c).

(** [while (c->cap < need)]: 64 doublings pass any [size_t]. *)
Fixpoint grow_cap (fuel : nat) (cap need : Z) : Z :=
  match fuel with
  | O => cap
  | S fuel => if cap <? need then grow_cap fuel (if cap =? 0 then 4096 else u64 (2 * cap)) need else cap
  end.

(** At most three bytes are missing. *)
Fixpoint pad_loop (fuel : nat) (data : list Z) : list Z :=
  match fuel with
  | O => data
  | S fuel => if Z.land (zlen data) 3 =? 0 then data else pad_loop fuel (data ++ [0])
  end.
Definition pad4 (data : list Z) : list Z := pad_loop 4 data.

Definition newc_header (ino mode len namesize : Z) : list Z :=
  snprintf [] (NEWC_HEADER + 1)
    (str "070701" ++ concat (map (hexpad 8) [ino; mode; 0; 0; 1; 0; u32 len; 0; 0; 0; 0; u32 namesize; 0])).

Section Cpio.
Context `{Alloc}.

Definition reserve (c : cpio) (more : Z) : result unit * cpio :=
  let need := u64 (cp_len c + more) in
  if need <=? cp_cap c then (Ok tt, c) else
  let c := mk_cpio (cp_data c) (grow_cap 64 (cp_cap c) need) (cp_ino c) in
  if negb (alloc (cp_cap c)) then (Err ENOMEM, c) else (Ok tt, c).

Definition entry (c : cpio) (name : list Z) (mode : Z) (data : list Z) : result unit * cpio :=
  let namesize := zlen name + 1 in
  if UINT32_MAX <? zlen data then (Err EFBIG, c) else
  match reserve c (NEWC_HEADER + namesize + zlen data + 8) with
  | (Err e, c) => (Err e, c)
  | (Ok _, c) =>
      let hdr := newc_header (cp_ino c) mode (zlen data) namesize in
      let out := pad4 (cp_data c ++ hdr ++ name ++ [0]) in
      (Ok tt, mk_cpio (pad4 (out ++ data)) (cp_cap c) (u32 (cp_ino c + 1)))
  end.

Fixpoint skip_slashes (path : list Z) : list Z :=
  match path with c :: t => if c =? SLASH then skip_slashes t else path | [] => [] end.

(** What is before each slash, in order. *)
Fixpoint dir_prefixes (done path : list Z) : list (list Z) :=
  match path with
  | [] => []
  | c :: t => if c =? SLASH then done :: dir_prefixes (done ++ [c]) t else dir_prefixes (done ++ [c]) t
  end.

Fixpoint add_dirs (c : cpio) (dirs : list (list Z)) : result unit * cpio :=
  match dirs with
  | [] => (Ok tt, c)
  | d :: dirs =>
      match entry c d (Z.lor S_IFDIR 0x1ed) [] with
      | (Err e, c) => (Err e, c)
      | (Ok _, c) => add_dirs c dirs
      end
  end.

Definition cpio_add_file (c : cpio) (path data : list Z) (mode : Z) : result unit * cpio :=
  let path := skip_slashes path in
  if (c0 path =? 0) || (256 <=? zlen path) then (Err EINVAL, c) else
  match add_dirs c (dir_prefixes [] path) with
  | (Err e, c) => (Err e, c)
  | (Ok _, c) => entry c path (Z.lor S_IFREG (Z.land mode 0xfff)) data
  end.

Definition cpio_finish (c : cpio) : result unit * cpio := entry c (str "TRAILER!!!") 0 [].

End Cpio.

(** ** The kernel's reader *)

Record centry : Type := mk_centry { ce_ino : Z; ce_mode : Z; ce_name : list Z; ce_data : list Z }.

(** The [i]th of the 8-digit fields after the magic. *)
Definition newc_field (i : Z) (s : list Z) : Z := hex_value (bytes_at (6 + 8 * i) 8 s).
Definition align4 (n : Z) : Z := (n + 3) / 4 * 4.

Fixpoint unpack (fuel : nat) (s : list Z) : option (list centry) :=
  match fuel with
  | O => None
  | S fuel =>
      if negb (bool_decide (take 6 s = str "070701")) then None else
      let namesize := newc_field 11 s in
      let filesize := newc_field 6 s in
      let name := bytes_at NEWC_HEADER (Z.to_nat (namesize - 1)) s in
      let body := align4 (NEWC_HEADER + namesize) in
      if bool_decide (name = str "TRAILER!!!") then Some [] else
      match unpack fuel (drop (Z.to_nat (body + align4 filesize)) s) with
      | Some l => Some (mk_centry (newc_field 0 s) (newc_field 1 s) name (bytes_at body (Z.to_nat filesize) s) :: l)
      | None => None
      end
  end.

(** ** Padding *)

Lemma align4_spec n : 0 <= n -> n <= align4 n < n + 4 /\ align4 n mod 4 = 0.
Proof.
  intros N. unfold align4. pose proof (Z.div_mod (n + 3) 4 ltac:(lia)). pose proof (Z.mod_pos_bound (n + 3) 4 ltac:(lia)).
  split; [lia|]. apply Z.mod_mul. lia.
Qed.

Lemma align4_add a n : a mod 4 = 0 -> align4 (a + n) = a + align4 n.
Proof.
  intros A. unfold align4. pose proof (Z.div_mod a 4 ltac:(lia)). replace (a + n + 3) with (n + 3 + a / 4 * 4) by lia.
  rewrite Z.div_add by lia. lia.
Qed.

Lemma align4_id n : n mod 4 = 0 -> align4 n = n.
Proof. intros N. rewrite <- (Z.add_0_r n) at 1. rewrite align4_add by done. change (align4 0) with 0. lia. Qed.

Lemma pad_loop_spec k d :
  0 <= align4 (zlen d) - zlen d < Z.of_nat k -> pad_loop k d = d ++ zeros (align4 (zlen d) - zlen d).
Proof.
  revert d. induction k as [|k IH]; intros d A; [lia|]. cbn [pad_loop]. change 3 with (Z.ones 2). rewrite Z.land_ones by lia. change (2 ^ 2) with 4.
  pose proof (zlen_nonneg d). pose proof (align4_spec (zlen d) ltac:(lia)) as [B M].
  destruct (Z.eqb_spec (zlen d mod 4) 0) as [E|E].
  - rewrite align4_id, Z.sub_diag by done. unfold zeros. cbn. by rewrite app_nil_r.
  - assert (zlen d < align4 (zlen d)) by (destruct (Z.eq_dec (zlen d) (align4 (zlen d))) as [Q|]; [rewrite Q in E; lia|lia]).
    assert (Ea : align4 (zlen (d ++ [0])) = align4 (zlen d)).
    { rewrite zlen_app. change (zlen [0]) with 1. unfold align4. clear - E. Z.to_euclidean_division_equations. lia. }
    rewrite IH; rewrite Ea, zlen_app; change (zlen [0]) with 1; [|lia]. rewrite <- app_assoc. f_equal. unfold zeros.
    replace (Z.to_nat (align4 (zlen d) - zlen d)) with (S (Z.to_nat (align4 (zlen d) - (zlen d + 1)))) by lia. done.
Qed.

Lemma pad4_spec d : pad4 d = d ++ zeros (align4 (zlen d) - zlen d).
Proof. apply pad_loop_spec. pose proof (align4_spec (zlen d) (zlen_nonneg d)). lia. Qed.

Lemma pad4_app a d : zlen a mod 4 = 0 -> pad4 (a ++ d) = a ++ pad4 d.
Proof.
  intros A. rewrite !pad4_spec, zlen_app, align4_add by done. rewrite <- app_assoc. do 3 f_equal. lia.
Qed.

Lemma pad4_length d : zlen (pad4 d) = align4 (zlen d).
Proof. pose proof (align4_spec (zlen d) (zlen_nonneg d)). rewrite pad4_spec, zlen_app, zlen_zeros; lia. Qed.

(** ** The header *)

Definition is_u32 (x : Z) : Prop := 0 <= x < two32.

Lemma hexpad8 x : is_u32 x -> length (hexpad 8 x) = 8%nat /\ hex_value (hexpad 8 x) = x.
Proof.
  intros X. split; [|apply hexpad_is_hex; unfold is_u32, is_u64 in *; lia].
  pose proof (num_fuel_length16 64 8 x [] X ltac:(lia)) as L. cbn [length] in L. fold (hex x) in L.
  unfold hexpad. rewrite length_app, length_replicate. lia.
Qed.

Lemma fields_length vs : Forall is_u32 vs -> zlen (concat (map (hexpad 8) vs)) = 8 * zlen vs.
Proof.
  induction 1 as [|v vs V F IH]; [done|]. cbn [map concat]. rewrite zlen_app, zlen_cons, IH. unfold zlen at 1.
  rewrite (proj1 (hexpad8 v V)). lia.
Qed.

Lemma field_here a vs v i s :
  Forall is_u32 vs -> vs !! i = Some v -> bytes_at (zlen a + 8 * Z.of_nat i) 8 (a ++ concat (map (hexpad 8) vs) ++ s) = hexpad 8 v.
Proof.
  intros F. revert a i. induction F as [|w vs W F IH]; intros a i; [done|]. destruct (hexpad8 w W) as [L _]. cbn [map concat].
  destruct i as [|i]; cbn [lookup list_lookup].
  - intros [= ->]. rewrite bytes_at_shift by lia. unfold bytes_at. change (Z.to_nat (8 * Z.of_nat 0)) with 0%nat.
    rewrite drop_0, <- app_assoc. generalize (hexpad 8 v), L. intros h <-. apply take_app_length.
  - intros I. rewrite <- app_assoc, (app_assoc a).
    replace (zlen a + 8 * Z.of_nat (S i)) with (zlen (a ++ hexpad 8 w) + 8 * Z.of_nat i) by (rewrite zlen_app; unfold zlen at 2; rewrite L; lia).
    by apply IH.
Qed.

Definition header_fields (ino mode len namesize : Z) : list Z := [ino; mode; 0; 0; 1; 0; len; 0; 0; 0; 0; namesize; 0].

Lemma header_fields_u32 ino mode len namesize :
  is_u32 ino -> is_u32 mode -> is_u32 len -> is_u32 namesize -> Forall is_u32 (header_fields ino mode len namesize).
Proof. intros. unfold header_fields. rewrite !Forall_cons, Forall_nil. split_and!; done || (unfold is_u32; lia). Qed.

Lemma newc_header_eq ino mode len namesize :
  is_u32 ino -> is_u32 mode -> is_u32 len -> is_u32 namesize ->
  newc_header ino mode len namesize = str "070701" ++ concat (map (hexpad 8) (header_fields ino mode len namesize)) /\
  zlen (newc_header ino mode len namesize) = NEWC_HEADER.
Proof.
  intros I M L N. pose proof (fields_length _ (header_fields_u32 _ _ _ _ I M L N)) as F. unfold newc_header.
  rewrite (u32_small len), (u32_small namesize) by done. fold (header_fields ino mode len namesize).
  set (s := str "070701" ++ _).
  assert (Ls : zlen s = 110) by (unfold s; rewrite zlen_app, F; reflexivity).
  rewrite snprintf_short; [done|]. unfold NEWC_HEADER, zlen in *. lia.
Qed.

(** ** Entries *)

Definition entry_bytes (e : centry) : list Z :=
  pad4 (pad4 (newc_header (ce_ino e) (ce_mode e) (zlen (ce_data e)) (zlen (ce_name e) + 1) ++ ce_name e ++ [0]) ++ ce_data e).

Lemma entry_bytes_eq ino mode name data :
  entry_bytes (mk_centry ino mode name data) = pad4 (pad4 (newc_header ino mode (zlen data) (zlen name + 1) ++ name ++ [0]) ++ data).
Proof. reflexivity. Qed.

Definition centry_ok (e : centry) : Prop :=
  is_u32 (ce_ino e) /\ is_u32 (ce_mode e) /\ zlen (ce_data e) < two32 /\ zlen (ce_name e) < 2 ^ 20 /\ ce_name e <> str "TRAILER!!!".

(** Where the pieces of an entry are. *)
Lemma entry_bytes_parts e s :
  is_u32 (ce_ino e) -> is_u32 (ce_mode e) -> zlen (ce_data e) < two32 -> zlen (ce_name e) < 2 ^ 20 ->
  let all := entry_bytes e ++ s in
  let body := align4 (NEWC_HEADER + (zlen (ce_name e) + 1)) in
  take 6 all = str "070701" /\ newc_field 0 all = ce_ino e /\ newc_field 1 all = ce_mode e /\
  newc_field 6 all = zlen (ce_data e) /\ newc_field 11 all = zlen (ce_name e) + 1 /\
  bytes_at NEWC_HEADER (length (ce_name e)) all = ce_name e /\
  bytes_at body (length (ce_data e)) all = ce_data e /\
  drop (Z.to_nat (body + align4 (zlen (ce_data e)))) all = s /\ zlen (entry_bytes e) = body + align4 (zlen (ce_data e)).
Proof.
  intros I M D N. cbv zeta. set (body := align4 _). pose proof (zlen_nonneg (ce_data e)). pose proof (zlen_nonneg (ce_name e)).
  assert (Ln : is_u32 (zlen (ce_name e) + 1)) by (unfold is_u32; lia). assert (Ld : is_u32 (zlen (ce_data e))) by (unfold is_u32; lia).
  destruct (newc_header_eq _ _ _ _ I M Ld Ln) as [Eh Lh]. pose proof (header_fields_u32 _ _ _ _ I M Ld Ln) as Fu.
  set (hdr := newc_header _ _ _ _) in *.
  assert (Lb : zlen (pad4 (hdr ++ ce_name e ++ [0])) = body).
  { rewrite pad4_length, !zlen_app, Lh. change (zlen [0]) with 1. unfold body. f_equal. }
  assert (Bm : body mod 4 = 0) by (apply align4_spec; unfold NEWC_HEADER; lia).
  assert (E : entry_bytes e = pad4 (hdr ++ ce_name e ++ [0]) ++ pad4 (ce_data e)).
  { unfold entry_bytes. fold hdr. apply pad4_app. by rewrite Lb. }
  assert (Le : zlen (entry_bytes e) = body + align4 (zlen (ce_data e))) by (by rewrite E, zlen_app, Lb, pad4_length).
  assert (E2 : exists t, entry_bytes e ++ s = hdr ++ ce_name e ++ t).
  { exists (0 :: zeros (align4 (zlen (hdr ++ ce_name e ++ [0])) - zlen (hdr ++ ce_name e ++ [0])) ++ pad4 (ce_data e) ++ s).
    rewrite E, (pad4_spec (hdr ++ ce_name e ++ [0])), <- !app_assoc. done. }
  destruct E2 as (t & E2).
  assert (Fd : forall i v, header_fields (ce_ino e) (ce_mode e) (zlen (ce_data e)) (zlen (ce_name e) + 1) !! i = Some v -> is_u32 v ->
    newc_field (Z.of_nat i) (entry_bytes e ++ s) = v).
  { intros i v V U. unfold newc_field. rewrite E2, Eh, <- app_assoc. change 6 with (zlen (str "070701")) at 1.
    rewrite (field_here (str "070701") _ v i _ Fu V). by apply hexpad8. }
  split; [by rewrite E2, Eh, <- app_assoc|].
  split; [by apply (Fd 0%nat)|]. split; [by apply (Fd 1%nat)|]. split; [by apply (Fd 6%nat)|]. split; [by apply (Fd 11%nat)|].
  split; [|split; [|split; [|done]]].
  - rewrite E2, <- Lh, <- (Z.add_0_r (zlen hdr)), bytes_at_shift by lia. unfold bytes_at. change (Z.to_nat 0) with 0%nat.
    rewrite drop_0. apply take_app_length.
  - rewrite E, <- app_assoc, <- Lb, <- (Z.add_0_r (zlen _)), bytes_at_shift by lia. unfold bytes_at. change (Z.to_nat 0) with 0%nat.
    rewrite drop_0, pad4_spec, <- app_assoc. apply take_app_length.
  - rewrite <- Le. unfold zlen. rewrite Nat2Z.id. apply drop_app_length.
Qed.

Lemma unpack_entry fuel e s l :
  centry_ok e -> unpack fuel s = Some l -> unpack (S fuel) (entry_bytes e ++ s) = Some (e :: l).
Proof.
  intros (I & M & D & N & T) U. destruct (entry_bytes_parts e s I M D N) as (P0 & P1 & P2 & P3 & P4 & P5 & P6 & P7 & _).
  cbn [unpack]. rewrite P0, bool_decide_eq_true_2 by done. cbn [negb]. cbv zeta. rewrite P1, P2, P3, P4.
  replace (Z.to_nat (zlen (ce_name e) + 1 - 1)) with (length (ce_name e)) by (unfold zlen; lia). rewrite P5.
  rewrite bool_decide_eq_false_2 by done. rewrite P7, U. replace (Z.to_nat (zlen (ce_data e))) with (length (ce_data e)) by (unfold zlen; lia).
  rewrite P6. by destruct e.
Qed.

Lemma unpack_trailer fuel ino s : is_u32 ino -> unpack (S fuel) (entry_bytes (mk_centry ino 0 (str "TRAILER!!!") []) ++ s) = Some [].
Proof.
  intros I. destruct (entry_bytes_parts (mk_centry ino 0 (str "TRAILER!!!") []) s I ltac:(done) ltac:(done) ltac:(done)) as (P0 & _ & _ & _ & P4 & P5 & _).
  cbn [unpack]. rewrite P0, bool_decide_eq_true_2 by done. cbn [negb]. cbv zeta. rewrite P4.
  change (Z.to_nat (zlen (ce_name (mk_centry ino 0 (str "TRAILER!!!") [])) + 1 - 1)) with (length (ce_name (mk_centry ino 0 (str "TRAILER!!!") []))).
  rewrite P5. by rewrite bool_decide_eq_true_2.
Qed.

Lemma unpack_entries l fuel s r :
  Forall centry_ok l -> unpack fuel s = Some r -> unpack (length l + fuel) (concat (map entry_bytes l) ++ s) = Some (l ++ r).
Proof.
  induction 1 as [|e l E F IH]; intros U; [done|]. cbn [map concat length Nat.add]. rewrite <- app_assoc. by apply unpack_entry, IH.
Qed.

(** ** Building *)

(** 50 doublings of 4096 pass any archive. *)
Lemma grow_cap_enough k fuel cap need :
  (cap = 0 \/ 4096 <= cap) -> cap < two64 -> 0 <= need <= 2 ^ 62 -> 2 ^ 62 <= cap * 2 ^ Z.of_nat k \/ (cap = 0 /\ (51 <= k)%nat) ->
  (k < fuel)%nat ->
  let c := grow_cap fuel cap need in need <= c /\ (c = 0 \/ 4096 <= c) /\ c < two64.
Proof.
  revert fuel cap. induction k as [|k IH]; intros fuel cap C U N G F; cbv zeta; (destruct fuel as [|fuel]; [lia|]); cbn [grow_cap].
  - change (2 ^ Z.of_nat 0) with 1 in G. destruct (Z.ltb_spec cap need); lia.
  - destruct (Z.ltb_spec cap need); [|lia]. destruct (Z.eqb_spec cap 0) as [->|Nz].
    + apply IH; [lia|lia|lia| |lia]. left. destruct G as [G|[_ K]]; [lia|].
      transitivity (4096 * 2 ^ 50); [lia|]. apply Z.mul_le_mono_nonneg_l; [lia|]. apply Z.pow_le_mono_r; lia.
    + rewrite u64_small by lia. apply IH; [lia|lia|lia| |lia]. left. destruct G as [G|[K _]]; [|lia].
      rewrite Nat2Z.inj_succ, Z.pow_succ_r in G by lia. lia.
Qed.

(** What an entry takes, at most. *)
Definition budget (e : centry) : Z := NEWC_HEADER + (zlen (ce_name e) + 1) + zlen (ce_data e) + 8.

(** [c] holds the entries [l], numbered from 1, in whole words and inside its buffer. *)
Record holds (c : cpio) (l : list centry) : Prop := {
  ho_data : cp_data c = concat (map entry_bytes l);
  ho_ino : cp_ino c = 1 + zlen l;
  ho_word : cp_len c mod 4 = 0;
  ho_room : cp_len c <= cp_cap c;
  ho_cap : (cp_cap c = 0 \/ 4096 <= cp_cap c) /\ cp_cap c < two64 }.

Lemma entry_holds `{AllocOk} c l name mode data :
  let e := mk_centry (cp_ino c) mode name data in
  holds c l -> is_u32 mode -> zlen data < two32 -> zlen name < 2 ^ 20 -> zlen l < 2 ^ 31 -> cp_len c + budget e <= 2 ^ 60 ->
  exists c', entry c name mode data = (Ok tt, c') /\ holds c' (l ++ [e]) /\ cp_len c' <= cp_len c + budget e /\ is_u32 (cp_ino c).
Proof.
  cbv zeta. intros [Hd Hi Hw Hr [Hc Hu]] M D N L B. set (e := mk_centry _ _ _ _) in *. pose proof (zlen_nonneg l).
  pose proof (zlen_nonneg data). pose proof (zlen_nonneg name). pose proof (zlen_nonneg (cp_data c)). fold (cp_len c) in *.
  assert (I : is_u32 (cp_ino c)) by (rewrite Hi; unfold is_u32; lia).
  destruct (entry_bytes_parts e [] I M D N) as (_ & _ & _ & _ & _ & _ & _ & _ & Le).
  assert (Lb : zlen (entry_bytes e) <= budget e /\ zlen (entry_bytes e) mod 4 = 0).
  { rewrite Le. unfold budget. pose proof (align4_spec (NEWC_HEADER + (zlen (ce_name e) + 1)) ltac:(unfold NEWC_HEADER; cbn; lia)) as [A1 A2].
    pose proof (align4_spec (zlen (ce_data e)) ltac:(cbn; lia)) as [B1 B2]. split; [lia|]. rewrite Z.add_mod, A2, B2 by lia. done. }
  unfold entry. destruct (Z.ltb_spec UINT32_MAX (zlen data)); [unfold UINT32_MAX in *; lia|]. unfold reserve.
  replace (NEWC_HEADER + (zlen name + 1) + zlen data + 8) with (budget e) by done. cbv zeta.
  assert (Bp : 0 <= budget e) by (unfold budget, NEWC_HEADER; cbn; lia). rewrite (u64_small (cp_len c + budget e)) by lia.
  assert (Done : forall cap, cp_len c + budget e <= cap -> (cap = 0 \/ 4096 <= cap) -> cap < two64 ->
    let c' := mk_cpio (pad4 (pad4 (cp_data c ++ newc_header (cp_ino c) mode (zlen data) (zlen name + 1) ++ name ++ [0]) ++ data)) cap (u32 (cp_ino c + 1)) in
    holds c' (l ++ [e]) /\ cp_len c' <= cp_len c + budget e /\ is_u32 (cp_ino c)).
  { intros cap R C1 C2. cbv zeta. rewrite (pad4_app (cp_data c)) by done. rewrite <- app_assoc, (pad4_app (cp_data c)) by done.
    rewrite <- entry_bytes_eq. fold e.
    assert (El : zlen (cp_data c ++ entry_bytes e) = cp_len c + zlen (entry_bytes e)) by (by rewrite zlen_app).
    split; [|split; [unfold cp_len at 1; cbn [cp_data]; lia|done]]. constructor; cbn [cp_data cp_ino cp_cap]; unfold cp_len; cbn [cp_data].
    - rewrite Hd at 1. by rewrite map_app, concat_app; cbn [map concat]; rewrite app_nil_r.
    - rewrite u32_small, zlen_app by lia. change (zlen [e]) with 1. lia.
    - rewrite El, Z.add_mod, Hw, (proj2 Lb) by lia. done.
    - rewrite El. lia.
    - done. }
  destruct (Z.leb_spec (cp_len c + budget e) (cp_cap c)).
  - eexists. split; [reflexivity|]. by apply Done.
  - cbn [cp_cap]. rewrite alloc_ok. cbn [negb cp_data cp_ino cp_cap].
    destruct (grow_cap_enough 51 64 (cp_cap c) (cp_len c + budget e)) as (G1 & G2 & G3); [done|done|lia| |lia|].
    { destruct Hc as [->|Hc]; [right; lia|left]. change (2 ^ Z.of_nat 51) with (2 ^ 51). lia. }
    eexists. split; [reflexivity|]. by apply Done.
Qed.

(** ** Whole archives *)

Record cfile : Type := mk_cfile { cf_path : list Z; cf_data : list Z; cf_mode : Z }.

(** The files added one after the other and the archive finished. *)
Fixpoint add_files `{Alloc} (c : cpio) (l : list cfile) : result unit * cpio :=
  match l with
  | [] => (Ok tt, c)
  | f :: l =>
      match cpio_add_file c (cf_path f) (cf_data f) (cf_mode f) with
      | (Err e, c) => (Err e, c)
      | (Ok _, c) => add_files c l
      end
  end.
Definition archive `{Alloc} (l : list cfile) : result unit * cpio :=
  match add_files CPIO_INIT l with
  | (Err e, c) => (Err e, c)
  | (Ok _, c) => cpio_finish c
  end.

(** Name, mode and data of what a file brings along. *)
Definition ident (e : centry) : list Z * Z * list Z := (ce_name e, ce_mode e, ce_data e).
Definition file_entries (f : cfile) : list (list Z * Z * list Z) :=
  map (fun d => (d, Z.lor S_IFDIR 0x1ed, [])) (dir_prefixes [] (skip_slashes (cf_path f)))
  ++ [(skip_slashes (cf_path f), Z.lor S_IFREG (Z.land (cf_mode f) 0xfff), cf_data f)].

Definition name_fine (n : list Z) : Prop := zlen n < 256 /\ n <> str "TRAILER!!!".
Definition triple_fine (t : list Z * Z * list Z) : Prop := name_fine t.1.1 /\ is_u32 t.1.2 /\ zlen t.2 < two32.
Definition cfile_ok (f : cfile) : Prop :=
  cstring (cf_path f) /\ skip_slashes (cf_path f) <> [] /\ zlen (skip_slashes (cf_path f)) < 256 /\ zlen (cf_data f) < two32 /\
  Forall triple_fine (file_entries f).

Definition weight (t : list Z * Z * list Z) : Z := NEWC_HEADER + (zlen t.1.1 + 1) + zlen t.2 + 8.
Definition weights (ts : list (list Z * Z * list Z)) : Z := foldr (fun t n => weight t + n) 0 ts.

Lemma weights_nonneg ts : 0 <= weights ts.
Proof.
  induction ts as [|t ts IH]; [done|]. change (weights (t :: ts)) with (weight t + weights ts). unfold weight, NEWC_HEADER.
  pose proof (zlen_nonneg t.1.1). pose proof (zlen_nonneg t.2). lia.
Qed.

(** Entries added in sequence, by whatever calls [entry]. *)
Fixpoint add_triples `{Alloc} (c : cpio) (ts : list (list Z * Z * list Z)) : result unit * cpio :=
  match ts with
  | [] => (Ok tt, c)
  | t :: ts => match entry c t.1.1 t.1.2 t.2 with (Err e, c) => (Err e, c) | (Ok _, c) => add_triples c ts end
  end.

Lemma add_triples_app `{Alloc} c a b :
  add_triples c (a ++ b) = match add_triples c a with (Err e, c) => (Err e, c) | (Ok _, c) => add_triples c b end.
Proof. revert c. induction a as [|t a IH]; intros c; [done|]. cbn [app add_triples]. destruct (entry _ _ _ _) as [[|] ?]; [apply IH|done]. Qed.

Lemma add_dirs_triples `{Alloc} c ds : add_dirs c ds = add_triples c (map (fun d => (d, Z.lor S_IFDIR 0x1ed, [])) ds).
Proof. revert c. induction ds as [|d ds IH]; intros c; [done|]. cbn [add_dirs map add_triples fst snd]. destruct (entry _ _ _ _) as [[|] ?]; [apply IH|done]. Qed.

Lemma skip_slashes_cstring p : cstring p -> cstring (skip_slashes p).
Proof. induction 1 as [|c p C F IH]; [constructor|]. cbn [skip_slashes]. case_bool; [done|by constructor]. Qed.

Lemma add_file_triples `{Alloc} c f :
  cfile_ok f -> cpio_add_file c (cf_path f) (cf_data f) (cf_mode f) = add_triples c (file_entries f).
Proof.
  intros (C & N & L & _). unfold cpio_add_file, file_entries. cbv zeta. apply skip_slashes_cstring in C.
  destruct (Z.eqb_spec (c0 (skip_slashes (cf_path f))) 0) as [Z|_].
  { exfalso. by apply N, c0_nil. }
  destruct (Z.leb_spec 256 (zlen (skip_slashes (cf_path f)))); [lia|]. cbn [orb].
  rewrite add_dirs_triples, add_triples_app. destruct (add_triples c _) as [[|] c']; [|done].
  cbn [add_triples fst snd]. by destruct (entry _ _ _ _) as [[[]|] ?].
Qed.

Lemma add_files_triples `{Alloc} c l : Forall cfile_ok l -> add_files c l = add_triples c (concat (map file_entries l)).
Proof.
  intros F. revert c. induction F as [|f l O F IH]; intros c; [done|]. cbn [add_files map concat].
  rewrite add_file_triples, add_triples_app by done. destruct (add_triples c _) as [[|] ?]; [apply IH|done].
Qed.

Lemma add_triples_holds `{AllocOk} ts c l :
  holds c l -> Forall centry_ok l -> Forall triple_fine ts -> zlen l + zlen ts < 2 ^ 31 -> cp_len c + weights ts <= 2 ^ 60 ->
  exists c' l', add_triples c ts = (Ok tt, c') /\ holds c' (l ++ l') /\ Forall centry_ok (l ++ l') /\ map ident l' = ts /\
    cp_len c' <= cp_len c + weights ts.
Proof.
  revert c l. induction ts as [|t ts IH]; intros c l Hc Lo F N B.
  - exists c, []. rewrite app_nil_r. split; [done|]. split; [done|]. split; [done|]. split; [done|]. cbn. lia.
  - apply Forall_cons in F as [[[Nl Nt] [M D]] F]. rewrite zlen_cons in N. pose proof (zlen_nonneg ts). pose proof (weights_nonneg ts).
    unfold weights in B. cbn [foldr] in B. fold (weights ts) in B.
    destruct (entry_holds c l t.1.1 t.1.2 t.2 Hc M D ltac:(lia) ltac:(lia)) as (c1 & E & Hn & L1 & I).
    { unfold budget, weight in *. cbn [ce_name ce_data]. lia. }
    set (e := mk_centry (cp_ino c) t.1.2 t.1.1 t.2) in *.
    assert (Oe : centry_ok e) by (split_and!; cbn; [done|done|done|lia|done]).
    assert (Bw : budget e = weight t) by done.
    destruct (IH c1 (l ++ [e])) as (c' & l' & E' & H' & O' & M' & L'); [done|apply Forall_app; split; [done|by constructor]|done| |lia|].
    { rewrite zlen_app. change (zlen [e]) with 1. lia. }
    exists c', (e :: l'). cbn [add_triples]. rewrite E, E'. split; [done|]. rewrite <- app_assoc in H', O'. split; [done|]. split; [done|].
    split; [cbn [map]; rewrite M'; by destruct t as [[? ?] ?]|]. unfold weights. cbn [foldr]. fold (weights ts). lia.
Qed.

(** Every ancestor of a path is among its prefixes. *)
Lemma dir_prefixes_all done p d r : p = d ++ SLASH :: r -> done ++ d ∈ dir_prefixes done p.
Proof.
  revert done d. induction p as [|c p IH]; intros done d E; [by destruct d|]. cbn [dir_prefixes]. destruct d as [|x d].
  - injection E as -> _. rewrite Z.eqb_refl, app_nil_r. by left.
  - injection E as <- E. assert (I : done ++ c :: d ∈ dir_prefixes (done ++ [c]) p).
    { replace (done ++ c :: d) with ((done ++ [c]) ++ d) by (by rewrite <- app_assoc). by apply IH. }
    case_bool; [by right|done].
Qed.

Lemma archive_unpacks `{AllocOk} files :
  Forall cfile_ok files -> zlen (concat (map file_entries files)) < 2 ^ 31 - 1 ->
  weights (concat (map file_entries files)) <= 2 ^ 60 - 200 ->
  exists c l, archive files = (Ok tt, c) /\ unpack (S (length l)) (cp_data c) = Some l /\
    map ident l = concat (map file_entries files) /\ cp_len c mod 4 = 0 /\ cp_len c <= cp_cap c /\
    forall f d r, f ∈ files -> skip_slashes (cf_path f) = d ++ SLASH :: r -> (d, Z.lor S_IFDIR 0x1ed, []) ∈ map ident l.
Proof.
  intros F N B. unfold archive. rewrite add_files_triples by done.
  set (ts := concat (map file_entries files)) in *.
  assert (Ft : Forall triple_fine ts).
  { unfold ts. apply Forall_concat, Forall_map. eapply Forall_impl; [exact F|]. intros f (_ & _ & _ & _ & X). exact X. }
  assert (Hz : holds CPIO_INIT []) by (constructor; cbn; [done|done|done|done|lia]).
  destruct (add_triples_holds ts CPIO_INIT [] Hz ltac:(constructor) Ft) as (c & l & E & Hc & Oc & M & L); [change (zlen []) with 0; lia|change (cp_len CPIO_INIT) with 0; lia|].
  cbn [app] in Hc, Oc. rewrite E. unfold cpio_finish. change (cp_len CPIO_INIT) with 0 in L.
  assert (Ll : zlen l = zlen ts) by (rewrite <- M; unfold zlen; by rewrite length_map).
  destruct (entry_holds c l (str "TRAILER!!!") 0 [] Hc ltac:(done) ltac:(done) ltac:(done) ltac:(lia)) as (c' & E' & Hc' & _ & I).
  { unfold budget, NEWC_HEADER. cbn [ce_name ce_data]. change (zlen (str "TRAILER!!!")) with 10. change (zlen []) with 0. lia. }
  rewrite E'. exists c', l. split; [done|]. destruct Hc' as [Hd _ Hw Hr _]. split; [|split; [done|split; [done|split; [done|]]]].
  - rewrite Hd, map_app, concat_app. replace (S (length l)) with (length l + 1)%nat by lia. rewrite <- (app_nil_r l) at 3.
    apply unpack_entries; [done|]. cbn [map concat]. by apply unpack_trailer.
  - intros f d r If Er. rewrite M. unfold ts. apply list_elem_of_In, in_concat. exists (file_entries f).
    split; [apply in_map, list_elem_of_In, If|]. apply list_elem_of_In. unfold file_entries. apply elem_of_app. left.
    apply (list_elem_of_fmap_2 (fun d => (d, Z.lor S_IFDIR 0x1ed, []))). by apply (dir_prefixes_all []  _ _ r).
Qed.

(** C27: the kernel unpacks exactly the files that were added.  For any files
    with usable paths, the archive is built without error and the kernel's
    reader finds in it, in order, every file with its mode and contents,
    each after directories for all of its ancestors, and nothing else up to
    the trailer; the archive is whole words, as appending it to an image
    needs, and never outgrows its buffer. *)
Theorem cpio_unpacks `{AllocOk} files :
  Forall cfile_ok files -> zlen (concat (map file_entries files)) < 2 ^ 31 - 1 ->
  weights (concat (map file_entries files)) <= 2 ^ 60 - 200 ->
  exists c l, archive files = (Ok tt, c) /\ unpack (S (length l)) (cp_data c) = Some l /\
    map ident l = concat (map file_entries files) /\ cp_len c mod 4 = 0 /\ cp_len c <= cp_cap c /\
    forall f d r, f ∈ files -> skip_slashes (cf_path f) = d ++ SLASH :: r -> (d, Z.lor S_IFDIR 0x1ed, []) ∈ map ident l.
Proof. apply archive_unpacks. Qed.

(** The conditions as a test. *)
Definition cfile_okb (f : cfile) : bool :=
  let p := skip_slashes (cf_path f) in
  forallb (fun c => (0 <? c) && (c <? 256)) (cf_path f) && negb (bool_decide (p = [])) && (zlen p <? 256) && (zlen (cf_data f) <? two32) &&
  forallb (fun t => (zlen t.1.1 <? 256) && negb (bool_decide (t.1.1 = str "TRAILER!!!")) && (0 <=? t.1.2) && (t.1.2 <? two32) && (zlen t.2 <? two32))
    (file_entries f).

Lemma cfile_okb_ok f : cfile_okb f = true -> cfile_ok f.
Proof.
  unfold cfile_okb, cfile_ok. cbv zeta. rewrite !andb_true_iff, !Z.ltb_lt, negb_true_iff, bool_decide_eq_false, !forallb_forall.
  intros ((((C & N) & L) & D) & T). split_and!; try done; apply Forall_forall; intros x X%list_elem_of_In.
  - apply C in X. b2p. lia.
  - apply T in X. rewrite !andb_true_iff, !Z.ltb_lt, Z.leb_le, negb_true_iff, bool_decide_eq_false in X.
    destruct X as ((((X1 & X2) & X3) & X4) & X5). by repeat split.
Qed.

Definition demo_archive : list cfile :=
  [mk_cfile (str "/etc/kmorph/kmorph.conf") (str "name = standby") 0x1a4; mk_cfile (str "network") [] 0x1a4].

Lemma cpio_unpacks_witness :
  exists c l, archive (H := alloc_always) demo_archive = (Ok tt, c) /\ unpack (S (length l)) (cp_data c) = Some l /\
    map ident l = concat (map file_entries demo_archive) /\ cp_len c mod 4 = 0 /\ cp_len c <= cp_cap c /\
    forall f d r, f ∈ demo_archive -> skip_slashes (cf_path f) = d ++ SLASH :: r -> (d, Z.lor S_IFDIR 0x1ed, []) ∈ map ident l.
Proof.
  apply (cpio_unpacks (H := alloc_always) demo_archive); [|vm_compute; reflexivity|vm_compute; discriminate].
  apply Forall_cons. split; [apply cfile_okb_ok; vm_compute; reflexivity|]. apply Forall_cons.
  split; [apply cfile_okb_ok; vm_compute; reflexivity|]. apply Forall_nil. exact I.
Defined.
