(* ===== verification/Madt.v ===== *)
(** * lib/madt.c: the machine's CPUs from the ACPI MADT *)

From S2P Require Import Prelude Cstr Parse Files Fdt Elfcore.

Definition MADT_HEADER_LEN : Z := 44.
Definition MADT_ENTRY_LAPIC : Z := 0.
Definition MADT_ENTRY_X2APIC : Z := 9.
Definition MADT_ENTRY_GICC : Z := 0x0b.
Definition MADT_CPU_ENABLED : Z := 1.
Definition MADT_CPU_ONLINE_CAPABLE : Z := 2.
Definition MADT_GICC_ONLINE_CAPABLE : Z := 8.
Definition MADT_GICC_MPIDR : Z := 68.
Definition MPIDR_HWID_MASK : Z := 0xff00ffffff.

Definition byte_at (off : Z) (s : list Z) : Z := le_at off 1 s.

(** The id if the entry at [off] is a CPU that is or can be brought up. *)
Definition madt_entry_cpu (t : list Z) (off len : Z) : option Z :=
  let type := byte_at off t in
  let usable flags mask := negb (Z.land flags mask =? 0) in
  if type =? MADT_ENTRY_LAPIC then
    if len <? 8 then None
    else if usable (le_at (off + 4) 4 t) (Z.lor MADT_CPU_ENABLED MADT_CPU_ONLINE_CAPABLE) then Some (byte_at (off + 3) t) else None
  else if type =? MADT_ENTRY_X2APIC then
    if len <? 12 then None
    else if usable (le_at (off + 8) 4 t) (Z.lor MADT_CPU_ENABLED MADT_CPU_ONLINE_CAPABLE) then Some (le_at (off + 4) 4 t) else None
  else if type =? MADT_ENTRY_GICC then
    if len <? MADT_GICC_MPIDR + 8 then None
    else if usable (le_at (off + 12) 4 t) (Z.lor MADT_CPU_ENABLED MADT_GICC_ONLINE_CAPABLE)
    then Some (Z.land (le_at (off + MADT_GICC_MPIDR) 8 t) MPIDR_HWID_MASK) else None
  else None.

Section Madt.
Context `{Alloc}.

(** The entries from [off] on; [ret] is the variable of that name, which is
    what a malformed entry makes the function return.  Each round passes two
    bytes or more. *)
Fixpoint madt_loop (fuel : nat) (t : list Z) (len off : Z) (out : cpulist) (cap : Z) (ret : result unit) : result cpulist :=
  match fuel with
  | O => Ok out
  | S fuel =>
      if off + 2 <=? len then
        let elen := byte_at (off + 1) t in
        if (elen <? 2) || (len <? off + elen) then let? _ := ret in Ok out else
        match madt_entry_cpu t off elen with
        | Some id =>
            let? (out, cap) := cpulist_push out cap id in
            madt_loop fuel t len (off + elen) out cap (Ok tt)
        | None => madt_loop fuel t len (off + elen) out cap ret
        end
      else Ok (cpulist_normalize out)
  end.

Definition madt_read_cpus `{Files} (path : list Z) : result cpulist :=
  let? t := file_read path in
  if (zlen t <? MADT_HEADER_LEN) || negb (bool_decide (take 4 t = str "APIC")) || (zlen t <? le_at 4 4 t) then Err EINVAL else
  madt_loop (S (length t)) t (le_at 4 4 t) MADT_HEADER_LEN [] 0 (Err EINVAL).

End Madt.

(** ** Well-formed tables *)

Inductive mentry : Type :=
| Lapic (uid apic flags : Z)
| X2apic (x2id flags uid : Z)
| Gicc (head : list Z) (flags : Z) (mid : list Z) (mpidr : Z) (tail : list Z)
| Other (type : Z) (body : list Z).

Definition mentry_bytes (e : mentry) : list Z :=
  match e with
  | Lapic uid apic flags => [MADT_ENTRY_LAPIC; 8; uid; apic] ++ le 4 flags
  | X2apic x2id flags uid => [MADT_ENTRY_X2APIC; 16; 0; 0] ++ le 4 x2id ++ le 4 flags ++ le 4 uid
  | Gicc head flags mid mpidr tail =>
      [MADT_ENTRY_GICC; 76 + zlen tail] ++ head ++ le 4 flags ++ mid ++ le 8 mpidr ++ tail
  | Other type body => [type; 2 + zlen body] ++ body
  end.

Definition mentry_ok (e : mentry) : Prop :=
  match e with
  | Lapic uid apic flags => 0 <= apic < 256 /\ 0 <= flags < two32
  | X2apic x2id flags uid => 0 <= x2id < two32 /\ 0 <= flags < two32
  | Gicc head flags mid mpidr tail =>
      length head = 10%nat /\ length mid = 52%nat /\ zlen tail < 180 /\ 0 <= flags < two32 /\ is_u64 mpidr
  | Other type body => zlen body < 254 /\ type <> MADT_ENTRY_LAPIC /\ type <> MADT_ENTRY_X2APIC /\ type <> MADT_ENTRY_GICC
  end.

(** The CPU an entry describes, if it is enabled or can be brought online. *)
Definition mentry_cpu (e : mentry) : option Z :=
  match e with
  | Lapic _ apic flags => if Z.testbit flags 0 || Z.testbit flags 1 then Some apic else None
  | X2apic x2id flags _ => if Z.testbit flags 0 || Z.testbit flags 1 then Some x2id else None
  | Gicc _ flags _ mpidr _ => if Z.testbit flags 0 || Z.testbit flags 3 then Some (Z.land mpidr MPIDR_HWID_MASK) else None
  | Other _ _ => None
  end.

(** A table: the header with the signature and the length, the entries, and
    whatever the file has beyond. *)
Definition madt_table (rest_of_header : list Z) (es : list mentry) (beyond : list Z) : list Z :=
  let body := concat (map mentry_bytes es) in
  str "APIC" ++ le 4 (MADT_HEADER_LEN + zlen body) ++ rest_of_header ++ body ++ beyond.

Lemma land_bit f a : 0 <= a -> Z.land f (2 ^ a) = if Z.testbit f a then 2 ^ a else 0.
Proof.
  intros A. apply Z.bits_inj'. intros n N. rewrite Z.land_spec, Z.pow2_bits_eqb by lia.
  destruct (Z.eqb_spec a n) as [->|E]; [|rewrite andb_false_r].
  - rewrite andb_true_r. destruct (Z.testbit f n); [by rewrite Z.pow2_bits_true|by rewrite Z.bits_0].
  - destruct (Z.testbit f a); [by rewrite Z.pow2_bits_false|by rewrite Z.bits_0].
Qed.

Lemma flag_set f a b : 0 <= a -> 0 <= b -> negb (Z.land f (Z.lor (2 ^ a) (2 ^ b)) =? 0) = Z.testbit f a || Z.testbit f b.
Proof.
  intros A B. rewrite Z.land_lor_distr_r, !land_bit by lia. pose proof (Z.pow_pos_nonneg 2 a ltac:(lia) A). pose proof (Z.pow_pos_nonneg 2 b ltac:(lia) B).
  apply eq_true_iff_eq. rewrite negb_true_iff, Z.eqb_neq, orb_true_iff, Z.lor_eq_0_iff.
  destruct (Z.testbit f a), (Z.testbit f b); intuition lia || (split; [lia|intuition discriminate]).
Qed.

(** Length and CPU of the entry at the front. *)
Lemma mentry_here e s :
  mentry_ok e -> byte_at 1 (mentry_bytes e ++ s) = zlen (mentry_bytes e) /\ 2 <= zlen (mentry_bytes e) < 256 /\
  madt_entry_cpu (mentry_bytes e ++ s) 0 (zlen (mentry_bytes e)) = mentry_cpu e.
Proof.
  destruct e as [uid apic flags|x2id flags uid|head flags mid mpidr tail|type body]; cbn [mentry_ok mentry_cpu]; intros Ok.
  - destruct Ok as [A F]. split; [done|]. split; [done|]. unfold madt_entry_cpu.
    change (le_at (0 + 4) 4 (mentry_bytes (Lapic uid apic flags) ++ s)) with (le_val (le 4 flags)).
    change (byte_at (0 + 3) (mentry_bytes (Lapic uid apic flags) ++ s)) with (apic + 256 * 0).
    rewrite le_val_le by (cbn; lia). rewrite <- (flag_set flags 0 1) by lia. rewrite Z.add_0_r. done.
  - destruct Ok as [A F]. split; [done|]. split; [done|]. unfold madt_entry_cpu.
    change (le_at (0 + 4) 4 (mentry_bytes (X2apic x2id flags uid) ++ s)) with (le_val (le 4 x2id)).
    change (le_at (0 + 8) 4 (mentry_bytes (X2apic x2id flags uid) ++ s)) with (le_val (le 4 flags)).
    rewrite !le_val_le by (cbn; lia). rewrite <- (flag_set flags 0 1) by lia. done.
  - destruct Ok as (Lh & Lm & Lt & F & M). pose proof (zlen_nonneg tail).
    assert (Le : zlen (mentry_bytes (Gicc head flags mid mpidr tail)) = 76 + zlen tail).
    { cbn [mentry_bytes]. rewrite !zlen_app. unfold zlen. rewrite !le_length, Lh, Lm. cbn [length]. lia. }
    rewrite Le. split; [change (76 + zlen tail + 256 * 0 = 76 + zlen tail); lia|]. split; [lia|]. unfold madt_entry_cpu.
    change (byte_at 0 (mentry_bytes (Gicc head flags mid mpidr tail) ++ s)) with MADT_ENTRY_GICC. cbn [Z.eqb Pos.eqb].
    destruct (Z.ltb_spec (76 + zlen tail) (MADT_GICC_MPIDR + 8)); [unfold MADT_GICC_MPIDR in *; lia|].
    set (pre := [MADT_ENTRY_GICC; 76 + zlen tail] ++ head). assert (Lp : zlen pre = 12) by (unfold pre, zlen; rewrite length_app, Lh; done).
    assert (E : mentry_bytes (Gicc head flags mid mpidr tail) ++ s = pre ++ le 4 flags ++ mid ++ le 8 mpidr ++ tail ++ s).
    { unfold pre. cbn [mentry_bytes]. by rewrite <- !app_assoc. }
    assert (A1 : le_at (0 + 12) 4 (mentry_bytes (Gicc head flags mid mpidr tail) ++ s) = flags).
    { rewrite E, <- Lp, Z.add_0_l, <- (Z.add_0_r (zlen pre)), le_at_shift by lia.
      change (le_at 0 4 (le 4 flags ++ mid ++ le 8 mpidr ++ tail ++ s)) with (le_val (le 4 flags)). apply le_val_le. cbn. lia. }
    assert (A2 : le_at (0 + MADT_GICC_MPIDR) 8 (mentry_bytes (Gicc head flags mid mpidr tail) ++ s) = mpidr).
    { set (pre2 := pre ++ le 4 flags ++ mid).
      assert (Lp2 : zlen pre2 = 68) by (unfold pre2; rewrite !zlen_app, Lp; unfold zlen; rewrite le_length, Lm; done).
      replace (mentry_bytes _ ++ s) with (pre2 ++ le 8 mpidr ++ tail ++ s) by (rewrite E; unfold pre2; by rewrite <- !app_assoc).
      unfold MADT_GICC_MPIDR. rewrite <- Lp2, Z.add_0_l, <- (Z.add_0_r (zlen pre2)), le_at_shift by lia.
      change (le_at 0 8 (le 8 mpidr ++ tail ++ s)) with (le_val (le 8 mpidr)). apply le_val_le. unfold is_u64 in M. cbn. lia. }
    rewrite A1, A2. unfold MADT_CPU_ENABLED, MADT_GICC_ONLINE_CAPABLE. rewrite <- (flag_set flags 0 3) by lia. done.
  - destruct Ok as (L & N1 & N2 & N3). pose proof (zlen_nonneg body).
    assert (Le : zlen (mentry_bytes (Other type body)) = 2 + zlen body) by (cbn [mentry_bytes]; by rewrite zlen_app).
    rewrite Le. split; [change (2 + zlen body + 256 * 0 = 2 + zlen body); lia|]. split; [lia|]. unfold madt_entry_cpu.
    change (byte_at 0 (mentry_bytes (Other type body) ++ s)) with (type + 256 * 0). rewrite Z.add_0_r.
    by destruct (Z.eqb_spec type MADT_ENTRY_LAPIC), (Z.eqb_spec type MADT_ENTRY_X2APIC), (Z.eqb_spec type MADT_ENTRY_GICC).
Qed.

Lemma byte_at_shift a k s : 0 <= k -> byte_at (zlen a + k) (a ++ s) = byte_at k s.
Proof. apply le_at_shift. Qed.

Lemma entry_cpu_shift a s len : madt_entry_cpu (a ++ s) (zlen a) len = madt_entry_cpu s 0 len.
Proof.
  assert (B : byte_at (zlen a) (a ++ s) = byte_at 0 s) by (rewrite <- (Z.add_0_r (zlen a)); by apply byte_at_shift).
  unfold madt_entry_cpu. rewrite B, !byte_at_shift, !le_at_shift by (unfold MADT_GICC_MPIDR; lia). done.
Qed.

Lemma madt_loop_entries `{AllocOk} fuel a es beyond out cap ret :
  Forall mentry_ok es -> (length es < fuel)%nat ->
  madt_loop fuel (a ++ concat (map mentry_bytes es) ++ beyond) (zlen (a ++ concat (map mentry_bytes es))) (zlen a) out cap ret
  = Ok (cpulist_normalize (out ++ omap mentry_cpu es)).
Proof.
  intros F. revert fuel a out cap ret. induction F as [|e es O F IH]; intros fuel a out cap ret L; (destruct fuel as [|fuel]; [lia|]); cbn [madt_loop].
  - cbn [map concat omap]. rewrite !app_nil_r. destruct (Z.leb_spec (zlen a + 2) (zlen a)); [lia|done].
  - cbn [map concat]. set (more := concat (map mentry_bytes es)). rewrite <- (app_assoc (mentry_bytes e)).
    destruct (mentry_here e (more ++ beyond) O) as (B & R & C). rewrite byte_at_shift, B, entry_cpu_shift, C by lia.
    pose proof (zlen_nonneg more). rewrite !zlen_app.
    destruct (Z.leb_spec (zlen a + 2) (zlen a + (zlen (mentry_bytes e) + zlen more))); [|lia].
    destruct (Z.ltb_spec (zlen (mentry_bytes e)) 2); [lia|].
    destruct (Z.ltb_spec (zlen a + (zlen (mentry_bytes e) + zlen more)) (zlen a + zlen (mentry_bytes e))); [lia|]. cbn [orb].
    assert (Next : forall out cap ret, madt_loop fuel (a ++ mentry_bytes e ++ more ++ beyond) (zlen a + (zlen (mentry_bytes e) + zlen more))
      (zlen a + zlen (mentry_bytes e)) out cap ret = Ok (cpulist_normalize (out ++ omap mentry_cpu es))).
    { intros out' cap' ret'. specialize (IH fuel (a ++ mentry_bytes e) out' cap' ret' ltac:(cbn in L; lia)).
      rewrite <- !app_assoc, !zlen_app in IH. exact IH. }
    cbn [omap list_omap]. destruct (mentry_cpu e) as [id|]; [|apply Next].
    destruct (cpulist_push_ok out cap id) as (cap' & ->). rewrite Next, <- app_assoc. done.
Qed.

(** C28: every CPU of the machine is found.  From a well-formed table, of
    whatever entries and with anything after it in the file,
    [madt_read_cpus] returns 0 and the list, in ascending order and without
    repetition, of exactly the CPUs that are enabled or can be brought
    online. *)
Theorem madt_read_cpus_exact `{AllocOk} `{Files} path head es beyond :
  length head = 36%nat -> Forall mentry_ok es -> zlen (concat (map mentry_bytes es)) < 2 ^ 31 ->
  file_read path = Ok (madt_table head es beyond) ->
  exists l, madt_read_cpus path = Ok l /\ StronglySorted Z.lt l /\ forall id, id ∈ l <-> exists e, e ∈ es /\ mentry_cpu e = Some id.
Proof.
  intros Lh F B R. unfold madt_read_cpus. rewrite R. unfold madt_table. set (body := concat (map mentry_bytes es)) in *.
  set (pre := str "APIC" ++ le 4 (MADT_HEADER_LEN + zlen body) ++ head).
  replace (str "APIC" ++ le 4 (MADT_HEADER_LEN + zlen body) ++ head ++ body ++ beyond) with (pre ++ body ++ beyond) by (unfold pre; by rewrite <- !app_assoc).
  pose proof (zlen_nonneg body). pose proof (zlen_nonneg beyond).
  assert (Lp : zlen pre = MADT_HEADER_LEN) by (unfold pre, zlen; rewrite !length_app, le_length, Lh; done).
  assert (Ll : le_at 4 4 (pre ++ body ++ beyond) = MADT_HEADER_LEN + zlen body).
  { change (le_at 4 4 (pre ++ body ++ beyond)) with (le_val (le 4 (MADT_HEADER_LEN + zlen body))). apply le_val_le. unfold MADT_HEADER_LEN. cbn. lia. }
  assert (La : zlen (pre ++ body ++ beyond) = MADT_HEADER_LEN + zlen body + zlen beyond) by (rewrite !zlen_app, Lp; lia).
  rewrite Ll, La. destruct (Z.ltb_spec (MADT_HEADER_LEN + zlen body + zlen beyond) MADT_HEADER_LEN); [lia|].
  rewrite bool_decide_eq_true_2 by done. destruct (Z.ltb_spec (MADT_HEADER_LEN + zlen body + zlen beyond) (MADT_HEADER_LEN + zlen body)); [lia|].
  cbn [negb orb]. rewrite <- Lp, <- zlen_app. unfold body at 2 3. rewrite madt_loop_entries; [|done|].
  - cbn [app]. destruct (cpulist_normalize_ok (omap mentry_cpu es)) as [S M]. eexists. split; [reflexivity|]. split; [done|].
    intros id. rewrite M. apply list_elem_of_omap.
  - apply le_n_S. rewrite !length_app. assert (length es <= length body)%nat; [|lia]. unfold body. clear - F.
    induction F as [|e es O F IH]; [cbn; lia|]. cbn [length map concat]. rewrite length_app.
    destruct (mentry_here e [] O) as (_ & R & _). unfold zlen in R. lia.
Qed.

Definition demo_madt : list mentry := [Lapic 0 0 1; X2apic 0x102 2 1; Lapic 1 5 0; Other 1 [1; 2]; Lapic 2 3 1].
Definition demo_madt_files : Files := {| file_read _ := Ok (madt_table (replicate 36 0) demo_madt [7]); dir_list _ := Err ENOENT |}.

Lemma madt_read_cpus_exact_witness :
  exists l, @madt_read_cpus alloc_always demo_madt_files (str "/apic") = Ok l /\ StronglySorted Z.lt l /\
    forall id, id ∈ l <-> exists e, e ∈ demo_madt /\ mentry_cpu e = Some id.
Proof.
  apply (madt_read_cpus_exact (H := alloc_always) (H1 := demo_madt_files) (str "/apic") (replicate 36 0) demo_madt [7]);
    [reflexivity| |vm_compute; reflexivity|reflexivity].
  repeat (apply Forall_cons; split; [cbn; lia|]). apply Forall_cons. split; [cbn; repeat split; discriminate|].
  apply Forall_cons. split; [cbn; lia|]. apply Forall_nil. exact I.
Defined.

(** A damaged table passes for a whole one.  After an entry that lists a
    CPU, [ret] is 0, so a malformed entry behind it does not fail the
    function: it returns 0 with the CPUs up to there, neither sorted nor
    complete, although the same entry in front of the CPU gives
    [-EINVAL]. *)
Theorem madt_damaged_accepted :
  let damaged := [3; 1; 0; 0] in
  let lists es tail := @madt_read_cpus alloc_always
    {| file_read _ := Ok (str "APIC" ++ le 4 (MADT_HEADER_LEN + zlen (es ++ tail)) ++ replicate 36 0 ++ es ++ tail); dir_list _ := Err ENOENT |} [] in
  lists (mentry_bytes (Lapic 0 5 1) ++ mentry_bytes (Lapic 1 3 1)) (damaged ++ mentry_bytes (Lapic 2 9 1)) = Ok [5; 3] /\
  lists [] (damaged ++ mentry_bytes (Lapic 2 9 1)) = Err EINVAL.
Proof. vm_compute. split; reflexivity. Qed.
