(* ===== verification/Crashinfo.v ===== *)
(** * lib/crashinfo.c: what a dump needs to know of the running kernel

    [/sys/kernel/vmcoreinfo], the crash notes of each CPU, and the direct map
    found in [/proc/kcore]. *)

From S2P Require Import Prelude Cstr Ranges Files Fdt HostTree Elfcore.

(** The number, and what follows it. *)
Definition parse_hex (s : list Z) : result (Z * list Z) :=
  if c0 s =? 0 then Err EINVAL else
  let '(v, e, _) := strtoull 16 s in
  if bool_decide (e = s) then Err EINVAL else Ok (v, e).

Section Crashinfo.
Context `{Alloc} `{Files}.

Definition crashinfo_read_vmcoreinfo (path : list Z) : result range :=
  let? text := file_read_string path in
  let? (base, p) := parse_hex text in
  if negb (c0 p =? 32) then Err EINVAL else
  let? (size, p) := parse_hex (drop 1 p) in
  if negb (c0 p =? 0) || (size =? 0) then Err EINVAL else Ok (Range base size).

Definition read_hex_file (path : list Z) : result Z :=
  let? text := file_read_string path in
  let? (v, e) := parse_hex text in
  if negb (c0 e =? 0) then Err EINVAL else Ok v.

Definition cpu_path (cpu_root : list Z) (n : Z) (file : list Z) : list Z :=
  snprintf [] PATH_MAX (cpu_root ++ str "/cpu" ++ dec n ++ file).

(** An empty range if either file is missing or malformed. *)
Definition read_cpu_note (cpu_root : list Z) (n : Z) : range :=
  match read_hex_file (cpu_path cpu_root n (str "/crash_notes")) with
  | Err _ => Range 0 0
  | Ok base =>
      match file_read_u32 (cpu_path cpu_root n (str "/crash_notes_size")) with
      | Err _ => Range 0 0
      | Ok size => Range base size
      end
  end.

(** [isdir] is [stat] with [S_ISDIR]; the loop ends at the first CPU without
    a directory, and [fuel] bounds how many there are. *)
Fixpoint cpu_notes_loop (fuel : nat) (isdir : list Z -> bool) (cpu_root : list Z) (n : Z) (out : rangelist) (found : bool)
    : result (rangelist * bool) :=
  match fuel with
  | O => Ok (out, found)
  | S fuel =>
      if isdir (cpu_path cpu_root n []) then
        let r := read_cpu_note cpu_root n in
        match rangelist_add out (r_base r) (r_size r) with
        | (Err e, _) => Err e
        | (Ok _, out) => cpu_notes_loop fuel isdir cpu_root (n + 1) out (found || negb (r_size r =? 0))
        end
      else Ok (out, found)
  end.

Definition crashinfo_read_cpu_notes (fuel : nat) (isdir : list Z -> bool) (cpu_root : list Z) : result rangelist :=
  let? (out, found) := cpu_notes_loop fuel isdir cpu_root 0 [] false in
  if found : bool then Ok out else Err ENOENT.

End Crashinfo.

(** ** The direct map *)

Definition has_paddr (p : phdr) : bool := (p_type p =? PT_LOAD) && negb (p_paddr p =? UINT64_MAX).

Definition maps_image (ram image : phdr) : bool :=
  (p_paddr ram <=? p_paddr image)
  && (u64 (p_paddr image + p_memsz image) <=? u64 (p_paddr ram + p_memsz ram))
  && negb (u64 (p_vaddr image - p_paddr image) =? u64 (p_vaddr ram - p_paddr ram)).

(** The pair of the loop's indices [i] and [j]. *)
Definition pair_fits (ph : list phdr) (i j : nat) : bool :=
  match ph !! i, ph !! j with
  | Some ram, Some image => negb (i =? j)%nat && has_paddr ram && has_paddr image && maps_image ram image
  | _, _ => false
  end.

Definition ram_index (ph : list phdr) : option nat :=
  List.find (fun i => existsb (pair_fits ph i) (seq 0 (length ph))) (seq 0 (length ph)).

(** [pread] of [len] bytes at [off] gets them all. *)
Definition pread_whole (s : list Z) (off len : Z) : bool := (off <? 2 ^ 63) && ((len =? 0) || (off + len <=? zlen s)).

(** [kcore] is what opening and reading [/proc/kcore] gives. *)
Definition crashinfo_read_page_offset `{Alloc} (kcore : result (list Z)) : result Z :=
  let? s := kcore in
  if negb (pread_whole s 0 EHDR) || negb (bool_decide (take 4 s = [0x7f; 0x45; 0x4c; 0x46]))
     || negb (le_at 4 1 s =? 2) || negb (le_at 54 2 s =? PHDR) then Err EINVAL else
  let phnum := le_at 56 2 s in
  let len := phnum * PHDR in
  if negb (alloc (len + 1)) then Err ENOMEM else
  let phoff := le_at 32 8 s in
  if negb (pread_whole s phoff len) then Err EIO else
  let ph := read_phdrs (Z.to_nat phnum) phoff PHDR s in
  match ram_index ph with
  | Some i => match ph !! i with Some ram => Ok (u64 (p_vaddr ram - p_paddr ram)) | None => Err ENOENT end
  | None => Err ENOENT
  end.

(** ** Properties *)

Lemma cpu_notes_loop_spec `{AllocOk} `{Files} k fuel isdir root n out found :
  (forall i, (i < k)%nat -> isdir (cpu_path root (n + Z.of_nat i) []) = true) -> isdir (cpu_path root (n + Z.of_nat k) []) = false ->
  (k < fuel)%nat ->
  let notes := map (fun i => read_cpu_note root (n + Z.of_nat i)) (seq 0 k) in
  cpu_notes_loop fuel isdir root n out found = Ok (out ++ notes, found || existsb (fun r => negb (r_size r =? 0)) notes).
Proof.
  revert fuel n out found. induction k as [|k IH]; intros fuel n out found D E F; (destruct fuel as [|fuel]; [lia|]); cbn [cpu_notes_loop].
  - rewrite Z.add_0_r in E. rewrite E. cbn. by rewrite app_nil_r, orb_false_r.
  - specialize (D 0%nat ltac:(lia)) as D0. rewrite Z.add_0_r in D0. rewrite D0. unfold rangelist_add. rewrite alloc_ok.
    rewrite IH; [|intros i I; replace (n + 1 + Z.of_nat i) with (n + Z.of_nat (S i)) by lia; apply D; lia|by replace (n + 1 + Z.of_nat k) with (n + Z.of_nat (S k)) by lia|lia].
    assert (S : map (fun i => read_cpu_note root (n + Z.of_nat i)) (seq 0 (S k))
      = read_cpu_note root n :: map (fun i => read_cpu_note root (n + 1 + Z.of_nat i)) (seq 0 k)).
    { cbn [seq map]. rewrite Z.add_0_r. f_equal. rewrite <- seq_shift, map_map. apply map_ext. intros i. f_equal. lia. }
    rewrite S. cbn [existsb]. rewrite <- app_assoc, orb_assoc. cbn [app]. by destruct (read_cpu_note root n).
Qed.

(** Notes stay in the order of the CPUs, one for each, empty where a CPU has
    none. *)
Theorem crashinfo_cpu_notes_indexed `{AllocOk} `{Files} k fuel isdir root :
  (forall i, (i < k)%nat -> isdir (cpu_path root (Z.of_nat i) []) = true) -> isdir (cpu_path root (Z.of_nat k) []) = false -> (k < fuel)%nat ->
  let notes := map (fun i => read_cpu_note root (Z.of_nat i)) (seq 0 k) in
  crashinfo_read_cpu_notes fuel isdir root = if existsb (fun r => negb (r_size r =? 0)) notes then Ok notes else Err ENOENT.
Proof.
  intros D E F. cbv zeta. unfold crashinfo_read_cpu_notes. rewrite (cpu_notes_loop_spec k fuel isdir root 0 [] false); [|done|done|done].
  cbn [app orb]. by destruct (existsb _ _).
Qed.

Lemma ram_index_spec ph :
  match ram_index ph with
  | Some i => (exists j, pair_fits ph i j = true) /\ forall i' j, (i' < i)%nat -> pair_fits ph i' j = false
  | None => forall i j, pair_fits ph i j = false
  end.
Proof.
  unfold ram_index. assert (B : forall i j, pair_fits ph i j = true -> (i < length ph /\ j < length ph)%nat).
  { intros i j. unfold pair_fits. destruct (ph !! i) eqn:I; [|done]. destruct (ph !! j) eqn:J; [|done]. intros _.
    apply lookup_lt_Some in I. apply lookup_lt_Some in J. done. }
  assert (No : forall n a, match List.find (fun i => existsb (pair_fits ph i) (seq 0 (length ph))) (seq a n) with
     | Some i => (exists j, pair_fits ph i j = true) /\ forall i' j, (a <= i' < i)%nat -> pair_fits ph i' j = false
     | None => forall i j, (a <= i < a + n)%nat -> pair_fits ph i j = false end).
  { induction n as [|n IH]; intros a; cbn [seq List.find]; [intros; lia|].
    destruct (existsb (pair_fits ph a) (seq 0 (length ph))) eqn:E.
    - apply existsb_exists in E as (j & _ & J). split; [by exists j|]. intros; lia.
    - assert (Na : forall j, pair_fits ph a j = false).
      { intros j. destruct (pair_fits ph a j) eqn:P; [|done]. apply B in P as Q. exfalso. rewrite <- not_true_iff_false, existsb_exists in E.
        apply E. exists j. split; [apply in_seq; lia|done]. }
      specialize (IH (S a)). destruct (List.find _ _) as [i|].
      + destruct IH as [X Y]. split; [done|]. intros i' j I. destruct (decide (i' = a)) as [->|]; [done|]. apply Y. lia.
      + intros i j I. destruct (decide (i = a)) as [->|]; [done|]. apply IH. lia. }
  specialize (No (length ph) 0%nat). destruct (List.find _ _) as [i|].
  - destruct No as [X Y]. split; [done|]. intros i' j I. apply Y. lia.
  - intros i j. destruct (pair_fits ph i j) eqn:P; [|done]. apply B in P as Q. rewrite No in P by lia. done.
Qed.

(** The direct map is found where it is.  On an ELF [/proc/kcore] with
    any program headers, [crashinfo_read_page_offset] returns the offset of
    the first segment that maps the RAM another segment, mapped at a
    different offset, also shows, and [-ENOENT] exactly when there is no
    such pair. *)
Theorem page_offset_found `{AllocOk} ps rest :
  Forall phdr_ok ps -> zlen ps <= UINT16_MAX ->
  match crashinfo_read_page_offset (Ok (fill_ehdr (zlen ps) ++ concat (map phdr_bytes ps) ++ rest)) with
  | Ok v => exists i j ram, ps !! i = Some ram /\ pair_fits ps i j = true /\ v = u64 (p_vaddr ram - p_paddr ram) /\
              forall i' j', (i' < i)%nat -> pair_fits ps i' j' = false
  | Err e => e = ENOENT /\ forall i j, pair_fits ps i j = false
  end.
Proof.
  intros F L. unfold crashinfo_read_page_offset. set (s := fill_ehdr _ ++ _). pose proof (zlen_nonneg ps). pose proof (zlen_nonneg rest).
  assert (Lc : zlen (concat (map phdr_bytes ps)) = zlen ps * PHDR).
  { clear. induction ps as [|p ps IH]; [done|]. cbn [map concat]. rewrite zlen_app, zlen_cons, IH, phdr_bytes_length. lia. }
  assert (Ls : zlen s = EHDR + zlen ps * PHDR + zlen rest) by (unfold s; rewrite !zlen_app, Lc; change (zlen (fill_ehdr (zlen ps))) with EHDR; lia).
  change (take 4 s) with [0x7f; 0x45; 0x4c; 0x46]. change (le_at 4 1 s) with 2. change (le_at 54 2 s) with PHDR.
  change (le_at 56 2 s) with (le_val (le 2 (zlen ps))). change (le_at 32 8 s) with EHDR.
  rewrite le_val_le by (unfold UINT16_MAX in L; cbn; lia). unfold pread_whole. rewrite Ls, alloc_ok, bool_decide_eq_true_2 by done.
  destruct (Z.leb_spec (0 + EHDR) (EHDR + zlen ps * PHDR + zlen rest)); [|unfold EHDR, PHDR in *; lia].
  destruct (Z.leb_spec (EHDR + zlen ps * PHDR) (EHDR + zlen ps * PHDR + zlen rest)); [|lia]. rewrite !orb_true_r. cbn [negb orb andb Z.ltb Z.compare Z.eqb].
  change (EHDR <? 2 ^ 63) with true. cbn [andb negb orb].
  replace (Z.to_nat (zlen ps)) with (length ps) by (unfold zlen; lia).
  assert (Er : read_phdrs (length ps) EHDR PHDR s = ps) by exact (read_phdrs_here (fill_ehdr (zlen ps)) ps rest F).
  rewrite Er. pose proof (ram_index_spec ps) as R. destruct (ram_index ps) as [i|]; [|done]. destruct R as [[j J] N].
  assert (I : is_Some (ps !! i)) by (unfold pair_fits in J; destruct (ps !! i); [by eexists|done]). destruct I as [ram I].
  rewrite I. by exists i, j, ram.
Qed.

(** The kernel image at its link address and RAM in the direct map. *)
Definition demo_kcore : list phdr :=
  [mk_phdr PT_LOAD 7 0 0xffffffff81000000 0x1000000 0x2000000 0x2000000 4096;
   mk_phdr PT_LOAD 7 0 0xffff888000100000 0x100000 0x7ff00000 0x7ff00000 4096].

Lemma page_offset_found_witness :
  match crashinfo_read_page_offset (H := alloc_always) (Ok (fill_ehdr 2 ++ concat (map phdr_bytes demo_kcore) ++ [])) with
  | Ok v => exists i j ram, demo_kcore !! i = Some ram /\ pair_fits demo_kcore i j = true /\ v = u64 (p_vaddr ram - p_paddr ram) /\
              forall i' j', (i' < i)%nat -> pair_fits demo_kcore i' j' = false
  | Err e => e = ENOENT /\ forall i j, pair_fits demo_kcore i j = false
  end.
Proof.
  apply (page_offset_found (H := alloc_always) demo_kcore []); [|vm_compute; discriminate].
  unfold demo_kcore. repeat (apply Forall_cons; split; [unfold phdr_ok, is_u64, PT_LOAD; cbn; lia|]). apply Forall_nil. exact I.
Defined.

Example demo_kcore_offset :
  crashinfo_read_page_offset (H := alloc_always) (Ok (fill_ehdr 2 ++ concat (map phdr_bytes demo_kcore) ++ [])) = Ok 0xffff888000000000.
Proof. vm_compute. reflexivity. Qed.
