(* ===== verification/Devname.v ===== *)
(** * lib/devname.c: device names to PCI addresses *)

From S2P Require Import Prelude Cstr Files Fdt HostTree.

Fixpoint matches_pattern (pattern s : list Z) : bool :=
  match pattern, s with
  | [], _ => true
  | p :: pattern, c :: s => (if p =? ch "h" then isxdigit c else c =? p) && matches_pattern pattern s
  | _, [] => false
  end.

Definition devname_is_pci_id (s : list Z) : bool :=
  (zlen s =? 12) && matches_pattern (str "hhhh:hh:hh.h") s.

Definition classes : list (list Z) := [str "net"; str "block"; str "graphics"].

(** [strrchr(path, '/')]: what is before the last slash and after it. *)
Fixpoint last_slash (s : list Z) : option (list Z * list Z) :=
  match s with
  | [] => None
  | c :: s =>
      match last_slash s with
      | Some (a, b) => Some (c :: a, b)
      | None => if c =? ch "/" then Some ([], s) else None
      end
  end.

(** The last component. *)
Definition base_name (path : list Z) : list Z := match last_slash path with Some (_, b) => b | None => path end.

(** Each round cuts a component off. *)
Fixpoint nearest_pci (fuel : nat) (path : list Z) : option (list Z) :=
  match fuel with
  | O => None
  | S fuel =>
      match last_slash path with
      | None => None
      | Some (dir, _) => if devname_is_pci_id (base_name dir) then Some (base_name dir) else nearest_pci fuel dir
      end
  end.

(** [exists_] is [access(path, F_OK) == 0]. *)
Definition devname_resolve (exists_ : list Z -> bool) (realpath : list Z -> result (list Z))
    (class_root usb_root name : list Z) (len : Z) : result (list Z) :=
  if (c0 name =? 0) || existsb (Z.eqb (ch "/")) name then Err EINVAL else
  let paths := map (fun c => snprintf [] PATH_MAX (class_root ++ slash ++ c ++ slash ++ name)) classes
               ++ [snprintf [] PATH_MAX (usb_root ++ slash ++ name)] in
  match List.filter exists_ paths with
  | [] => Err ENOENT
  | [found] =>
      let? path := realpath found in
      match nearest_pci (S (length path)) path with
      | Some id => Ok (snprintf [] len id)
      | None => Err ENODEV
      end
  | _ => Err EEXIST
  end.

(** ** Properties *)

(** An absolute path of components. *)
Definition join (cs : list (list Z)) : list Z := concat (map (fun c => ch "/" :: c) cs).
Definition component (c : list Z) : Prop := ch "/" ∉ c.

Lemma last_slash_none c : component c -> last_slash c = None.
Proof.
  induction c as [|x c IH]; intros C; [done|]. apply not_elem_of_cons in C as [X C]. cbn [last_slash]. rewrite IH by done.
  destruct (Z.eqb_spec x (ch "/")); [congruence|done].
Qed.

Lemma last_slash_app a c : component c -> last_slash (a ++ ch "/" :: c) = Some (a, c).
Proof.
  intros C. induction a as [|x a IH]; cbn [app last_slash]; [|by rewrite IH]. rewrite last_slash_none by done. by rewrite Z.eqb_refl.
Qed.

Lemma join_snoc cs c : join (cs ++ [c]) = join cs ++ ch "/" :: c.
Proof. unfold join. rewrite map_app, concat_app. cbn. by rewrite app_nil_r. Qed.

Lemma base_name_join cs c : component c -> base_name (join (cs ++ [c])) = c.
Proof. intros C. unfold base_name. rewrite join_snoc, last_slash_app; done. Qed.

Lemma nearest_pci_join cs fuel :
  Forall component cs -> (length cs < fuel)%nat -> nearest_pci fuel (join cs) = List.find devname_is_pci_id (rev (removelast cs)).
Proof.
  revert fuel. induction cs as [|c cs IH] using rev_ind; intros fuel F L; (destruct fuel as [|fuel]; [lia|]); [done|].
  apply Forall_app in F as [F Fc]. apply Forall_cons in Fc as [C _]. rewrite length_app in L. cbn [length] in L.
  cbn [nearest_pci]. rewrite join_snoc, last_slash_app by done. rewrite List.removelast_last.
  destruct cs as [|d cs] using rev_ind; [by destruct fuel|]. clear IHcs. apply Forall_app in F as [F Fd]. apply Forall_cons in Fd as [D _].
  rewrite base_name_join by done. rewrite List.rev_app_distr. cbn [rev app List.find]. destruct (devname_is_pci_id d) eqn:P; [done|].
  rewrite IH; [by rewrite List.removelast_last|apply Forall_app; split; [done|by constructor]|lia].
Qed.

(** A device's name leads to the function it sits on.  When exactly one
    of the class directories or the USB bus knows the name and it stands for
    [/c1/.../cn], [devname_resolve] returns the innermost ancestor that is a
    PCI function, and [-ENODEV] if none is; no match gives [-ENOENT] and
    several [-EEXIST]. *)
Theorem devname_resolve_nearest exists_ realpath class_root usb_root name len :
  name <> [] -> cstring name -> component name ->
  let paths := map (fun c => snprintf [] PATH_MAX (class_root ++ slash ++ c ++ slash ++ name)) classes
               ++ [snprintf [] PATH_MAX (usb_root ++ slash ++ name)] in
  match List.filter exists_ paths with
  | [] => devname_resolve exists_ realpath class_root usb_root name len = Err ENOENT
  | [found] => forall cs, Forall component cs -> realpath found = Ok (join cs) ->
      devname_resolve exists_ realpath class_root usb_root name len
      = match List.find devname_is_pci_id (rev (removelast cs)) with Some id => Ok (snprintf [] len id) | None => Err ENODEV end
  | _ => devname_resolve exists_ realpath class_root usb_root name len = Err EEXIST
  end.
Proof.
  intros N C S. cbv zeta. unfold devname_resolve.
  assert (G : (c0 name =? 0) || existsb (Z.eqb (ch "/")) name = false).
  { apply orb_false_iff. split; [apply Z.eqb_neq; intros E; by apply N, c0_nil|]. apply not_true_iff_false. rewrite existsb_exists.
    intros (x & I & E). apply Z.eqb_eq in E. subst x. apply S. by apply list_elem_of_In. }
  rewrite G. cbv zeta. destruct (List.filter exists_ _) as [|found [|? ?]]; [done| |done].
  intros cs F ->. rewrite nearest_pci_join; [done|done|]. apply le_n_S. unfold join. clear.
  induction cs as [|c cs IH]; [cbn; lia|]. cbn [length map concat]. rewrite length_app. cbn [length]. lia.
Qed.

Definition demo_net : list (list Z) := [str "sys"; str "devices"; str "pci0000:00"; str "0000:00:1c.0"; str "0000:03:00.0"; str "net"; str "eth0"].
Definition demo_has (p : list Z) : bool := bool_decide (p = str "/sys/class/net/eth0").

Lemma devname_resolve_nearest_witness :
  devname_resolve demo_has (fun _ => Ok (join demo_net)) (str "/sys/class") (str "/usb") (str "eth0") 16 = Ok (str "0000:03:00.0").
Proof.
  refine (devname_resolve_nearest demo_has (fun _ => Ok (join demo_net)) (str "/sys/class") (str "/usb") (str "eth0") 16 _ _ _ demo_net _ eq_refl).
  - discriminate.
  - repeat (apply Forall_cons; split; [vm_compute; split; reflexivity|]). apply Forall_nil. exact I.
  - intros E. apply list_elem_of_In in E. vm_compute in E. intuition discriminate.
  - unfold demo_net. repeat (apply Forall_cons; split; [intros E; apply list_elem_of_In in E; vm_compute in E; intuition discriminate|]). apply Forall_nil. exact I.
Defined.
