(* ===== verification/Takeable.v ===== *)
(** * lib/takeable.c: what the successor may claim after the fence *)

From S2P Require Import Prelude Cstr Ranges Parse Fdt HostTree.

(** [struct takeable] *)
Record takeable : Type := mk_takeable {
  tk_memory : rangeset;
  tk_cpus : cpulist }.
Definition TAKEABLE_NONE : takeable := mk_takeable RANGESET_INIT [].

Section Takeable.
Context `{Alloc}.

Fixpoint difference_loop (ids : list Z) (minus out : cpulist) : cpulist :=
  match ids with
  | [] => out
  | id :: ids =>
      if negb (cpulist_has minus id) && negb (cpulist_has out id)
      then difference_loop ids minus (out ++ [id]) else difference_loop ids minus out
  end.

Definition cpulist_difference (all minus : cpulist) : result cpulist :=
  if negb (alloc ((zlen all + 1) * 8)) then Err ENOMEM else Ok (difference_loop all minus []).

Definition takeable_compute (ht : host_tree) (own_ram reserved : rangeset) (own_cpus : cpulist) : result takeable :=
  match rangeset_copy RANGESET_INIT (ht_ram ht) with
  | (Err e, _) => Err e
  | (Ok _, memory) =>
      match rangeset_subtract_set memory own_ram with
      | (Err e, _) => Err e
      | (Ok _, memory) =>
          match rangeset_subtract_set memory reserved with
          | (Err e, _) => Err e
          | (Ok _, memory) =>
              let? cpus := cpulist_difference (ht_cpus ht) own_cpus in
              if (zlen (rs_r memory) =? 0) || (zlen cpus =? 0) then Err ENOENT
              else Ok (mk_takeable memory cpus)
          end
      end
  end.

End Takeable.

(** ** Exactly the machine minus what is not to be taken *)

Lemma cpulist_has_spec l id : cpulist_has l id = true <-> id ∈ l.
Proof.
  unfold cpulist_has. rewrite existsb_exists. split.
  - intros (x & X & E). apply Z.eqb_eq in E as ->. by apply list_elem_of_In.
  - intros I. exists id. split; [by apply list_elem_of_In|apply Z.eqb_refl].
Qed.

Lemma difference_loop_spec ids minus out :
  NoDup out -> (forall x, x ∈ out -> x ∉ minus) ->
  NoDup (difference_loop ids minus out) /\
  forall x, x ∈ difference_loop ids minus out <-> x ∈ out \/ (x ∈ ids /\ x ∉ minus).
Proof.
  revert out. induction ids as [|id ids IH]; intros out N M; cbn [difference_loop].
  - split; [done|]. intros x. rewrite elem_of_nil. tauto.
  - destruct (cpulist_has minus id) eqn:Hm; cbn [negb andb].
    + apply cpulist_has_spec in Hm. destruct (IH out N M) as [N' E]. split; [done|]. intros x. rewrite E, elem_of_cons.
      split; [tauto|]. intros [?|[[->|?] ?]]; tauto.
    + assert (Nm : id ∉ minus) by (rewrite <- cpulist_has_spec; congruence).
      destruct (cpulist_has out id) eqn:Ho; cbn [negb].
      * apply cpulist_has_spec in Ho. destruct (IH out N M) as [N' E]. split; [done|]. intros x. rewrite E, elem_of_cons.
        split; [tauto|]. intros [?|[[->|?] ?]]; tauto.
      * assert (No : id ∉ out) by (rewrite <- cpulist_has_spec; congruence).
        destruct (IH (out ++ [id])) as [N' E].
        { apply NoDup_app. split; [done|]. split; [intros x X; by intros ->%list_elem_of_singleton|apply NoDup_singleton]. }
        { intros x. rewrite elem_of_app, list_elem_of_singleton. intros [X| ->]; auto. }
        split; [done|]. intros x. rewrite E, elem_of_app, list_elem_of_singleton, elem_of_cons. split; [|tauto].
        intros [[?| ->]|?]; tauto.
Qed.

(** The memory and the CPUs that may be taken. *)
Definition free_address (ht : host_tree) (own reserved : rangeset) (x : Z) : Prop :=
  rs_mem (ht_ram ht) x /\ ~ rs_mem own x /\ ~ rs_mem reserved x.
Definition free_cpu (ht : host_tree) (own : cpulist) (id : Z) : Prop := id ∈ ht_cpus ht /\ id ∉ own.

Lemma rangeset_copy_ok `{Alloc} dst s :
  rs_wf s -> rs_wf (rangeset_copy dst s).2 /\
  match (rangeset_copy dst s).1 with
  | Ok _ => rs_r (rangeset_copy dst s).2 = rs_r s
  | Err e => e = ENOMEM /\ ~ AllocOk
  end.
Proof. intros [W _]. apply (add_each_ok (rs_r s) RANGESET_INIT); [|done]. by split; [|unfold rs_count; cbn; lia]. Qed.

Lemma mem_empty s : rs_wf s -> zlen (rs_r s) = 0 <-> forall x, ~ rs_mem s x.
Proof.
  intros [W _]. unfold rs_mem. destruct (rs_r s) as [|r l].
  - split; [intros _ x; rewrite mem_nil; tauto|done].
  - rewrite zlen_cons. pose proof (zlen_nonneg l). split; [lia|]. intros E. exfalso. destruct W as (? & ? & ? & _).
    apply (E (r_base r)), mem_cons. left. unfold in_range. lia.
Qed.

Lemma takeable_compute_ok `{Alloc} ht own reserved own_cpus :
  rs_wf (ht_ram ht) -> rs_wf own -> rs_wf reserved ->
  match takeable_compute ht own reserved own_cpus with
  | Ok t => rs_wf (tk_memory t) /\ (forall x, rs_mem (tk_memory t) x <-> free_address ht own reserved x) /\
            NoDup (tk_cpus t) /\ (forall id, id ∈ tk_cpus t <-> free_cpu ht own_cpus id) /\
            rs_r (tk_memory t) <> [] /\ tk_cpus t <> []
  | Err e => (e = ENOENT /\ ((forall x, ~ free_address ht own reserved x) \/ forall id, ~ free_cpu ht own_cpus id))
             \/ (e = ENOMEM /\ ~ AllocOk)
  end.
Proof.
  intros Wr Wo Ws. unfold takeable_compute, free_address, free_cpu.
  destruct (rangeset_copy_ok RANGESET_INIT (ht_ram ht) Wr) as [W1 M1].
  destruct (rangeset_copy RANGESET_INIT (ht_ram ht)) as [[[]|e] m1]; cbn [fst snd] in *; [|by right].
  destruct (rangeset_subtract_set_ok m1 own W1 Wo) as [W2 M2].
  destruct (rangeset_subtract_set m1 own) as [[[]|e] m2]; cbn [fst snd] in *; [|by right].
  destruct (rangeset_subtract_set_ok m2 reserved W2 Ws) as [W3 M3].
  destruct (rangeset_subtract_set m2 reserved) as [[[]|e] m3]; cbn [fst snd] in *; [|by right].
  unfold cpulist_difference. destruct (alloc _) eqn:Ea; cbn [negb].
  2: { right. split; [done|]. intros A. unfold AllocOk in A. rewrite A in Ea. done. }
  destruct (difference_loop_spec (ht_cpus ht) own_cpus []) as [Nd Md]; [constructor|by intros x X%elem_of_nil|].
  assert (Mx : forall x, rs_mem m3 x <-> rs_mem (ht_ram ht) x /\ ~ rs_mem own x /\ ~ rs_mem reserved x).
  { intros x. rewrite M3, M2. unfold rs_mem at 1. rewrite M1. unfold rs_mem. tauto. }
  assert (Mc : forall id, id ∈ difference_loop (ht_cpus ht) own_cpus [] <-> id ∈ ht_cpus ht /\ id ∉ own_cpus).
  { intros id. rewrite Md, elem_of_nil. tauto. }
  destruct (Z.eqb_spec (zlen (rs_r m3)) 0) as [E|E]; cbn [orb].
  { left. split; [done|]. left. intros x. rewrite <- Mx. by apply mem_empty. }
  destruct (Z.eqb_spec (zlen (difference_loop (ht_cpus ht) own_cpus [])) 0) as [E'|E'].
  { left. split; [done|]. right. intros id. rewrite <- Mc. destruct (difference_loop _ _ _) as [|y l]; [by intros ?%elem_of_nil|].
    rewrite zlen_cons in E'. pose proof (zlen_nonneg l). lia. }
  cbn [tk_memory tk_cpus]. split; [done|]. split; [done|]. split; [done|]. split; [done|].
  split; [intros N; by rewrite N in E|intros N; by rewrite N in E'].
Qed.

(** C24: what the successor may take is exact.  When [takeable_compute]
    returns 0, the memory is exactly the machine's RAM that is neither the
    successor's own nor reserved by the kernel, the CPUs are exactly the
    machine's CPUs the successor does not own, each once, and neither is
    empty; it returns [-ENOENT] exactly when one of them would be empty and
    [-ENOMEM] only when an allocation failed. *)
Theorem takeable_compute_exact `{Alloc} ht own reserved own_cpus :
  rs_wf (ht_ram ht) -> rs_wf own -> rs_wf reserved ->
  match takeable_compute ht own reserved own_cpus with
  | Ok t => rs_wf (tk_memory t) /\ (forall x, rs_mem (tk_memory t) x <-> free_address ht own reserved x) /\
            NoDup (tk_cpus t) /\ (forall id, id ∈ tk_cpus t <-> free_cpu ht own_cpus id) /\
            rs_r (tk_memory t) <> [] /\ tk_cpus t <> []
  | Err e => (e = ENOENT /\ ((forall x, ~ free_address ht own reserved x) \/ forall id, ~ free_cpu ht own_cpus id))
             \/ (e = ENOMEM /\ ~ AllocOk)
  end.
Proof. apply takeable_compute_ok. Qed.

Definition demo_machine : host_tree :=
  mk_host_tree [0; 1; 2; 3] (Rangeset [Range 0x1000 0x7f000; Range 0x100000 0x7f00000] 8) [] VMCORE_INFO_INIT.
Definition demo_own : rangeset := Rangeset [Range 0x4000000 0x1000000] 8.
Definition demo_reserved : rangeset := Rangeset [Range 0x2000000 0x1000] 8.

Lemma takeable_compute_exact_witness :
  exists t, @takeable_compute alloc_always demo_machine demo_own demo_reserved [3] = Ok t /\
    (forall x, rs_mem (tk_memory t) x <-> free_address demo_machine demo_own demo_reserved x) /\ tk_cpus t = [0; 1; 2].
Proof.
  pose proof (takeable_compute_exact (H := alloc_always) demo_machine demo_own demo_reserved [3]) as T.
  destruct (@takeable_compute alloc_always demo_machine demo_own demo_reserved [3]) as [t|e] eqn:E.
  - exists t. split; [reflexivity|]. split; [apply T; split; cbn; lia|]. vm_compute in E. by injection E as <-.
  - vm_compute in E. discriminate.
Defined.
