(* ===== verification/Dt.v ===== *)
(** * lib/dt.c: the device trees the kernel interfaces take and give

    Builders of the overlays and baselines written to
    [/sys/fs/multikernel], as callbacks of [fdtutil_build], and the reader
    of the pool's tree.  A callback is a function on the buffer; [TRY] is
    [let?].  Readers take the tree of a blob ([Fdt.tree_of]); a property
    shorter than the cell read from it is not modelled further than the
    bytes it has. *)

From S2P Require Import Prelude Cstr Ranges Parse Files Fdt HostTree Takeable.

Definition OVERLAY_COMPATIBLE : list Z := str "linux,multikernel-overlay".
Definition INSTANCES_PATH : list Z := str "/instances".
Definition POOL_PATH : list Z := str "/resources".
Definition PCI_HOST_BRIDGE_COMPATIBLE : list Z := str "multikernel,pci-host-bridge".
Definition HOST_TREE_NODE : list Z := str "multikernel,host-tree".
Definition DT_MEM_NORMAL : Z := 1.

(** ** Fragments and overlays *)

Definition fragment_name (index : Z) : list Z := snprintf [] 32 (str "fragment@" ++ dec_int index).

Definition fragment_begin (index : Z) (target_path : list Z) (f : fdt) : result fdt :=
  let? f := fdt_begin_node f (fragment_name index) in
  let? f := fdt_property_string f (str "target-path") target_path in
  fdt_begin_node f (str "__overlay__").

Definition fragment_end (f : fdt) : result fdt :=
  let? f := fdt_end_node f in
  fdt_end_node f.

Definition overlay_begin (target_path : list Z) (f : fdt) : result fdt :=
  let? f := fdt_begin_node f [] in
  let? f := fdt_property_string f (str "compatible") OVERLAY_COMPATIBLE in
  fragment_begin 0 target_path f.

Definition overlay_end (f : fdt) : result fdt :=
  let? f := fragment_end f in
  fdt_end_node f.

(** [snprintf(target, sizeof(target), INSTANCES_PATH "/%s", name)] *)
Definition instance_path (name : list Z) : list Z := snprintf [] 256 (INSTANCES_PATH ++ slash ++ name).

(** ** Creating an instance *)

Record instance_args : Type := mk_instance {
  ia_name : list Z;
  ia_cpus : cpulist;
  ia_memory_bytes : Z;
  ia_devices : strlist;
  ia_platform_devices : strlist;
  ia_host_tree : option host_tree }.

Definition emit_platform_device_node (_ : Z) (name : list Z) (f : fdt) : result fdt :=
  let? f := fdt_begin_node f name in
  let? f := fdt_property_string f (str "device-type") (str "platform") in
  let? f := fdt_property_string f (str "device-name") name in
  fdt_end_node f.

Definition emit_platform_device_nodes (names : strlist) (f : fdt) : result fdt :=
  each emit_platform_device_node 0 names f.

Definition emit_platform_devices (names : strlist) (f : fdt) : result fdt :=
  let? f := fdt_begin_node f (str "devices") in
  let? f := emit_platform_device_nodes names f in
  fdt_end_node f.

Definition emit_device_id (i : Z) (id : list Z) (f : fdt) : result fdt :=
  let? f := fdt_begin_node f (snprintf [] 32 (str "pci@" ++ dec i)) in
  let? f := fdt_property_string f (str "pci-id") id in
  fdt_end_node f.

Definition emit_device_add (fragment : Z) (target : list Z) (devices : strlist) (f : fdt) : result fdt :=
  let? f := fragment_begin fragment target f in
  let? f := fdt_begin_node f (str "device-add") in
  let? f := each emit_device_id 0 devices f in
  let? f := fdt_end_node f in
  fragment_end f.

Section Builders.
Context `{Alloc}.

(** An absent list ([NULL]) is the empty list: every use is guarded by
    [list && list->count]. *)
Definition build_instance_create (a : instance_args) (f : fdt) : result fdt :=
  let? f := overlay_begin INSTANCES_PATH f in
  let? f := fdt_begin_node f (str "instance-create") in
  let? f := fdt_property_string f (str "instance-name") (ia_name a) in
  let? f := fdt_begin_node f (str "resources") in
  let? f := fdtutil_prop_cpulist f (str "cpus") (ia_cpus a) in
  let? f := fdt_property_u64 f (str "memory-bytes") (ia_memory_bytes a) in
  let? f := if negb (zlen (ia_platform_devices a) =? 0)
            then emit_platform_devices (ia_platform_devices a) f else Ok f in
  let? f := fdt_end_node f in
  let? f := match ia_host_tree a with
            | Some ht =>
                let? f := fdt_begin_node f (str "chosen") in
                let? f := fdt_begin_node f HOST_TREE_NODE in
                let? f := host_tree_emit ht f in
                let? f := fdt_end_node f in
                fdt_end_node f
            | None => Ok f
            end in
  let? f := fdt_end_node f in
  let? f := fragment_end f in
  let? f := if negb (zlen (ia_devices a) =? 0)
            then emit_device_add 1 (instance_path (ia_name a)) (ia_devices a) f else Ok f in
  fdt_end_node f.

Definition dt_build_instance_create (a : instance_args) : result fdt :=
  if (zlen (ia_cpus a) =? 0) || (ia_memory_bytes a =? 0) then Err EINVAL
  else fdtutil_build (build_instance_create a).

Definition build_instance_remove (name : list Z) (f : fdt) : result fdt :=
  let? f := overlay_begin INSTANCES_PATH f in
  let? f := fdt_begin_node f (str "instance-remove") in
  let? f := fdt_property_string f (str "instance-name") name in
  let? f := fdt_end_node f in
  overlay_end f.

Definition dt_build_instance_remove (name : list Z) : result fdt :=
  fdtutil_build (build_instance_remove name).

(** ** Adopting CPUs, memory, devices and IOMMUs *)

Definition emit_cpu (_ : Z) (id : Z) (f : fdt) : result fdt :=
  let? f := fdt_begin_node f (snprintf [] 32 (str "cpu@" ++ dec id)) in
  let? f := fdt_property_u64 f (str "reg") id in
  fdt_end_node f.

Definition emit_cpu_add (cpus : cpulist) (f : fdt) : result fdt :=
  let? f := fdt_begin_node f (str "cpu-add") in
  let? f := each emit_cpu 0 cpus f in
  fdt_end_node f.

Definition memory_index (i : Z) : list Z := snprintf [] 32 (str "memory@" ++ dec i).

Definition emit_memory (i : Z) (r : range) (f : fdt) : result fdt :=
  let? f := fdt_begin_node f (memory_index i) in
  let? f := fdtutil_prop_reg f (r_base r) (r_size r) in
  let? f := fdt_property_u32 f (str "mem-type") DT_MEM_NORMAL in
  fdt_end_node f.

Definition emit_memory_add (memory : rangeset) (f : fdt) : result fdt :=
  let? f := fdt_begin_node f (str "memory-add") in
  let? f := each emit_memory 0 (rs_r memory) f in
  fdt_end_node f.

Definition build_adopt (name : list Z) (cpus : cpulist) (memory : rangeset) (f : fdt) : result fdt :=
  let? f := overlay_begin (instance_path name) f in
  let? f := if negb (zlen cpus =? 0) then emit_cpu_add cpus f else Ok f in
  let? f := if negb (zlen (rs_r memory) =? 0) then emit_memory_add memory f else Ok f in
  overlay_end f.

Definition dt_build_adopt (name : list Z) (cpus : cpulist) (memory : rangeset) : result fdt :=
  if (zlen cpus =? 0) && (zlen (rs_r memory) =? 0) then Err EINVAL
  else fdtutil_build (build_adopt name cpus memory).

Definition build_adopt_device (name id : list Z) (f : fdt) : result fdt :=
  let? f := fdt_begin_node f [] in
  let? f := fdt_property_string f (str "compatible") OVERLAY_COMPATIBLE in
  let? f := emit_device_add 0 (instance_path name) [id] f in
  fdt_end_node f.

Definition dt_build_adopt_device (name id : list Z) : result fdt :=
  fdtutil_build (build_adopt_device name id).

Definition build_iommu_add (name : list Z) (base : Z) (f : fdt) : result fdt :=
  let? f := overlay_begin (instance_path name) f in
  let? f := fdt_begin_node f (str "iommu-add") in
  let? f := fdt_begin_node f (str "dmar@0") in
  let? f := fdt_property_u64 f (str "reg") base in
  let? f := fdt_end_node f in
  let? f := fdt_end_node f in
  overlay_end f.

Definition dt_build_iommu_add (name : list Z) (base : Z) : result fdt :=
  fdtutil_build (build_iommu_add name base).

(** ** Pool baselines *)

Record pool_args : Type := mk_pool {
  pa_cpus : cpulist;
  pa_memory_bytes : Z;
  pa_claim : option range;
  pa_devices : pci_list;
  pa_platform_devices : strlist }.

Definition emit_claim (c : range) (f : fdt) : result fdt :=
  let? f := fdt_begin_node f (str "memory@0") in
  let? f := fdt_property_string f (str "device_type") (str "memory") in
  let? f := fdtutil_prop_reg f (r_base c) (r_size c) in
  fdt_end_node f.

(** What the pool needs beyond the claim. *)
Definition pool_grow (a : pool_args) : Z :=
  match pa_claim a with
  | Some c => if r_size c <? pa_memory_bytes a then u64 (pa_memory_bytes a - r_size c) else 0
  | None => pa_memory_bytes a
  end.

Definition build_pool_baseline (a : pool_args) (f : fdt) : result fdt :=
  let grow := pool_grow a in
  let? f := fdt_begin_node f [] in
  let? f := fdt_begin_node f (str "resources") in
  let? f := fdtutil_prop_cpulist f (str "cpus") (pa_cpus a) in
  let? f := match pa_claim a with Some c => emit_claim c f | None => Ok f end in
  let? f := if negb (grow =? 0) then
              let? f := fdt_begin_node f (match pa_claim a with
                                          | Some _ => str "memory@1" | None => str "memory@0" end) in
              let? f := fdt_property_string f (str "device_type") (str "memory") in
              let? f := fdt_property_u64 f (str "size") grow in
              fdt_end_node f
            else Ok f in
  let? f := if negb (zlen (pa_devices a) =? 0) || negb (zlen (pa_platform_devices a) =? 0) then
              let? f := fdt_begin_node f (str "devices") in
              let? f := emit_pci_device_nodes (pa_devices a) false f in
              let? f := emit_platform_device_nodes (pa_platform_devices a) f in
              fdt_end_node f
            else Ok f in
  let? f := fdt_end_node f in
  fdt_end_node f.

Definition dt_build_pool_baseline (a : pool_args) : result fdt :=
  if (zlen (pa_cpus a) =? 0) || (pa_memory_bytes a =? 0)
     || match pa_claim a with Some c => r_size c =? 0 | None => false end
  then Err EINVAL else fdtutil_build (build_pool_baseline a).

Definition build_pool_device_add (devices : strlist) (f : fdt) : result fdt :=
  let? f := fdt_begin_node f [] in
  let? f := fdt_property_string f (str "compatible") OVERLAY_COMPATIBLE in
  let? f := emit_device_add 0 POOL_PATH devices f in
  fdt_end_node f.

Definition dt_build_pool_device_add (devices : strlist) : result fdt :=
  if zlen devices =? 0 then Err EINVAL else fdtutil_build (build_pool_device_add devices).

Definition emit_foreign_memory (i : Z) (r : range) (f : fdt) : result fdt :=
  let? f := fdt_begin_node f (memory_index i) in
  let? f := fdt_property_string f (str "device_type") (str "memory") in
  let? f := fdtutil_prop_reg f (r_base r) (r_size r) in
  fdt_end_node f.

Definition build_foreign_baseline (t : takeable) (f : fdt) : result fdt :=
  let? f := fdt_begin_node f [] in
  let? f := fdt_begin_node f (str "resources") in
  let? f := fdtutil_prop_cpulist f (str "cpus") (tk_cpus t) in
  let? f := each emit_foreign_memory 0 (rs_r (tk_memory t)) f in
  let? f := fdt_end_node f in
  fdt_end_node f.

Definition dt_build_foreign_baseline (t : takeable) : result fdt :=
  if (zlen (tk_cpus t) =? 0) || (zlen (rs_r (tk_memory t)) =? 0) then Err EINVAL
  else fdtutil_build (build_foreign_baseline t).

End Builders.

(** ** Reading the pool *)

Definition sum_chunk (total : Z) (k : node) : Z :=
  if starts (str "memory@") (node_name k) then
    match fdtutil_read_reg k with Ok (_, size) => u64 (total + size) | Err _ => total end
  else total.
Definition sum_chunks (resources : node) : Z := foldl sum_chunk 0 (node_kids resources).

Definition sum_instance (total : Z) (k : node) : Z :=
  match fdt_subnode_offset k (str "resources") with
  | Some res => match fdtutil_read_u64 res (str "memory-bytes") with Ok bytes => u64 (total + bytes) | Err _ => total end
  | None => total
  end.
Definition sum_instance_memory (root : node) : Z :=
  match fdt_subnode_offset root (str "instances") with
  | Some instances => foldl sum_instance 0 (node_kids instances)
  | None => 0
  end.

(** [fdt_stringlist_contains]; a string is at least its NUL long, so the
    list's length bounds the strings in it. *)
Fixpoint stringlist_contains (fuel : nat) (l s : list Z) : bool :=
  match fuel with
  | O => false
  | S fuel =>
      if zlen l <? zlen s then false
      else if starts (s ++ [0]) l then true
      else match split_at 0 l with
           | (_, Some rest) => stringlist_contains fuel (drop 1 rest) s
           | (_, None) => false
           end
  end.
(** [!fdt_node_check_compatible(...)] *)
Definition is_compatible (n : node) (s : list Z) : bool :=
  match fdt_getprop n (str "compatible") with
  | Some p => stringlist_contains (S (length p)) p s
  | None => false
  end.

Record pool_view : Type := mk_view {
  pv_free_cpus : cpulist;
  pv_total_bytes : Z;
  pv_free_bytes : Z;
  pv_devices : strlist;
  pv_platform_devices : strlist }.

Section Reading.
Context `{Alloc}.

Definition strlist_push (l : strlist) (s : list Z) : result strlist :=
  if negb (alloc ((zlen l + 1) * 8)) then Err ENOMEM
  else if negb (alloc (zlen s + 1)) then Err ENOMEM
  else Ok (l ++ [s]).

Definition pci_function_id (domain hi : Z) : list Z :=
  snprintf [] 16 (hexpad 4 domain ++ str ":" ++ hexpad 2 (Z.land (Z.shiftr hi 16) 0xff) ++ str ":"
                  ++ hexpad 2 (Z.land (Z.shiftr hi 11) 0x1f) ++ str "." ++ hex (Z.land (Z.shiftr hi 8) 7)).

Fixpoint collect_functions (domain : Z) (kids : list node) (out : strlist) : result strlist :=
  match kids with
  | [] => Ok out
  | k :: kids =>
      match fdt_getprop k (str "vendor-id") with
      | None => collect_functions domain kids out
      | Some _ =>
          match fdt_getprop k (str "reg") with
          | None => Err EINVAL
          | Some reg =>
              if zlen reg <? 4 then Err EINVAL else
              let? out := strlist_push out (pci_function_id domain (cell32 reg 0)) in
              collect_functions domain kids out
          end
      end
  end.

Definition collect_pci_functions (bridge : node) (out : strlist) : result strlist :=
  let domain := match fdt_getprop bridge (str "linux,pci-domain") with Some d => cell32 d 0 | None => 0 end in
  collect_functions domain (node_kids bridge) out.

Fixpoint collect_bridges (kids : list node) (out : strlist) : result strlist :=
  match kids with
  | [] => Ok out
  | k :: kids =>
      if is_compatible k PCI_HOST_BRIDGE_COMPATIBLE then
        let? out := collect_pci_functions k out in collect_bridges kids out
      else collect_bridges kids out
  end.
Definition collect_pool_pci (root : node) (out : strlist) : result strlist := collect_bridges (node_kids root) out.

Fixpoint collect_platform (kids : list node) (out : strlist) : result strlist :=
  match kids with
  | [] => Ok out
  | k :: kids =>
      match fdt_getprop k (str "device-type") with
      | Some type =>
          if streq (cstr_of type) (str "platform") then
            let name := match fdt_getprop k (str "device-name") with Some n => cstr_of n | None => node_name k end in
            let? out := strlist_push out name in collect_platform kids out
          else collect_platform kids out
      | None => collect_platform kids out
      end
  end.
Definition collect_platform_devices (resources : node) (out : strlist) : result strlist :=
  match fdt_subnode_offset resources (str "devices") with
  | Some devices => collect_platform (node_kids devices) out
  | None => Ok out
  end.

(** The body of [dt_read_pool] behind the header check. *)
Definition read_pool_tree (root : node) : result pool_view :=
  match fdt_subnode_offset root (str "resources") with
  | None => Err ENOENT
  | Some resources =>
      let? free_cpus := match fdtutil_read_cpulist resources (str "cpus-available") with
                        | Err e => if e =? ENOENT then Ok [] else Err e
                        | Ok l => Ok l end in
      let total := sum_chunks resources in
      if total =? 0 then Err ENOENT else
      let used := sum_instance_memory root in
      let free := if used <? total then u64 (total - used) else 0 in
      let? devices := collect_pool_pci root [] in
      let? platform := collect_platform_devices resources [] in
      Ok (mk_view free_cpus total free devices platform)
  end.

(** A blob whose structure block spells no tree has no [/resources]. *)
Definition dt_read_pool (f : fdt) (len : Z) : result pool_view :=
  match fdtutil_check f len with
  | Err _ => Err EINVAL
  | Ok _ => match tree_of f with Some root => read_pool_tree root | None => Err ENOENT end
  end.

Definition dt_read_memory_granule (f : fdt) (len : Z) : result Z :=
  match fdtutil_check f len with
  | Err _ => Err EINVAL
  | Ok _ => match tree_of f with Some root => fdtutil_read_u64 root (str "memory-granule") | None => Err EINVAL end
  end.

End Reading.

(** ** The trees that are written *)

Definition frag (i : Z) (target : list Z) (kids : list node) : node :=
  Node (fragment_name i) [(str "target-path", zstr target)] [Node (str "__overlay__") [] kids].
Definition overlay (frags : list node) : node :=
  Node [] [(str "compatible", zstr OVERLAY_COMPATIBLE)] frags.

Definition platform_node (name : list Z) : node :=
  Node name [(str "device-type", zstr (str "platform")); (str "device-name", zstr name)] [].
Definition id_node (i : Z) (id : list Z) : node :=
  Node (snprintf [] 32 (str "pci@" ++ dec i)) [(str "pci-id", zstr id)] [].
Definition device_add_frag (i : Z) (target : list Z) (ids : strlist) : node :=
  frag i target [Node (str "device-add") [] (imap (fun k id => id_node (Z.of_nat k) id) ids)].

Definition chosen_kids (o : option host_tree) : list node :=
  match o with Some ht => [Node (str "chosen") [] [host_node HOST_TREE_NODE ht]] | None => [] end.

Definition instance_tree (a : instance_args) : node :=
  overlay
    (frag 0 INSTANCES_PATH
       [Node (str "instance-create") [(str "instance-name", zstr (ia_name a))]
          (Node (str "resources")
             [(str "cpus", cells64 (ia_cpus a)); (str "memory-bytes", cpu_to_fdt64 (ia_memory_bytes a))]
             (if negb (zlen (ia_platform_devices a) =? 0)
              then [Node (str "devices") [] (map platform_node (ia_platform_devices a))] else [])
           :: chosen_kids (ia_host_tree a))]
     :: if negb (zlen (ia_devices a) =? 0)
        then [device_add_frag 1 (instance_path (ia_name a)) (ia_devices a)] else []).

Definition cpu_node (id : Z) : node :=
  Node (snprintf [] 32 (str "cpu@" ++ dec id)) [(str "reg", cpu_to_fdt64 id)] [].
Definition memory_node (i : Z) (r : range) : node :=
  Node (memory_index i) [(str "reg", reg_cells r); (str "mem-type", cpu_to_fdt32 DT_MEM_NORMAL)] [].
Definition adopt_tree (name : list Z) (cpus : cpulist) (memory : rangeset) : node :=
  overlay [frag 0 (instance_path name)
    ((if negb (zlen cpus =? 0) then [Node (str "cpu-add") [] (map cpu_node cpus)] else [])
     ++ (if negb (zlen (rs_r memory) =? 0)
         then [Node (str "memory-add") [] (imap (fun k r => memory_node (Z.of_nat k) r) (rs_r memory))] else []))].

(** Lengths the writer takes as [int]. *)
Definition name_ok (s : list Z) : Prop := zlen s < 2 ^ 30.

Lemma snprintf_bound n s m : 0 < n <= m -> zlen (snprintf [] n s) < m.
Proof. intros L. pose proof (snprintf_length n s). lia. Qed.

Lemma emits_each_inodes {A} (op : Z -> A -> fdt -> result fdt) (t : Z -> A -> node) l :
  (forall j x, x ∈ l -> emits (op j x) (toks (t j x))) ->
  emits (each op 0 l) (concat (map toks (imap (fun k x => t (Z.of_nat k) x) l))).
Proof.
  intros E. eapply emits_eq; [apply (emits_each op (fun j x => toks (t j x))); done|].
  f_equal. clear E. symmetry. apply (fmap_imap _ toks).
Qed.

(** Two groupings of the same tags. *)
Ltac flat_tags := repeat (rewrite ?app_nil_r, <- ?app_assoc; cbn [app]); reflexivity.

Lemma emits_fragment_begin i target :
  name_ok target ->
  emits (fragment_begin i target) [FDT_BEGIN_NODE (fragment_name i); FDT_PROP (str "target-path") (zstr target);
                                   FDT_BEGIN_NODE (str "__overlay__")].
Proof.
  intros L. unfold fragment_begin. eapply emits_eq; [emit_calls|done].
  - by apply snprintf_bound.
  - unfold name_ok in L. lia.
Qed.

Lemma emits_fragment_end : emits fragment_end [FDT_END_NODE; FDT_END_NODE].
Proof. unfold fragment_end. eapply emits_eq; [emit_calls|done]. Qed.

(** Tags of the overlay up to the first fragment's contents, and after them. *)
Definition open_overlay (target : list Z) : list (tag (list Z)) :=
  [FDT_BEGIN_NODE []; FDT_PROP (str "compatible") (zstr OVERLAY_COMPATIBLE);
   FDT_BEGIN_NODE (fragment_name 0); FDT_PROP (str "target-path") (zstr target);
   FDT_BEGIN_NODE (str "__overlay__")].

Lemma emits_overlay_begin target : name_ok target -> emits (overlay_begin target) (open_overlay target).
Proof.
  intros L. unfold overlay_begin. eapply emits_eq.
  - eapply emits_bind; [by apply emits_begin_node|]. eapply emits_bind; [by apply emits_string|].
    by apply emits_fragment_begin.
  - done.
Qed.

Lemma emits_overlay_end : emits overlay_end [FDT_END_NODE; FDT_END_NODE; FDT_END_NODE].
Proof. unfold overlay_end. eapply emits_eq; [eapply emits_bind; [apply emits_fragment_end|apply emits_end_node]|done]. Qed.

Lemma emits_platform_node i name : name_ok name -> emits (emit_platform_device_node i name) (toks (platform_node name)).
Proof. unfold name_ok. intros L. unfold emit_platform_device_node. eapply emits_eq; [emit_calls; lia|done]. Qed.

Lemma emits_platform_nodes l :
  Forall name_ok l -> emits (emit_platform_device_nodes l) (concat (map toks (map platform_node l))).
Proof.
  intros F. apply (emits_each_nodes emit_platform_device_node platform_node). intros j x X. rewrite Forall_forall in F.
  by apply emits_platform_node, F.
Qed.

Lemma emits_platform l :
  Forall name_ok l -> emits (emit_platform_devices l) (toks (Node (str "devices") [] (map platform_node l))).
Proof.
  intros F. unfold emit_platform_devices. eapply emits_eq.
  - eapply emits_bind; [by apply emits_begin_node|]. eapply emits_bind; [by apply emits_platform_nodes|apply emits_end_node].
  - done.
Qed.

Lemma emits_device_add i target ids :
  name_ok target -> Forall name_ok ids -> emits (emit_device_add i target ids) (toks (device_add_frag i target ids)).
Proof.
  intros T F. unfold emit_device_add. eapply emits_eq.
  - eapply emits_bind; [by apply emits_fragment_begin|]. eapply emits_bind; [by apply emits_begin_node|].
    eapply emits_bind; [|eapply emits_bind; [apply emits_end_node|apply emits_fragment_end]].
    apply (emits_each_inodes emit_device_id id_node). intros j x X. rewrite Forall_forall in F. specialize (F x X).
    unfold emit_device_id. eapply emits_eq; [emit_calls|done]; [by apply snprintf_bound|unfold name_ok in F; lia].
  - unfold device_add_frag, frag. cbn [toks map prop_tag concat app fst snd]. rewrite ?app_nil_r, <- ?app_assoc. reflexivity.
Qed.

Lemma instance_path_ok name : name_ok (instance_path name).
Proof. by apply snprintf_bound. Qed.

(** What [dt_build_instance_create] may be given. *)
Record instance_ok (a : instance_args) : Prop := {
  io_name : name_ok (ia_name a);
  io_cpus : zlen (ia_cpus a) < 2 ^ 27;
  io_devices : Forall name_ok (ia_devices a);
  io_platform : Forall name_ok (ia_platform_devices a);
  io_host : match ia_host_tree a with Some ht => ht_wf ht | None => True end }.

Section Emit.
Context `{AllocOk}.

Lemma emits_chosen o f_ops :
  match o with Some ht => ht_wf ht | None => True end ->
  (forall f, f_ops f = match o with
            | Some ht =>
                let? f := fdt_begin_node f (str "chosen") in
                let? f := fdt_begin_node f HOST_TREE_NODE in
                let? f := host_tree_emit ht f in
                let? f := fdt_end_node f in
                fdt_end_node f
            | None => Ok f
            end) ->
  emits f_ops (concat (map toks (chosen_kids o))).
Proof.
  intros W E. destruct o as [ht|].
  - eapply emits_ext; [intros f; symmetry; apply E|]. cbv beta match. eapply emits_eq.
    + eapply emits_bind; [by apply emits_begin_node|]. eapply emits_bind; [by apply emits_begin_node|].
      eapply emits_bind; [by apply emits_host_tree|]. emit_calls.
    + cbn [chosen_kids map concat toks host_node]. rewrite ?app_nil_r, <- ?app_assoc. cbn [app]. by rewrite <- ?app_assoc.
  - eapply emits_ext; [intros f; symmetry; apply E|]. apply emits_nil.
Qed.

Lemma emits_instance a : instance_ok a -> emits (build_instance_create a) (toks (instance_tree a)).
Proof.
  intros [In Ic Id Ip Ih]. unfold build_instance_create. eapply emits_eq.
  - eapply emits_bind; [by apply emits_overlay_begin|]. eapply emits_bind; [by apply emits_begin_node|].
    eapply emits_bind; [apply emits_string; [done|unfold name_ok in In; lia]|]. eapply emits_bind; [by apply emits_begin_node|].
    eapply emits_bind; [by apply emits_prop_cpulist|]. eapply emits_bind; [by apply emits_u64|].
    eapply emits_bind; [apply emits_if; intros _; by apply emits_platform|]. eapply emits_bind; [apply emits_end_node|].
    eapply emits_bind; [by apply (emits_chosen (ia_host_tree a))|]. eapply emits_bind; [apply emits_end_node|].
    eapply emits_bind; [apply emits_fragment_end|]. eapply emits_bind; [|apply emits_end_node].
    apply emits_if. intros _. apply emits_device_add; [apply instance_path_ok|done].
  - unfold instance_tree, overlay, frag, open_overlay. cbn [toks map prop_tag concat app fst snd].
    generalize (chosen_kids (ia_host_tree a)). intros ks.
    repeat case_bool; cbn [map concat toks app]; flat_tags.
Qed.

Lemma emits_adopt name cpus memory :
  emits (build_adopt name cpus memory) (toks (adopt_tree name cpus memory)).
Proof.
  unfold build_adopt. eapply emits_eq.
  - eapply emits_bind; [apply emits_overlay_begin, instance_path_ok|].
    eapply emits_bind; [apply emits_if; intros _|eapply emits_bind; [apply emits_if; intros _|apply emits_overlay_end]].
    + unfold emit_cpu_add. eapply emits_bind; [by apply emits_begin_node|]. eapply emits_bind; [|apply emits_end_node].
      apply (emits_each_nodes emit_cpu cpu_node). intros j id _. unfold emit_cpu. eapply emits_eq; [emit_calls|done].
      by apply snprintf_bound.
    + unfold emit_memory_add. eapply emits_bind; [by apply emits_begin_node|]. eapply emits_bind; [|apply emits_end_node].
      apply (emits_each_inodes emit_memory memory_node). intros j [b s] _. unfold emit_memory. eapply emits_eq; [emit_calls|done].
      by apply snprintf_bound.
  - unfold adopt_tree, overlay, frag, open_overlay. cbn [toks map prop_tag concat app fst snd].
    repeat case_bool; cbn [map concat toks app]; flat_tags.
Qed.

(** *** One device, one IOMMU, removal *)

Definition adopt_device_tree (name id : list Z) : node := overlay [device_add_frag 0 (instance_path name) [id]].
Definition iommu_add_tree (name : list Z) (base : Z) : node :=
  overlay [frag 0 (instance_path name)
    [Node (str "iommu-add") [] [Node (str "dmar@0") [(str "reg", cpu_to_fdt64 base)] []]]].
Definition remove_tree (name : list Z) : node :=
  overlay [frag 0 INSTANCES_PATH [Node (str "instance-remove") [(str "instance-name", zstr name)] []]].
Definition pool_device_add_tree (ids : strlist) : node := overlay [device_add_frag 0 POOL_PATH ids].

Lemma emits_overlay_device_add target ids op :
  name_ok target -> Forall name_ok ids ->
  (forall f, op f = let? f := fdt_begin_node f [] in
                    let? f := fdt_property_string f (str "compatible") OVERLAY_COMPATIBLE in
                    let? f := emit_device_add 0 target ids f in
                    fdt_end_node f) ->
  emits op (toks (overlay [device_add_frag 0 target ids])).
Proof.
  intros T F E. eapply emits_ext; [intros f; symmetry; apply E|]. eapply emits_eq.
  - eapply emits_bind; [by apply emits_begin_node|]. eapply emits_bind; [by apply emits_string|].
    eapply emits_bind; [by apply emits_device_add|apply emits_end_node].
  - unfold overlay. cbn [toks map concat prop_tag fst snd app]. flat_tags.
Qed.

Lemma emits_adopt_device name id :
  name_ok id -> emits (build_adopt_device name id) (toks (adopt_device_tree name id)).
Proof.
  intros N. apply (emits_overlay_device_add (instance_path name) [id]); [apply instance_path_ok|by constructor|done].
Qed.

Lemma emits_pool_device_add ids :
  Forall name_ok ids -> emits (build_pool_device_add ids) (toks (pool_device_add_tree ids)).
Proof. intros F. by apply (emits_overlay_device_add POOL_PATH ids). Qed.

Lemma emits_iommu_add name base : emits (build_iommu_add name base) (toks (iommu_add_tree name base)).
Proof.
  unfold build_iommu_add. eapply emits_eq.
  - eapply emits_bind; [apply emits_overlay_begin, instance_path_ok|]. emit_calls. apply emits_overlay_end.
  - unfold iommu_add_tree, overlay, frag, open_overlay. cbn [toks map concat prop_tag fst snd app]. flat_tags.
Qed.

Lemma emits_remove name : name_ok name -> emits (build_instance_remove name) (toks (remove_tree name)).
Proof.
  intros N. unfold build_instance_remove. eapply emits_eq.
  - eapply emits_bind; [by apply emits_overlay_begin|]. emit_calls; [unfold name_ok in N; lia|apply emits_overlay_end].
  - unfold remove_tree, overlay, frag, open_overlay. cbn [toks map concat prop_tag fst snd app]. flat_tags.
Qed.

(** *** Baselines *)

Definition memory_chunk (name : list Z) (p : list Z * list Z) : node :=
  Node name [(str "device_type", zstr (str "memory")); p] [].

Definition pool_tree (a : pool_args) : node :=
  let grow := pool_grow a in
  Node [] []
    [Node (str "resources") [(str "cpus", cells64 (pa_cpus a))]
       ((match pa_claim a with Some c => [memory_chunk (str "memory@0") (str "reg", reg_cells c)] | None => [] end)
        ++ (if negb (grow =? 0)
            then [memory_chunk (match pa_claim a with Some _ => str "memory@1" | None => str "memory@0" end)
                    (str "size", cpu_to_fdt64 grow)] else [])
        ++ (if negb (zlen (pa_devices a) =? 0) || negb (zlen (pa_platform_devices a) =? 0)
            then [Node (str "devices") [] (map (pci_node false) (pa_devices a) ++ map platform_node (pa_platform_devices a))]
            else []))].

Definition foreign_tree (t : takeable) : node :=
  Node [] []
    [Node (str "resources") [(str "cpus", cells64 (tk_cpus t))]
       (imap (fun k r => memory_chunk (memory_index (Z.of_nat k)) (str "reg", reg_cells r)) (rs_r (tk_memory t)))].

Record pool_ok (a : pool_args) : Prop := {
  po_cpus : zlen (pa_cpus a) < 2 ^ 27;
  po_devices : Forall pci_wf (pa_devices a);
  po_platform : Forall name_ok (pa_platform_devices a) }.

Lemma emits_claim c : emits (emit_claim c) (toks (memory_chunk (str "memory@0") (str "reg", reg_cells c))).
Proof. unfold emit_claim. eapply emits_eq; [emit_calls|by destruct c]. Qed.

Lemma emits_opt_claim o :
  emits (fun f => match o with Some c => emit_claim c f | None => Ok f end)
    (concat (map toks (match o with Some c => [memory_chunk (str "memory@0") (str "reg", reg_cells c)] | None => [] end))).
Proof. destruct o as [c|]; [cbn [map concat]; rewrite app_nil_r; apply emits_claim|apply emits_nil]. Qed.

Lemma emits_pool a : pool_ok a -> emits (build_pool_baseline a) (toks (pool_tree a)).
Proof.
  intros [Pc Pd Pp]. unfold build_pool_baseline. cbv zeta. eapply emits_eq.
  - eapply emits_bind; [by apply emits_begin_node|]. eapply emits_bind; [by apply emits_begin_node|].
    eapply emits_bind; [by apply emits_prop_cpulist|]. eapply emits_bind; [apply emits_opt_claim|].
    eapply emits_bind; [apply emits_if; intros _|].
    { emit_calls. by destruct (pa_claim a). }
    eapply emits_bind; [apply emits_if; intros _|emit_calls].
    eapply emits_bind; [by apply emits_begin_node|]. eapply emits_bind; [by apply emits_pci_nodes|].
    eapply emits_bind; [by apply emits_platform_nodes|apply emits_end_node].
  - unfold pool_tree. cbv zeta. cbn [toks map prop_tag concat app fst snd].
    generalize (match pa_claim a with Some c => [memory_chunk (str "memory@0") (str "reg", reg_cells c)] | None => [] end).
    intros ks. repeat case_bool; cbn [map concat toks app memory_chunk prop_tag fst snd]; rewrite ?map_app, ?concat_app;
      cbn [map concat toks app memory_chunk prop_tag fst snd]; rewrite ?map_app, ?concat_app; flat_tags.
Qed.

Lemma emits_foreign t : zlen (tk_cpus t) < 2 ^ 27 -> emits (build_foreign_baseline t) (toks (foreign_tree t)).
Proof.
  intros L. unfold build_foreign_baseline. eapply emits_eq.
  - eapply emits_bind; [by apply emits_begin_node|]. eapply emits_bind; [by apply emits_begin_node|].
    eapply emits_bind; [by apply emits_prop_cpulist|].
    eapply emits_bind; [apply (emits_each_inodes emit_foreign_memory (fun i r => memory_chunk (memory_index i) (str "reg", reg_cells r)))|emit_calls].
    intros j [b s] _. unfold emit_foreign_memory. eapply emits_eq; [emit_calls; by apply snprintf_bound|done].
  - unfold foreign_tree. cbn [toks map prop_tag concat app fst snd]. flat_tags.
Qed.

End Emit.

(** ** What the other side reads *)

Fixpoint descend (n : node) (path : list (list Z)) : option node :=
  match path with
  | [] => Some n
  | p :: path => match fdt_subnode_offset n p with Some k => descend k path | None => None end
  end.

(** The host tree's node in an instance-create overlay. *)
Definition host_tree_path : list (list Z) :=
  [str "fragment@0"; str "__overlay__"; str "instance-create"; str "chosen"; HOST_TREE_NODE].

(** The children of a node, each read by [f]. *)
Fixpoint read_nodes {A} (f : node -> result A) (ks : list node) : option (list A) :=
  match ks with
  | [] => Some []
  | k :: ks => match f k, read_nodes f ks with Ok a, Some l => Some (a :: l) | _, _ => None end
  end.

(** The ids under [cpu-add] and the ranges under [memory-add] of an adopt
    overlay; without the node there are none. *)
Definition add_nodes {A} (f : node -> result A) (what : list Z) (root : node) : option (list A) :=
  match descend root [str "fragment@0"; str "__overlay__"] with
  | Some o => match fdt_subnode_offset o what with Some n => read_nodes f (node_kids n) | None => Some [] end
  | None => None
  end.
Definition added_cpus (root : node) : option (list Z) :=
  add_nodes (fun k => fdtutil_read_u64 k (str "reg")) (str "cpu-add") root.
Definition added_memory (root : node) : option (list (Z * Z)) := add_nodes fdtutil_read_reg (str "memory-add") root.
Definition overlay_target (root : node) : option (list Z) :=
  match descend root [str "fragment@0"] with
  | Some f => match fdt_getprop f (str "target-path") with Some p => Some (cstr_of p) | None => None end
  | None => None
  end.

Lemma fits_builds r t : builds r t -> need (toks t) <= 4 * 1024 * 1024 -> exists b, r = Ok b /\ tree_of b = Some t.
Proof. unfold builds. intros B N. by rewrite (proj2 (Z.leb_le _ _) N) in B. Qed.

Lemma built_is r t b : builds r t -> r = Ok b -> tree_of b = Some t.
Proof. unfold builds. intros B ->. case_bool; [|done]. destruct B as (b' & [= <-] & T). done. Qed.

Lemma host_tree_found a ht :
  ia_host_tree a = Some ht -> descend (instance_tree a) host_tree_path = Some (host_node HOST_TREE_NODE ht).
Proof.
  intros E. unfold instance_tree. rewrite E. unfold overlay, host_tree_path. cbn [chosen_kids].
  generalize (if negb (zlen (ia_devices a) =? 0) then [device_add_frag 1 (instance_path (ia_name a)) (ia_devices a)] else []).
  generalize (if negb (zlen (ia_platform_devices a) =? 0)
              then [Node (str "devices") [] (map platform_node (ia_platform_devices a))] else []).
  intros l1 l2. reflexivity.
Qed.

(** C25: the host tree reaches the successor.  When the overlay that creates
    the successor's instance is built, the node it carries at
    [instance-create/chosen/multikernel,host-tree], exposed as a directory
    the way [/proc/device-tree] exposes it, is read back by
    [host_tree_read] with the CPUs, the memory ranges (although their files
    are read in name order) and the vmcore description that were given, and
    with the same devices in the order of their node names.  Of a device the
    ids and the class are read back and its IOMMU base is not: it comes back
    as 0, and is in the device's node for the kernel. *)
Theorem host_tree_travels `{AllocOk} a ht b dir :
  instance_ok a -> ia_host_tree a = Some ht -> dt_build_instance_create a = Ok b ->
  Z.of_nat (length dir) < 3000 ->
  exists root n ram ds,
    tree_of b = Some root /\ descend root host_tree_path = Some n /\
    @host_tree_read _ (TreeFiles dir n) dir
      = Ok (mk_host_tree (ht_cpus ht) ram (map no_iommu ds) (ht_vmcore ht)) /\
    rs_wf ram /\ rs_r ram = rs_r (ht_ram ht) /\
    ds ≡ₚ ht_devices ht /\ node_names ds = alphasort (node_names (ht_devices ht)) /\
    forall d, d ∈ ht_devices ht -> exists devices k,
      kid n (str "devices") = Some devices /\ kid devices (pci_node_name (pci_id d)) = Some k /\
      fdt_getprop k (str "multikernel,iommu-base") = if pci_iommu d =? 0 then None else Some (cpu_to_fdt64 (pci_iommu d)).
Proof.
  intros I E B L. unfold dt_build_instance_create in B. case_bool; [done|].
  pose proof (built_is _ _ _ (build_builds _ _ (emits_instance a I)) B) as T.
  assert (W : ht_wf ht) by (destruct I as [_ _ _ _ W]; by rewrite E in W).
  destruct (host_tree_read_back dir HOST_TREE_NODE ht L W) as (ram & ds & R & Wr & Er & P & N).
  exists (instance_tree a), (host_node HOST_TREE_NODE ht), ram, ds. split; [done|]. split; [by apply host_tree_found|].
  split_and!; try done. intros d D. by apply iommu_base_sent.
Qed.

Lemma read_cpu_nodes l : Forall is_u64 l -> read_nodes (fun k => fdtutil_read_u64 k (str "reg")) (map cpu_node l) = Some l.
Proof.
  induction 1 as [|x l X _ IH]; [done|]. cbn [map read_nodes]. rewrite IH.
  unfold fdtutil_read_u64. change (fdt_getprop (cpu_node x) (str "reg")) with (Some (cpu_to_fdt64 x)). cbv match.
  unfold zlen. unfold cpu_to_fdt64 at 1. rewrite be_length. change (negb (Z.of_nat 8 =? 8)) with false. cbv match.
  by rewrite cell64_of.
Qed.

Lemma read_reg_props n r :
  range_u64 r -> fdt_getprop n (str "reg") = Some (reg_cells r) -> fdtutil_read_reg n = Ok (r_base r, r_size r).
Proof.
  intros R E. unfold fdtutil_read_reg. rewrite E. by destruct (reg_cells_at r R) as (-> & -> & ->).
Qed.

Definition pairs (l : list range) : list (Z * Z) := map (fun r => (r_base r, r_size r)) l.

Lemma read_reg_nodes (t : Z -> range -> node) l k0 :
  (forall i r, fdt_getprop (t i r) (str "reg") = Some (reg_cells r)) -> Forall range_u64 l ->
  read_nodes fdtutil_read_reg (imap (fun k r => t (k0 + Z.of_nat k) r) l) = Some (pairs l).
Proof.
  intros P F. revert k0. induction F as [|r l R F IH]; intros k0; [done|]. cbn [imap read_nodes pairs map].
  rewrite (read_reg_props _ r) by done.
  replace (imap _ l) with (imap (fun k r => t (k0 + 1 + Z.of_nat k) r) l) by (apply imap_ext; intros; cbn; f_equal; lia).
  by rewrite IH.
Qed.

Lemma adopt_tree_target name cpus memory :
  cstring name -> overlay_target (adopt_tree name cpus memory) = Some (instance_path name).
Proof.
  intros C. unfold overlay_target. unfold adopt_tree.
  generalize ((if negb (zlen cpus =? 0) then [Node (str "cpu-add") [] (map cpu_node cpus)] else [])
     ++ (if negb (zlen (rs_r memory) =? 0)
         then [Node (str "memory-add") [] (imap (fun k r => memory_node (Z.of_nat k) r) (rs_r memory))] else [])).
  intros ks.
  change (descend (overlay [frag 0 (instance_path name) ks]) [str "fragment@0"]) with (Some (frag 0 (instance_path name) ks)).
  cbv match. change (fdt_getprop (frag 0 (instance_path name) ks) (str "target-path")) with (Some (zstr (instance_path name))).
  cbv match. f_equal. apply cstr_of_app. unfold instance_path, snprintf. cbn [Z.eqb]. apply Forall_take.
  apply Forall_app. split; [repeat constructor|]. apply Forall_app. split; [repeat constructor|done].
Qed.

(** An adopt overlay says exactly what is adopted.  With something to
    adopt that fits the 4 MiB a blob may take, [dt_build_adopt] returns an
    overlay aimed at the instance's path in which the kernel finds exactly
    the given CPU ids and exactly the given ranges; with nothing to adopt it
    returns [-EINVAL]. *)
Theorem dt_build_adopt_exact `{AllocOk} name cpus memory :
  cstring name -> Forall is_u64 cpus -> rs_wf memory ->
  if (zlen cpus =? 0) && (zlen (rs_r memory) =? 0) then dt_build_adopt name cpus memory = Err EINVAL
  else if need (toks (adopt_tree name cpus memory)) <=? 4 * 1024 * 1024
  then exists b root, dt_build_adopt name cpus memory = Ok b /\ tree_of b = Some root /\
         overlay_target root = Some (instance_path name) /\
         added_cpus root = Some cpus /\ added_memory root = Some (pairs (rs_r memory))
  else dt_build_adopt name cpus memory = Err ENOSPC.
Proof.
  intros C U [W _]. unfold dt_build_adopt. case_bool; [done|]. clear Heqb.
  pose proof (build_builds _ _ (emits_adopt name cpus memory)) as B. unfold builds in B.
  destruct (need (toks (adopt_tree name cpus memory)) <=? 4 * 1024 * 1024); [|done].
  destruct B as (b & -> & T). exists b, (adopt_tree name cpus memory). split; [done|]. split; [done|].
  split; [by apply adopt_tree_target|].
  assert (R : Forall range_u64 (rs_r memory)).
  { apply wf_from_ends in W. eapply Forall_impl; [exact W|]. unfold range_u64, is_u64. intros r ?. lia. }
  unfold added_cpus, added_memory, add_nodes, adopt_tree.
  pose proof (read_cpu_nodes cpus U) as Rc. pose proof (read_reg_nodes memory_node (rs_r memory) 0 ltac:(done) R) as Rm.
  destruct cpus as [|x cpus], (rs_r memory) as [|r rs].
  - done.
  - split; [done|]. exact Rm.
  - split; [exact Rc|done].
  - split; [exact Rc|exact Rm].
Qed.

(** A small machine: two CPUs, two ranges whose name order is not their
    address order, one device and a vmcore description. *)
Definition demo_ram : rangeset := Rangeset [Range 0x9000 0x1000; Range 0x10000 0x8000] 8.
Definition demo_host : host_tree :=
  mk_host_tree [0; 1] demo_ram [mk_pci (str "0000:00:03.0") 0x1af4 0x1041 0x020000 0xfed90000]
    (mk_vmcore true 0xffff888000000000 (Range 0x5000 0x1000) [Range 0x6000 0x400; Range 0 0]).
Definition demo_args : instance_args :=
  mk_instance (str "standby") [1] 0x40000000 [str "0000:00:03.0"] [str "serial8250"] (Some demo_host).
Definition demo_blob : fdt :=
  match @dt_build_instance_create alloc_always demo_args with Ok b => b | Err _ => fresh 0 end.

Lemma demo_wf : ht_wf demo_host.
Proof.
  constructor; cbn [demo_host ht_cpus ht_ram ht_devices ht_vmcore].
  - by repeat constructor.
  - done.
  - split; [cbn; lia|cbn; lia].
  - done.
  - constructor; [|constructor]. constructor; cbn [pci_id pci_vendor pci_device pci_class pci_iommu]; [|unfold is_u64; lia..].
    split; [repeat constructor|]. split; [cbn; lia|]. by apply no_slash_spec.
  - repeat constructor. apply not_elem_of_nil.
  - constructor; cbn [vi_has_page_offset vi_page_offset vi_vmcoreinfo vi_cpu_notes]; try done.
    repeat constructor; done.
Qed.

Lemma demo_ok : instance_ok demo_args.
Proof. constructor; try (by repeat constructor). apply demo_wf. Qed.

Lemma host_tree_travels_witness :
  exists root n ram ds,
    tree_of demo_blob = Some root /\ descend root host_tree_path = Some n /\
    @host_tree_read alloc_always (TreeFiles (str "/proc/device-tree/chosen/multikernel,host-tree") n)
        (str "/proc/device-tree/chosen/multikernel,host-tree")
      = Ok (mk_host_tree [0; 1] ram (map no_iommu ds) (ht_vmcore demo_host)) /\
    rs_r ram = rs_r demo_ram /\ ds ≡ₚ ht_devices demo_host.
Proof.
  destruct (host_tree_travels (H := alloc_always) demo_args demo_host demo_blob (str "/proc/device-tree/chosen/multikernel,host-tree"))
    as (root & n & ram & ds & T & D & R & _ & E & P & _); [apply demo_ok|reflexivity|vm_compute; reflexivity|reflexivity|].
  exists root, n, ram, ds. split; [exact T|]. split; [exact D|]. split; [exact R|]. split; [exact E|exact P].
Defined.

Lemma dt_build_adopt_exact_witness :
  exists b root, @dt_build_adopt alloc_always (str "standby") [0] demo_ram = Ok b /\ tree_of b = Some root /\
    overlay_target root = Some (str "/instances/standby") /\
    added_cpus root = Some [0] /\ added_memory root = Some [(0x9000, 0x1000); (0x10000, 0x8000)].
Proof.
  apply (dt_build_adopt_exact (H := alloc_always) (str "standby") [0] demo_ram);
    [repeat constructor|by repeat constructor|split; cbn; lia].
Defined.

(** *** The pool *)

(** What a baseline's memory nodes ask for: a claimed range or a size. *)
Definition chunk_request (k : node) : Z :=
  match fdtutil_read_reg k with
  | Ok (_, size) => size
  | Err _ => match fdtutil_read_u64 k (str "size") with Ok size => size | Err _ => 0 end
  end.
Definition requested (resources : node) : Z :=
  foldr Z.add 0 (map chunk_request (List.filter (fun k => starts (str "memory@") (node_name k)) (node_kids resources))).

Definition claim_size (o : option range) : Z := match o with Some c => r_size c | None => 0 end.

Lemma reg_chunk name r : range_u64 r -> chunk_request (memory_chunk name (str "reg", reg_cells r)) = r_size r.
Proof. intros R. unfold chunk_request. by rewrite (read_reg_props _ r). Qed.

Lemma size_chunk name v : is_u64 v -> chunk_request (memory_chunk name (str "size", cpu_to_fdt64 v)) = v.
Proof.
  intros V. unfold chunk_request, fdtutil_read_reg.
  change (fdt_getprop (memory_chunk name (str "size", cpu_to_fdt64 v)) (str "reg")) with (@None (list Z)). cbv match.
  unfold fdtutil_read_u64.
  change (fdt_getprop (memory_chunk name (str "size", cpu_to_fdt64 v)) (str "size")) with (Some (cpu_to_fdt64 v)). cbv match.
  unfold zlen. unfold cpu_to_fdt64 at 1. rewrite be_length. change (negb (Z.of_nat 8 =? 8)) with false. cbv match.
  by apply cell64_of.
Qed.

Lemma pool_grow_spec a :
  is_u64 (pa_memory_bytes a) -> match pa_claim a with Some c => range_u64 c | None => True end ->
  pool_grow a = Z.max 0 (pa_memory_bytes a - claim_size (pa_claim a)).
Proof.
  unfold pool_grow, claim_size, range_u64, is_u64. destruct (pa_claim a) as [c|]; [|lia].
  intros B (_ & S). destruct (Z.ltb_spec (r_size c) (pa_memory_bytes a)); [rewrite u64_small|]; lia.
Qed.

(** The pool baseline asks the kernel for exactly the memory wanted.  If
    it has CPUs and memory and a claim that is not empty, the tree that is
    built lists exactly the given CPUs and its memory nodes ask for
    [memory_bytes] in all, the claimed range first and only what is missing
    beyond it, never less than the claim; otherwise the builder returns
    [-EINVAL]. *)
Theorem dt_build_pool_baseline_asks `{AllocOk} a :
  pool_ok a -> Forall is_u64 (pa_cpus a) -> is_u64 (pa_memory_bytes a) ->
  match pa_claim a with Some c => range_u64 c | None => True end ->
  if (zlen (pa_cpus a) =? 0) || (pa_memory_bytes a =? 0)
     || match pa_claim a with Some c => r_size c =? 0 | None => false end
  then dt_build_pool_baseline a = Err EINVAL
  else if need (toks (pool_tree a)) <=? 4 * 1024 * 1024
  then exists b root res, dt_build_pool_baseline a = Ok b /\ tree_of b = Some root /\
         fdt_subnode_offset root (str "resources") = Some res /\
         fdtutil_read_cpulist res (str "cpus") = Ok (pa_cpus a) /\
         requested res = Z.max (pa_memory_bytes a) (claim_size (pa_claim a))
  else dt_build_pool_baseline a = Err ENOSPC.
Proof.
  intros P U M C. unfold dt_build_pool_baseline. case_bool; [done|]. clear Heqb.
  pose proof (build_builds _ _ (emits_pool a P)) as B. unfold builds in B.
  destruct (need (toks (pool_tree a)) <=? 4 * 1024 * 1024); [|done].
  destruct B as (b & -> & T). exists b, (pool_tree a). eexists. split; [done|]. split; [done|]. split; [reflexivity|].
  split; [by apply cells_to_cpulist_cells|].
  pose proof (pool_grow_spec a M C) as G. unfold requested. cbn [node_kids]. rewrite !List.filter_app, !map_app, !foldr_app.
  replace (List.filter _ (if negb (zlen (pa_devices a) =? 0) || _ then _ else [])) with (@nil node) by (by case_bool).
  cbn [map foldr]. destruct (Z.eqb_spec (pool_grow a) 0) as [E|E]; cbn [negb].
  - cbn [List.filter map foldr]. destruct (pa_claim a) as [c|]; cbn [claim_size] in *.
    + change (List.filter _ [?x]) with [x]. cbn [map foldr]. rewrite reg_chunk by done. lia.
    + cbn. lia.
  - unfold is_u64 in M. destruct (pa_claim a) as [c|]; cbn [claim_size] in *.
    + do 2 change (List.filter _ [?x]) with [x]. cbn [map foldr].
      rewrite reg_chunk, size_chunk by (done || (destruct C; unfold is_u64 in *; lia)). lia.
    + change (List.filter _ [?x]) with [x]. cbn [List.filter map foldr]. rewrite size_chunk by (unfold is_u64; lia). lia.
Qed.

Definition demo_pool : pool_args :=
  mk_pool [1; 2] 0x40000000 (Some (Range 0x100000000 0x10000000)) [] [str "serial8250"].

Lemma dt_build_pool_baseline_asks_witness :
  exists b root res, @dt_build_pool_baseline alloc_always demo_pool = Ok b /\ tree_of b = Some root /\
    fdt_subnode_offset root (str "resources") = Some res /\
    @fdtutil_read_cpulist alloc_always res (str "cpus") = Ok [1; 2] /\ requested res = 0x40000000.
Proof.
  apply (dt_build_pool_baseline_asks (H := alloc_always) demo_pool).
  - by constructor; repeat constructor.
  - by repeat constructor.
  - done.
  - done.
Defined.

(** Sizes of the chunks under [resources], of the instances' memory. *)
Definition chunk_size (k : node) : Z :=
  if starts (str "memory@") (node_name k) then match fdtutil_read_reg k with Ok (_, s) => s | Err _ => 0 end else 0.
Definition instance_size (k : node) : Z :=
  match fdt_subnode_offset k (str "resources") with
  | Some res => match fdtutil_read_u64 res (str "memory-bytes") with Ok b => b | Err _ => 0 end
  | None => 0
  end.
Definition sum (l : list Z) : Z := foldr Z.add 0 l.

Lemma foldl_u64_sum (g : node -> Z) step l acc :
  (forall t k, u64 (step t k) = u64 (t + g k)) -> u64 (foldl step acc l) = u64 (acc + sum (map g l)).
Proof.
  intros S. revert acc. induction l as [|k l IH]; intros acc; cbn [foldl map sum foldr]; [f_equal; lia|].
  rewrite IH. unfold u64 in *. rewrite <- Zplus_mod_idemp_l, S, Zplus_mod_idemp_l. f_equal. unfold sum. lia.
Qed.

Lemma u64_idem x : u64 (u64 x) = u64 x.
Proof. unfold u64. by rewrite Zmod_mod. Qed.

Lemma foldl_u64_range (step : Z -> node -> Z) l acc :
  (forall t k, is_u64 t -> is_u64 (step t k)) -> is_u64 acc -> is_u64 (foldl step acc l).
Proof. intros S. revert acc. induction l as [|k l IH]; intros acc A; cbn [foldl]; [done|]. by apply IH, S. Qed.

Lemma sum_chunks_spec res : sum_chunks res = u64 (sum (map chunk_size (node_kids res))).
Proof.
  unfold sum_chunks. rewrite <- (u64_small (foldl sum_chunk 0 (node_kids res))).
  - rewrite (foldl_u64_sum chunk_size); [done|]. intros t k. unfold sum_chunk, chunk_size.
    case_bool; [|f_equal; lia]. destruct (fdtutil_read_reg k) as [[b s]|]; [apply u64_idem|f_equal; lia].
  - apply foldl_u64_range; [|done]. intros t k T. unfold sum_chunk. case_bool; [|done].
    destruct (fdtutil_read_reg k) as [[b s]|]; [apply u64_range|done].
Qed.

Definition instance_sizes (root : node) : list Z :=
  match fdt_subnode_offset root (str "instances") with Some i => map instance_size (node_kids i) | None => [] end.

Lemma sum_instances_spec root : sum_instance_memory root = u64 (sum (instance_sizes root)).
Proof.
  unfold sum_instance_memory, instance_sizes. destruct (fdt_subnode_offset root _) as [i|]; [|done].
  rewrite <- (u64_small (foldl sum_instance 0 (node_kids i))).
  - rewrite (foldl_u64_sum instance_size); [done|]. intros t k. unfold sum_instance, instance_size.
    destruct (fdt_subnode_offset k _) as [r|]; [|f_equal; lia].
    destruct (fdtutil_read_u64 r _); [apply u64_idem|f_equal; lia].
  - apply foldl_u64_range; [|done]. intros t k T. unfold sum_instance.
    destruct (fdt_subnode_offset k _) as [r|]; [|done]. destruct (fdtutil_read_u64 r _); [apply u64_range|done].
Qed.

Section Collect.
Context `{AllocOk}.

Lemma strlist_push_ok l s : strlist_push l s = Ok (l ++ [s]).
Proof. unfold strlist_push. by rewrite !alloc_ok. Qed.

Lemma collect_functions_err d ks out e : collect_functions d ks out = Err e -> e = EINVAL.
Proof.
  revert out. induction ks as [|k ks IH]; intros out; cbn [collect_functions]; [done|].
  destruct (fdt_getprop k _); [|apply IH]. destruct (fdt_getprop k _); [|congruence].
  case_bool; [congruence|]. rewrite strlist_push_ok. apply IH.
Qed.

Lemma collect_bridges_err ks out e : collect_bridges ks out = Err e -> e = EINVAL.
Proof.
  revert out. induction ks as [|k ks IH]; intros out; cbn [collect_bridges]; [done|]. case_bool; [|apply IH].
  destruct (collect_pci_functions k out) eqn:E; [apply IH|]. intros [= <-]. by apply collect_functions_err in E.
Qed.

Lemma collect_platform_ok ks out : exists o, collect_platform ks out = Ok o.
Proof.
  revert out. induction ks as [|k ks IH]; intros out; cbn [collect_platform]; [eauto|].
  destruct (fdt_getprop k _); [|apply IH]. case_bool; [|apply IH]. rewrite strlist_push_ok. apply IH.
Qed.

Lemma collect_platform_devices_ok res out : exists o, collect_platform_devices res out = Ok o.
Proof. unfold collect_platform_devices. destruct (fdt_subnode_offset _ _); [apply collect_platform_ok|eauto]. Qed.

Lemma free_cpus_err res e : fdtutil_read_cpulist res (str "cpus-available") = Err e -> e = ENOENT \/ e = EINVAL.
Proof.
  unfold fdtutil_read_cpulist, fdtutil_cells_to_cpulist. destruct (fdt_getprop _ _); [|intros [= <-]; by left].
  cbv zeta. case_bool; [intros [= <-]; by right|]. rewrite alloc_ok. cbn [negb]. by rewrite andb_false_r.
Qed.

End Collect.

(** What [dt_read_pool] reports of the pool.  When the chunks and the
    instances' memory each sum below 2^64, a view that is returned has as
    total the sum of the chunks, which is not zero, and as free what the
    instances leave of it, 0 when they hold more; a tree whose chunks sum to
    zero is no pool and gives [-ENOENT]. *)
Theorem dt_read_pool_accounts `{AllocOk} f len root res :
  fdtutil_check f len = Ok tt -> tree_of f = Some root -> fdt_subnode_offset root (str "resources") = Some res ->
  0 <= sum (map chunk_size (node_kids res)) < two64 -> 0 <= sum (instance_sizes root) < two64 ->
  match dt_read_pool f len with
  | Ok v => pv_total_bytes v = sum (map chunk_size (node_kids res)) /\ 0 < pv_total_bytes v /\
            pv_free_bytes v = Z.max 0 (pv_total_bytes v - sum (instance_sizes root))
  | Err e => e = EINVAL \/ (e = ENOENT /\ sum (map chunk_size (node_kids res)) = 0)
  end.
Proof.
  intros C T R S U. unfold dt_read_pool. rewrite C, T. unfold read_pool_tree. rewrite R.
  rewrite sum_chunks_spec, sum_instances_spec, !(u64_small (sum _)) by done. cbv zeta.
  destruct (match fdtutil_read_cpulist _ _ with Ok l => Ok l | Err e => _ end) as [cpus|e] eqn:Ec.
  2: { left. destruct (fdtutil_read_cpulist _ _) as [|e'] eqn:E; [done|]. apply free_cpus_err in E as [-> | ->]; [done|].
       by injection Ec as <-. }
  destruct (Z.eqb_spec (sum (map chunk_size (node_kids res))) 0); [by right|].
  destruct (collect_pool_pci root []) eqn:Ep; [|left; by apply collect_bridges_err in Ep].
  destruct (collect_platform_devices_ok res []) as (o & ->). cbn [pv_total_bytes pv_free_bytes].
  split; [done|]. split; [lia|].
  destruct (Z.ltb_spec (sum (instance_sizes root)) (sum (map chunk_size (node_kids res)))); [rewrite u64_small|]; lia.
Qed.

(** A kernel's tree: 3 GiB in two chunks, 1 GiB of it an instance's. *)
Definition demo_root : node :=
  Node [] []
    [Node (str "resources") [(str "cpus-available", cells64 [2; 3])]
       [Node (str "memory@0") [(str "reg", reg_cells (Range 0x100000000 0x40000000))] [];
        Node (str "memory@1") [(str "reg", reg_cells (Range 0x200000000 0x80000000))] []];
     Node (str "instances") []
       [Node (str "standby") [] [Node (str "resources") [(str "memory-bytes", cpu_to_fdt64 0x40000000)] []]]].
Fixpoint emit_tree (fuel : nat) (t : node) (f : fdt) : result fdt :=
  match fuel with
  | O => Ok f
  | S fuel =>
      let? f := fdt_begin_node f (node_name t) in
      let? f := each (fun _ p f => fdt_property f p.1 p.2) 0 (node_props t) f in
      let? f := each (fun _ k f => emit_tree fuel k f) 0 (node_kids t) f in
      fdt_end_node f
  end.
Definition demo_pool_blob : fdt :=
  match @fdtutil_build alloc_always (emit_tree 5 demo_root) with Ok b => b | Err _ => fresh 0 end.

Lemma dt_read_pool_accounts_witness :
  match @dt_read_pool alloc_always demo_pool_blob (fdt_totalsize demo_pool_blob) with
  | Ok v => pv_total_bytes v = 0xc0000000 /\ 0 < pv_total_bytes v /\
            pv_free_bytes v = Z.max 0 (pv_total_bytes v - 0x40000000)
  | Err e => e = EINVAL \/ (e = ENOENT /\ 0xc0000000 = 0)
  end.
Proof.
  apply (dt_read_pool_accounts (H := alloc_always) demo_pool_blob (fdt_totalsize demo_pool_blob) demo_root
           (match node_kids demo_root with r :: _ => r | [] => demo_root end)).
  - vm_compute. reflexivity.
  - vm_compute. reflexivity.
  - vm_compute. reflexivity.
  - split; vm_compute; [discriminate|reflexivity].
  - split; vm_compute; [discriminate|reflexivity].
Defined.
