(* ===== verification/Machine.v ===== *)
(** * The machine the daemon acts on

    The state of the kernel and the hardware is the history of what was done
    to it: every file written, overlay handed over, register set and fence
    issued, each with what came of it.  A [machine] answers from that
    history, so the theorems hold for every kernel that could answer so. *)

From S2P Require Import Prelude Cstr Ranges Files Fdt.

Inductive action : Type :=
| AWrite (path data : list Z) (ret : result unit)
| AOverlay (path : list Z) (dtbo : fdt) (ret : result unit)
| ACommand (path : list Z) (cmd : Z * Z) (done : bool)
| AFence (mk_id : Z) (ret : result unit)
| ANetwork
| ADump (path : list Z) (memory : rangeset) (ret : result unit)
| AUnlink (path : list Z)
| ALoad (id : Z) (cmdline : option (list Z)) (initrd : list Z) (ret : result unit)
| AExec (id : Z) (ret : result unit)
| AHalt (id : Z) (ret : result unit)
| AUnload (id : Z) (ret : result unit)
| ASync
| AFreeze (path : list Z) (ret : result unit)
| AThaw (path : list Z) (ret : result unit)
| ARequest (cid : Z) (request : list Z) (reply : result (list Z))
| ASleep (seconds : Z).

Definition history : Type := list action.

Record machine : Type := {
  (** what files and directories hold *)
  mc_files : history -> Files;
  (** [access(path, F_OK) == 0] *)
  mc_exists : history -> list Z -> bool;
  (** [file_write] and the write of a sysfs attribute *)
  mc_write : history -> list Z -> list Z -> result unit;
  (** [file_write] of a device tree blob *)
  mc_overlay : history -> list Z -> fdt -> result unit;
  (** [file_read] of a device tree blob: the blob and the file's length *)
  mc_tree : history -> list Z -> result (fdt * Z);
  (** a function's command register: [open]'s error, a short read, or its bytes *)
  mc_command : history -> list Z -> result (option (Z * Z));
  mc_set_command : history -> list Z -> Z * Z -> bool;
  mc_fence : history -> Z -> result unit;
  (** whether a forked child could be started, whether it still runs with so
      many steps of the schedule left, and who takes the next step *)
  mc_fork : history -> list Z -> bool;
  mc_alive : history -> nat -> list Z -> bool;
  mc_schedule : history -> nat -> nat;
  (** lib/netsnap.c's [netsnap_apply]: how many links and which came back *)
  mc_network : history -> Z * list bool;
  (** lib/dump.c's [dump_vmcore] *)
  mc_dump : history -> list Z -> rangeset -> result unit
}.

Section Machine.
Context (m : machine).

Definition sys_write (path data : list Z) (h : history) : result unit * history :=
  let ret := mc_write m h path data in (ret, h ++ [AWrite path data ret]).
Definition sys_overlay (path : list Z) (b : fdt) (h : history) : result unit * history :=
  let ret := mc_overlay m h path b in (ret, h ++ [AOverlay path b ret]).
Definition sys_fence (id : Z) (h : history) : result unit * history :=
  let ret := mc_fence m h id in (ret, h ++ [AFence id ret]).

Definition sys_read (path : list Z) (h : history) : result (list Z) := @file_read (mc_files m h) path.
Definition sys_read_string (path : list Z) (h : history) : result (list Z) := @file_read_string (mc_files m h) path.
Definition sys_list (path : list Z) (h : history) : result (list (list Z)) := @dir_list (mc_files m h) path.

End Machine.

(** ** What an operation adds to the history *)

Definition ext (Q : action -> Prop) (h h' : history) : Prop := exists new, h' = h ++ new /\ Forall Q new.

#[export] Instance ext_refl Q : Reflexive (ext Q).
Proof. intros h. exists []. by rewrite app_nil_r. Qed.
#[export] Instance ext_trans Q : Transitive (ext Q).
Proof.
  intros h1 h2 h3 (a & -> & A) (b & -> & B). exists (a ++ b). split; [by rewrite app_assoc|]. by apply Forall_app.
Qed.

Lemma ext_one (Q : action -> Prop) h a : Q a -> ext Q h (h ++ [a]).
Proof. intros A. exists [a]. split; [done|]. by repeat constructor. Qed.

Lemma ext_weaken (Q Q' : action -> Prop) h h' : (forall a, Q a -> Q' a) -> ext Q h h' -> ext Q' h h'.
Proof. intros W (new & -> & F). exists new. split; [done|]. by eapply Forall_impl. Qed.
