(* ===== verification/Mkfs.v ===== *)
(** * lib/mkfs.c: the multikernel filesystem

    [struct mkfs] is its root path.  An overlay is written, the transaction
    the kernel made for it is the one with the highest number, and its
    status file says whether it was applied. *)

From S2P Require Import Prelude Cstr Scanf Files Fdt HostTree Machine.

Section Mkfs.
Context (m : machine).

Definition mkfs_path (root rel : list Z) : list Z := snprintf [] PATH_MAX (root ++ slash ++ rel).

(** [strtol]; the [long] of a directory name is kept in an [int]. *)
Definition to_int (v : Z) : Z := let w := u32 v in if 2 ^ 31 <=? w then w - 2 ^ 32 else w.

(** The transaction number of a name, if it is one. *)
Definition tx_number (name : list Z) : option Z :=
  if negb (starts (str "tx_") name) || negb (isdigit (cn name 3)) then None else
  let '(id, e) := strtoll (drop 3 name) in
  if c0 e =? 0 then Some id else None.

Definition latest_step (latest : Z) (name : list Z) : Z :=
  match tx_number name with
  | Some id => if latest <? id then to_int id else latest
  | None => latest
  end.

Definition mkfs_latest_tx (root : list Z) (h : history) : Z :=
  match sys_list m (mkfs_path root (str "overlays")) h with
  | Err e => - e
  | Ok names => foldl latest_step (-1) names
  end.

(** The result, and the transaction. *)
Definition mkfs_apply_overlay (root : list Z) (dtbo : fdt) (h : history) : result unit * Z * history :=
  match sys_overlay m (mkfs_path root (str "overlays/new")) dtbo h with
  | (Err e, h) => (Err e, -1, h)
  | (Ok _, h) =>
      let tx := mkfs_latest_tx root h in
      if tx <? 0 then (Err EIO, -1, h) else
      let rel := snprintf [] 64 (str "overlays/tx_" ++ dec_int tx ++ str "/status") in
      match sys_read_string m (mkfs_path root rel) h with
      | Err e => (Err e, tx, h)
      | Ok status => (if streq status (str "applied") then Ok tt else Err EIO, tx, h)
      end
  end.

Definition mkfs_write_baseline (root : list Z) (dtb : fdt) (h : history) : result unit * history :=
  sys_overlay m (mkfs_path root (str "device_tree")) dtb h.

Definition mkfs_read_root_tree (root : list Z) (h : history) : result (fdt * Z) :=
  mc_tree m h (mkfs_path root (str "device_tree")).

Definition mkfs_instance_id (root name : list Z) (h : history) : result Z :=
  let rel := snprintf [] (NAME_MAX + 32) (str "instances/" ++ name ++ str "/id") in
  @file_read_u32 (mc_files m h) (mkfs_path root rel).

Definition mkfs_instance_status (root name : list Z) (len : Z) (h : history) : result (list Z) :=
  let rel := snprintf [] (NAME_MAX + 32) (str "instances/" ++ name ++ str "/status") in
  let? status := sys_read_string m (mkfs_path root rel) h in
  Ok (snprintf [] len status).

(** Whether the instance counts as another kernel that runs. *)
Definition runs_beside (root name entry : list Z) (h : history) : bool :=
  if (c0 entry =? ch ".") || streq entry name then false else
  match mkfs_instance_id root entry h with
  | Err _ => false
  | Ok id =>
      if id =? 0 then false else
      match mkfs_instance_status root entry 32 h with
      | Err _ => false
      | Ok status => streq status (str "active")
      end
  end.

(** 1 and the name, 0, or an error *)
Definition mkfs_other_running (root name : list Z) (len : Z) (h : history) : result (option (list Z)) :=
  let? entries := sys_list m (mkfs_path root (str "instances")) h in
  match List.find (fun e => runs_beside root name e h) entries with
  | Some e => Ok (Some (snprintf [] len e))
  | None => Ok None
  end.

End Mkfs.
