(* ===== verification/Pci.v ===== *)
(** * lib/pci.c: PCI functions in sysfs *)

From S2P Require Import Prelude Cstr Scanf Files Fdt HostTree Machine.

(** ** Identifiers *)

(** [%<n>x]: at most [n] characters *)
Definition scan_hex_n (n : nat) (s : list Z) : option (Z * list Z) :=
  let t := skip_space s in
  let w := take n t in
  let '(v, rest, _) := strtoull 16 w in
  if bool_decide (rest = w) then None else Some (u32 v, rest ++ drop n t).

(** [strlen(id) == 12 && sscanf(id, "%4x:%2x:%2x.%1x%c", ...) == 4] *)
Definition pci_id_valid (id : list Z) : bool :=
  (zlen id =? 12) &&
  match '(_, s) ← scan_hex_n 4 id; s ← scan_lit (str ":") s; '(_, s) ← scan_hex_n 2 s; s ← scan_lit (str ":") s;
        '(_, s) ← scan_hex_n 2 s; s ← scan_lit (str ".") s; '(_, s) ← scan_hex_n 1 s; Some s with
  | Some [] => true
  | _ => false
  end.

(** ** Reading *)

Section Read.
Context `{Alloc} `{Files}.

Definition read_hex_attr (sysfs_root id attr : list Z) : result Z :=
  let? text := file_read_string (snprintf [] PATH_MAX (sysfs_root ++ slash ++ id ++ slash ++ attr)) in
  let '(v, e, _) := strtoull 16 text in
  if c0 e =? 0 then Ok (u32 v) else Err EINVAL.

Definition read_iommu (sysfs_root id : list Z) : Z :=
  match file_read_string (snprintf [] PATH_MAX (sysfs_root ++ slash ++ id ++ str "/iommu/intel-iommu/address")) with
  | Err _ => 0
  | Ok text => let '(v, e, _) := strtoull 16 text in if c0 e =? 0 then v else 0
  end.

Definition pci_read_ids (sysfs_root id : list Z) : result pci_ids :=
  if negb (pci_id_valid id) then Err EINVAL else
  let? vendor := read_hex_attr sysfs_root id (str "vendor") in
  let? device := read_hex_attr sysfs_root id (str "device") in
  let? class := read_hex_attr sysfs_root id (str "class") in
  Ok (mk_pci (snprintf [] 16 id) vendor device class (read_iommu sysfs_root id)).

Fixpoint read_each_ids (sysfs_root : list Z) (names : list (list Z)) (out : pci_list) : result pci_list :=
  match names with
  | [] => Ok out
  | n :: names => let? d := pci_read_ids sysfs_root n in read_each_ids sysfs_root names (out ++ [d])
  end.

Definition pci_list_all (sysfs_root : list Z) : result pci_list :=
  let? entries := dir_list sysfs_root in
  let names := alphasort (List.filter pci_id_valid entries) in
  if negb (alloc ((zlen names + 1) * 40)) then Err ENOMEM else read_each_ids sysfs_root names [].

End Read.

Definition pci_is_bridge (d : pci_ids) : bool := Z.shiftr (pci_class d) 16 =? 6.

(** ** Acting on the bus *)

Section Bus.
Context (m : machine).

Definition pci_set_autoprobe (bus : list Z) (on : bool) (h : history) : result unit * history :=
  sys_write m (snprintf [] PATH_MAX (bus ++ str "/drivers_autoprobe")) (if on then str "1" else str "0") h.

Definition pci_probe_driver (bus id : list Z) (h : history) : result unit * history :=
  sys_write m (snprintf [] PATH_MAX (bus ++ str "/drivers_probe")) id h.

Definition pci_reset_function (bus id : list Z) (h : history) : result unit * history :=
  sys_write m (snprintf [] PATH_MAX (bus ++ str "/devices/" ++ id ++ str "/reset")) (str "1") h.

Definition PCI_COMMAND_MASTER : Z := 4.

Definition config_path (bus id : list Z) : list Z :=
  snprintf [] PATH_MAX (bus ++ str "/devices/" ++ id ++ str "/config").

Definition pci_clear_bus_master (bus id : list Z) (h : history) : result unit * history :=
  let path := config_path bus id in
  match mc_command m h path with
  | Err e => (Err e, h)
  | Ok None => (Err EIO, h)
  | Ok (Some (lo, hi)) =>
      if negb (Z.land lo PCI_COMMAND_MASTER =? 0) then
        let cmd := (Z.land lo (Z.lnot PCI_COMMAND_MASTER), hi) in
        let done := mc_set_command m h path cmd in
        (if done then Ok tt else Err EIO, h ++ [ACommand path cmd done])
      else (Ok tt, h)
  end.

End Bus.
