(* ===== verification/Reset.v ===== *)
(** * kmorphd/ops.c: resetting the devices side by side

    [reset_devices] forks a child per function of the predecessor and then
    waits for them all; where no child can be had the daemon resets the
    function itself before it goes on to the next.  A task here is one
    function; its steps are the system calls of [reset_device] and the exit,
    and a schedule the machine chooses interleaves the children with each
    other and with the daemon.  A child may die before any of its steps.

    Shown: whatever the schedule, every task ends; a task left alone does
    what [reset_device] does; and if no function is counted as live, each has
    left evidence in the history that it runs no DMA. *)

From S2P Require Import Prelude Cstr Ranges Files Fdt HostTree Machine Pci.

Inductive reset_outcome : Type := DEVICE_RESET | DEVICE_QUIESCED | DEVICE_LIVE.

(** How many devices had each outcome. *)
Record counts : Type := mk_counts { n_reset : Z; n_quiesced : Z; n_live : Z }.
Definition count (c : counts) (o : reset_outcome) : counts :=
  match o with
  | DEVICE_RESET => mk_counts (n_reset c + 1) (n_quiesced c) (n_live c)
  | DEVICE_QUIESCED => mk_counts (n_reset c) (n_quiesced c + 1) (n_live c)
  | DEVICE_LIVE => mk_counts (n_reset c) (n_quiesced c) (n_live c + 1)
  end.

(** Where in [reset_device] a process is: before the reset, before the read
    of the command register, before the write of it, or before the exit. *)
Inductive stage : Type := SReset | SRead | SClear (cmd : Z * Z) | SExit (o : reset_outcome).

(** A function not reached, being reset by a child or by the daemon itself,
    or done; a child that did not exit by itself left it live. *)
Inductive status : Type := Waiting | Running (child : bool) (s : stage) | Done (o : reset_outcome).
Abbreviation task := (list Z * status)%type (only parsing).

Definition is_waiting (t : task) : bool := match t.2 with Waiting => true | _ => false end.
Definition is_inline (t : task) : bool := match t.2 with Running false _ => true | _ => false end.
Definition is_done (t : task) : bool := match t.2 with Done _ => true | _ => false end.

(** The daemon reaches the functions in order, one at a time. *)
Definition runnable (ts : list task) (i : nat) : bool :=
  match ts !! i with
  | Some (_, Running _ _) => true
  | Some (_, Waiting) => negb (existsb is_inline ts) && negb (existsb is_waiting (take i ts))
  | _ => false
  end.
Definition choices (ts : list task) : list nat := List.filter (runnable ts) (seq 0 (length ts)).

Section Reset.
Context `{Alloc} (m : machine).

Definition reset_device (bus id : list Z) (reset : bool) (h : history) : reset_outcome * history :=
  let '(ret, h) := if reset then pci_reset_function m bus id h else (Err ENOENT, h) in
  match ret with
  | Ok _ => (DEVICE_RESET, h)
  | Err _ =>
      match pci_clear_bus_master m bus id h with
      | (Ok _, h) => (DEVICE_QUIESCED, h)
      | (Err _, h) => (DEVICE_LIVE, h)
      end
  end.

(** One system call of [reset_device]. *)
Definition stage_step (bus id : list Z) (reset : bool) (s : stage) (h : history) : stage * history :=
  let path := config_path bus id in
  match s with
  | SReset =>
      if reset then match pci_reset_function m bus id h with (Ok _, h) => (SExit DEVICE_RESET, h) | (Err _, h) => (SRead, h) end
      else (SRead, h)
  | SRead =>
      match mc_command m h path with
      | Ok (Some (lo, hi)) =>
          if negb (Z.land lo PCI_COMMAND_MASTER =? 0) then (SClear (Z.land lo (Z.lnot PCI_COMMAND_MASTER), hi), h)
          else (SExit DEVICE_QUIESCED, h)
      | _ => (SExit DEVICE_LIVE, h)
      end
  | SClear cmd =>
      let done := mc_set_command m h path cmd in
      (SExit (if done then DEVICE_QUIESCED else DEVICE_LIVE), h ++ [ACommand path cmd done])
  | SExit o => (SExit o, h)
  end.

(** A step of one task; [n] rounds are left of the schedule. *)
Definition advance (bus : list Z) (reset pids : bool) (n : nat) (id : list Z) (st : status) (h : history) : status * history :=
  match st with
  | Waiting => (Running (pids && mc_fork m h id) SReset, h)
  | Running child s =>
      if child && negb (mc_alive m h n id) then (Done DEVICE_LIVE, h) else
      match s with
      | SExit o => (Done o, h)
      | _ => let '(s, h) := stage_step bus id reset s h in (Running child s, h)
      end
  | Done o => (Done o, h)
  end.

Fixpoint reset_loop (fuel : nat) (bus : list Z) (reset pids : bool) (ts : list task) (h : history) : list task * history :=
  match fuel with
  | O => (ts, h)
  | S n =>
      match choices ts !! (mc_schedule m h n mod length (choices ts))%nat with
      | None => (ts, h)
      | Some i =>
          match ts !! i with
          | None => (ts, h)
          | Some (id, st) => let '(st, h) := advance bus reset pids n id st h in reset_loop n bus reset pids (<[i:=(id, st)]> ts) h
          end
      end
  end.

(** [waitpid] for every child, and what the daemon did itself. *)
Definition outcome (st : status) : reset_outcome := match st with Done o => o | _ => DEVICE_LIVE end.
Definition tally (ts : list task) : counts := foldl (fun c t => count c (outcome t.2)) (mk_counts 0 0 0) ts.

(** At most five steps for a function ([reset_loop_ends]). *)
Definition reset_devices (bus : list Z) (ids : list (list Z)) (reset : bool) (h : history) : counts * history :=
  let pids := alloc ((zlen ids + 1) * 4) in
  let '(ts, h) := reset_loop (5 * length ids) bus reset pids (map (fun id => (id, Waiting)) ids) h in
  (tally ts, h).

End Reset.

(** ** The steps are those of the function *)

Definition alone (m : machine) (bus id : list Z) (reset : bool) (fuel : nat) (sh : stage * history) : stage * history :=
  Nat.iter fuel (fun '(s, h) => stage_step m bus id reset s h) sh.

(** Undisturbed, a task does what [reset_device] does. *)
Lemma alone_reset_device m bus id reset h :
  alone m bus id reset 3 (SReset, h) = (SExit (reset_device m bus id reset h).1, (reset_device m bus id reset h).2).
Proof.
  assert (C : forall h, (let '(s, h) := stage_step m bus id reset SRead h in stage_step m bus id reset s h)
    = match pci_clear_bus_master m bus id h with (Ok _, h) => (SExit DEVICE_QUIESCED, h) | (Err _, h) => (SExit DEVICE_LIVE, h) end).
  { intros h1. cbn [stage_step]. unfold pci_clear_bus_master. cbv zeta. destruct (mc_command m h1 _) as [[[lo hi]|]|]; [|done..].
    destruct (negb _); [|done]. cbn [stage_step]. by destruct (mc_set_command m h1 _ _). }
  unfold alone, reset_device. cbn [Nat.iter nat_rect]. change (stage_step m bus id reset SReset h) with
    (if reset then match pci_reset_function m bus id h with (Ok _, h) => (SExit DEVICE_RESET, h) | (Err _, h) => (SRead, h) end else (SRead, h)).
  destruct reset; [destruct (pci_reset_function m bus id h) as [[] h1]; [done|]|];
    rewrite C; by destruct (pci_clear_bus_master m bus id _) as [[] ?].
Qed.

(** ** Every schedule ends with every function done *)

Definition weight (t : task) : nat :=
  match t.2 with Waiting => 5 | Running _ SReset => 4 | Running _ SRead => 3 | Running _ (SClear _) => 2 | Running _ (SExit _) => 1 | Done _ => 0 end.
Definition weights (ts : list task) : nat := sum_list_with weight ts.

Lemma weights_insert ts i t u : ts !! i = Some t -> (weights (<[i:=u]> ts) + weight t = weights ts + weight u)%nat.
Proof.
  unfold weights. revert i. induction ts as [|x ts IH]; intros [|i] E; [done..|injection E as ->|]; cbn [list_insert insert sum_list_with]; [lia|].
  rewrite <- !Nat.add_assoc. f_equal. exact (IH i E).
Qed.

Lemma advance_lighter m bus reset pids n id st h : st <> Done (outcome st) -> (weight (id, (advance m bus reset pids n id st h).1) < weight (id, st))%nat.
Proof.
  destruct st as [|child s|o]; intros D; [cbn; lia| |done]. cbn [advance]. case_bool; [destruct s; cbn; lia|].
  destruct s as [| |cmd|o]; cbn [stage_step]; [..|cbn; lia].
  - destruct reset; [|cbn; lia]. destruct (pci_reset_function m bus id h) as [[]]; cbn; lia.
  - destruct (mc_command m h _) as [[[lo hi]|]|]; [|cbn; lia..]. destruct (Z.land lo PCI_COMMAND_MASTER =? 0); cbn; lia.
  - cbn. lia.
Qed.

Lemma choices_in ts i : i ∈ choices ts <-> (i < length ts)%nat /\ runnable ts i = true.
Proof. unfold choices. rewrite list_elem_of_In, filter_In, in_seq. intuition lia. Qed.

Lemma runnable_pending ts i : runnable ts i = true -> exists id st, ts !! i = Some (id, st) /\ st <> Done (outcome st).
Proof. unfold runnable. destruct (ts !! i) as [[id [| |]]|]; intros R; try done; eexists _, _; (split; [reflexivity|done]). Qed.

(** Somebody can go on as long as somebody is not done. *)
Lemma someone_runs ts : existsb (fun t => negb (is_done t)) ts = true -> choices ts <> [].
Proof.
  intros P C. assert (N : forall i, (i < length ts)%nat -> runnable ts i = false).
  { intros i I. destruct (runnable ts i) eqn:R; [|done]. assert (X : i ∈ choices ts) by (by apply choices_in). rewrite C in X. by apply elem_of_nil in X. }
  assert (NR : forall i id c s, ts !! i <> Some (id, Running c s)).
  { intros i id c s E. specialize (N i (lookup_lt_Some _ _ _ E)). unfold runnable in N. by rewrite E in N. }
  assert (I0 : existsb is_inline ts = false).
  { apply not_true_iff_false. intros X. apply existsb_exists in X as ([id st] & X & Y). apply list_elem_of_In, list_elem_of_lookup in X as [i X].
    unfold is_inline in Y. cbn in Y. destruct st as [|c s|]; try done. by apply NR in X. }
  destruct (list_find (fun t => is_waiting t = true) ts) as [[i [id st]]|] eqn:L.
  - apply list_find_Some in L as (E & W & B). specialize (N i (lookup_lt_Some _ _ _ E)). unfold runnable in N. rewrite E in N. destruct st; try done.
    rewrite I0 in N. cbn [negb andb] in N. apply negb_false_iff, existsb_exists in N as (u & X & Y). apply list_elem_of_In, list_elem_of_lookup in X as [j X].
    apply lookup_take_Some in X as [X J]. by apply (B j u X J).
  - apply list_find_None in L. rewrite Forall_forall in L. apply existsb_exists in P as ([id st] & X & Y). apply list_elem_of_In in X.
    destruct st as [|c s|o]; [by apply (L _ X)| |done]. apply list_elem_of_lookup in X as [i X]. by apply NR in X.
Qed.

Lemma schedule_picks (cs : list nat) k : cs <> [] -> exists i, cs !! (k mod length cs)%nat = Some i /\ i ∈ cs.
Proof.
  intros N. assert (L : (k mod length cs < length cs)%nat) by (apply Nat.mod_upper_bound; by destruct cs).
  destruct (lookup_lt_is_Some_2 cs _ L) as [i E]. exists i. split; [done|]. by eapply list_elem_of_lookup_2.
Qed.

(** What the loop does to a property of the tasks and the history. *)
Lemma reset_loop_inv m bus reset pids (P : list task -> history -> Prop) :
  (forall n ts h i id st, P ts h -> ts !! i = Some (id, st) -> let '(st', h') := advance m bus reset pids n id st h in P (<[i:=(id, st')]> ts) h') ->
  forall fuel ts h, P ts h -> P (reset_loop m fuel bus reset pids ts h).1 (reset_loop m fuel bus reset pids ts h).2.
Proof.
  intros S fuel. induction fuel as [|n IH]; intros ts h H; cbn [reset_loop]; [done|].
  destruct (choices ts !! _) as [i|]; [|done]. destruct (ts !! i) as [[id st]|] eqn:E; [|done].
  pose proof (S n ts h i id st H E) as X. destruct (advance m bus reset pids n id st h) as [st' h']. by apply IH.
Qed.

Lemma reset_loop_ends m bus reset pids fuel ts h : (weights ts <= fuel)%nat -> Forall (fun t => is_done t = true) (reset_loop m fuel bus reset pids ts h).1.
Proof.
  revert ts h. induction fuel as [|n IH]; intros ts h W; cbn [reset_loop].
  { apply Forall_forall. intros [id st] X. apply list_elem_of_lookup in X as [i X]. destruct st as [|c s|o]; [| |done]; exfalso;
      [pose proof (weights_insert ts i _ (id, Done DEVICE_LIVE) X) as Z | pose proof (weights_insert ts i _ (id, Done DEVICE_LIVE) X) as Z]; cbn in Z; try destruct s; lia. }
  destruct (existsb (fun t => negb (is_done t)) ts) eqn:P.
  - destruct (schedule_picks (choices ts) (mc_schedule m h n) (someone_runs ts P)) as (i & -> & I). apply choices_in in I as [_ R].
    destruct (runnable_pending ts i R) as (id & st & E & D). rewrite E. pose proof (advance_lighter m bus reset pids n id st h D) as A.
    destruct (advance m bus reset pids n id st h) as [st' h']. cbn [fst] in A. apply IH. pose proof (weights_insert ts i _ (id, st') E). lia.
  - assert (F : Forall (fun t => is_done t = true) ts).
    { apply Forall_forall. intros t X. destruct (is_done t) eqn:D; [done|]. exfalso. apply not_true_iff_false in P. apply P, existsb_exists. exists t.
      split; [by apply list_elem_of_In|by rewrite D]. }
    destruct (choices ts !! _) as [i|] eqn:C; [|done]. apply list_elem_of_lookup_2, choices_in in C as [_ R]. destruct (runnable_pending ts i R) as (id & st & E & D).
    exfalso. apply list_elem_of_lookup_2 in E. rewrite Forall_forall in F. specialize (F _ E). by destruct st.
Qed.

(** ** Nothing live means everything quiet *)

(** Evidence at history [h] that the function runs no DMA: the reset just
    written was accepted, or its bus master bit was just cleared or is clear. *)
Definition quiet (m : machine) (bus id : list Z) (h : history) : Prop :=
  (exists h0, h = h0 ++ [AWrite (snprintf [] PATH_MAX (bus ++ str "/devices/" ++ id ++ str "/reset")) (str "1") (Ok tt)])
  \/ (exists h0 cmd, h = h0 ++ [ACommand (config_path bus id) cmd true] /\ Z.land cmd.1 PCI_COMMAND_MASTER = 0)
  \/ (exists lo hi, mc_command m h (config_path bus id) = Ok (Some (lo, hi)) /\ Z.land lo PCI_COMMAND_MASTER = 0).

(** A reset or a command register is all a task writes. *)
Definition on_device (a : action) : Prop := match a with AWrite _ _ _ | ACommand _ _ _ => True | _ => False end.

Section Quiet.
Context (m : machine) (bus : list Z).

Definition was_quiet (id : list Z) (h : history) : Prop := exists hq, hq `prefix_of` h /\ quiet m bus id hq.

Lemma was_quiet_now id h : quiet m bus id h -> was_quiet id h.
Proof using Type. intros Q. by exists h. Qed.

Lemma was_quiet_ext Q id h h' : ext Q h h' -> was_quiet id h -> was_quiet id h'.
Proof using Type. intros (new & -> & _) (hq & P & X). exists hq. split; [by apply prefix_app_r|done]. Qed.

(** What a task may claim at a stage, and when it is done. *)
Definition stage_ok (id : list Z) (h : history) (s : stage) : Prop :=
  match s with
  | SClear cmd => Z.land cmd.1 PCI_COMMAND_MASTER = 0
  | SExit o => o <> DEVICE_LIVE -> was_quiet id h
  | _ => True
  end.
Definition status_ok (h : history) (t : task) : Prop :=
  match t.2 with Running _ s => stage_ok t.1 h s | Done o => o <> DEVICE_LIVE -> was_quiet t.1 h | Waiting => True end.

Lemma status_ok_ext Q h h' t : ext Q h h' -> status_ok h t -> status_ok h' t.
Proof using Type.
  intros X. destruct t as [id [|c [| |cmd|o]|o]]; cbn; try done; intros S N; eapply was_quiet_ext; [exact X|by apply S|exact X|by apply S].
Qed.

Lemma stage_step_ok id reset s h :
  stage_ok id h s -> ext on_device h (stage_step m bus id reset s h).2 /\ stage_ok id (stage_step m bus id reset s h).2 (stage_step m bus id reset s h).1.
Proof using Type.
  destruct s as [| |cmd|o]; cbn [stage_step]; intros S.
  - destruct reset; [|by split]. unfold pci_reset_function, sys_write. destruct (mc_write m h _ _) as [[]|e]; cbn [fst snd]; (split; [by apply ext_one|]); [|done].
    intros _. apply was_quiet_now. left. by eexists.
  - destruct (mc_command m h _) as [[[lo hi]|]|] eqn:E; [|split; [reflexivity|intros []; reflexivity]..].
    destruct (Z.eqb_spec (Z.land lo PCI_COMMAND_MASTER) 0) as [Z|Z]; cbn [negb fst snd]; (split; [reflexivity|]).
    + intros _. apply was_quiet_now. right. right. by exists lo, hi.
    + cbn. rewrite <- Z.land_assoc, (Z.land_comm (Z.lnot _)), Z.land_lnot_diag. apply Z.land_0_r.
  - cbv zeta. cbn [fst snd]. split; [by apply ext_one|]. intros N. destruct (mc_set_command m h _ cmd); [|done]. apply was_quiet_now. right. left. by eexists _, _.
  - by split.
Qed.

Lemma advance_ok reset pids n id st h :
  status_ok h (id, st) ->
  ext on_device h (advance m bus reset pids n id st h).2 /\ status_ok (advance m bus reset pids n id st h).2 (id, (advance m bus reset pids n id st h).1).
Proof using Type.
  destruct st as [|child s|o]; cbn [advance]; intros S; [by split| |by split]. case_bool; [split; [reflexivity|intros []; reflexivity]|].
  destruct s as [| |cmd|o]; [..|by split];
    match goal with |- context [stage_step m bus id reset ?s h] => pose proof (stage_step_ok id reset s h S) as [X Y]; destruct (stage_step m bus id reset s h) end; by split.
Qed.

Lemma reset_loop_ok reset pids fuel ts h :
  Forall (status_ok h) ts ->
  let '(ts', h') := reset_loop m fuel bus reset pids ts h in map fst ts' = map fst ts /\ ext on_device h h' /\ Forall (status_ok h') ts'.
Proof using Type.
  intros F. pose proof (reset_loop_inv m bus reset pids (fun ts' h' => map fst ts' = map fst ts /\ ext on_device h h' /\ Forall (status_ok h') ts')) as I.
  assert (S : forall n ts1 h1 i id st, map fst ts1 = map fst ts /\ ext on_device h h1 /\ Forall (status_ok h1) ts1 -> ts1 !! i = Some (id, st) ->
    let '(st', h') := advance m bus reset pids n id st h1 in
    map fst (<[i:=(id, st')]> ts1) = map fst ts /\ ext on_device h h' /\ Forall (status_ok h') (<[i:=(id, st')]> ts1)).
  { intros n ts1 h1 i id st (M & X & S) E. pose proof (advance_ok reset pids n id st h1) as A. destruct (advance m bus reset pids n id st h1) as [st' h2].
    destruct A as [X2 A]; [by eapply Forall_lookup in E|]. split.
    - rewrite <- M. change (fst <$> <[i:=(id, st')]> ts1 = fst <$> ts1). rewrite list_fmap_insert. cbn. apply list_insert_id. by rewrite list_lookup_fmap, E.
    - split; [by etrans|]. apply Forall_insert; [|done]. eapply Forall_impl; [exact S|]. intros t. by eapply status_ok_ext. }
  specialize (I S fuel ts h). destruct (reset_loop m fuel bus reset pids ts h) as [ts' h']. apply I. by split.
Qed.

Lemma tally_live ts : n_live (tally ts) = 0 -> Forall (fun t : task => outcome t.2 <> DEVICE_LIVE) ts.
Proof using Type.
  assert (G : forall (ts : list task) c, 0 <= n_live c -> n_live c <= n_live (foldl (fun c (t : task) => count c (outcome t.2)) c ts)
    /\ (n_live (foldl (fun c (t : task) => count c (outcome t.2)) c ts) = n_live c -> Forall (fun t : task => outcome t.2 <> DEVICE_LIVE) ts)).
  { induction ts0 as [|t ts0 IH]; intros c C; cbn [foldl]; [split; [lia|by constructor]|].
    assert (0 <= n_live (count c (outcome t.2)) /\ n_live c <= n_live (count c (outcome t.2)) /\ (outcome t.2 = DEVICE_LIVE -> n_live (count c (outcome t.2)) = n_live c + 1)) as (A & B & L)
      by (destruct (outcome t.2); cbn; repeat split; intros; done || lia).
    destruct (IH _ A) as [D E]. split; [lia|]. intros N. constructor; [|apply E; lia]. intros O. specialize (L O). lia. }
  apply (G ts (mk_counts 0 0 0)). cbn. lia.
Qed.

Lemma waiting_weights (ids : list (list Z)) : weights (map (fun id => (id, Waiting)) ids) = (5 * length ids)%nat.
Proof using Type. unfold weights. induction ids as [|id ids IH]; [done|]. cbn [map sum_list_with length]. rewrite IH. change (weight (id, Waiting)) with 5%nat. lia. Qed.

(** The resets touch only devices; every function is counted once, and if
    none is counted as live, every one left evidence that it runs no DMA. *)
Lemma reset_devices_ok `{Alloc} ids reset h :
  let '(c, h') := reset_devices m bus ids reset h in
  ext on_device h h' /\ (n_live c = 0 -> forall id, id ∈ ids -> was_quiet id h').
Proof using Type.
  unfold reset_devices. cbv zeta. set (ts := map (fun id => (id, Waiting)) ids). set (p := alloc _).
  pose proof (reset_loop_ok reset p (5 * length ids) ts h) as L. pose proof (reset_loop_ends m bus reset p (5 * length ids) ts h) as D.
  destruct (reset_loop m (5 * length ids) bus reset p ts h) as [ts' h']. destruct L as (M & X & S).
  { apply Forall_forall. intros t T. by apply list_elem_of_fmap in T as (id & -> & _). }
  split; [done|]. intros N id I. specialize (D ltac:(unfold ts; by rewrite waiting_weights)).
  assert (I' : id ∈ map fst ts') by (rewrite M; unfold ts; rewrite map_map; cbn; by rewrite map_id).
  apply list_elem_of_fmap in I' as ([id' st] & -> & T). apply tally_live in N. rewrite Forall_forall in N, S, D.
  specialize (N _ T). specialize (S _ T). specialize (D _ T). destruct st; try done. by apply S.
Qed.

End Quiet.
