(* ===== verification/Devtree.v ===== *)
(** * lib/devtree.c: what a kernel learns from its own boot tree *)

From S2P Require Import Prelude Cstr Ranges Parse Files Fdt HostTree.

(** [struct self_info] *)
Record self_info : Type := mk_self {
  si_name : list Z;
  si_id : Z;
  si_own_cpus : cpulist;
  si_reserved : rangeset }.

Definition HOST_TREE_REL : list Z := str "chosen/multikernel,host-tree".
Definition RESERVED_PROPERTY : list Z := str "chosen/multikernel,reserved-memory".
Definition IOMMUS_REL : list Z := str "chosen/multikernel,iommus".

Definition prop_path (root rel : list Z) : list Z := snprintf [] PATH_MAX (root ++ slash ++ rel).

Section Devtree.
Context `{Alloc} `{Files}.

Definition read_cpulist_prop (root rel : list Z) : result cpulist :=
  let? cells := file_read (prop_path root rel) in fdtutil_cells_to_cpulist cells.

Definition read_id_prop (root : list Z) : result Z :=
  let? cell := file_read (prop_path root (str "id")) in
  if zlen cell =? 4 then Ok (cell32 cell 0) else Err EINVAL.

(** The pairs from cell [i] on; [fuel] pairs at most. *)
Fixpoint reserved_loop (fuel : nat) (cells : list Z) (i : nat) (out : rangeset) : result rangeset :=
  match fuel with
  | O => Ok out
  | S fuel =>
      if Z.of_nat i + 1 <? zlen cells / 8 then
        match rangeset_add out (cell64 cells i) (cell64 cells (i + 1)) with
        | (Ok _, out) => reserved_loop fuel cells (i + 2) out
        | (Err e, _) => Err e
        end
      else Ok out
  end.

Definition read_reserved (root : list Z) : result rangeset :=
  match file_read (prop_path root RESERVED_PROPERTY) with
  | Err e => if e =? ENOENT then Ok RANGESET_INIT else Err e
  | Ok cells =>
      if negb (zlen cells mod (2 * 8) =? 0) then Err EINVAL
      else reserved_loop (S (length cells)) cells 0 RANGESET_INIT
  end.

Definition devtree_read_self (root : list Z) : result self_info :=
  let? name := file_read_string (prop_path root (str "model")) in
  let? id := read_id_prop root in
  let? own_cpus := read_cpulist_prop root (str "resources/cpus") in
  let? reserved := read_reserved root in
  Ok (mk_self name id own_cpus reserved).

Fixpoint read_iommu_nodes (dir : list Z) (nodes : list (list Z)) (out : rangelist) : result rangelist :=
  match nodes with
  | [] => Ok out
  | n :: nodes =>
      let? reg := file_read (snprintf [] (PATH_MAX + NAME_MAX + 8) (dir ++ slash ++ n ++ str "/reg")) in
      if zlen reg =? 2 * 8 then
        match rangelist_add out (cell64 reg 0) (cell64 reg 1) with
        | (Ok _, out) => read_iommu_nodes dir nodes out
        | (Err e, _) => Err e
        end
      else Err EINVAL
  end.

Definition devtree_read_iommus (root : list Z) : result rangelist :=
  let dir := prop_path root IOMMUS_REL in
  match scandir dir (str "iommu@") with
  | Err e => if e =? ENOENT then Ok [] else Err e
  | Ok nodes => read_iommu_nodes dir nodes []
  end.

(** ** The CPUs of a firmware tree *)

Fixpoint be_cells (n : nat) (buf : list Z) (i : nat) (out : Z) : Z :=
  match n with
  | O => out
  | S n => be_cells n buf (S i) (Z.lor (u64 (Z.shiftl out 32)) (cell32 buf i))
  end.

Definition read_be_cells (path : list Z) (cells : Z) : result Z :=
  let? buf := file_read path in
  if (cells =? 0) || (2 <? cells) || negb (zlen buf =? cells * 4) then Err EINVAL
  else Ok (be_cells (Z.to_nat cells) buf 0 0).

Definition is_cpu_node (cpus_dir name : list Z) : bool :=
  match file_read (snprintf [] PATH_MAX (cpus_dir ++ slash ++ name ++ str "/device_type")) with
  | Ok type => bool_decide (type = str "cpu" ++ [0])
  | Err _ => false
  end.

(** The entries of the directory in the order read, [cap] the array's size. *)
Fixpoint read_cpu_entries (cpus_dir : list Z) (cells : Z) (entries : list (list Z)) (out : cpulist) (cap : Z)
    : result cpulist :=
  match entries with
  | [] => Ok out
  | name :: entries =>
      if c0 name =? ch "." then read_cpu_entries cpus_dir cells entries out cap
      else if negb (is_cpu_node cpus_dir name) then read_cpu_entries cpus_dir cells entries out cap
      else
        let? id := read_be_cells (snprintf [] PATH_MAX (cpus_dir ++ slash ++ name ++ str "/reg")) cells in
        if zlen out =? cap then
          let cap := if cap =? 0 then 16 else cap * 2 in
          if alloc (cap * 8) then read_cpu_entries cpus_dir cells entries (out ++ [id]) cap else Err ENOMEM
        else read_cpu_entries cpus_dir cells entries (out ++ [id]) cap
  end.

(** [read_be_cells(path, cells, ...)] takes the count as [unsigned int]. *)
Definition devtree_read_cpus (cpus_dir : list Z) : result cpulist :=
  let? cells := read_be_cells (snprintf [] PATH_MAX (cpus_dir ++ str "/#address-cells")) 1 in
  let? entries := dir_list cpus_dir in
  let? out := read_cpu_entries cpus_dir (u32 cells) entries [] 0 in
  if zlen out =? 0 then Err ENOENT else Ok (cpulist_normalize out).

End Devtree.

(** ** Properties *)

Lemma lor_cells hi lo : 0 <= hi < two32 -> 0 <= lo < two32 -> Z.lor (u64 (Z.shiftl hi 32)) lo = hi * two32 + lo.
Proof.
  intros H L. rewrite Z.shiftl_mul_pow2 by lia. change (2 ^ 32) with two32. rewrite u64_small by lia.
  rewrite <- Z.add_lor_land. enough (Z.land (hi * two32) lo = 0) as -> by lia.
  apply Z.bits_inj'. intros n N. rewrite Z.land_spec, Z.bits_0. change two32 with (2 ^ 32).
  destruct (Z.lt_ge_cases n 32) as [S|S]; [by rewrite (Z.mul_pow2_bits_low hi 32 n)|].
  destruct (Z.eq_dec lo 0) as [->|P]; [by rewrite Z.bits_0, andb_false_r|].
  rewrite (Z.bits_above_log2 lo n), andb_false_r; [done|lia|].
  apply Z.log2_lt_pow2; [lia|]. apply Z.lt_le_trans with (2 ^ 32); [apply L|apply Z.pow_le_mono_r; lia].
Qed.

(** [read_be_cells] computes the big-endian number the file holds. *)
Lemma read_be_cells_ok `{Files} path n buf :
  file_read path = Ok buf -> n = 1 \/ n = 2 -> zlen buf = n * 4 -> Forall (fun b => 0 <= b < 256) buf ->
  read_be_cells path n = Ok (be_val buf).
Proof.
  intros R N L B. unfold read_be_cells. rewrite R, L, Z.eqb_refl. unfold zlen in L.
  destruct N as [-> | ->]; cbn [Z.eqb Z.ltb Z.compare orb negb Pos.eqb Pos.compare Pos.compare_cont].
  - f_equal. change (be_cells (Z.to_nat 1) buf 0 0) with (Z.lor 0 (cell32 buf 0)). rewrite Z.lor_0_l.
    unfold cell32. change (4 * 0)%nat with 0%nat. by rewrite drop_0, take_ge by lia.
  - do 9 (destruct buf as [|? buf]; [cbn in L; lia || idtac|try (cbn in L; lia)]).
    f_equal. change (be_cells (Z.to_nat 2) [z; z0; z1; z2; z3; z4; z5; z6] 0 0)
      with (Z.lor (u64 (Z.shiftl (Z.lor 0 (be_val [z; z0; z1; z2])) 32)) (be_val [z3; z4; z5; z6])). rewrite Z.lor_0_l.
    pose proof (be_val_bytes [z; z0; z1; z2] 0) as B1. pose proof (be_val_bytes [z3; z4; z5; z6] 0) as B2.
    change (256 ^ zlen [z; z0; z1; z2]) with two32 in B1. change (256 ^ zlen [z3; z4; z5; z6]) with two32 in B2.
    do 8 (apply Forall_cons in B as [? B]). specialize (B1 ltac:(repeat (constructor; [done|]); constructor) ltac:(lia)).
    specialize (B2 ltac:(repeat (constructor; [done|]); constructor) ltac:(lia)).
    unfold be_val. rewrite lor_cells by lia. cbn [fold_left]. lia.
Qed.

(** *** The kernel's own description *)

Definition reserved_ok (r : range) : Prop := is_u64 (r_base r) /\ 0 < r_size r /\ r_base r + r_size r < two64.

Lemma reserved_ok_u64 l : Forall reserved_ok l -> Forall range_u64 l.
Proof. intros F. eapply Forall_impl; [exact F|]. unfold reserved_ok, range_u64, is_u64. intros r ?. lia. Qed.

Lemma cells64_count l : zlen (cells64 l) / 8 = zlen l.
Proof.
  unfold zlen. rewrite cells64_length. replace (Z.of_nat (8 * length l)) with (Z.of_nat (length l) * 8) by lia.
  by apply Z.div_mul.
Qed.

Lemma reserved_loop_spec `{AllocOk} pre l fuel out :
  Forall reserved_ok (pre ++ l) -> rs_wf out -> (length l < fuel)%nat ->
  exists s, reserved_loop fuel (cells64 (flat (pre ++ l))) (2 * length pre) out = Ok s /\ rs_wf s /\
    forall x, rs_mem s x <-> rs_mem out x \/ mem l x.
Proof.
  intros F. revert pre fuel out F. induction l as [|r l IH]; intros pre fuel out F W L; (destruct fuel as [|fuel]; [lia|]);
    cbn [reserved_loop].
  - rewrite cells64_count, app_nil_r. rewrite (proj2 (Z.ltb_ge _ _)) by (unfold zlen; rewrite flat_length; lia). exists out. split; [done|]. split; [done|]. intros x. rewrite mem_nil. tauto.
  - assert (K : (pre ++ r :: l) !! length pre = Some r) by (by rewrite lookup_app_r, Nat.sub_diag by lia).
    destruct (flat_lookup _ _ _ K) as [K1 K2]. pose proof (flat_u64 _ (reserved_ok_u64 _ F)) as Fu.
    rewrite cells64_count. rewrite (proj2 (Z.ltb_lt _ _)) by (unfold zlen; rewrite flat_length, length_app; cbn [length]; lia).
    rewrite (cells64_at _ _ _ Fu K1), (cells64_at _ _ _ Fu K2).
    assert (R : reserved_ok r) by (apply Forall_app in F as [_ F]; by apply Forall_cons in F as [F _]). destruct R as (R1 & R2 & R3).
    pose proof (rangeset_add_ok out (r_base r) (r_size r) W R1 ltac:(unfold is_u64 in *; lia)) as O.
    pose proof (set_op_returns _ _ _ _ _ O) as Q. rewrite decide_True in Q by lia. destruct O as [W' M]. rewrite Q in M.
    destruct (rangeset_add _ _ _) as [ret out']. cbn [fst snd] in *. subst ret.
    destruct (IH (pre ++ [r]) fuel out') as (s & E & Ws & Ms); [by rewrite <- app_assoc|done|cbn [length] in L; lia|].
    rewrite <- app_assoc in E. cbn [app] in E. rewrite length_app in E. cbn [length] in E.
    replace (2 * (length pre + 1))%nat with (2 * length pre + 2)%nat in E by lia.
    exists s. split; [exact E|]. split; [done|]. intros x. rewrite Ms, mem_cons. destruct M as (_ & _ & M). rewrite M. unfold in_range. tauto.
Qed.

Lemma read_reserved_ok `{AllocOk} `{Files} root l :
  Forall reserved_ok l -> file_read (prop_path root RESERVED_PROPERTY) = Ok (concat (map reg_cells l)) ->
  exists s, read_reserved root = Ok s /\ rs_wf s /\ forall x, rs_mem s x <-> mem l x.
Proof.
  intros F R. unfold read_reserved. rewrite R, regs_flat.
  replace (zlen (cells64 (flat l)) mod (2 * 8)) with 0.
  2: { unfold zlen. rewrite cells64_length, flat_length. replace (Z.of_nat (8 * (2 * length l))) with (zlen l * (2 * 8)) by (unfold zlen; lia).
       by rewrite Z.mod_mul. }
  cbn [Z.eqb negb].
  destruct (reserved_loop_spec [] l (S (length (cells64 (flat l)))) RANGESET_INIT F) as (s & E & W & M).
  - by split; [|unfold rs_count; cbn; lia].
  - rewrite cells64_length, flat_length. lia.
  - exists s. split; [exact E|]. split; [done|]. intros x. rewrite M. unfold rs_mem. cbn [RANGESET_INIT rs_r]. rewrite mem_nil. tauto.
Qed.

(** The successor knows itself.  From a boot tree that holds its name,
    its 32-bit id, its CPUs as 64-bit cells and the kernel's reserved
    regions as (base, size) pairs, [devtree_read_self] returns exactly these,
    and the reserved set holds exactly the addresses of the regions, however
    many and in whatever order; with the property absent it is empty. *)
Theorem devtree_read_self_exact `{AllocOk} `{Files} root name id cpus regions :
  cstring name -> 0 <= id < two32 -> Forall is_u64 cpus ->
  Forall reserved_ok regions ->
  file_read (prop_path root (str "model")) = Ok (name ++ [0]) ->
  file_read (prop_path root (str "id")) = Ok (cpu_to_fdt32 id) ->
  file_read (prop_path root (str "resources/cpus")) = Ok (cells64 cpus) ->
  file_read (prop_path root RESERVED_PROPERTY) = (if decide (regions = []) then Err ENOENT else Ok (concat (map reg_cells regions))) ->
  exists s, devtree_read_self root = Ok s /\ si_name s = name /\ si_id s = id /\ si_own_cpus s = cpus /\
    rs_wf (si_reserved s) /\ forall x, rs_mem (si_reserved s) x <-> mem regions x.
Proof.
  intros C I U F Rn Ri Rc Rr. unfold devtree_read_self, file_read_string, read_id_prop, read_cpulist_prop.
  rewrite Rn, Ri, Rc, cells_to_cpulist_cells by done.
  replace (zlen (cpu_to_fdt32 id) =? 4) with true by (unfold zlen, cpu_to_fdt32; by rewrite be_length).
  rewrite cell32_of by done.
  assert (E : cstr_of (strip_newlines (name ++ [0])) = name).
  { unfold strip_newlines. rewrite rev_app_distr. cbn [rev app skip_nl Z.eqb]. rewrite rev_involutive. by apply cstr_of_app. }
  rewrite E. case_decide as D.
  - subst regions. unfold read_reserved. rewrite Rr. cbv match. change (ENOENT =? ENOENT) with true. cbv match.
    eexists. split; [done|]. cbn [si_name si_id si_own_cpus si_reserved]. do 3 (split; [done|]).
    split; [by split; [|unfold rs_count; cbn; lia]|]. intros x. done.
  - destruct (read_reserved_ok root regions F Rr) as (s & Es & W & M). rewrite Es. eexists. split; [done|].
    cbn [si_name si_id si_own_cpus si_reserved]. done.
Qed.

Definition demo_boot_files : Files := {|
  file_read p :=
    if streq p (str "/dt/model") then Ok (str "standby" ++ [0])
    else if streq p (str "/dt/id") then Ok (cpu_to_fdt32 3)
    else if streq p (str "/dt/resources/cpus") then Ok (cells64 [4; 5])
    else if streq p (str "/dt/chosen/multikernel,reserved-memory")
    then Ok (concat (map reg_cells [Range 0x8000 0x1000; Range 0x2000 0x1000])) else Err ENOENT;
  dir_list _ := Err ENOENT |}.

Lemma devtree_read_self_exact_witness :
  exists s, @devtree_read_self alloc_always demo_boot_files (str "/dt") = Ok s /\ si_name s = str "standby" /\ si_id s = 3 /\
    si_own_cpus s = [4; 5] /\ rs_wf (si_reserved s) /\
    forall x, rs_mem (si_reserved s) x <-> mem [Range 0x8000 0x1000; Range 0x2000 0x1000] x.
Proof.
  apply (devtree_read_self_exact (H := alloc_always) (H1 := demo_boot_files)); try reflexivity.
  - repeat constructor; vm_compute; split; reflexivity.
  - lia.
  - repeat constructor; lia.
  - repeat (constructor; [unfold reserved_ok, is_u64; cbn [r_base r_size]; lia|]). constructor.
Defined.
