(* ===== verification/Memory.v ===== *)
(** * lib/iomem.c and lib/memblock.c: the memory of this kernel *)

From S2P Require Import Prelude Cstr Scanf Ranges Parse Files Fdt HostTree Takeable Dt Machine Mkfs.

(** ** /proc/iomem *)

Fixpoint skip_blanks (s : list Z) : list Z :=
  match s with c :: t => if c =? 32 then skip_blanks t else s | [] => [] end.

(** Start, end and name of a line [start-end : name]. *)
Definition iomem_parse_line (line : list Z) : result (Z * Z * list Z) :=
  let line := skip_blanks line in
  if negb (isxdigit (c0 line)) then Err EINVAL else
  let '(start, p, _) := strtoull 16 line in
  if negb (c0 p =? ch "-") then Err EINVAL else
  let '(end_, p, _) := strtoull 16 (drop 1 p) in
  if negb (starts (str " : ") p) then Err EINVAL else
  Ok (start, end_, drop 3 p).

Definition is_system_ram (name : list Z) : bool :=
  if negb (starts (str "System RAM") name) then false else
  let name := drop 10 name in
  let len := zlen name in
  (len =? 0) || (starts (str " (") name && (cn name (length name - 1) =? ch ")")).

Section Iomem.
Context `{Alloc}.

(** One line per round; a text has no more lines than characters and one. *)
Fixpoint iomem_lines (fuel : nat) (text : list Z) (ram : rangeset) : result rangeset :=
  match fuel with
  | O => Ok ram
  | S fuel =>
      let '(line, next) := split_at 10 text in
      let? ram := match iomem_parse_line line with
                  | Err _ => Ok ram
                  | Ok (start, end_, name) =>
                      if is_system_ram name then
                        match rangeset_add ram start (u64 (end_ - start + 1)) with
                        | (Ok _, ram) => Ok ram
                        | (Err e, _) => Err e
                        end
                      else Ok ram
                  end in
      match next with
      | Some next => iomem_lines fuel (drop 1 next) ram
      | None => Ok ram
      end
  end.

Definition iomem_system_ram `{Files} (path : list Z) (ram : rangeset) : result rangeset :=
  let? text := file_read_string path in iomem_lines (S (length text)) text ram.

End Iomem.

(** ** The unit memory moves in *)

Definition memblock_size `{Files} (path : list Z) : result Z :=
  let? text := file_read_string path in
  let '(block, e, _) := strtoull 16 text in
  if negb (c0 e =? 0) || (block =? 0) then Err EINVAL else Ok block.

(** The granule the kernel publishes, if it is a power of two, or whole
    memory blocks. *)
Definition memory_granule `{Alloc} (m : machine) (root block_size_path : list Z) (h : history) : result Z :=
  let granule := match mkfs_read_root_tree m root h with
                 | Err e => Err e
                 | Ok (tree, len) => if len =? 0 then Err ENOENT else dt_read_memory_granule tree len
                 end in
  match granule with
  | Ok g => if negb (g =? 0) && (Z.land g (g - 1) =? 0) then Ok g else @memblock_size (mc_files m h) block_size_path
  | Err _ => @memblock_size (mc_files m h) block_size_path
  end.

(** ** The memory kept for the next pool *)

(** [%#llx]: no prefix for zero *)
Definition hex_alt (v : Z) : list Z := if v =? 0 then str "0" else str "0x" ++ hex v.

Definition pool_claim_text (r : range) : list Z :=
  snprintf [] 64 (hex_alt (r_base r) ++ str " " ++ hex_alt (r_size r) ++ [10]).

Definition pool_claim_write (m : machine) (path : list Z) (r : range) (h : history) : result unit * history :=
  sys_write m path (pool_claim_text r) h.

(** [%lx] *)
Definition scan_lhex (s : list Z) : option (Z * list Z) :=
  let '(v, rest, _) := strtoull 16 s in
  if bool_decide (rest = s) then None else Some (v, rest).

Definition pool_claim_read `{Files} (path : list Z) : result range :=
  let? text := file_read_string path in
  match '(base, s) ← scan_lhex text; '(size, _) ← scan_lhex (skip_space s); Some (base, size) with
  | Some (base, size) => if size =? 0 then Err EINVAL else Ok (Range base size)
  | None => Err EINVAL
  end.

(** ** Properties *)

(** *** /proc/iomem lists this kernel's memory *)

(** A line as the kernel prints it: a nesting depth, the range, its name. *)
Record iomem_entry : Type := mk_entry { ie_depth : nat; ie_start : Z; ie_end : Z; ie_name : list Z }.

Definition entry_line (e : iomem_entry) : list Z :=
  replicate (2 * ie_depth e) 32 ++ hexpad 8 (ie_start e) ++ str "-" ++ hexpad 8 (ie_end e) ++ str " : " ++ ie_name e.
Definition iomem_text (l : list iomem_entry) : list Z := concat (map (fun e => entry_line e ++ [10]) l).
(** The same without the last newline, which [file_read_string] strips. *)
Fixpoint iomem_body (l : list iomem_entry) : list Z :=
  match l with
  | [] => []
  | [e] => entry_line e
  | e :: l => entry_line e ++ 10 :: iomem_body l
  end.

Record entry_ok (e : iomem_entry) : Prop := {
  eo_range : 0 <= ie_start e <= ie_end e /\ ie_end e < two64 - 1;
  eo_name : cstring (ie_name e) /\ (10 ∉ ie_name e) }.

Lemma skip_blanks_app n s : c0 s <> 32 -> skip_blanks (replicate n 32 ++ s) = s.
Proof.
  intros C. induction n as [|n IH]; [|done]. cbn [replicate app]. destruct s as [|c s]; [done|].
  cbn [skip_blanks c0] in *. by rewrite (proj2 (Z.eqb_neq c 32)).
Qed.

Lemma is_hex_c0 ds rest : is_hex ds -> digit_val (c0 (ds ++ rest)) < 16.
Proof. intros [N F]. destruct ds as [|d ds]; [done|]. by apply Forall_cons in F as [F _]. Qed.

Lemma parse_entry e : entry_ok e -> iomem_parse_line (entry_line e) = Ok (ie_start e, ie_end e, ie_name e).
Proof.
  intros [[R1 R2] _]. unfold iomem_parse_line, entry_line. cbv zeta.
  destruct (hexpad_is_hex 8 (ie_start e)) as [Hs Vs]; [unfold is_u64; lia|].
  destruct (hexpad_is_hex 8 (ie_end e)) as [He Ve]; [unfold is_u64; lia|].
  pose proof (hexdigit_facts _ (is_hex_c0 _ (str "-" ++ hexpad 8 (ie_end e) ++ str " : " ++ ie_name e) Hs)) as (Sp & _ & _ & _ & _ & _ & X).
  rewrite skip_blanks_app by (intros E; rewrite E in Sp; done). rewrite X. cbn [negb].
  assert (V1 : hex_value (hexpad 8 (ie_start e)) <= UINT64_MAX) by (rewrite Vs; unfold UINT64_MAX; lia).
  assert (V2 : hex_value (hexpad 8 (ie_end e)) <= UINT64_MAX) by (rewrite Ve; unfold UINT64_MAX; lia).
  assert (X45 : toupper 45 <> ch "X") by done. assert (X32 : toupper 32 <> ch "X") by done.
  rewrite (strtoull_hex _ (str "-" ++ hexpad 8 (ie_end e) ++ str " : " ++ ie_name e) Hs V1 eq_refl X45), Vs.
  change (negb (c0 (str "-" ++ hexpad 8 (ie_end e) ++ str " : " ++ ie_name e) =? ch "-")) with false. cbv match.
  change (drop 1 (str "-" ++ hexpad 8 (ie_end e) ++ str " : " ++ ie_name e)) with (hexpad 8 (ie_end e) ++ str " : " ++ ie_name e).
  rewrite (strtoull_hex _ (str " : " ++ ie_name e) He V2 eq_refl X32), Ve, starts_app. cbn [negb].
  done.
Qed.

Lemma entry_no_newline e : entry_ok e -> 10 ∉ entry_line e.
Proof.
  intros [[R1 R2] [_ N]]. unfold entry_line.
  assert (Hx : forall x, is_u64 x -> 10 ∉ hexpad 8 x).
  { intros x X I. destruct (hexpad_is_hex 8 x X) as [[_ F] _]. rewrite Forall_forall in F. apply F, hexdigit_facts in I as (S & _). done. }
  rewrite !elem_of_app. intros [I|[I|[I|[I|[I|I]]]]].
  - apply elem_of_replicate in I as [I _]. done.
  - revert I. apply Hx. unfold is_u64. lia.
  - apply list_elem_of_In in I. cbn in I. intuition discriminate.
  - revert I. apply Hx. unfold is_u64. lia.
  - apply list_elem_of_In in I. cbn in I. intuition discriminate.
  - done.
Qed.

Definition is_ram (e : iomem_entry) : bool := is_system_ram (ie_name e).

(** The addresses of the entries named as RAM. *)
Definition ram_address (l : list iomem_entry) (x : Z) : Prop :=
  exists e, e ∈ l /\ is_ram e = true /\ ie_start e <= x <= ie_end e.

Lemma ram_address_cons e l x :
  ram_address (e :: l) x <-> (is_ram e = true /\ ie_start e <= x <= ie_end e) \/ ram_address l x.
Proof.
  unfold ram_address. split.
  - intros (e' & I & ?). apply elem_of_cons in I as [->|I]; [by left|right; by exists e'].
  - intros [?|(e' & ? & ?)]; [exists e; split; [left|done]|exists e'; split; [by right|done]].
Qed.

(** What one line does to the set. *)
Definition iomem_line `{Alloc} (line : list Z) (ram : rangeset) : result rangeset :=
  match iomem_parse_line line with
  | Err _ => Ok ram
  | Ok (start, end_, name) =>
      if is_system_ram name then
        match rangeset_add ram start (u64 (end_ - start + 1)) with (Ok _, ram) => Ok ram | (Err e, _) => Err e end
      else Ok ram
  end.

Lemma iomem_line_spec `{AllocOk} e ram :
  entry_ok e -> rs_wf ram ->
  exists out, iomem_line (entry_line e) ram = Ok out /\ rs_wf out /\
    forall x, rs_mem out x <-> rs_mem ram x \/ (is_ram e = true /\ ie_start e <= x <= ie_end e).
Proof.
  intros E W. unfold iomem_line. rewrite parse_entry by done. unfold is_ram. destruct E as [[R1 R2] _].
  destruct (is_system_ram (ie_name e)).
  - rewrite u64_small by lia.
    pose proof (rangeset_add_ok ram (ie_start e) (ie_end e - ie_start e + 1) W ltac:(unfold is_u64; lia) ltac:(unfold is_u64; lia)) as O.
    pose proof (set_op_returns _ _ _ _ _ O) as Q. rewrite decide_True in Q by lia. destruct O as [W' M]. rewrite Q in M.
    destruct (rangeset_add _ _ _) as [ret ram']. cbn [fst snd] in *. subst ret. exists ram'. split; [done|]. split; [done|].
    intros x. destruct M as (_ & _ & M). rewrite M.
    split; [intros [?|?]; [by left|right; split; [done|lia]]|intros [?|[_ ?]]; [by left|right; lia]].
  - exists ram. split; [done|]. split; [done|]. intros x. split; [auto|]. intros [?|[? _]]; done.
Qed.

Lemma iomem_lines_unfold `{Alloc} fuel text ram :
  iomem_lines (S fuel) text ram
  = let? ram := iomem_line (split_at 10 text).1 ram in
    match (split_at 10 text).2 with Some next => iomem_lines fuel (drop 1 next) ram | None => Ok ram end.
Proof. cbn [iomem_lines]. by destruct (split_at 10 text). Qed.

Lemma iomem_lines_spec `{AllocOk} l fuel ram :
  Forall entry_ok l -> rs_wf ram -> (length (iomem_body l) < fuel)%nat ->
  exists out, iomem_lines fuel (iomem_body l) ram = Ok out /\ rs_wf out /\
    forall x, rs_mem out x <-> rs_mem ram x \/ ram_address l x.
Proof.
  intros F. revert fuel ram. induction F as [|e l E F IH]; intros fuel ram W L; (destruct fuel as [|fuel]; [lia|]).
  - exists ram. split; [done|]. split; [done|]. intros x. split; [auto|].
    intros [?|(e & I & _)]; [done|by apply elem_of_nil in I].
  - rewrite iomem_lines_unfold. destruct (iomem_line_spec e ram E W) as (r1 & E1 & W1 & M1). destruct l as [|e' l].
    + cbn [iomem_body]. rewrite split_at_none by (by apply entry_no_newline). cbn [fst snd]. rewrite E1. exists r1.
      split; [done|]. split; [done|]. intros x. rewrite M1, ram_address_cons. split; [tauto|].
      intros [?|[?|(? & I & _)]]; [tauto|tauto|by apply elem_of_nil in I].
    + change (iomem_body (e :: e' :: l)) with (entry_line e ++ 10 :: iomem_body (e' :: l)) in *.
      rewrite length_app in L. cbn [length] in L.
      rewrite split_at_some by (by apply entry_no_newline). cbn [fst snd]. rewrite E1.
      change (drop 1 (10 :: iomem_body (e' :: l))) with (iomem_body (e' :: l)).
      destruct (IH fuel r1 W1 ltac:(lia)) as (out & O & Wo & Mo). exists out. split; [done|]. split; [done|].
      intros x. rewrite Mo, M1, (ram_address_cons e). tauto.
Qed.

Lemma iomem_text_body l : l <> [] -> iomem_text l = iomem_body l ++ [10].
Proof.
  induction l as [|e l IH]; intros N; [done|]. change (iomem_text (e :: l)) with ((entry_line e ++ [10]) ++ iomem_text l).
  destruct l as [|e' l]; [cbn; by rewrite app_nil_r|]. rewrite IH by done.
  change (iomem_body (e :: e' :: l)) with (entry_line e ++ 10 :: iomem_body (e' :: l)). by rewrite <- !app_assoc.
Qed.

Lemma strip_last_newline s : (forall t, s <> t ++ [10]) -> strip_newlines (s ++ [10]) = s.
Proof.
  intros N. unfold strip_newlines. rewrite rev_app_distr. cbn [rev app skip_nl Z.eqb Pos.eqb].
  assert (E : skip_nl (rev s) = rev s); [|by rewrite E, rev_involutive].
  destruct (rev s) as [|c r] eqn:R; [done|]. cbn [skip_nl]. destruct (Z.eqb_spec c 10) as [->|]; [|done].
  exfalso. apply (N (rev r)). rewrite <- (rev_involutive s), R. done.
Qed.

Lemma entry_cstring e : entry_ok e -> cstring (entry_line e).
Proof.
  intros [[R1 R2] [C _]]. unfold entry_line.
  assert (Hx : forall x, is_u64 x -> cstring (hexpad 8 x)).
  { intros x X. destruct (hexpad_is_hex 8 x X) as [[_ F] _]. eapply Forall_impl; [exact F|]. intros c D. apply hexdigit_facts in D. tauto. }
  rewrite !cstring_app. split; [by apply Forall_replicate|]. split; [apply Hx; unfold is_u64; lia|].
  split; [by repeat constructor|]. split; [apply Hx; unfold is_u64; lia|]. split; [by repeat constructor|done].
Qed.

Lemma iomem_body_facts l :
  Forall entry_ok l -> cstring (iomem_body l) /\ (forall t, iomem_body l <> t ++ [10]).
Proof.
  induction 1 as [|e l E F [C N]]; [split; [constructor|]; intros [|? ?]; discriminate|].
  pose proof (entry_cstring e E) as Ce. pose proof (entry_no_newline e E) as Ne. destruct l as [|e' l].
  - split; [done|]. intros t T. apply Ne. change (entry_line e = t ++ [10]) in T. rewrite T. apply elem_of_app. right. by left.
  - change (iomem_body (e :: e' :: l)) with (entry_line e ++ 10 :: iomem_body (e' :: l)). split.
    + apply cstring_app. split; [done|]. by constructor.
    + intros t T. assert (Nb : iomem_body (e' :: l) <> []).
      { assert (forall x, entry_line x <> []) as Nl.
        { intros x B. unfold entry_line in B. apply app_eq_nil in B as [_ B]. by apply app_eq_nil in B as [_ B]. }
        destruct l; [apply Nl|]. intros B. apply app_eq_nil in B as [B _]. by apply Nl in B. }
      destruct (exists_last Nb) as (b & c & B). rewrite B, app_comm_cons, app_assoc in T.
      apply app_inj_tail in T as [_ T]. apply (N b). by rewrite B, T.
Qed.

(** The daemon sees all of its kernel's memory and nothing else.  On a
    [/proc/iomem] in the kernel's format, nested to any depth,
    [iomem_system_ram] returns 0 and adds exactly the addresses of the
    entries named [System RAM], hot-added RAM ([System RAM (driver)])
    included. *)
Theorem iomem_system_ram_exact `{AllocOk} `{Files} path l ram :
  Forall entry_ok l -> l <> [] -> rs_wf ram -> file_read path = Ok (iomem_text l) ->
  exists out, iomem_system_ram path ram = Ok out /\ rs_wf out /\
    forall x, rs_mem out x <-> rs_mem ram x \/ ram_address l x.
Proof.
  intros F N W R. unfold iomem_system_ram, file_read_string. rewrite R, iomem_text_body by done.
  destruct (iomem_body_facts l F) as [C E]. rewrite strip_last_newline, cstr_of_cstring by done.
  apply iomem_lines_spec; [done|done|lia].
Qed.

Definition demo_iomem : list iomem_entry :=
  [mk_entry 0 0x1000 0x9fbff (str "System RAM"); mk_entry 1 0x2000 0x2fff (str "Kernel code");
   mk_entry 0 0xa0000 0xfffff (str "Reserved"); mk_entry 0 0x100000000 0x13fffffff (str "System RAM (multikernel)")].
Definition demo_iomem_files : Files := {|
  file_read _ := Ok (iomem_text demo_iomem); dir_list _ := Err ENOENT |}.

Lemma iomem_system_ram_exact_witness :
  exists out, @iomem_system_ram alloc_always demo_iomem_files (str "/proc/iomem") RANGESET_INIT = Ok out /\ rs_wf out /\
    forall x, rs_mem out x <-> rs_mem RANGESET_INIT x \/ ram_address demo_iomem x.
Proof.
  apply (iomem_system_ram_exact (H := alloc_always) (H1 := demo_iomem_files) (str "/proc/iomem") demo_iomem RANGESET_INIT);
    [|done|by split; [|unfold rs_count; cbn; lia]|reflexivity].
  repeat (constructor; [split; [cbn [ie_start ie_end]; lia|split; [repeat constructor; vm_compute; split; reflexivity|
    intros I; apply list_elem_of_In in I; vm_compute in I; intuition discriminate]]|]). constructor.
Defined.

(** *** The claim file *)

Lemma scan_lhex_alt v rest :
  is_u64 v -> has_digit 16 rest = false -> toupper (c0 rest) <> ch "X" -> scan_lhex (hex_alt v ++ rest) = Some (v, rest).
Proof.
  intros V R X. unfold scan_lhex, hex_alt. destruct (Z.eqb_spec v 0) as [->|N].
  - assert (H0 : is_hex (str "0")) by (split; [done|by repeat constructor]).
    rewrite (strtoull_hex (str "0") rest H0 ltac:(done) R X). rewrite bool_decide_eq_false_2; [done|].
    intros E. apply (f_equal length) in E. rewrite length_app in E. cbn in E. lia.
  - destruct (hex_is_hex v V) as [Hx Vx]. rewrite <- app_assoc.
    rewrite (strtoull_0x (hex v) rest Hx) by (done || (rewrite Vx; unfold is_u64, UINT64_MAX in *; lia)).
    rewrite Vx, bool_decide_eq_false_2; [done|].
    intros E. apply (f_equal length) in E. rewrite !length_app in E. change (length (str "0x")) with 2%nat in E. lia.
Qed.

Lemma hex_alt_facts v : is_u64 v ->
  cstring (hex_alt v) /\ (length (hex_alt v) <= 18)%nat /\ isspace (c0 (hex_alt v)) = false /\ forall t, hex_alt v <> t ++ [10].
Proof.
  intros V. unfold hex_alt. destruct (Z.eqb_spec v 0) as [->|N].
  - split; [by repeat constructor|]. split; [cbn; lia|]. split; [done|]. intros [|? [|? ?]]; discriminate.
  - destruct (hex_is_hex v V) as [[Nx F] _]. pose proof (hex_length v V).
    assert (Fc : cstring (hex v)) by (eapply Forall_impl; [exact F|]; intros c D; apply hexdigit_facts in D; tauto).
    split; [apply cstring_app; split; [by repeat constructor|done]|].
    split; [rewrite length_app; change (length (str "0x")) with 2%nat; lia|]. split; [done|].
    intros t T. destruct (exists_last Nx) as (b & c & B). rewrite B, app_assoc in T. apply app_inj_tail in T as [_ ->].
    rewrite B, Forall_app in F. destruct F as [_ F]. apply Forall_cons in F as [D _]. by apply hexdigit_facts in D as (? & _).
Qed.

(** The memory a takeover keeps for the next pool is found again.
    Whatever non-empty range [pool_claim_write] records, [pool_claim_read]
    reads back from the file. *)
Theorem pool_claim_roundtrip `{Files} path r :
  range_u64 r -> r_size r <> 0 -> file_read path = Ok (pool_claim_text r) -> pool_claim_read path = Ok r.
Proof.
  intros [B S] N R. unfold pool_claim_read, file_read_string. rewrite R. unfold pool_claim_text.
  destruct (hex_alt_facts _ B) as (Cb & Lb & _ & _). destruct (hex_alt_facts _ S) as (Cs & Ls & Ss & Es).
  assert (L : Z.of_nat (length (hex_alt (r_base r) ++ str " " ++ hex_alt (r_size r) ++ [10])) < 64).
  { rewrite !length_app. change (length (str " ")) with 1%nat. change (length [10]) with 1%nat. lia. }
  rewrite (snprintf_short 64 _ L), !app_assoc, <- (app_assoc (hex_alt (r_base r))).
  assert (Nn : forall t, hex_alt (r_base r) ++ str " " ++ hex_alt (r_size r) <> t ++ [10]).
  { intros t T. assert (Ne : hex_alt (r_size r) <> []) by (unfold hex_alt; case_bool; done).
    destruct (exists_last Ne) as (b & c & E). rewrite E, !app_assoc in T. apply app_inj_tail in T as [_ ->]. by apply (Es b). }
  rewrite strip_last_newline by done.
  assert (Sp : cstring (str " ")) by (by repeat constructor).
  rewrite cstr_of_cstring by (rewrite !cstring_app; exact (conj Cb (conj Sp Cs))).
  rewrite (scan_lhex_alt _ (str " " ++ hex_alt (r_size r)) B eq_refl ltac:(done)).
  cbn [mbind option_bind]. change (skip_space (str " " ++ hex_alt (r_size r))) with (skip_space (hex_alt (r_size r))).
  replace (skip_space (hex_alt (r_size r))) with (hex_alt (r_size r) ++ []).
  2: { rewrite app_nil_r. destruct (hex_alt (r_size r)) as [|c t]; [done|]. cbn [skip_space c0] in *. by rewrite Ss. }
  rewrite (scan_lhex_alt _ [] S eq_refl ltac:(done)). cbn [mbind option_bind].
  destruct (Z.eqb_spec (r_size r) 0); [done|]. by destruct r.
Qed.

Definition demo_claim_files : Files := {|
  file_read _ := Ok (pool_claim_text (Range 0x100000000 0x10000000)); dir_list _ := Err ENOENT |}.

Lemma pool_claim_roundtrip_witness :
  @pool_claim_read demo_claim_files (str "/run/kmorph/pool-memory") = Ok (Range 0x100000000 0x10000000).
Proof. apply pool_claim_roundtrip; [by repeat split|done|reflexivity]. Defined.

(** *** The granule is never zero *)

Lemma strtoull16_range s : 0 <= (strtoull 16 s).1.1 <= UINT64_MAX.
Proof.
  split; [by apply strtoull_nonneg|]. unfold strtoull. cbv zeta.
  match goal with |- context [let '(neg, t) := ?x in _] => destruct x as [neg t] end.
  match goal with |- context [negb (has_digit 16 ?t')] => set (t2 := t') end.
  destruct (negb (has_digit 16 t2)); [cbn; unfold UINT64_MAX; lia|].
  pose proof (digits_nonneg 16 0 t2 ltac:(lia) ltac:(lia)). destruct (digits 16 0 t2) as [v rest]. cbn [fst] in *.
  destruct (Z.ltb_spec UINT64_MAX v); [cbn; lia|]. destruct neg; cbn [fst]; [|lia].
  pose proof (u64_range (- v)). unfold UINT64_MAX. lia.
Qed.

Lemma memblock_size_pos `{Files} path g : memblock_size path = Ok g -> 0 < g < two64.
Proof.
  unfold memblock_size. destruct (file_read_string path) as [text|]; [|done].
  pose proof (strtoull16_range text) as R. destruct (strtoull 16 text) as [[v e] r]. cbn [fst] in R.
  case_bool; [done|]. b2p. intros [= <-]. unfold UINT64_MAX in R. lia.
Qed.

(** *** What is read is well formed *)

Lemma iomem_lines_wf `{Alloc} fuel text ram out : rs_wf ram -> iomem_lines fuel text ram = Ok out -> rs_wf out.
Proof.
  revert text ram. induction fuel as [|fuel IH]; intros text ram W E; [by injection E as <-|].
  rewrite iomem_lines_unfold in E.
  assert (L : forall line r, iomem_line line ram = Ok r -> rs_wf r).
  { intros line r. unfold iomem_line, iomem_parse_line. cbv zeta. case_bool; [by intros [= <-]|].
    pose proof (strtoull16_range (skip_blanks line)) as R1. destruct (strtoull 16 (skip_blanks line)) as [[s p] ?]. cbn [fst] in R1.
    case_bool; [by intros [= <-]|].
    pose proof (strtoull16_range (drop 1 p)) as R2. destruct (strtoull 16 (drop 1 p)) as [[e q] ?]. cbn [fst] in R2.
    case_bool; [by intros [= <-]|]. case_bool; [|by intros [= <-]].
    unfold UINT64_MAX in *.
    pose proof (rangeset_add_ok ram s (u64 (e - s + 1)) W ltac:(unfold is_u64; lia) ltac:(apply u64_range)) as [W' _].
    destruct (rangeset_add _ _ _) as [[|] r']; [|done]. by intros [= <-]. }
  destruct (iomem_line _ ram) as [r|] eqn:E1; [|done]. apply L in E1.
  destruct (split_at 10 text).2; [by apply IH in E|]. by injection E as <-.
Qed.

Lemma iomem_wf `{Alloc} `{Files} path ram out : rs_wf ram -> iomem_system_ram path ram = Ok out -> rs_wf out.
Proof. intros W. unfold iomem_system_ram. destruct (file_read_string path); [|done]. by apply iomem_lines_wf. Qed.

(** A blob read from a file holds bytes. *)
Definition bytes (s : list Z) : Prop := Forall (fun b => 0 <= b < 256) s.
Definition tag_bytes {N} (t : tag N) : Prop := match t with FDT_PROP _ d => bytes d | _ => True end.
Definition blob_bytes (f : fdt) : Prop := Forall tag_bytes (fdt_struct f).
Definition machine_bytes (m : machine) : Prop :=
  forall h path f len, mc_tree m h path = Ok (f, len) -> blob_bytes f.

Lemma parse_props_bytes ts : Forall tag_bytes ts ->
  Forall (fun p => bytes p.2) (parse_props ts).1 /\ Forall tag_bytes (parse_props ts).2.
Proof.
  induction 1 as [|t ts T F [IH1 IH2]]; [by repeat constructor|].
  destruct t as [| |n d|]; cbn [parse_props]; try (split; [constructor|by constructor]).
  destruct (parse_props ts) as [ps rest]. cbn [fst snd] in *. split; [by constructor|done].
Qed.

Lemma tree_bytes f root : blob_bytes f -> tree_of f = Some root -> Forall (fun p => bytes p.2) (node_props root).
Proof.
  intros B. unfold tree_of. case_bool; [done|].
  assert (C : Forall tag_bytes (contents f)).
  { unfold contents. apply Forall_forall. intros t T. apply list_elem_of_fmap_1 in T as (u & -> & U).
    unfold blob_bytes in B. rewrite Forall_forall in B. apply B in U. by destruct u. }
  destruct (contents f) as [|[name| | |] ts]; [done| |done..]. cbn [parse_nodes]. apply Forall_cons in C as [_ C].
  pose proof (parse_props_bytes ts C) as [P _]. destruct (parse_props ts) as [ps rest]. cbn [fst] in P.
  destruct (parse_nodes _ rest) as [[ks [|[] r1]]|]; try done. destruct (parse_nodes _ r1) as [[sibs r2]|]; [|done].
  destruct sibs as [|s sibs]; [|done]. destruct r2 as [|[] [|? ?]]; try done. by intros [= <-].
Qed.

Lemma getprop_bytes n name d : Forall (fun p => bytes p.2) (node_props n) -> fdt_getprop n name = Some d -> bytes d.
Proof.
  unfold fdt_getprop. induction 1 as [|[k v] ps V _ IH]; cbn [prop_lookup]; [done|]. case_bool; [by intros [= <-]|done].
Qed.

Lemma memory_granule_range `{Alloc} m root path h g :
  machine_bytes m -> memory_granule m root path h = Ok g -> 0 < g < two64.
Proof.
  intros B. unfold memory_granule, mkfs_read_root_tree. cbv zeta.
  destruct (mc_tree m h _) as [[f len]|] eqn:T; [|apply memblock_size_pos].
  case_bool; [apply memblock_size_pos|]. unfold dt_read_memory_granule.
  destruct (fdtutil_check f len); [|apply memblock_size_pos].
  destruct (tree_of f) as [r|] eqn:R; [|apply memblock_size_pos]. unfold fdtutil_read_u64.
  destruct (fdt_getprop r _) as [d|] eqn:D; [|apply memblock_size_pos]. case_bool; [apply memblock_size_pos|].
  case_bool; [|apply memblock_size_pos]. b2p. intros [= <-].
  apply getprop_bytes in D; [|eapply tree_bytes; [by eapply B|done]].
  assert (Z8 : take 8 (drop (8 * 0) d) = d) by (rewrite drop_0, take_ge; [done|unfold zlen in *; lia]).
  unfold cell64 in *. rewrite Z8 in *. pose proof (be_val_bytes d 0 D ltac:(lia)) as V. fold (be_val d) in V.
  replace (zlen d) with 8 in V by lia. change (256 ^ 8) with two64 in V. lia.
Qed.
