(* ===== verification/Ops.v ===== *)
(** * kmorphd/ops.c: the takeover operations on the kernel interfaces

    [struct ops] with its environment, and fence, adopt, preserve and reap
    as functions on it and on the history of the machine ([Machine]).  How
    it resets the devices is in [Reset]. *)

From S2P Require Import Prelude Cstr Ranges Parse Files Fdt HostTree Takeable Dt Machine Mkfs Pci Reset Devtree Memory Netsnap.

(** ** State *)

Record ops_env : Type := mk_env {
  e_devtree_root : list Z;
  e_sysfs_root : list Z;
  e_iomem_path : list Z;
  e_mem_path : list Z;
  e_block_size_path : list Z;
  e_dump_path : option (list Z);
  e_pci_bus : list Z;
  e_reset_devices : bool;
  e_network : option netsnap;
  e_net_env : bool;
  e_net_restored_path : option (list Z);
  e_next_memory : Z;
  e_pool_claim_path : option (list Z) }.

Record ops : Type := mk_ops {
  o_env : ops_env;
  o_self : self_info;
  o_host : host_tree;
  o_iommus : rangelist;
  o_takeable : takeable;
  o_adoptable : rangeset;
  o_preserved : rangeset;
  o_pool_claim : range;
  o_foreign : list (list Z);
  o_devices_tried : bool;
  o_devices_adopted : Z }.

Definition o_with_takeable v o := mk_ops (o_env o) (o_self o) (o_host o) (o_iommus o) v (o_adoptable o) (o_preserved o) (o_pool_claim o) (o_foreign o) (o_devices_tried o) (o_devices_adopted o).
Definition o_with_adoptable v o := mk_ops (o_env o) (o_self o) (o_host o) (o_iommus o) (o_takeable o) v (o_preserved o) (o_pool_claim o) (o_foreign o) (o_devices_tried o) (o_devices_adopted o).
Definition o_with_preserved v o := mk_ops (o_env o) (o_self o) (o_host o) (o_iommus o) (o_takeable o) (o_adoptable o) v (o_pool_claim o) (o_foreign o) (o_devices_tried o) (o_devices_adopted o).
Definition o_with_pool_claim v o := mk_ops (o_env o) (o_self o) (o_host o) (o_iommus o) (o_takeable o) (o_adoptable o) (o_preserved o) v (o_foreign o) (o_devices_tried o) (o_devices_adopted o).
Definition o_with_tried v o := mk_ops (o_env o) (o_self o) (o_host o) (o_iommus o) (o_takeable o) (o_adoptable o) (o_preserved o) (o_pool_claim o) (o_foreign o) v (o_devices_adopted o).
Definition o_with_adopted v o := mk_ops (o_env o) (o_self o) (o_host o) (o_iommus o) (o_takeable o) (o_adoptable o) (o_preserved o) (o_pool_claim o) (o_foreign o) (o_devices_tried o) v.

Definition MK_ID_PREDECESSOR : Z := 0.

Section Ops.
Context `{Alloc} (m : machine).

(** ** Setting up *)

Definition is_foreign (env : ops_env) (h : history) (d : pci_ids) : bool :=
  negb (pci_is_bridge d)
  && negb (mc_exists m h (snprintf [] PATH_MAX (e_pci_bus env ++ str "/devices/" ++ pci_id d))).

Definition list_foreign (env : ops_env) (host : host_tree) (h : history) : result (list (list Z)) :=
  if negb (alloc ((zlen (ht_devices host) + 1) * 8)) then Err ENOMEM
  else Ok (map pci_id (List.filter (is_foreign env h) (ht_devices host))).

Definition ops_init (env : ops_env) (h : history) : result ops :=
  let? self := @devtree_read_self _ (mc_files m h) (e_devtree_root env) in
  let path := snprintf [] PATH_MAX (e_devtree_root env ++ str "/chosen/" ++ HOST_TREE_NODE) in
  let? host := @host_tree_read _ (mc_files m h) path in
  let? foreign := list_foreign env host h in
  let? iommus := @devtree_read_iommus _ (mc_files m h) (e_devtree_root env) in
  Ok (mk_ops env self host iommus TAKEABLE_NONE RANGESET_INIT RANGESET_INIT (Range 0 0) foreign false 0).

(** ** Fence *)

Definition ops_fence (h : history) : result unit * history := sys_fence m MK_ID_PREDECESSOR h.

(** ** What can be adopted *)

(** The first of the largest ranges. *)
Fixpoint largest_range (l : list range) (largest : option range) : option range :=
  match l with
  | [] => largest
  | r :: l =>
      largest_range l (match largest with
                       | None => Some r
                       | Some b => if r_size b <? r_size r then Some r else largest
                       end)
  end.

Definition pool_want (next_memory granule : Z) : Z :=
  u64 (u64 (u64 (next_memory + granule - 1) / granule * granule) + granule).

Definition keep_for_pool (o : ops) (granule : Z) (h : history) : result unit * ops * history :=
  let o := o_with_pool_claim (Range (r_base (o_pool_claim o)) 0) o in
  match e_pool_claim_path (o_env o) with
  | None => (Ok tt, o, h)
  | Some path =>
      if e_next_memory (o_env o) =? 0 then (Ok tt, o, h) else
      let want := pool_want (e_next_memory (o_env o)) granule in
      match largest_range (rs_r (o_adoptable o)) None with
      | None => (Ok tt, o, h)
      | Some largest =>
          if r_size largest <? want then (Ok tt, o, h) else
          let c := Range (u64 (u64 (r_base largest + r_size largest) - want)) want in
          let o := o_with_pool_claim c o in
          match pool_claim_write m path c h with
          | (Err _, h) => (Ok tt, o_with_pool_claim (Range (r_base c) 0) o, h)
          | (Ok _, h) =>
              let '(ret, adoptable) := rangeset_subtract (o_adoptable o) (r_base c) (r_size c) in
              (ret, o_with_adoptable adoptable o, h)
          end
      end
  end.

Definition plan_adoption (o : ops) (h : history) : result unit * ops * history :=
  let o := o_with_adoptable RANGESET_INIT (o_with_takeable TAKEABLE_NONE o) in
  match @iomem_system_ram _ (mc_files m h) (e_iomem_path (o_env o)) RANGESET_INIT with
  | Err e => (Err e, o, h)
  | Ok own_ram =>
      match takeable_compute (o_host o) own_ram (si_reserved (o_self o)) (si_own_cpus (o_self o)) with
      | Err e => (Err e, o, h)
      | Ok t =>
          let o := o_with_takeable t o in
          match memory_granule m (e_sysfs_root (o_env o)) (e_block_size_path (o_env o)) h with
          | Err e => (Err e, o, h)
          | Ok granule =>
              let '(ret, adoptable) := rangeset_align (tk_memory t) granule (o_adoptable o) in
              let o := o_with_adoptable adoptable o in
              match ret with
              | Err e => (Err e, o, h)
              | Ok _ => keep_for_pool o granule h
              end
          end
      end
  end.

(** ** Overlays *)

Definition apply_adopt (o : ops) (cpus : cpulist) (memory : rangeset) (h : history) : result unit * history :=
  match dt_build_adopt (si_name (o_self o)) cpus memory with
  | Err e => (Err e, h)
  | Ok dtbo => let '(ret, _, h) := mkfs_apply_overlay m (e_sysfs_root (o_env o)) dtbo h in (ret, h)
  end.

Definition adopt_device (o : ops) (id : list Z) (h : history) : result unit * history :=
  match dt_build_adopt_device (si_name (o_self o)) id with
  | Err e => (Err e, h)
  | Ok dtbo => let '(ret, _, h) := mkfs_apply_overlay m (e_sysfs_root (o_env o)) dtbo h in (ret, h)
  end.

Definition claim_iommu (o : ops) (base : Z) (h : history) : result unit * history :=
  match dt_build_iommu_add (si_name (o_self o)) base with
  | Err e => (Err e, h)
  | Ok dtbo => let '(ret, _, h) := mkfs_apply_overlay m (e_sysfs_root (o_env o)) dtbo h in (ret, h)
  end.

(** ** Devices *)

Fixpoint claim_each (o : ops) (units : rangelist) (h : history) : history :=
  match units with
  | [] => h
  | u :: units => let '(_, h) := claim_iommu o (r_base u) h in claim_each o units h
  end.

Definition claim_iommus (o : ops) (all_quiet : bool) (h : history) : history :=
  if negb all_quiet then h else claim_each o (o_iommus o) h.

(** The ids adopted so far and the first error. *)
Fixpoint adopt_each (o : ops) (ids adopted : list (list Z)) (first : result unit) (h : history)
    : list (list Z) * result unit * history :=
  match ids with
  | [] => (adopted, first, h)
  | id :: ids =>
      let '(ret, h) := adopt_device o id h in
      match ret with
      | Ok _ => adopt_each o ids (adopted ++ [id]) first h
      | Err e => adopt_each o ids adopted (match first with Ok _ => Err e | Err _ => first end) h
      end
  end.

Fixpoint probe_each (bus : list Z) (ids : list (list Z)) (h : history) : history :=
  match ids with
  | [] => h
  | id :: ids => let '(_, h) := pci_probe_driver m bus id h in probe_each bus ids h
  end.

(** Whether the bus is kept from probing drivers meanwhile. *)
Definition hold_drivers (o : ops) (h : history) : bool * history :=
  if e_reset_devices (o_env o) || negb (zlen (o_iommus o) =? 0) then
    match pci_set_autoprobe m (e_pci_bus (o_env o)) false h with
    | (Err _, h) => (false, h)
    | (Ok _, h) => (true, h)
    end
  else (false, h).

(** [devices_adopted] is 0 before, as [ops_adopt] calls this once. *)
Definition ops_adopt_devices (o : ops) (h : history) : result unit * ops * history :=
  if negb (alloc ((zlen (o_foreign o) + 1) * 8)) then (Err ENOMEM, o, h) else
  let iommus := negb (zlen (o_iommus o) =? 0) in
  let bus := e_pci_bus (o_env o) in
  let '(hold, h) := hold_drivers o h in
  let '(adopted, first, h) := adopt_each o (o_foreign o) [] (Ok tt) h in
  let o := o_with_adopted (o_devices_adopted o + zlen adopted) o in
  if negb hold then (first, o, if iommus then claim_iommus o false h else h) else
  let '(c, h) := reset_devices m bus adopted (e_reset_devices (o_env o)) h in
  let h := if iommus then claim_iommus o (is_ok first && (n_live c =? 0)) h else h in
  let '(_, h) := pci_set_autoprobe m bus true h in
  (first, o, probe_each bus adopted h).

(** ** Network *)

Fixpoint restored_list (s : netsnap) (restored : list bool) : list Z :=
  match s, restored with
  | l :: s, b :: restored => (if b : bool then l_name l ++ [10] else []) ++ restored_list s restored
  | _, _ => []
  end.

Definition restore_network (o : ops) (s : netsnap) (h : history) : history :=
  let '(n, restored) := mc_network m h in
  let h := h ++ [ANetwork] in
  match e_net_restored_path (o_env o) with
  | Some path => if n <=? 0 then h else let '(_, h) := sys_write m path (restored_list s restored) h in h
  | None => h
  end.

(** ** Adopt, preserve, reap *)

Definition ops_adopt (o : ops) (h : history) : result unit * ops * history :=
  let '(o, h) :=
    if o_devices_tried o then (o, h) else
    let '(_, o, h) := ops_adopt_devices (o_with_tried true o) h in
    match e_network (o_env o) with
    | Some s => (o, if e_net_env (o_env o) then restore_network o s h else h)
    | None => (o, h)
    end in
  match plan_adoption o h with
  | (Err e, o, h) => (Err e, o, h)
  | (Ok _, o, h) =>
      match e_dump_path (o_env o) with
      | Some _ =>
          match rangeset_copy (o_preserved o) (o_adoptable o) with
          | (Err e, p) => (Err e, o_with_preserved p o, h)
          | (Ok _, p) =>
              let o := o_with_preserved p o in
              let '(ret, h) := apply_adopt o (tk_cpus (o_takeable o)) RANGESET_INIT h in (ret, o, h)
          end
      | None =>
          let '(ret, h) := apply_adopt o (tk_cpus (o_takeable o)) (o_adoptable o) h in (ret, o, h)
      end
  end.

Definition ops_preserve (o : ops) (h : history) : result unit * history :=
  match e_dump_path (o_env o) with
  | None => (Ok tt, h)
  | Some path =>
      if zlen (rs_r (o_preserved o)) =? 0 then (Ok tt, h) else
      let ret := mc_dump m h path (tk_memory (o_takeable o)) in (ret, h ++ [ADump path (tk_memory (o_takeable o)) ret])
  end.

Definition ops_reap (o : ops) (h : history) : result unit * ops * history :=
  if zlen (rs_r (o_preserved o)) =? 0 then (Ok tt, o, h) else
  match apply_adopt o [] (o_preserved o) h with
  | (Ok _, h) => (Ok tt, o_with_preserved (rangeset_free (o_preserved o)) o, h)
  | (Err e, h) => (Err e, o, h)
  end.

End Ops.

(** ** What each operation adds to the history *)

Create HintDb ops.
#[export] Hint Resolve ext_one : ops.

(** Memory an overlay hands to this kernel, and an overlay that claims an
    IOMMU. *)
Definition adopts (b : fdt) (x : Z) : Prop :=
  exists root l base size, tree_of b = Some root /\ added_memory root = Some l /\ (base, size) ∈ l /\ base <= x < base + size.
Definition claims_iommu (b : fdt) : bool :=
  match tree_of b with
  | Some root => match descend root [str "fragment@0"; str "__overlay__"; str "iommu-add"] with Some _ => true | None => false end
  | None => false
  end.

(** An action that hands over no memory, and one that claims no IOMMU. *)
Definition no_memory (a : action) : Prop := match a with AOverlay _ b _ => forall x, ~ adopts b x | _ => True end.
Definition no_iommu_claim (a : action) : Prop := match a with AOverlay _ b _ => claims_iommu b = false | _ => True end.
Definition plain (a : action) : Prop := no_memory a /\ no_iommu_claim a /\ match a with AFence _ _ => False | _ => True end.

(** All a reset writes. *)
Lemma device_plain a : on_device a -> plain a.
Proof. by destruct a. Qed.

Lemma adopts_tree b root : tree_of b = Some root -> added_memory root = Some [] -> forall x, ~ adopts b x.
Proof. intros T A x (r & l & base & size & T' & A' & I & _). simplify_eq. by apply elem_of_nil in I. Qed.

Section Overlays.
Context `{AllocOk} (m : machine).

(** What a built overlay is, from the tree its builder writes. *)
Lemma adopt_overlay name cpus memory b :
  dt_build_adopt name cpus memory = Ok b -> rs_wf memory ->
  claims_iommu b = false /\ forall x, adopts b x <-> rs_mem memory x.
Proof.
  unfold dt_build_adopt. case_bool; [done|]. intros B [W _].
  pose proof (built_is _ _ _ (build_builds _ _ (emits_adopt name cpus memory)) B) as T.
  assert (R : Forall range_u64 (rs_r memory)).
  { apply wf_from_ends in W. eapply Forall_impl; [exact W|]. unfold range_u64, is_u64. intros r ?. lia. }
  assert (A : added_memory (adopt_tree name cpus memory) = Some (pairs (rs_r memory))).
  { pose proof (read_reg_nodes memory_node (rs_r memory) 0 ltac:(done) R) as Rm.
    unfold added_memory, add_nodes, adopt_tree. by destruct cpus, (rs_r memory). }
  split.
  - unfold claims_iommu. rewrite T. unfold adopt_tree. by destruct cpus, (rs_r memory).
  - intros x. unfold adopts, rs_mem, mem. rewrite Exists_exists. split.
    + intros (root & l & base & size & T' & A' & I & X). simplify_eq. unfold pairs in I.
      apply list_elem_of_fmap_1 in I as (r & [= -> ->] & I). exists r. done.
    + intros (r & I & X). exists (adopt_tree name cpus memory), (pairs (rs_r memory)), (r_base r), (r_size r).
      split; [done|]. split; [done|]. split; [|exact X]. unfold pairs. by apply (list_elem_of_fmap_2 (fun r => (r_base r, r_size r))).
Qed.

Lemma device_overlay name id b :
  dt_build_adopt_device name id = Ok b -> name_ok id -> claims_iommu b = false /\ forall x, ~ adopts b x.
Proof.
  intros B N. pose proof (built_is _ _ _ (build_builds _ _ (emits_adopt_device name id N)) B) as T.
  split; [unfold claims_iommu; by rewrite T|by apply (adopts_tree _ _ T)].
Qed.

Lemma iommu_overlay name base b :
  dt_build_iommu_add name base = Ok b -> claims_iommu b = true /\ forall x, ~ adopts b x.
Proof.
  intros B. pose proof (built_is _ _ _ (build_builds _ _ (emits_iommu_add name base)) B) as T.
  split; [unfold claims_iommu; by rewrite T|by apply (adopts_tree _ _ T)].
Qed.

Lemma apply_overlay_ext root b h :
  exists ret, (mkfs_apply_overlay m root b h).2 = h ++ [AOverlay (mkfs_path root (str "overlays/new")) b ret].
Proof.
  unfold mkfs_apply_overlay, sys_overlay. destruct (mc_overlay m h _ b) as [|e]; [|by eexists].
  cbv zeta. case_bool; [by eexists|]. destruct (sys_read_string _ _ _); by eexists.
Qed.

Lemma adopt_device_ext o id h : name_ok id -> ext plain h (adopt_device m o id h).2.
Proof.
  intros N. unfold adopt_device. destruct (dt_build_adopt_device _ id) as [b|] eqn:B; [|cbn; reflexivity].
  pose proof (device_overlay _ _ _ B N) as [I M]. destruct (apply_overlay_ext (e_sysfs_root (o_env o)) b h) as (r & E).
  destruct (mkfs_apply_overlay _ _ _ _) as [[ret tx] h']. cbn [snd] in *. subst h'. apply ext_one. by split.
Qed.

Lemma apply_adopt_ext o cpus memory h :
  rs_wf memory ->
  ext (fun a => match a with AOverlay _ b _ => claims_iommu b = false /\ forall x, adopts b x -> rs_mem memory x | _ => False end)
    h (apply_adopt m o cpus memory h).2.
Proof.
  intros W. unfold apply_adopt. destruct (dt_build_adopt _ cpus memory) as [b|] eqn:B; [|cbn; reflexivity].
  pose proof (adopt_overlay _ _ _ _ B W) as [I M]. destruct (apply_overlay_ext (e_sysfs_root (o_env o)) b h) as (r & E).
  destruct (mkfs_apply_overlay _ _ _ _) as [[ret tx] h']. cbn [snd] in *. subst h'. apply ext_one. split; [done|].
  intros x. by rewrite M.
Qed.

Lemma claim_iommu_ext o base h :
  ext (fun a => match a with AOverlay _ b _ => forall x, ~ adopts b x | _ => False end) h (claim_iommu m o base h).2.
Proof.
  unfold claim_iommu. destruct (dt_build_iommu_add _ base) as [b|] eqn:B; [|cbn; reflexivity].
  pose proof (iommu_overlay _ _ _ B) as [_ M]. destruct (apply_overlay_ext (e_sysfs_root (o_env o)) b h) as (r & E).
  destruct (mkfs_apply_overlay _ _ _ _) as [[ret tx] h']. cbn [snd] in *. subst h'. by apply ext_one.
Qed.

Lemma write_ext path data h : ext plain h (sys_write m path data h).2.
Proof. apply ext_one. by repeat split. Qed.

Lemma adopt_each_ext o ids adopted first h : Forall name_ok ids -> ext plain h (adopt_each m o ids adopted first h).2.
Proof.
  intros F. revert adopted first h. induction F as [|id ids N F IH]; intros adopted first h; cbn [adopt_each]; [reflexivity|].
  pose proof (adopt_device_ext o id h N) as A. destruct (adopt_device m o id h) as [[|e] h1]; etrans; [exact A|apply IH|exact A|apply IH].
Qed.

Lemma probe_each_ext bus ids h : ext plain h (probe_each m bus ids h).
Proof.
  revert h. induction ids as [|id ids IH]; intros h; cbn [probe_each]; [reflexivity|].
  pose proof (write_ext (snprintf [] PATH_MAX (bus ++ str "/drivers_probe")) id h) as W.
  fold (pci_probe_driver m bus id h) in W. destruct (pci_probe_driver m bus id h) as [r h1]. etrans; [exact W|apply IH].
Qed.

(** Everything but memory. *)
Definition harmless (a : action) : Prop := no_memory a /\ match a with AFence _ _ => False | _ => True end.

Lemma plain_harmless a : plain a -> harmless a.
Proof. by intros (? & ? & ?). Qed.

Lemma claim_each_ext o units h : ext harmless h (claim_each m o units h).
Proof.
  revert h. induction units as [|u units IH]; intros h; cbn [claim_each]; [reflexivity|].
  pose proof (claim_iommu_ext o (r_base u) h) as C. destruct (claim_iommu m o (r_base u) h) as [r h1].
  etrans; [eapply ext_weaken; [|exact C]|apply IH]. intros [] A; done.
Qed.

End Overlays.

(** ** Devices: quiet before the IOMMUs, the IOMMUs before the drivers *)

Lemma adopt_each_all m `{Alloc} o ids adopted first h :
  (adopt_each m o ids adopted first h).1.2 = Ok tt ->
  first = Ok tt /\ (adopt_each m o ids adopted first h).1.1 = adopted ++ ids.
Proof.
  revert adopted first h. induction ids as [|id ids IH]; intros adopted first h; cbn [adopt_each].
  { cbn [fst snd]. by rewrite app_nil_r. }
  destruct (adopt_device m o id h) as [[|e] h1]; intros E; apply IH in E as [F A].
  - split; [done|]. by rewrite A, <- app_assoc.
  - by destruct first.
Qed.

Lemma ext_elem (Q : action -> Prop) h new a : ext Q h (h ++ new) -> a ∈ new -> Q a.
Proof. intros (n & E & F) I. apply app_inv_head in E as ->. rewrite Forall_forall in F. by apply F. Qed.

Section Devices.
Context `{AllocOk} (m : machine) (o : ops) (h : history).
Hypothesis names : Forall name_ok (o_foreign o).

Lemma plain_no_claim a : plain a -> no_iommu_claim a.
Proof. by intros (? & ? & ?). Qed.

Lemma hold_drivers_ext : ext plain h (hold_drivers m o h).2.
Proof using Type.
  unfold hold_drivers. case_bool; [|reflexivity].
  pose proof (write_ext m (snprintf [] PATH_MAX (e_pci_bus (o_env o) ++ str "/drivers_autoprobe")) (str "0") h) as W.
  fold (pci_set_autoprobe m (e_pci_bus (o_env o)) false h) in W.
  by destruct (pci_set_autoprobe m (e_pci_bus (o_env o)) false h) as [[|] h'].
Qed.

(** Adopting devices hands over no memory. *)
Lemma devices_ext : ext harmless h (ops_adopt_devices m o h).2.
Proof using H0 names.
  unfold ops_adopt_devices. rewrite alloc_ok. cbn [negb]. cbv zeta.
  pose proof (ext_weaken _ _ _ _ plain_harmless hold_drivers_ext) as X1.
  destruct (hold_drivers m o h) as [hold h1]. cbn [snd] in X1.
  pose proof (adopt_each_ext m o (o_foreign o) [] (Ok tt) h1 names) as X2.
  destruct (adopt_each m o (o_foreign o) [] (Ok tt) h1) as [[adopted first] h2]. cbn [snd] in X2.
  apply (ext_weaken _ harmless) in X2; [|apply plain_harmless]. assert (X12 : ext harmless h h2) by (by etrans).
  destruct hold; cbn [negb snd].
  2: { case_bool; exact X12. }
  pose proof (reset_devices_ok m (e_pci_bus (o_env o)) adopted (e_reset_devices (o_env o)) h2) as X3.
  destruct (reset_devices _ _ _ _ _) as [c h3]. destruct X3 as [X3 _].
  apply (ext_weaken _ harmless) in X3; [|intros a A; by apply plain_harmless, device_plain]. assert (X13 : ext harmless h h3) by (by etrans).
  match goal with |- context [pci_set_autoprobe m ?b true ?h4] => set (h4' := h4); assert (X4 : ext harmless h h4') end.
  { unfold h4'. case_bool; [|done]. unfold claim_iommus. case_bool; [done|]. etrans; [exact X13|apply claim_each_ext]. }
  pose proof (write_ext m (snprintf [] PATH_MAX (e_pci_bus (o_env o) ++ str "/drivers_autoprobe")) (str "1") h4') as X5.
  unfold pci_set_autoprobe. destruct (sys_write m _ _ h4') as [r h5]. cbn [snd] in *.
  etrans; [exact X4|]. etrans; eapply ext_weaken; [apply plain_harmless|exact X5|apply plain_harmless|apply probe_each_ext].
Qed.

(** C4: an IOMMU of the dead host is claimed only once nothing behind it can
    still write memory.  If [ops_adopt_devices] hands the kernel any overlay
    that claims an IOMMU, then it returned 0 and every one of the
    predecessor's functions was adopted and, at some point of the history,
    either had just been reset, or had just had its bus mastering cleared, or
    was found with it off.  This holds however the children that reset the
    functions interleave, and whichever of them die. *)
Theorem iommus_claimed_only_when_quiet new a :
  (ops_adopt_devices m o h).2 = h ++ new -> a ∈ new -> ~ no_iommu_claim a ->
  let '(ret, o', h') := ops_adopt_devices m o h in
  ret = Ok tt /\ o_devices_adopted o' = o_devices_adopted o + zlen (o_foreign o) /\
  forall id, id ∈ o_foreign o -> exists hq, hq `prefix_of` h' /\ quiet m (e_pci_bus (o_env o)) id hq.
Proof using H0 names.
  unfold ops_adopt_devices. rewrite alloc_ok. cbn [negb]. cbv zeta.
  pose proof hold_drivers_ext as X1. destruct (hold_drivers m o h) as [hold h1]. cbn [snd] in X1.
  pose proof (adopt_each_ext m o (o_foreign o) [] (Ok tt) h1 names) as X2.
  pose proof (adopt_each_all m o (o_foreign o) [] (Ok tt) h1) as A2.
  destruct (adopt_each m o (o_foreign o) [] (Ok tt) h1) as [[adopted first] h2]. cbn [fst snd app] in X2, A2.
  assert (X12 : ext plain h h2) by (by etrans).
  destruct hold; cbn [negb snd].
  2: { intros E I N. exfalso. apply N, plain_no_claim. apply (ext_elem plain h new); [|done]. rewrite <- E. by case_bool. }
  pose proof (reset_devices_ok m (e_pci_bus (o_env o)) adopted (e_reset_devices (o_env o)) h2) as X3.
  destruct (reset_devices _ _ _ _ _) as [c h3]. destruct X3 as [X3 Q3]. apply (ext_weaken _ plain) in X3; [|apply device_plain].
  assert (X13 : ext plain h h3) by (by etrans).
  match goal with |- context [pci_set_autoprobe m ?b true ?h4] => set (h4' := h4) end.
  pose proof (write_ext m (snprintf [] PATH_MAX (e_pci_bus (o_env o) ++ str "/drivers_autoprobe")) (str "1") h4') as X5.
  fold (pci_set_autoprobe m (e_pci_bus (o_env o)) true h4') in X5.
  destruct (pci_set_autoprobe m (e_pci_bus (o_env o)) true h4') as [r h5]. cbn [snd] in *.
  pose proof (probe_each_ext m (e_pci_bus (o_env o)) adopted h5) as X6. intros E I N.
  destruct (is_ok first && (n_live c =? 0)) eqn:G.
  - b2p. destruct first as [[]|]; [|done]. destruct (A2 eq_refl) as [_ ->]. split; [done|]. split; [done|].
    intros id D. destruct (Q3 ltac:(done) id D) as (hq & P & Qh). exists hq. split; [|done]. etrans; [exact P|].
    assert (P4 : ext harmless h3 h4').
    { unfold h4', claim_iommus. case_bool; [apply claim_each_ext|reflexivity]. }
    destruct P4 as (n4 & -> & _), X5 as (n5 & -> & _), X6 as (n6 & E6 & _). rewrite E6. exists (n4 ++ n5 ++ n6). by rewrite !app_assoc.
  - exfalso. apply N, plain_no_claim. apply (ext_elem plain h new); [|done]. rewrite <- E.
    assert (h4' = h3) as E4 by (unfold h4'; by case_bool). rewrite E4 in X5.
    etrans; [exact X13|]. etrans; [exact X5|exact X6].
Qed.

End Devices.

(** ** Memory: only what is free, in whole granules *)

(** A union of whole granules. *)
Definition whole (g : Z) (P : Z -> Prop) : Prop := forall x y, y / g = x / g -> P x -> P y.

Lemma same_granule g e : 0 < g -> e mod g <> 0 -> (e - 1) / g = e / g.
Proof.
  intros G N. pose proof (Z.div_mod e g ltac:(lia)). pose proof (Z.mod_pos_bound e g G).
  symmetry. apply (Z.div_unique _ _ _ (e mod g - 1)); lia.
Qed.

Lemma granule_in g b n x y :
  0 < g -> b mod g = 0 -> n mod g = 0 -> y / g = x / g -> b <= y < b + n -> b <= x < b + n.
Proof.
  intros G B N E Y. pose proof (Z.div_mod b g ltac:(lia)) as Db. pose proof (Z.div_mod n g ltac:(lia)) as Dn.
  pose proof (Z.div_mod x g ltac:(lia)) as Dx. pose proof (Z.div_mod y g ltac:(lia)) as Dy.
  pose proof (Z.mod_pos_bound x g G). pose proof (Z.mod_pos_bound y g G). rewrite B in Db. rewrite N in Dn. rewrite E in Dy.
  assert (b / g <= x / g) by nia. assert (x / g < b / g + n / g) by nia. nia.
Qed.

Lemma range_end_out s r : rs_wf s -> r ∈ rs_r s -> ~ rs_mem s (r_base r + r_size r).
Proof.
  intros [W _]. unfold rs_mem. revert W. generalize (-1). induction (rs_r s) as [|q l IH]; intros lo W I; [by apply elem_of_nil in I|].
  destruct W as (H1 & H2 & H3 & H4). rewrite mem_cons. unfold in_range. apply elem_of_cons in I as [->|I].
  - intros [?|M]; [lia|]. apply (wf_from_mem _ _ _ H4) in M. lia.
  - intros [?|M]; [|by eapply IH]. apply wf_from_ends in H4. rewrite Forall_forall in H4. apply H4 in I. lia.
Qed.

Lemma largest_range_in l b r : largest_range l b = Some r -> b = Some r \/ r ∈ l.
Proof.
  revert b. induction l as [|q l IH]; intros b; cbn [largest_range]; [by left|]. intros E. apply IH in E as [E|E]; [|right; by right].
  destruct b as [b|]; [case_bool|]; simplify_eq; auto; right; by left.
Qed.

Lemma pool_want_spec n g : 0 < n -> 0 < g -> n + 2 * g < two64 ->
  pool_want n g = (n + g - 1) / g * g + g /\ n < pool_want n g < two64.
Proof.
  intros N G L. unfold pool_want. assert (0 <= (n + g - 1) / g * g <= n + g - 1).
  { split; [apply Z.mul_nonneg_nonneg; [apply Z.div_pos; lia|lia]|]. pose proof (Z.div_mod (n + g - 1) g ltac:(lia)).
    pose proof (Z.mod_pos_bound (n + g - 1) g G). lia. }
  assert (n <= (n + g - 1) / g * g).
  { pose proof (Z.div_mod (n + g - 1) g ltac:(lia)). pose proof (Z.mod_pos_bound (n + g - 1) g G). lia. }
  rewrite (u64_small (n + g - 1)), (u64_small ((n + g - 1) / g * g)), u64_small by lia. lia.
Qed.

(** The fields [keep_for_pool] and [plan_adoption] leave alone. *)
Definition same_frame (o o' : ops) : Prop :=
  o_env o' = o_env o /\ o_self o' = o_self o /\ o_host o' = o_host o /\ o_iommus o' = o_iommus o /\
  o_preserved o' = o_preserved o /\ o_foreign o' = o_foreign o /\
  o_devices_tried o' = o_devices_tried o /\ o_devices_adopted o' = o_devices_adopted o.

(** What keeping memory for the next pool leaves of the adoptable [a]. *)
Definition kept (m : machine) (g : Z) (a : rangeset) (o' : ops) (h h' : history) : Prop :=
  let c := o_pool_claim o' in
  (r_size c = 0 /\ o_adoptable o' = a /\ ext harmless h h') \/
  (0 < r_size c /\ r_base c mod g = 0 /\ r_size c mod g = 0 /\ e_next_memory (o_env o') < r_size c /\
   (forall x, in_range c x -> rs_mem a x) /\
   (forall x, rs_mem (o_adoptable o') x <-> rs_mem a x /\ ~ in_range c x) /\
   exists path, e_pool_claim_path (o_env o') = Some path /\ h' = h ++ [AWrite path (pool_claim_text c) (Ok tt)]).

Lemma keep_for_pool_ok `{Alloc} m o g h :
  rs_wf (o_adoptable o) -> 0 < g -> 0 <= e_next_memory (o_env o) -> e_next_memory (o_env o) + 2 * g < two64 ->
  whole g (rs_mem (o_adoptable o)) ->
  let '(ret, o', h') := keep_for_pool m o g h in
  same_frame o o' /\ o_takeable o' = o_takeable o /\ rs_wf (o_adoptable o') /\ ext harmless h h' /\
  (ret = Ok tt -> kept m g (o_adoptable o) o' h h').
Proof.
  intros W G N L Wh. unfold keep_for_pool. cbv zeta.
  assert (Skip : forall b h', ext harmless h h' -> let o' := o_with_pool_claim (Range b 0) o in
    same_frame o o' /\ o_takeable o' = o_takeable o /\ rs_wf (o_adoptable o') /\ ext harmless h h' /\
    ((Ok tt : result unit) = Ok tt -> kept m g (o_adoptable o) o' h h')).
  { intros b h' X. cbv zeta. split; [by repeat split|]. split; [done|]. split; [done|]. split; [done|]. intros _. by left. }
  cbn [o_env o_with_pool_claim o_adoptable].
  destruct (e_pool_claim_path (o_env o)) as [path|] eqn:Ep; [|apply Skip; reflexivity].
  destruct (Z.eqb_spec (e_next_memory (o_env o)) 0); [apply Skip; reflexivity|].
  destruct (pool_want_spec (e_next_memory (o_env o)) g ltac:(lia) G L) as [Ew Lw].
  destruct (largest_range _ None) as [r|] eqn:El; [|apply Skip; reflexivity].
  apply largest_range_in in El as [?|I]; [done|].
  destruct (Z.ltb_spec (r_size r) (pool_want (e_next_memory (o_env o)) g)); [apply Skip; reflexivity|].
  pose proof (wf_from_ends _ _ (proj1 W)) as We. rewrite Forall_forall in We. destruct (We r I) as (Rb & Rs & Re).
  set (want := pool_want (e_next_memory (o_env o)) g) in *.
  rewrite (u64_small (r_base r + r_size r)), u64_small by lia. unfold pool_claim_write, sys_write.
  destruct (mc_write m h path _) as [[]|e] eqn:Ew2.
  2: { apply Skip. apply ext_one. by split. }
  set (c := Range (r_base r + r_size r - want) want).
  assert (Cin : forall x, in_range c x -> rs_mem (o_adoptable o) x).
  { intros x X. unfold c, in_range in X. cbn [r_base r_size] in X. apply Exists_exists. exists r. split; [done|]. unfold in_range. lia. }
  assert (Em : (r_base r + r_size r) mod g = 0).
  { destruct (Z.eq_dec ((r_base r + r_size r) mod g) 0) as [|Ne]; [done|]. exfalso. apply (range_end_out _ _ W I).
    apply (Wh (r_base r + r_size r - 1)); [symmetry; by apply same_granule|]. apply Exists_exists. exists r. split; [done|]. unfold in_range. lia. }
  assert (Wm : want mod g = 0) by (rewrite Ew, Z.add_mod, Z.mod_mul, Z.mod_same, Z.mod_0_l; lia).
  pose proof (rangeset_subtract_ok (o_adoptable o) (r_base c) (r_size c) W ltac:(unfold is_u64, c; cbn [r_base r_size]; lia) ltac:(unfold is_u64, c; cbn [r_base r_size]; lia)) as [Ws Ms].
  cbn [o_with_pool_claim o_adoptable]. destruct (rangeset_subtract (o_adoptable o) (r_base c) (r_size c)) as [ret a'] eqn:Es.
  cbn [fst snd] in Ws, Ms. split; [by repeat split|]. split; [done|]. split; [done|].
  split; [apply ext_one; by split|]. intros ->. destruct Ms as (_ & _ & Ms). right.
  cbn [o_pool_claim o_with_adoptable o_with_pool_claim o_env o_adoptable]. change (r_size c) with want.
  split; [lia|]. split; [unfold c; cbn [r_base]; rewrite Zminus_mod, Em, Wm; apply Z.mod_0_l; lia|]. split; [done|].
  split; [lia|]. split; [done|]. split; [exact Ms|]. exists path. split; [done|]. done.
Qed.

(** What the planning established: the RAM this kernel had then, the granule,
    and that every address adoptable or kept is free. *)
Record planned (m : machine) (o : ops) (own : rangeset) (g : Z) : Prop := {
  pl_wf : rs_wf (o_adoptable o);
  pl_granule : 0 < g;
  pl_free : forall x, rs_mem (o_adoptable o) x -> free_address (o_host o) own (si_reserved (o_self o)) x;
  pl_whole : whole g (rs_mem (o_adoptable o));
  pl_claim : forall x, in_range (o_pool_claim o) x ->
    free_address (o_host o) own (si_reserved (o_self o)) x /\ ~ rs_mem (o_adoptable o) x;
  pl_all : forall x, (forall y, y / g = x / g -> free_address (o_host o) own (si_reserved (o_self o)) y) ->
    rs_mem (o_adoptable o) x \/ in_range (o_pool_claim o) x }.

(** What the daemon's state needs of the machine it was set up on. *)
Record ops_ok (o : ops) : Prop := {
  ok_ram : rs_wf (ht_ram (o_host o));
  ok_reserved : rs_wf (si_reserved (o_self o));
  ok_low : Forall (fun r => r_base r + r_size r <= 2 ^ 63) (rs_r (ht_ram (o_host o)));
  ok_next : 0 <= e_next_memory (o_env o) < 2 ^ 62;
  ok_names : Forall name_ok (o_foreign o) }.

(** The granules a kernel may use: up to 2^61 bytes. *)
Definition granule_sane (m : machine) : Prop :=
  forall root path h g, @memory_granule alloc_always m root path h = Ok g -> g <= 2 ^ 61.

Lemma memory_granule_alloc (a b : Alloc) m root path h :
  @memory_granule a m root path h = @memory_granule b m root path h.
Proof. done. Qed.

Lemma whole_align g s a :
  0 < g -> (forall x, rs_mem a x <-> rs_mem RANGESET_INIT x \/ forall y, y / g = x / g -> rs_mem s y) -> whole g (rs_mem a).
Proof.
  intros G M x y E. rewrite !M. intros [X|X]; [by apply mem_nil in X|]. right. intros z Z. apply X. congruence.
Qed.

Lemma ram_low (s : rangeset) ht own reserved g :
  rs_wf s -> (forall x, rs_mem s x <-> free_address ht own reserved x) -> g <= 2 ^ 61 ->
  Forall (fun r => r_base r + r_size r <= 2 ^ 63) (rs_r (ht_ram ht)) ->
  Forall (fun r => r_base r + g <= two64) (rs_r s).
Proof.
  intros [W _] M G T. apply Forall_forall. intros r R. pose proof (wf_from_ends _ _ W) as We.
  rewrite Forall_forall in We, T. destruct (We r R) as (_ & P & _).
  assert (X : rs_mem s (r_base r)) by (apply Exists_exists; exists r; split; [done|unfold in_range; lia]).
  apply M in X as (X & _). apply Exists_exists in X as (q & Q & [_ U]). specialize (T q Q). cbn in T. lia.
Qed.

Lemma init_wf : rs_wf RANGESET_INIT.
Proof. split; [done|unfold rs_count; cbn; lia]. Qed.

Section Plan.
Context `{Alloc} (m : machine).
Hypothesis mb : machine_bytes m.
Hypothesis gs : granule_sane m.

(** The RAM of this kernel as the daemon reads it. *)
Definition own_ram (o : ops) (h : history) : result rangeset :=
  @iomem_system_ram _ (mc_files m h) (e_iomem_path (o_env o)) RANGESET_INIT.

Lemma plan_ok o h :
  ops_ok o ->
  let '(ret, o', h') := plan_adoption m o h in
  same_frame o o' /\ rs_wf (o_adoptable o') /\ ext harmless h h' /\
  (ret = Ok tt -> exists own g, own_ram o h = Ok own /\ planned m o' own g /\
     NoDup (tk_cpus (o_takeable o')) /\
     (forall id, id ∈ tk_cpus (o_takeable o') <-> free_cpu (o_host o) (si_own_cpus (o_self o)) id) /\
     (forall x, rs_mem (tk_memory (o_takeable o')) x <-> free_address (o_host o) own (si_reserved (o_self o)) x)).
Proof using mb gs.
  intros [Kr Ks Kl Kn _]. unfold plan_adoption. cbv zeta. cbn [o_with_adoptable o_with_takeable o_env o_host o_self o_adoptable].
  assert (Fail : forall (e : Z) t h', let o' := o_with_adoptable RANGESET_INIT (o_with_takeable t o) in
    same_frame o o' /\ rs_wf (o_adoptable o') /\ ext harmless h h /\ (Err e = Ok tt -> h' = h)).
  { intros e t h'. split; [by repeat split|]. split; [apply init_wf|]. split; [reflexivity|done]. }
  fold (own_ram o h). destruct (own_ram o h) as [own|e] eqn:Eo.
  2: { destruct (Fail e TAKEABLE_NONE h) as (? & ? & ? & _). done. }
  assert (Wo : rs_wf own) by (eapply (iomem_wf (H0 := mc_files m h)); [apply init_wf|exact Eo]).
  pose proof (takeable_compute_ok (o_host o) own (si_reserved (o_self o)) (si_own_cpus (o_self o)) Kr Wo Ks) as T.
  destruct (takeable_compute _ _ _ _) as [t|e].
  2: { destruct (Fail e TAKEABLE_NONE h) as (? & ? & ? & _). done. }
  destruct T as (Wt & Mt & Nt & Ct & _ & _).
  destruct (memory_granule m _ _ h) as [g|e] eqn:Eg.
  2: { destruct (Fail e t h) as (? & ? & ? & _). done. }
  pose proof (memory_granule_range _ _ _ _ _ mb Eg) as Rg.
  assert (Sg : g <= 2 ^ 61) by (eapply gs; rewrite (memory_granule_alloc _ H); exact Eg).
  pose proof (rangeset_align_ok (tk_memory t) g RANGESET_INIT Wt init_wf ltac:(lia) (ram_low _ _ _ _ g Wt Mt Sg Kl)) as [Wa Ma].
  destruct (rangeset_align (tk_memory t) g RANGESET_INIT) as [[[]|e] a] eqn:Ea; cbn [fst snd] in Wa, Ma.
  2: { split; [by repeat split|]. split; [done|]. split; [reflexivity|done]. }
  set (o1 := o_with_adoptable a (o_with_takeable t (o_with_adoptable RANGESET_INIT (o_with_takeable TAKEABLE_NONE o)))).
  assert (Wh : whole g (rs_mem a)) by (apply (whole_align g (tk_memory t)); [lia|done]).
  pose proof (keep_for_pool_ok m o1 g h Wa ltac:(lia) ltac:(cbn; lia) ltac:(cbn [o1 o_with_adoptable o_with_takeable o_env]; lia) Wh) as K.
  destruct (keep_for_pool m o1 g h) as [[ret o'] h']. destruct K as (Fr & Ft & Wk & X & K).
  split; [exact Fr|]. split; [done|]. split; [done|]. intros Er. specialize (K Er). exists own, g. split; [done|].
  destruct Fr as (Fe & Fs & Fh & _). cbn [o1 o_with_adoptable o_with_takeable o_env o_self o_host o_takeable o_adoptable] in *.
  rewrite Ft. split; [|done].
  assert (Free : forall x, rs_mem a x -> free_address (o_host o) own (si_reserved (o_self o)) x).
  { intros x X1. apply Mt. apply Ma in X1 as [X1|X1]; [by apply mem_nil in X1|by apply X1]. }
  assert (All : forall x, (forall y, y / g = x / g -> free_address (o_host o) own (si_reserved (o_self o)) y) -> rs_mem a x).
  { intros x X1. apply Ma. right. intros y Y. by apply Mt, X1. }
  constructor; rewrite ?Fh, ?Fs; [done|lia|..]; destruct K as [(Cz & Ea' & _)|(Cp & Cb & Cs & _ & Ci & Cm & _)].
  - by rewrite Ea'.
  - intros x X1. by apply Free, Cm.
  - by rewrite Ea'.
  - intros x y E. rewrite !Cm. intros [X1 X2]. split; [by apply (Wh x)|]. unfold in_range in *. intros Y. apply X2.
    apply (granule_in g _ _ x y); done || lia.
  - intros x X1. exfalso. unfold in_range in X1. lia.
  - intros x X1. split; [by apply Free, Ci|]. rewrite Cm. tauto.
  - intros x X1. left. rewrite Ea'. by apply All.
  - intros x X1. apply All in X1. rewrite Cm. destruct (decide (r_base (o_pool_claim o') <= x < r_base (o_pool_claim o') + r_size (o_pool_claim o'))).
    + by right.
    + left. split; [done|]. unfold in_range. done.
Qed.

End Plan.

(** ** A concrete machine *)

(** A kernel that applies every overlay and succeeds at everything; it has
    256 MiB of its own below a host with 2 GiB and adds memory in 128 MiB
    blocks. *)
Definition demo_tree : list (list Z * list Z) :=
  [(str "/proc/iomem", iomem_text [mk_entry 0 0 0xfffffff (str "System RAM")]);
   (str "/mk/overlays/tx_0/status", str "applied" ++ [10]);
   (str "/block_size", str "8000000" ++ [10])].
Definition demo_files : Files := {|
  file_read p := match List.find (fun e => streq (fst e) p) demo_tree with Some e => Ok e.2 | None => Err ENOENT end;
  dir_list _ := Ok [str "new"; str "tx_0"] |}.
Definition demo_machine : machine := {|
  mc_files _ := demo_files;
  mc_exists _ _ := false;
  mc_write _ _ _ := Ok tt;
  mc_overlay _ _ _ := Ok tt;
  mc_tree _ _ := Err ENOENT;
  mc_command _ _ := Ok (Some (6, 4));
  mc_set_command _ _ _ := true;
  mc_fence _ _ := Ok tt;
  mc_fork _ _ := true;
  mc_alive _ _ _ := true; mc_schedule _ _ := 0%nat;
  mc_network _ := (0, []);
  mc_dump _ _ _ := Ok tt |}.

Definition demo_env (dump : option (list Z)) : ops_env :=
  mk_env (str "/dt") (str "/mk") (str "/proc/iomem") (str "/dev/mem") (str "/block_size") dump (str "/pci") true
    None false None 0x8000000 (Some (str "/run/claim")).
Definition demo_ops (dump : option (list Z)) : ops :=
  mk_ops (demo_env dump) (mk_self (str "standby") 1 [3] (Rangeset [Range 0x10000000 0x1000] 8))
    (mk_host_tree [0; 1; 2; 3] (Rangeset [Range 0 0x80000000] 8) [] VMCORE_INFO_INIT)
    [Range 0xfed90000 0x1000] TAKEABLE_NONE RANGESET_INIT RANGESET_INIT (Range 0 0) [str "0000:00:03.0"] false 0.

Lemma demo_machine_bytes : machine_bytes demo_machine.
Proof. intros h path f len. discriminate. Qed.

Lemma demo_granule_sane : granule_sane demo_machine.
Proof.
  intros root path h g E. change (memblock_size (H := demo_files) path = Ok g) in E.
  unfold memblock_size, file_read_string in E. cbn [file_read demo_files] in E.
  destruct (List.find _ demo_tree) as [e|] eqn:F; [|discriminate]. apply List.find_some in F as [F _].
  unfold demo_tree in F. cbn [List.In] in F. destruct F as [<- | [<- | [<- | []]]]; vm_compute in E; try discriminate.
  injection E as <-. lia.
Qed.

Lemma demo_ops_ok dump : ops_ok (demo_ops dump).
Proof.
  constructor; cbn [demo_ops o_host o_self o_env o_foreign ht_ram si_reserved demo_env e_next_memory rs_r];
    [split; [by repeat split|unfold rs_count; cbn; lia]..| | |].
  - repeat constructor. cbn. lia.
  - lia.
  - repeat constructor.
Qed.

Definition demo_devices : history := (ops_adopt_devices (H := alloc_always) demo_machine (demo_ops None) []).2.

Lemma iommus_claimed_only_when_quiet_witness :
  let '(ret, o', h') := ops_adopt_devices (H := alloc_always) demo_machine (demo_ops None) [] in
  ret = Ok tt /\ o_devices_adopted o' = o_devices_adopted (demo_ops None) + zlen (o_foreign (demo_ops None)) /\
  forall id, id ∈ o_foreign (demo_ops None) ->
    exists hq, hq `prefix_of` h' /\ quiet demo_machine (e_pci_bus (o_env (demo_ops None))) id hq.
Proof.
  apply (iommus_claimed_only_when_quiet (H := alloc_always) demo_machine (demo_ops None) [] ltac:(by repeat constructor)
    demo_devices (List.nth 3 demo_devices ANetwork)); [exact (eq_refl demo_devices)| |vm_compute; discriminate].
  apply list_elem_of_In, List.nth_In. vm_compute. lia.
Defined.
