(* ===== verification/System.v ===== *)
(** * The takeover as the kernel sees it

    kmorphd/takeover.c driving kmorphd/ops.c: the state machine of
    [Takeover] over the operations of [Ops], whose world is the daemon's
    state and the history of the machine.  A run is fed what main.c feeds it:
    probes, an accepted handover, which forgoes the dump, and a new network
    identity.  The theorems are about that history. *)

From S2P Require Import Prelude Cstr Ranges Parse Files Fdt HostTree Takeable Dt Request Netsnap Takeover Daemon Machine Mkfs Pci Reset Devtree Memory Ops.

(** ** What main.c changes of the environment *)

Definition env_with_dump v e := mk_env (e_devtree_root e) (e_sysfs_root e) (e_iomem_path e) (e_mem_path e) (e_block_size_path e) v (e_pci_bus e) (e_reset_devices e) (e_network e) (e_net_env e) (e_net_restored_path e) (e_next_memory e) (e_pool_claim_path e).
Definition env_with_network v e := mk_env (e_devtree_root e) (e_sysfs_root e) (e_iomem_path e) (e_mem_path e) (e_block_size_path e) (e_dump_path e) (e_pci_bus e) (e_reset_devices e) v (e_net_env e) (e_net_restored_path e) (e_next_memory e) (e_pool_claim_path e).
Definition o_with_env v o := mk_ops v (o_self o) (o_host o) (o_iommus o) (o_takeable o) (o_adoptable o) (o_preserved o) (o_pool_claim o) (o_foreign o) (o_devices_tried o) (o_devices_adopted o).

(** What reaches the daemon: the end of a probe, a request to hand over, a
    network identity that parses. *)
Inductive input : Type := Probe (r : probe_result) | Handover | Identity (s : netsnap).

Section System.
Context `{AllocOk} (m : machine).
Hypothesis mb : machine_bytes m.
Hypothesis gs : granule_sane m.

(** The [int] the state machine gets; an errno is never 0. *)
Definition op_ret (r : result unit) : Z := match r with Ok _ => 0 | Err e => - Z.max 1 e end.

Lemma op_ret_ok r : op_ret r = 0 <-> r = Ok tt.
Proof. destruct r as [[]|e]; cbn; split; intros E; done || lia. Qed.

(** [ops_takeover_base] *)
#[export] Instance ops_takeover_base : TakeoverOps (ops * history) := {|
  op_fence w := let '(r, h) := ops_fence m w.2 in (op_ret r, (w.1, h));
  op_adopt w := let '(r, o, h) := ops_adopt m w.1 w.2 in (op_ret r, (o, h));
  op_preserve w := let '(r, h) := ops_preserve m w.1 w.2 in (op_ret r, (w.1, h));
  op_reap w := let '(r, o, h) := ops_reap m w.1 w.2 in (op_ret r, (o, h));
  on_state _ _ w := w |}.

(** ** Nothing before the fence *)

Definition is_fence (a : action) : Prop := match a with AFence _ _ => True | _ => False end.
Definition FENCED : action := AFence MK_ID_PREDECESSOR (Ok tt).

(** Every other action has a fence that succeeded before it. *)
Definition guarded (h : history) : Prop :=
  forall h1 a h2, h = h1 ++ a :: h2 -> is_fence a \/ FENCED ∈ h1.

Lemma guarded_fence h id r : guarded h -> guarded (h ++ [AFence id r]).
Proof.
  intros G h1 a h2 E. destruct h2 as [|b h2] using rev_ind.
  - apply app_inj_tail in E as [_ <-]. by left.
  - rewrite app_comm_cons, app_assoc in E. apply app_inj_tail in E as [E _]. by apply (G _ _ _ E).
Qed.

Lemma guarded_app h new : guarded h -> FENCED ∈ h -> guarded (h ++ new).
Proof.
  intros G F h1 a h2 E. apply app_eq_inv in E as [(k & -> & E)|(k & -> & E)].
  - destruct k as [|b k]; [right; by rewrite app_nil_r in F|]. injection E as -> E. by apply (G h1 b k).
  - right. apply elem_of_app. by left.
Qed.

(** ** Only free memory *)

(** The memory the predecessor had, that the kernel does not reserve, and
    that this kernel did not itself have when the daemon last looked. *)
Definition once_free (o : ops) (h : history) (x : Z) : Prop :=
  rs_mem (ht_ram (o_host o)) x /\ ~ rs_mem (si_reserved (o_self o)) x /\
  exists hp own, hp `prefix_of` h /\ own_ram m o hp = Ok own /\ ~ rs_mem own x.

Definition memory_safe (o : ops) (h : history) : Prop :=
  forall path b r x, AOverlay path b r ∈ h -> adopts b x -> once_free o h x.

(** ** Dumped first *)

(** With a dump configured, memory is handed over only after a dump of it. *)
Definition dumped (h : history) (x : Z) : Prop := exists path mem, ADump path mem (Ok tt) ∈ h /\ rs_mem mem x.
Definition dump_first (o : ops) (h : history) : Prop :=
  e_dump_path (o_env o) <> None ->
  forall h1 path b r h2 x, h = h1 ++ AOverlay path b r :: h2 -> adopts b x -> dumped h1 x.

(** What stays as it was set up. *)
Definition constant (o o' : ops) : Prop :=
  o_env o' = o_env o /\ o_self o' = o_self o /\ o_host o' = o_host o /\ o_iommus o' = o_iommus o /\ o_foreign o' = o_foreign o.

Lemma constant_ok o o' : constant o o' -> ops_ok o -> ops_ok o'.
Proof. intros (Ee & Es & Eh & _ & Ef) []. constructor; by rewrite ?Ee, ?Es, ?Eh, ?Ef. Qed.

#[export] Instance constant_refl : Reflexive constant.
Proof. by repeat split. Qed.
#[export] Instance constant_trans : Transitive constant.
Proof. intros a b c (A1 & A2 & A3 & A4 & A5) (B1 & B2 & B3 & B4 & B5). repeat split; congruence. Qed.

Lemma once_free_mono o o' h h' x : constant o o' -> h `prefix_of` h' -> once_free o h x -> once_free o' h' x.
Proof.
  intros (Ee & Es & Eh & _) P (R & S & hp & own & Ph & O & N). unfold once_free, own_ram in *. rewrite Eh, Es, Ee.
  split; [done|]. split; [done|]. exists hp, own. split; [by etrans|done].
Qed.

Lemma ext_prefix Q h h' : ext Q h h' -> h `prefix_of` h'.
Proof. intros (new & -> & _). by exists new. Qed.

(** The invariant of a run. *)
Record good (o : ops) (h : history) : Prop := {
  gd_ok : ops_ok o;
  gd_guarded : guarded h;
  gd_safe : memory_safe o h;
  gd_dump : dump_first o h }.

(** Actions that hand over no memory keep it. *)
Lemma good_harmless o o' h h' :
  good o h -> constant o o' -> FENCED ∈ h -> ext harmless h h' -> good o' h'.
Proof.
  intros [K G S D] C F (new & -> & X). constructor.
  - by eapply constant_ok.
  - by apply guarded_app.
  - intros path b r x I A. apply elem_of_app in I as [I|I].
    + eapply once_free_mono; [exact C| |by eapply S]. by exists new.
    + rewrite Forall_forall in X. apply X in I as [I _]. by destruct (I x).
  - destruct C as (Ee & _). unfold dump_first in *. rewrite Ee. intros N h1 path b r h2 x E A.
    apply app_eq_inv in E as [(k & -> & E)|(k & -> & E)].
    + destruct k as [|a k].
      * cbn in E. subst new. apply Forall_cons in X as [[X _] _]. by destruct (X x).
      * injection E as <- E. by eapply (D N h1 path b r k).
    + rewrite E in X. apply Forall_app in X as [_ X]. apply Forall_cons in X as [[X _] _]. by destruct (X x).
Qed.

(** So does an overlay of memory that may be taken and, where a dump is
    configured, was dumped. *)
Lemma good_adopts o h memory new :
  good o h -> FENCED ∈ h -> (forall x, rs_mem memory x -> once_free o h x) ->
  (e_dump_path (o_env o) <> None -> forall x, rs_mem memory x -> dumped h x) ->
  ext (fun a => match a with AOverlay _ b _ => claims_iommu b = false /\ forall x, adopts b x -> rs_mem memory x | _ => False end) h new ->
  good o new.
Proof.
  intros [K G S D] F M Du (l & -> & X). constructor; [done|by apply guarded_app|..].
  - intros path b r x I A. eapply once_free_mono; [reflexivity|by exists l|]. apply elem_of_app in I as [I|I]; [by eapply S|].
    rewrite Forall_forall in X. apply X in I as [_ I]. by apply M, I.
  - intros N h1 path b r h2 x E A. apply app_eq_inv in E as [(k & -> & E)|(k & -> & E)].
    + destruct k as [|a k]; [|injection E as <- E; by eapply (D N h1 path b r k)].
      cbn in E. subst l. apply Forall_cons in X as [[_ X] _]. rewrite app_nil_r in Du. apply (Du N), X, A.
    + rewrite E in X. apply Forall_app in X as [_ X]. apply Forall_cons in X as [[_ X] _].
      destruct (Du N x (X x A)) as (p & mem & I & Mx). exists p, mem. split; [|done]. apply elem_of_app. by left.
Qed.

(** *** The operations *)

Lemma devices_constant o h : constant o (ops_adopt_devices m o h).1.2.
Proof.
  unfold ops_adopt_devices. case_bool; [reflexivity|]. cbv zeta. destruct (hold_drivers m o h) as [hold h1].
  destruct (adopt_each m o (o_foreign o) [] (Ok tt) h1) as [[adopted first] h2].
  destruct (negb hold); [by repeat split|]. destruct (reset_devices _ _ _ _ _) as [c h3].
  destruct (pci_set_autoprobe _ _ _ _). by repeat split.
Qed.

Lemma network_ext o s h : ext harmless h (restore_network m o s h).
Proof.
  unfold restore_network. destruct (mc_network m h) as [n restored].
  assert (X : ext harmless h (h ++ [ANetwork])) by (apply ext_one; by split).
  destruct (e_net_restored_path (o_env o)) as [path|]; [|done]. case_bool; [done|].
  etrans; [exact X|]. eapply ext_weaken; [apply plain_harmless|apply (write_ext m path)].
Qed.

(** The devices and the network, once. *)
Definition first_steps (o : ops) (h : history) : ops * history :=
  if o_devices_tried o then (o, h) else
  let '(_, o, h) := ops_adopt_devices m (o_with_tried true o) h in
  match e_network (o_env o) with
  | Some s => (o, if e_net_env (o_env o) then restore_network m o s h else h)
  | None => (o, h)
  end.

Lemma first_steps_ok o h :
  ops_ok o -> constant o (first_steps o h).1 /\ ext harmless h (first_steps o h).2.
Proof using H0.
  intros K. unfold first_steps. destruct (o_devices_tried o); [split; reflexivity|].
  pose proof (devices_constant (o_with_tried true o) h) as C.
  assert (Nm : Forall name_ok (o_foreign (o_with_tried true o))) by (by destruct K).
  pose proof (devices_ext m (o_with_tried true o) h Nm) as X.
  destruct (ops_adopt_devices m (o_with_tried true o) h) as [[r o1] h1]. cbn [fst snd] in *.
  assert (C1 : constant o o1) by (etrans; [|exact C]; by repeat split).
  destruct (e_network (o_env o1)) as [s|]; cbn [fst snd]; [|done]. split; [done|]. case_bool; [|done].
  etrans; [exact X|apply network_ext].
Qed.

(** What a successful adoption leaves for preserve and reap. *)
Definition held (o : ops) (h : history) : Prop :=
  rs_wf (o_preserved o) /\ (forall x, rs_mem (o_preserved o) x -> once_free o h x) /\
  (forall x, rs_mem (o_preserved o) x -> rs_mem (tk_memory (o_takeable o)) x).

(** Memory left over from an earlier takeover is not reaped: it is empty
    unless a dump is configured. *)
Definition idle (o : ops) : Prop := e_dump_path (o_env o) = None -> rs_r (o_preserved o) = [].

Lemma adopt_good o h :
  good o h -> FENCED ∈ h -> idle o ->
  let '(ret, o', h') := ops_adopt m o h in
  good o' h' /\ constant o o' /\ h `prefix_of` h' /\ idle o' /\ (ret = Ok tt -> rs_r (o_preserved o') <> [] -> held o' h').
Proof using H0 mb gs.
  intros Gd F Id. unfold ops_adopt.
  change (if o_devices_tried o then (o, h) else _) with (first_steps o h).
  assert (Id1 : forall o1, o_preserved o1 = o_preserved o -> constant o o1 -> idle o1).
  { intros o1 Ep (Ee & _). unfold idle. by rewrite Ee, Ep. }
  assert (P1 : o_preserved (first_steps o h).1 = o_preserved o).
  { unfold first_steps. destruct (o_devices_tried o); [done|]. unfold ops_adopt_devices. rewrite alloc_ok. cbn [negb]. cbv zeta.
    destruct (hold_drivers _ _ _) as [hold h1]. destruct (adopt_each _ _ _ _ _ _) as [[ad fi] h2].
    destruct (negb hold); [by destruct (e_network _)|]. destruct (reset_devices _ _ _ _ _). destruct (pci_set_autoprobe _ _ _ _).
    by destruct (e_network _). }
  destruct (first_steps_ok o h (gd_ok _ _ Gd)) as [C1 X1]. destruct (first_steps o h) as [o1 h1]. cbn [fst snd] in *.
  pose proof (good_harmless _ _ _ _ Gd C1 F X1) as G1. pose proof (ext_prefix _ _ _ X1) as Pr1.
  assert (F1 : FENCED ∈ h1) by (destruct Pr1 as (k & ->); apply elem_of_app; by left).
  pose proof (plan_ok m mb gs o1 h1 (gd_ok _ _ G1)) as P. destruct (plan_adoption m o1 h1) as [[ret o2] h2].
  destruct P as (Fr & Wa & X2 & P).
  assert (C2 : constant o1 o2) by (destruct Fr as (? & ? & ? & ? & ? & ? & _); done).
  assert (C02 : constant o o2) by (by etrans).
  pose proof (good_harmless _ _ _ _ G1 C2 F1 X2) as G2. pose proof (ext_prefix _ _ _ X2) as Pr2.
  assert (Pr02 : h `prefix_of` h2) by (by etrans).
  assert (F2 : FENCED ∈ h2) by (destruct Pr02 as (k & ->); apply elem_of_app; by left).
  assert (P2 : o_preserved o2 = o_preserved o) by (destruct Fr as (_ & _ & _ & _ & -> & _); done).
  destruct ret as [[]|e].
  2: { split; [done|]. split; [done|]. split; [done|]. split; [by apply Id1|done]. }
  destruct (P eq_refl) as (own & g & Eo & Pl & _ & _ & Mt).
  assert (Free : forall x, rs_mem (o_adoptable o2) x -> once_free o2 h2 x).
  { intros x X. destruct (pl_free _ _ _ _ Pl x X) as (R & N & S). split; [done|]. split; [done|].
    exists h1, own. split; [done|]. split; [|done]. destruct C2 as (Ee & _). unfold own_ram in *. by rewrite Ee. }
  assert (Take : forall x, rs_mem (o_adoptable o2) x -> rs_mem (tk_memory (o_takeable o2)) x).
  { intros x X. apply Mt. destruct C2 as (_ & Es & Eh & _). rewrite <- Es, <- Eh. by apply (pl_free _ _ _ _ Pl). }
  destruct (e_dump_path (o_env o2)) as [path|] eqn:Ed.
  - destruct (rangeset_copy_ok (o_preserved o2) (o_adoptable o2) Wa) as [Wp Mp].
    destruct (rangeset_copy (o_preserved o2) (o_adoptable o2)) as [[[]|e] p]; cbn [fst snd] in Wp, Mp; [|tauto].
    set (o3 := o_with_preserved p o2). assert (C3 : constant o2 o3) by (by repeat split).
    pose proof (apply_adopt_ext m o3 (tk_cpus (o_takeable o3)) RANGESET_INIT h2 init_wf) as X3.
    pose proof (good_harmless _ _ _ _ G2 C3 F2 ltac:(reflexivity)) as G3.
    destruct (apply_adopt m o3 _ RANGESET_INIT h2) as [ret h3]. cbn [snd] in X3. pose proof (ext_prefix _ _ _ X3) as Pr3.
    assert (G4 : good o3 h3).
    { eapply good_adopts; [exact G3|exact F2| | |exact X3]; [intros x X|intros _ x X]; by apply mem_nil in X. }
    split; [done|]. split; [by etrans|]. split; [by etrans|]. split; [unfold idle; cbn [o3 o_with_preserved o_env]; by rewrite Ed|].
    intros _ _. split; [done|]. unfold rs_mem. cbn [o3 o_with_preserved o_preserved o_takeable]. rewrite Mp.
    split; [|exact Take]. intros x X. eapply once_free_mono; [exact C3|exact Pr3|]. by apply Free.
  - pose proof (apply_adopt_ext m o2 (tk_cpus (o_takeable o2)) (o_adoptable o2) h2 Wa) as X3.
    destruct (apply_adopt m o2 _ (o_adoptable o2) h2) as [ret h3]. cbn [snd] in X3. pose proof (ext_prefix _ _ _ X3) as Pr3.
    assert (Id2 : idle o2) by (by apply Id1).
    split; [eapply good_adopts; [exact G2|exact F2|exact Free| |exact X3]; by rewrite Ed|].
    split; [done|]. split; [by etrans|]. split; [done|]. intros _ N. by destruct (N (Id2 Ed)).
Qed.

(** A failed copy, however unlikely, leaves nothing held; preserve dumps what
    reap will hand over. *)
Lemma preserve_good o h :
  good o h -> FENCED ∈ h -> held o h \/ rs_r (o_preserved o) = [] ->
  let '(ret, h') := ops_preserve m o h in
  good o h' /\ h `prefix_of` h' /\
  (ret = Ok tt -> rs_r (o_preserved o) <> [] -> e_dump_path (o_env o) <> None ->
     forall x, rs_mem (o_preserved o) x -> dumped h' x).
Proof.
  intros Gd F Hd. unfold ops_preserve. destruct (e_dump_path (o_env o)) as [path|] eqn:Ed; [|by split].
  destruct (Z.eqb_spec (zlen (rs_r (o_preserved o))) 0) as [Z|Z].
  { split; [done|]. split; [done|]. intros _ N. destruct (rs_r (o_preserved o)) as [|r l]; [done|].
    rewrite zlen_cons in Z. pose proof (zlen_nonneg l). lia. }
  set (ret := mc_dump m h path _). split; [|split].
  - eapply good_harmless; [exact Gd|reflexivity|exact F|]. apply ext_one. by split.
  - by eexists.
  - intros Er _ _ x X. exists path, (tk_memory (o_takeable o)). rewrite Er. split; [apply elem_of_app; right; by left|].
    destruct Hd as [(_ & _ & T)|E]; [by apply T|]. unfold rs_mem in X. rewrite E in X. by apply mem_nil in X.
Qed.

Lemma reap_good o h :
  good o h -> FENCED ∈ h -> idle o -> held o h \/ rs_r (o_preserved o) = [] ->
  (rs_r (o_preserved o) <> [] -> e_dump_path (o_env o) <> None -> forall x, rs_mem (o_preserved o) x -> dumped h x) ->
  let '(ret, o', h') := ops_reap m o h in good o' h' /\ constant o o' /\ idle o' /\ h `prefix_of` h'.
Proof using H0.
  intros Gd F Id Hd Du. unfold ops_reap. destruct (Z.eqb_spec (zlen (rs_r (o_preserved o))) 0) as [Z|Z]; [done|].
  assert (N : rs_r (o_preserved o) <> []) by (intros E; by rewrite E in Z).
  destruct Hd as [(W & Fr & _)|E]; [|done].
  pose proof (apply_adopt_ext m o [] (o_preserved o) h W) as X.
  destruct (apply_adopt m o [] (o_preserved o) h) as [[u|e] h']; cbn [snd] in X; pose proof (ext_prefix _ _ _ X) as P;
    (assert (G : good o h') by (eapply good_adopts; [exact Gd|exact F|exact Fr| |exact X]; intros D; by apply Du)); [|done].
  assert (F' : FENCED ∈ h') by (destruct P as (k & ->); apply elem_of_app; by left).
  split; [eapply good_harmless; [exact G| |exact F'|reflexivity]; by repeat split|]. split; [by repeat split|].
  split; [by unfold idle|done].
Qed.

(** *** The run *)

Definition settled (s : takeover_state) : bool := match s with TK_FENCED | TK_TAKEN_OVER => true | _ => false end.

Record run_inv (o0 : ops) (t : takeover) (w : ops * history) : Prop := {
  ri_good : good w.1 w.2;
  ri_const : constant o0 w.1;
  ri_idle : idle w.1;
  ri_fenced : settled (tk_state t) = true -> FENCED ∈ w.2 }.

Lemma continue_inv o0 t w :
  tk_state t = TK_FENCED -> run_inv o0 t w ->
  run_inv o0 (continue_takeover t w).1 (continue_takeover t w).2.
Proof using H0 mb gs.
  intros Ht [G C I F]. destruct w as [o h]. cbn [fst snd] in *. rewrite Ht in F. specialize (F eq_refl).
  unfold continue_takeover, step, set_state. cbn [op_adopt ops_takeover_base fst snd].
  pose proof (adopt_good o h G F I) as A. destruct (ops_adopt m o h) as [[r1 o1] h1]. destruct A as (G1 & C1 & P1 & I1 & Hd).
  assert (C01 : constant o0 o1) by (by etrans).
  assert (Fx : forall k, h `prefix_of` k -> FENCED ∈ k) by (intros k (n & ->); apply elem_of_app; by left).
  destruct (Z.eqb_spec (op_ret r1) 0) as [E1|E1]; cbn [negb].
  2: { constructor; cbn [fst snd]; auto. }
  apply op_ret_ok in E1 as ->.
  assert (Hd' : held o1 h1 \/ rs_r (o_preserved o1) = []).
  { destruct (decide (rs_r (o_preserved o1) = [])) as [|N]; [by right|left; by apply Hd]. }
  cbn [op_preserve ops_takeover_base fst snd].
  pose proof (preserve_good o1 h1 G1 (Fx _ P1) Hd') as B. destruct (ops_preserve m o1 h1) as [r2 h2]. destruct B as (G2 & P2 & Du).
  assert (P02 : h `prefix_of` h2) by (by etrans).
  destruct (Z.eqb_spec (op_ret r2) 0) as [E2|E2].
  - apply op_ret_ok in E2 as ->. cbn [op_reap ops_takeover_base fst snd].
    assert (Hd2 : held o1 h2 \/ rs_r (o_preserved o1) = []).
    { destruct Hd' as [(W & Fr & T)|E]; [left|by right]. split; [done|]. split; [|done]. intros x X.
      eapply once_free_mono; [reflexivity|exact P2|by apply Fr]. }
    pose proof (reap_good o1 h2 G2 (Fx _ P02) I1 Hd2 (Du eq_refl)) as R. destruct (ops_reap m o1 h2) as [[r3 o3] h3].
    destruct R as (G3 & C3 & I3 & P3). constructor; cbn [fst snd on_state ops_takeover_base]; auto; [by etrans|].
    intros _. apply Fx. by etrans.
  - constructor; cbn [fst snd on_state ops_takeover_base]; auto.
Qed.

Lemma begin_inv o0 t w :
  run_inv o0 t w -> run_inv o0 (begin_takeover t w).1 (begin_takeover t w).2.
Proof using H0 mb gs.
  intros [G C I _]. destruct w as [o h]. cbn [fst snd] in *.
  unfold begin_takeover, step, set_state. cbn [op_fence on_state ops_takeover_base fst snd]. unfold ops_fence, sys_fence.
  set (r := mc_fence m h MK_ID_PREDECESSOR). set (h1 := h ++ [AFence MK_ID_PREDECESSOR r]).
  assert (G1 : good o h1).
  { destruct G as [K Gg S D]. constructor; [done|by apply guarded_fence|..].
    - intros path b rr x Ix A. apply elem_of_app in Ix as [Ix|Ix]; [|by apply list_elem_of_singleton in Ix].
      eapply once_free_mono; [reflexivity|by eexists|by eapply S].
    - intros N k1 path b rr k2 x E A. destruct k2 as [|a k2] using rev_ind; [by apply app_inj_tail in E as [_ ?]|].
      rewrite app_comm_cons, app_assoc in E. apply app_inj_tail in E as [E _]. by eapply (D N). }
  destruct (Z.eqb_spec (op_ret r) 0) as [E|E]; cbn [negb].
  - apply continue_inv; [done|]. constructor; cbn [fst snd]; auto. intros _. apply op_ret_ok in E.
    unfold h1. rewrite E. apply elem_of_app. right. by left.
  - constructor; cbn [fst snd]; auto. done.
Qed.

Lemma handle_inv o0 t ev w : run_inv o0 t w -> run_inv o0 (takeover_handle t ev w).1 (takeover_handle t ev w).2.
Proof using H0 mb gs.
  intros R. assert (Same : forall t', settled (tk_state t') = true -> settled (tk_state t) = true -> run_inv o0 t' w).
  { intros t' S S'. destruct R. constructor; auto. }
  assert (Idle : forall t', settled (tk_state t') = false -> run_inv o0 t' w).
  { intros t' S. destruct R. constructor; auto. by rewrite S. }
  assert (Beg : forall t', settled (tk_state t') = false -> run_inv o0 (begin_takeover t' w).1 (begin_takeover t' w).2)
    by (intros t' S; by apply begin_inv, Idle).
  unfold takeover_handle, handle_watching, set_state. destruct (tk_state t) eqn:Hs.
  1, 2: destruct ev; cbn [tk_state with_silent on_state ops_takeover_base]; rewrite ?Hs; repeat case_bool; repeat case_decide;
    cbn [fst snd]; first [by apply Beg; cbn; rewrite Hs | by apply Idle; cbn; rewrite ?Hs | done].
  - done.
  - case_bool; [apply begin_inv|]; done.
  - by apply continue_inv.
  - done.
Qed.

(** A daemon as [ops_init] leaves it, before anything was done. *)
Definition starts (o : ops) : Prop := ops_ok o /\ rs_r (o_preserved o) = [].

(** *** What main.c feeds it *)

(** The machine, the last probe, and the daemon's state with the history. *)
Definition situation : Type := takeover * probe_result * (ops * history).

(** [deliver_probe]: the result is kept and, unless the probe failed here,
    becomes an event. *)
Definition act_probe (r : probe_result) (s : situation) : situation :=
  let '(t, _, w) := s in
  let '(t, w) := match r with
                 | PROBE_ALIVE => takeover_handle t TK_EV_PROBE_ALIVE w
                 | PROBE_SILENT => takeover_handle t TK_EV_PROBE_SILENT w
                 | PROBE_ERROR => (t, w)
                 end in (t, r, w).

(** [answer_handover]'s condition *)
Definition accepts_handover (s : situation) : bool :=
  bool_decide (tk_state s.1.1 = TK_ARMED) && bool_decide (s.1.2 = PROBE_ALIVE).

(** [take_handover]: no dump, and the event *)
Definition act_handover (s : situation) : situation :=
  let '(t, last, w) := s in
  let '(t, w) := takeover_handle t TK_EV_REQUEST (o_with_env (env_with_dump None (o_env w.1)) w.1, w.2) in (t, last, w).

(** [answer_network] of a text that parses: until the fence it replaces the
    identity. *)
Definition act_identity (n : netsnap) (s : situation) : situation :=
  let '(t, last, w) := s in
  if 2 <=? state_index (tk_state t) then s
  else (t, last, (o_with_env (env_with_network (Some n) (o_env w.1)) w.1, w.2)).

(** What the loop makes of an input.  A probe may end at any time here: that
    the daemon starts none once it has fenced only makes for fewer runs. *)
Definition act (s : situation) (i : input) : situation :=
  match i with
  | Probe r => act_probe r s
  | Handover => if accepts_handover s then act_handover s else s
  | Identity n => act_identity n s
  end.

(** The daemon's state and the machine's history after the inputs. *)
Definition life_on (o : ops) (timeouts retries : Z) (ins : list input) : situation :=
  foldl act (takeover_init timeouts retries, PROBE_ERROR, (o, [])) ins.

(** The predecessor handed over. *)
Definition handed_over (o : ops) (timeouts retries : Z) (ins : list input) : Prop :=
  exists before after, ins = before ++ Handover :: after /\
    tk_state (life_on o timeouts retries before).1.1 = TK_ARMED /\ (life_on o timeouts retries before).1.2 = PROBE_ALIVE.

(** What the inputs leave as it was set up. *)
Definition drift (o o' : ops) : Prop :=
  e_iomem_path (o_env o') = e_iomem_path (o_env o) /\ e_next_memory (o_env o') = e_next_memory (o_env o) /\
  o_self o' = o_self o /\ o_host o' = o_host o /\ o_foreign o' = o_foreign o.
#[local] Instance drift_refl : Reflexive drift.
Proof using Type. by repeat split. Qed.
#[local] Instance drift_trans : Transitive drift.
Proof using Type. intros a b c (A1 & A2 & A3 & A4 & A5) (B1 & B2 & B3 & B4 & B5). repeat split; congruence. Qed.
Lemma constant_drift o o' : constant o o' -> drift o o'.
Proof using Type. intros (Ee & Es & Eh & _ & Ef). unfold drift. by rewrite Ee. Qed.

Lemma once_free_drift o o' h x : drift o o' -> once_free o h x -> once_free o' h x.
Proof using Type.
  intros (Ei & _ & Es & Eh & _) (R & S & hp & own & Ph & O & N). unfold once_free, own_ram in *. rewrite Eh, Es, Ei. split; [done|]. split; [done|]. by exists hp, own.
Qed.

Record sys_inv (o0 : ops) (s : situation) : Prop := {
  sy_run : run_inv s.2.1 s.1.1 s.2;
  sy_drift : drift o0 s.2.1;
  sy_fresh : watching (tk_state s.1.1) = true -> rs_r (o_preserved s.2.1) = [] }.

(** While it watches, the machine leaves everything alone. *)
Lemma handle_watching_same t ev w :
  watching (tk_state (takeover_handle t ev w).1) = true -> watching (tk_state t) = true /\ (takeover_handle t ev w).2 = w.
Proof using Type.
  assert (Ct : forall t w, watching (tk_state t) = false -> watching (tk_state (continue_takeover t w).1) = false).
  { intros t' w' W. unfold continue_takeover, step, set_state. destruct (op_adopt w') as [r1 w1]. destruct (r1 =? 0); cbn [negb fst]; [|done].
    destruct (op_preserve w1) as [r2 w2]. destruct (r2 =? 0); [destruct (op_reap w2)|]; done. }
  assert (Bt : forall t w, watching (tk_state (begin_takeover t w).1) = false).
  { intros t' w'. unfold begin_takeover, step, set_state. destruct (op_fence _) as [r w1]. destruct (r =? 0); cbn [negb fst]; [|done]. by apply Ct. }
  unfold takeover_handle, handle_watching, set_state. destruct (tk_state t) eqn:Hs.
  1, 2: destruct ev; cbn [tk_state with_silent]; rewrite ?Hs; repeat case_bool; repeat case_decide; cbn [fst snd on_state ops_takeover_base];
    rewrite ?Bt; done.
  - cbn [fst]. by rewrite Hs.
  - case_bool; [by rewrite Bt|]. cbn [fst]. by rewrite Hs.
  - rewrite Ct; [done|by rewrite Hs].
  - cbn [fst]. by rewrite Hs.
Qed.

Lemma handle_sys o0 t last last' ev w :
  sys_inv o0 (t, last, w) -> sys_inv o0 (let '(t, w) := takeover_handle t ev w in (t, last', w)).
Proof using H0 mb gs.
  intros [R D Fr]. cbn [fst snd] in *. pose proof (handle_inv w.1 t ev w R) as R'. pose proof (handle_watching_same t ev w) as S.
  destruct (takeover_handle t ev w) as [t' w']. cbn [fst snd] in *. destruct R' as [G C I Fe]. constructor; cbn [fst snd].
  - by constructor.
  - etrans; [exact D|by apply constant_drift].
  - intros W. destruct (S W) as [W' ->]. by apply Fr.
Qed.

Lemma act_sys o0 s i : sys_inv o0 s -> sys_inv o0 (act s i).
Proof using H0 mb gs.
  intros S. destruct s as [[t last] [o h]]. pose proof S as [[[K G Sf D] C I Fe] Dr Fr]. cbn [fst snd] in *. destruct i as [[] | |n]; cbn [act act_probe act_handover act_identity]; unfold accepts_handover; cbn [fst snd].
  - by apply (handle_sys o0 t last).
  - by apply (handle_sys o0 t last).
  - by constructor.
  - case_bool; [|done]. apply andb_prop in Heqb as [B _]. apply bool_decide_eq_true in B. cbn [fst snd]. apply (handle_sys o0 t last).
    assert (Dn : drift o (o_with_env (env_with_dump None (o_env o)) o)) by (by repeat split).
    constructor; cbn [fst snd]; [|by etrans|done]. constructor; cbn [fst snd]; [|reflexivity|intros _; apply Fr; by rewrite B|done].
    constructor; [by destruct K; constructor|done| |by intros []]. intros path b r x In A. eapply once_free_drift; [exact Dn|]. by eapply Sf.
  - case_bool; [done|]. cbn [fst snd]. assert (Dn : drift o (o_with_env (env_with_network (Some n) (o_env o)) o)) by (by repeat split).
    constructor; cbn [fst snd]; [|by etrans|done]. constructor; cbn [fst snd]; [|reflexivity|exact I|done].
    constructor; [by destruct K; constructor|done| |exact D]. intros path b r x In A. eapply once_free_drift; [exact Dn|]. by eapply Sf.
Qed.

Lemma life_sys o timeouts retries ins : starts o -> sys_inv o (life_on o timeouts retries ins).
Proof using H0 mb gs.
  intros [K P]. unfold life_on. assert (S : sys_inv o (takeover_init timeouts retries, PROBE_ERROR, (o, []))).
  { constructor; cbn [fst snd]; [|reflexivity|done]. constructor; cbn [fst snd]; [|reflexivity|by unfold idle|done]. constructor; [done|..].
    - intros h1 a h2 E. by destruct h1.
    - intros path b r x I. by apply elem_of_nil in I.
    - intros _ h1 path b r h2 x E. by destruct h1. }
  revert S. match goal with |- sys_inv o ?s0 -> _ => generalize s0 end. induction ins as [|i ins IH]; intros s S; [done|]. apply IH. by apply act_sys.
Qed.

Lemma life_on_snoc o timeouts retries ins i : life_on o timeouts retries (ins ++ [i]) = act (life_on o timeouts retries ins) i.
Proof using Type. unfold life_on. by rewrite foldl_app. Qed.

(** The dump stays configured unless the predecessor hands over. *)
Lemma life_dump o timeouts retries ins :
  starts o -> e_dump_path (o_env (life_on o timeouts retries ins).2.1) = e_dump_path (o_env o) \/ handed_over o timeouts retries ins.
Proof using H0 mb gs.
  intros St. induction ins as [|i ins IH] using rev_ind; [by left|]. destruct IH as [E|(b & a & -> & X)].
  2: { right. exists b, (a ++ [i]). by rewrite <- app_assoc. }
  pose proof (life_sys o timeouts retries ins St) as [R _ _]. rewrite life_on_snoc.
  destruct (life_on o timeouts retries ins) as [[t last] w] eqn:L. cbn [fst snd] in *.
  assert (Hc : forall ev, e_dump_path (o_env (takeover_handle t ev w).2.1) = e_dump_path (o_env o)).
  { intros ev. destruct (handle_inv w.1 t ev w R) as [_ (Ee & _) _ _]. by rewrite Ee. }
  destruct i as [[] | |n]; cbn [act act_probe act_handover act_identity]; unfold accepts_handover; cbn [fst snd].
  - left. specialize (Hc TK_EV_PROBE_ALIVE). by destruct (takeover_handle t TK_EV_PROBE_ALIVE w).
  - left. specialize (Hc TK_EV_PROBE_SILENT). by destruct (takeover_handle t TK_EV_PROBE_SILENT w).
  - by left.
  - case_bool; [|by left]. apply andb_prop in Heqb as [B1 B2]. apply bool_decide_eq_true in B1, B2. right. exists ins, []. rewrite L. done.
  - left. case_bool; done.
Qed.

(** C1: nothing of the machine is touched before the fence.  Whatever probes,
    handovers and identities reach kmorphd and whatever the kernel answers,
    every overlay, every register write, every file written for drivers or
    the network and every dump comes after a fence of the predecessor that
    returned 0. *)
Theorem untouched_before_fence o timeouts retries ins h1 a h2 :
  starts o -> (life_on o timeouts retries ins).2.2 = h1 ++ a :: h2 -> ~ is_fence a -> FENCED ∈ h1.
Proof using H0 mb gs.
  intros S E N. destruct (life_sys o timeouts retries ins S) as [[[_ G _ _] _ _ _] _ _]. by destruct (G h1 a h2 E).
Qed.

(** C2: only memory that may be taken is taken.  Every address of memory that
    any overlay of any run hands to this kernel belongs to the machine's RAM
    in the host tree, is in none of the kernel's reserved regions, and was
    not this kernel's own memory when the daemon read [/proc/iomem] in that
    run. *)
Theorem adopted_memory_was_free o timeouts retries ins path b r x :
  starts o -> AOverlay path b r ∈ (life_on o timeouts retries ins).2.2 -> adopts b x ->
  once_free o (life_on o timeouts retries ins).2.2 x.
Proof using H0 mb gs.
  intros S I A. destruct (life_sys o timeouts retries ins S) as [[[_ _ Sf _] _ _ _] (Ei & En & Es & Eh & Ef) _].
  eapply once_free_drift; [|by eapply Sf]. by repeat split.
Qed.

(** C3: no memory of a predecessor that died is handed over before it was
    dumped.  With a dump configured, every address an overlay of any run
    hands over lies in memory that a dump which succeeded earlier in the
    history was given -- unless the predecessor, alive, handed the machine
    over itself, for then kmorphd forgoes the dump. *)
Theorem dumped_before_adopted o timeouts retries ins h1 path b r h2 x :
  starts o -> e_dump_path (o_env o) <> None ->
  (life_on o timeouts retries ins).2.2 = h1 ++ AOverlay path b r :: h2 -> adopts b x ->
  dumped h1 x \/ handed_over o timeouts retries ins.
Proof using H0 mb gs.
  intros S Dp E A. destruct (life_dump o timeouts retries ins S) as [Ed|Ho]; [left|by right].
  destruct (life_sys o timeouts retries ins S) as [[[_ _ _ D] _ _ _] _ _]. eapply D; [by rewrite Ed|exact E|exact A].
Qed.

End System.

(** ** A takeover on the concrete machine *)

(** Two silent probes, with or without a dump. *)
Definition demo_life (dump : option (list Z)) : situation :=
  life_on (H := alloc_always) demo_machine (demo_ops dump) 2 0 [Probe PROBE_SILENT; Probe PROBE_SILENT].
Definition demo_dump : option (list Z) := Some (str "/var/crash").

(** The blob and the result of the [n]th action. *)
Definition overlay_at (h : history) (n : nat) : fdt * result unit :=
  match List.nth n h ANetwork with AOverlay _ b r => (b, r) | _ => (fresh 0, Err EINVAL) end.

Definition adopts_b (b : fdt) (x : Z) : bool :=
  match tree_of b with
  | Some root => match added_memory root with
                 | Some l => existsb (fun p => (p.1 <=? x) && (x <? p.1 + p.2)) l
                 | None => false
                 end
  | None => false
  end.

Lemma adopts_b_ok b x : adopts_b b x = true -> adopts b x.
Proof.
  unfold adopts_b. destruct (tree_of b) as [root|] eqn:T; [|done]. destruct (added_memory root) as [l|] eqn:A; [|done].
  intros E. apply existsb_exists in E as ([base size] & I & X). cbn in X. b2p. exists root, l, base, size.
  split; [done|]. split; [done|]. split; [by apply list_elem_of_In|lia].
Qed.

Lemma demo_starts dump : starts (demo_ops dump).
Proof. split; [apply demo_ops_ok|reflexivity]. Qed.

Lemma untouched_before_fence_witness : FENCED ∈ take 1 (demo_life None).2.2.
Proof.
  apply (untouched_before_fence (H := alloc_always) demo_machine demo_machine_bytes demo_granule_sane (demo_ops None) 2 0
    [Probe PROBE_SILENT; Probe PROBE_SILENT] (take 1 (demo_life None).2.2) (List.nth 1 (demo_life None).2.2 ANetwork)
    (drop 2 (demo_life None).2.2)); [apply demo_starts|vm_compute; reflexivity|vm_compute; auto].
Defined.

Lemma adopted_memory_was_free_witness :
  once_free (H := alloc_always) demo_machine (demo_ops None) (demo_life None).2.2 0x20000000.
Proof.
  apply (adopted_memory_was_free (H := alloc_always) demo_machine demo_machine_bytes demo_granule_sane (demo_ops None) 2 0
    [Probe PROBE_SILENT; Probe PROBE_SILENT] (str "/mk/overlays/new") (overlay_at (demo_life None).2.2 8).1 (Ok tt));
    [apply demo_starts| |apply adopts_b_ok; vm_compute; reflexivity].
  apply list_elem_of_In. replace (AOverlay _ _ _) with (List.nth 8 (demo_life None).2.2 ANetwork) by (vm_compute; reflexivity).
  apply List.nth_In. vm_compute. lia.
Defined.

Lemma dumped_before_adopted_witness :
  dumped (take 10 (demo_life demo_dump).2.2) 0x20000000 \/ handed_over (H := alloc_always) demo_machine (demo_ops demo_dump) 2 0 [Probe PROBE_SILENT; Probe PROBE_SILENT].
Proof.
  apply (dumped_before_adopted (H := alloc_always) demo_machine demo_machine_bytes demo_granule_sane (demo_ops demo_dump) 2 0
    [Probe PROBE_SILENT; Probe PROBE_SILENT] (take 10 (demo_life demo_dump).2.2) (str "/mk/overlays/new")
    (overlay_at (demo_life demo_dump).2.2 10).1 (Ok tt) []);
    [apply demo_starts|discriminate|vm_compute; reflexivity|apply adopts_b_ok; vm_compute; reflexivity].
Defined.
