(* ===== verification/Arm.v ===== *)
(** * kmorph/arm.c: arming and disarming a successor

    [struct arm_hooks] with the system calls as functions of the machine's
    history, the pool, the host tree, the instance, the successor's initrd
    and command line, and the two commands built from them. *)

From S2P Require Import Prelude Cstr Ranges Parse Config Files Fdt HostTree Elfcore Cpio Madt Takeable Dt Machine Mkfs Pci Devtree Memory Crashinfo Devname Netsnap Ops.

Definition MEMORY_BLOCK_SIZE_FALLBACK : Z := 2 ^ 27.
Definition KMORPH_CONFIG_PATH : list Z := str "/etc/kmorph/kmorph.conf".
Definition NETSNAP_PATH : list Z := str "/etc/kmorph/network".
Definition DUMP_CMDLINE_PARAM : list Z := str "iomem=relaxed".

(** The hooks: what each system call answers, and the paths.  The last four
    fields are the other calls: [realpath], [stat] of a directory, reading
    [/proc/kcore], and the memory file with the writes to it. *)
Record arm_hooks : Type := mk_hooks {
  h_open_kernel : history -> list Z -> result unit;
  h_kexec_load : history -> option (list Z) -> list Z -> Z -> result unit;
  h_exec : history -> Z -> result unit;
  h_halt : history -> Z -> result unit;
  h_unload : history -> Z -> result unit;
  h_pci_root : list Z;
  h_block_size_path : list Z;
  h_madt_path : list Z;
  h_iomem_path : list Z;
  h_vmcoreinfo_path : list Z;
  h_cpu_root : list Z;
  h_kcore_path : list Z;
  h_default_initrd : list Z;
  h_class_root : list Z;
  h_usb_root : list Z;
  h_own_host_tree : option (list Z);
  h_dt_cpus : option (list Z);
  h_pool_claim_path : option (list Z);
  h_net_snapshot : option (history -> strlist -> result (Z * list Z));
  h_realpath : history -> list Z -> result (list Z);
  h_isdir : history -> list Z -> bool;
  h_kcore : history -> list Z -> result (list Z);
  h_memfd : history -> result unit }.

(** A [uint32_t] as the [int] the hooks take. *)
Definition to_int (n : Z) : Z := if n <? 2 ^ 31 then n else n - two32.

(** How many CPU directories there can be. *)
Definition MAX_CPUS : nat := Z.to_nat 65536.

Definition strlist_has (l : strlist) (s : list Z) : bool := existsb (fun x => streq x s) l.

Definition console_platform_devices (cfg : kmorph_config) : strlist :=
  match c_console cfg with Some _ => [str "serial8250"] | None => [] end.

(** ** The pool *)

Definition check_pool_fits (pool : pool_view) (cfg : kmorph_config) : result unit :=
  if negb (forallb (strlist_has (pv_platform_devices pool)) (console_platform_devices cfg)) then Err ENOENT
  else if negb (forallb (cpulist_has (pv_free_cpus pool)) (c_cpus cfg)) then Err ENOENT
  else if pv_free_bytes pool <? c_memory cfg then Err ENOSPC
  else Ok tt.

Section Arm.
Context `{Alloc} (m : machine) (k : arm_hooks) (root : list Z).

(** [name] of the configuration; the defaults give it one. *)
Definition cfg_name (cfg : kmorph_config) : list Z := default [] (c_name cfg).

Fixpoint lookup_each (names : strlist) (out : pci_list) (h : history) : result pci_list :=
  match names with
  | [] => Ok out
  | n :: names => let? d := @pci_read_ids (mc_files m h) (h_pci_root k) n in lookup_each names (out ++ [d]) h
  end.

Definition lookup_devices (cfg : kmorph_config) (h : history) : result pci_list :=
  if negb (alloc ((zlen (c_devices cfg) + 1) * 40)) then Err ENOMEM else lookup_each (c_devices cfg) [] h.

Definition write_baseline (cfg : kmorph_config) (pool_bytes : Z) (claim : option range) (devices : pci_list) (platform : strlist)
    (h : history) : result unit * history :=
  match dt_build_pool_baseline (mk_pool (c_cpus cfg) pool_bytes claim devices platform) with
  | Err e => (Err e, h)
  | Ok dtb => mkfs_write_baseline m root dtb h
  end.

Definition pool_bytes (cfg : kmorph_config) (h : history) : Z :=
  let granule := match memory_granule m root (h_block_size_path k) h with Ok g => g | Err _ => MEMORY_BLOCK_SIZE_FALLBACK end in
  u64 (c_memory cfg + granule).

Definition init_pool (cfg : kmorph_config) (h : history) : result unit * history :=
  match lookup_devices cfg h with
  | Err e => (Err e, h)
  | Ok devices =>
      let platform := console_platform_devices cfg in
      let bytes := pool_bytes cfg h in
      match h_pool_claim_path k with
      | Some path =>
          match @pool_claim_read (mc_files m h) path with
          | Ok claim =>
              let '(ret, h) := write_baseline cfg bytes (Some claim) devices platform h in
              let h := h ++ [AUnlink path] in
              match ret with
              | Ok _ => (Ok tt, h)
              | Err _ => write_baseline cfg bytes None devices platform h
              end
          | Err _ => write_baseline cfg bytes None devices platform h
          end
      | None => write_baseline cfg bytes None devices platform h
      end
  end.

(** How many were added. *)
Definition arm_pool_add_devices (cfg : kmorph_config) (pool : pool_view) (h : history) : result Z * history :=
  if negb (alloc ((zlen (c_devices cfg) + 1) * 8)) then (Err ENOMEM, h) else
  let missing := List.filter (fun d => negb (strlist_has (pv_devices pool) d)) (c_devices cfg) in
  if zlen missing =? 0 then (Ok 0, h) else
  match dt_build_pool_device_add missing with
  | Err e => (Err e, h)
  | Ok dtbo =>
      let '(ret, _, h) := mkfs_apply_overlay m root dtbo h in
      match ret with Err e => (Err e, h) | Ok _ => (Ok (zlen missing), h) end
  end.

Definition ensure_pool (cfg : kmorph_config) (h : history) : result unit * history :=
  match mkfs_read_root_tree m root h with
  | Err e => (Err e, h)
  | Ok (tree, len) =>
      match (if len =? 0 then Err ENOENT else dt_read_pool tree len) with
      | Err e => if e =? ENOENT then init_pool cfg h else (Err e, h)
      | Ok pool =>
          match check_pool_fits pool cfg with
          | Err e => (Err e, h)
          | Ok _ => let '(ret, h) := arm_pool_add_devices cfg pool h in
                    (match ret with Err e => Err e | Ok _ => Ok tt end, h)
          end
      end
  end.

(** ** The host tree *)

Definition read_crash_layout (h : history) (vi : vmcore_info) : vmcore_info :=
  let vmcoreinfo := match @crashinfo_read_vmcoreinfo (mc_files m h) (h_vmcoreinfo_path k) with Ok r => r | Err _ => vi_vmcoreinfo vi end in
  let notes := match @crashinfo_read_cpu_notes _ (mc_files m h) MAX_CPUS (h_isdir k h) (h_cpu_root k) with Ok l => l | Err _ => [] end in
  match crashinfo_read_page_offset (h_kcore k h (h_kcore_path k)) with
  | Ok off => mk_vmcore true off vmcoreinfo notes
  | Err _ => mk_vmcore (vi_has_page_offset vi) (vi_page_offset vi) vmcoreinfo notes
  end.

Definition inherit_cpus_from_own_host_tree (h : history) : cpulist :=
  match h_own_host_tree k with
  | Some dir => match @host_tree_read _ (mc_files m h) dir with Ok own => ht_cpus own | Err _ => [] end
  | None => []
  end.

Definition cpus_from_firmware_tree (h : history) : cpulist :=
  match h_dt_cpus k with
  | Some dir => match @devtree_read_cpus _ (mc_files m h) dir with Ok l => l | Err _ => [] end
  | None => []
  end.

(** The machine's CPUs: the configuration's, else the MADT's, and without
    one those of a host tree or of the firmware's tree. *)
Definition machine_cpus (cfg : kmorph_config) (h : history) : cpulist :=
  if negb (zlen (c_machine_cpus cfg) =? 0) then c_machine_cpus cfg else
  match @madt_read_cpus _ (mc_files m h) (h_madt_path k) with
  | Ok l => l
  | Err e =>
      if negb (e =? ENOENT) then [] else
      let cpus := inherit_cpus_from_own_host_tree h in
      if zlen cpus =? 0 then cpus_from_firmware_tree h else cpus
  end.

Definition build_host_tree (cfg : kmorph_config) (h : history) : result host_tree :=
  let cpus := machine_cpus cfg h in
  if zlen cpus =? 0 then Err ENOENT else
  match @iomem_system_ram _ (mc_files m h) (h_iomem_path k) RANGESET_INIT with
  | Err e => Err e
  | Ok ram =>
      if zlen (rs_r ram) =? 0 then Err ENOENT else
      let devices := match @pci_list_all _ (mc_files m h) (h_pci_root k) with Ok l => l | Err _ => [] end in
      let vmcore := match c_dump cfg with Some _ => read_crash_layout h VMCORE_INFO_INIT | None => VMCORE_INFO_INIT end in
      Ok (mk_host_tree cpus ram devices vmcore)
  end.

Definition create_instance (cfg : kmorph_config) (h : history) : result unit * history :=
  match build_host_tree cfg h with
  | Err e => (Err e, h)
  | Ok ht =>
      match dt_build_instance_create (mk_instance (cfg_name cfg) (c_cpus cfg) (c_memory cfg) (c_devices cfg) (console_platform_devices cfg) (Some ht)) with
      | Err e => (Err e, h)
      | Ok dtbo => let '(ret, _, h) := mkfs_apply_overlay m root dtbo h in (ret, h)
      end
  end.

(** ** The command line *)

(** The [while] loop from [p] on; [before] is the line in front of it. *)
Fixpoint word_loop (fuel : nat) (before p word : list Z) : bool :=
  match fuel with
  | O => false
  | S fuel =>
      match strstr p word with
      | None => false
      | Some (a, p) =>
          let starts := match rev (before ++ a) with [] => true | c :: _ => c =? 32 end in
          let ends := (cn p (length word) =? 0) || (cn p (length word) =? 32) in
          if starts && ends then true else word_loop fuel (before ++ a ++ word) (drop (length word) p) word
      end
  end.
Definition cmdline_has_word (cmdline word : list Z) : bool := word_loop (S (length cmdline)) [] cmdline word.

(** [NULL] without a command line or without memory. *)
Definition successor_cmdline (cfg : kmorph_config) : option (list Z) :=
  let base := default [] (c_cmdline cfg) in
  if negb (bool_decide (is_Some (c_dump cfg))) || cmdline_has_word base DUMP_CMDLINE_PARAM then
    match c_cmdline cfg with Some s => if alloc (zlen s + 1) then Some s else None | None => None end
  else
    let out := base ++ (if c0 base =? 0 then [] else [32]) ++ DUMP_CMDLINE_PARAM in
    if alloc (zlen out + 1) then Some out else None.

(** ** The initrd *)

Definition add_network (cfg : kmorph_config) (extra : cpio) (h : history) : result unit * cpio :=
  match h_net_snapshot k with
  | None => (Ok tt, extra)
  | Some snapshot =>
      match snapshot h (c_devices cfg) with
      | Err _ => (Ok tt, extra)
      | Ok (_, text) => cpio_add_file extra NETSNAP_PATH text 0x1a4
      end
  end.

(** The image, zeros to a whole word, and the archive. *)
Definition initrd_bytes (image : list Z) (extra : cpio) : list Z :=
  image ++ zeros (Z.land (4 - Z.land (zlen image) 3) 3) ++ cp_data extra.

(** What the memory file holds. *)
Definition successor_initrd (cfg : kmorph_config) (h : history) : result (list Z) :=
  let path := default (h_default_initrd k) (c_initrd cfg) in
  let? image := sys_read m path h in
  match cpio_add_file CPIO_INIT KMORPH_CONFIG_PATH (default [] (c_text cfg)) 0x1a4 with
  | (Err e, _) => Err e
  | (Ok _, extra) =>
      match add_network cfg extra h with
      | (Err e, _) => Err e
      | (Ok _, extra) =>
          match cpio_finish extra with
          | (Err e, _) => Err e
          | (Ok _, extra) => let? _ := h_memfd k h in Ok (initrd_bytes image extra)
          end
      end
  end.

(** ** Arming *)

Definition load_and_exec (cfg : kmorph_config) (id : Z) (initrd : list Z) (h : history) : result unit * history :=
  match h_open_kernel k h (default [] (c_kernel cfg)) with
  | Err e => (Err e, h)
  | Ok _ =>
      let expected := bool_decide (is_Some (c_cmdline cfg)) || bool_decide (is_Some (c_dump cfg)) in
      let cmdline := successor_cmdline cfg in
      if negb (bool_decide (is_Some cmdline)) && expected then (Err ENOMEM, h) else
      let ret := h_kexec_load k h cmdline initrd id in
      let h := h ++ [ALoad id cmdline initrd ret] in
      match ret with
      | Err e => (Err e, h)
      | Ok _ => let ret := h_exec k h id in (ret, h ++ [AExec id ret])
      end
  end.

Fixpoint resolve_each (names out : strlist) (h : history) : result strlist :=
  match names with
  | [] => Ok out
  | name :: names =>
      let? name := if devname_is_pci_id name then Ok name
                   else devname_resolve (mc_exists m h) (h_realpath k h) (h_class_root k) (h_usb_root k) name 16 in
      if negb (alloc (zlen name + 1)) then Err ENOMEM else resolve_each names (out ++ [name]) h
  end.

Definition resolve_devices (cfg : kmorph_config) (h : history) : result strlist :=
  if negb (alloc ((zlen (c_devices cfg) + 1) * 8)) then Err ENOMEM else resolve_each (c_devices cfg) [] h.

Definition arm_run (cfg : kmorph_config) (h : history) : result unit * history :=
  if negb (bool_decide (is_Some (c_kernel cfg))) || (zlen (c_cpus cfg) =? 0) || (c_memory cfg =? 0) then (Err EINVAL, h) else
  match resolve_devices cfg h with
  | Err e => (Err e, h)
  | Ok devices =>
      let cfg := with_devices devices cfg in
      match ensure_pool cfg h with
      | (Err e, h) => (Err e, h)
      | (Ok _, h) =>
          match successor_initrd cfg h with
          | Err e => (Err e, h)
          | Ok initrd =>
              match create_instance cfg h with
              | (Err e, h) => (Err e, h)
              | (Ok _, h) =>
                  match mkfs_instance_id m root (cfg_name cfg) h with
                  | Err e => (Err e, h)
                  | Ok id => load_and_exec cfg (to_int id) initrd h
                  end
              end
          end
      end
  end.

(** ** Disarming *)

(** The overlay that removes the instance. *)
Definition remove_instance (cfg : kmorph_config) (h : history) : result unit * history :=
  match dt_build_instance_remove (cfg_name cfg) with
  | Err e => (Err e, h)
  | Ok dtbo => let '(ret, _, h) := mkfs_apply_overlay m root dtbo h in (ret, h)
  end.

Definition disarm_run (cfg : kmorph_config) (h : history) : result unit * history :=
  match mkfs_instance_id m root (cfg_name cfg) h with
  | Err e => (Err e, h)
  | Ok id =>
      let status := match mkfs_instance_status m root (cfg_name cfg) 32 h with Ok s => s | Err _ => str "unknown" end in
      let active := streq status (str "active") in
      let '(ret, h) := if active then let ret := h_halt k h (to_int id) in (ret, h ++ [AHalt (to_int id) ret]) else (Ok tt, h) in
      match ret with
      | Err e => (Err e, h)
      | Ok _ =>
          let '(ret, h) := if active || streq status (str "loaded")
                           then let ret := h_unload k h (to_int id) in (ret, h ++ [AUnload (to_int id) ret]) else (Ok tt, h) in
          match ret with
          | Err e => (Err e, h)
          | Ok _ => remove_instance cfg h
          end
      end
  end.

End Arm.

Definition arm_memory_fits (memory image_len : Z) : bool := image_len <=? memory / 3.

(** ** What arming does to the machine *)

Definition no_start (a : action) : Prop := match a with ALoad _ _ _ _ | AExec _ _ => False | _ => True end.

Section Properties.
Context `{AllocOk} (m : machine) (k : arm_hooks) (root : list Z).

Lemma apply_overlay_Ok b h :
  let '(ret, _, h') := mkfs_apply_overlay m root b h in
  exists r, h' = h ++ [AOverlay (mkfs_path root (str "overlays/new")) b r] /\ (ret = Ok tt -> r = Ok tt).
Proof.
  unfold mkfs_apply_overlay, sys_overlay. destruct (mc_overlay m h _ b) as [[]|e]; [|by eexists].
  cbv zeta. case_bool; [by eexists|]. destruct (sys_read_string _ _ _); by eexists.
Qed.

Lemma baseline_ext cfg bytes claim devices platform h : ext no_start h (write_baseline m root cfg bytes claim devices platform h).2.
Proof.
  unfold write_baseline. destruct (dt_build_pool_baseline _); [|cbn; reflexivity]. unfold mkfs_write_baseline, sys_overlay. cbn. by apply ext_one.
Qed.

Lemma ensure_pool_ext cfg h : ext no_start h (ensure_pool m k root cfg h).2.
Proof.
  unfold ensure_pool. destruct (mkfs_read_root_tree m root h) as [[tree len]|]; [|cbn; reflexivity].
  destruct (if len =? 0 then _ else _) as [pool|e].
  - destruct (check_pool_fits pool cfg); [|cbn; reflexivity]. unfold arm_pool_add_devices. case_bool; [cbn; reflexivity|]. cbv zeta.
    case_bool; [cbn; reflexivity|]. destruct (dt_build_pool_device_add _) as [b|]; [|cbn; reflexivity].
    pose proof (apply_overlay_Ok b h) as A. destruct (mkfs_apply_overlay m root b h) as [[ret tx] h']. destruct A as (r & -> & _).
    destruct ret; by apply ext_one.
  - case_bool; [|cbn; reflexivity]. unfold init_pool. destruct (lookup_devices _ _ _ _) as [devices|]; [|cbn; reflexivity]. cbv zeta.
    destruct (h_pool_claim_path k) as [path|]; [|apply baseline_ext].
    destruct (pool_claim_read path) as [claim|]; [|apply baseline_ext].
    pose proof (baseline_ext cfg (pool_bytes m k root cfg h) (Some claim) devices (console_platform_devices cfg) h) as X.
    destruct (write_baseline _ _ _ _ _ _ _ _) as [ret h1]. cbn [snd] in X.
    assert (X1 : ext no_start h (h1 ++ [AUnlink path])) by (etrans; [exact X|by apply ext_one]).
    destruct ret; [done|]. etrans; [exact X1|apply baseline_ext].
Qed.

(** The instance as the configuration asks for it, with this host tree. *)
Definition instance_for (cfg : kmorph_config) (ht : host_tree) : instance_args :=
  mk_instance (cfg_name cfg) (c_cpus cfg) (c_memory cfg) (c_devices cfg) (console_platform_devices cfg) (Some ht).

Lemma create_instance_ext cfg h :
  let '(ret, h') := create_instance m k root cfg h in
  ext no_start h h' /\
  (ret = Ok tt -> exists ht b path, build_host_tree m k cfg h = Ok ht /\ dt_build_instance_create (instance_for cfg ht) = Ok b /\
     h' = h ++ [AOverlay path b (Ok tt)]).
Proof.
  unfold create_instance. destruct (build_host_tree m k cfg h) as [ht|] eqn:B; [|by split].
  fold (instance_for cfg ht). destruct (dt_build_instance_create _) as [b|] eqn:D; [|by split].
  pose proof (apply_overlay_Ok b h) as A. destruct (mkfs_apply_overlay m root b h) as [[ret tx] h']. destruct A as (r & -> & R).
  split; [by apply ext_one|]. intros E. rewrite (R E). by eexists ht, b, _.
Qed.

(** The ways [arm_run] can end, with what it did to the machine. *)
Inductive armed (cfg : kmorph_config) (h : history) : result unit -> list action -> Prop :=
| arm_stopped e new : Forall no_start new -> armed cfg h (Err e) new
| arm_not_loaded devices pre id initrd e :
    Forall no_start pre ->
    armed cfg h (Err e) (pre ++ [ALoad id (successor_cmdline (with_devices devices cfg)) initrd (Err e)])
| arm_started devices pre path b ht initrd id ret :
    let cfg' := with_devices devices cfg in
    resolve_devices m k cfg h = Ok devices ->
    Forall no_start pre ->
    build_host_tree m k cfg' (h ++ pre) = Ok ht ->
    dt_build_instance_create (instance_for cfg' ht) = Ok b ->
    successor_initrd m k cfg' (h ++ pre) = Ok initrd ->
    mkfs_instance_id m root (cfg_name cfg) (h ++ pre ++ [AOverlay path b (Ok tt)]) = Ok id ->
    armed cfg h ret (pre ++ [AOverlay path b (Ok tt); ALoad (to_int id) (successor_cmdline cfg') initrd (Ok tt); AExec (to_int id) ret]).

(** C5: a successor is started only as it was prepared.  Whatever the kernel
    answers, [arm_run] either stops with an error before anything is
    started, or loads an image that the kernel refuses, or ends by starting
    one instance: the one whose id the kernel gave the configuration's name
    after the overlay that created it, with the host tree built for it, was
    applied, from the initrd and command line assembled for it and loaded
    under that id just before.  It returns 0 only if that start did. *)
Theorem arm_starts_what_it_prepared cfg h :
  let '(ret, h') := arm_run m k root cfg h in exists new, h' = h ++ new /\ armed cfg h ret new.
Proof.
  unfold arm_run.
  assert (Stop : forall (e : Z) h', ext no_start h h' -> exists new, h' = h ++ new /\ armed cfg h (Err e) new).
  { intros e h' (new & -> & F). exists new. split; [done|]. by apply arm_stopped. }
  destruct (negb _ || _ || _); [apply Stop; reflexivity|].
  destruct (resolve_devices m k cfg h) as [devices|] eqn:Rd; [|apply Stop; reflexivity]. cbv zeta. set (cfg' := with_devices devices cfg).
  pose proof (ensure_pool_ext cfg' h) as X1. destruct (ensure_pool m k root cfg' h) as [[[]|] h1]; cbn [snd] in X1; [|by apply Stop].
  destruct (successor_initrd m k cfg' h1) as [initrd|] eqn:Si; [|by apply Stop].
  pose proof (create_instance_ext cfg' h1) as X2. destruct (create_instance m k root cfg' h1) as [[[]|] h2]; destruct X2 as [X2 C]; [|apply Stop; by etrans].
  destruct (C eq_refl) as (ht & b & path & Bh & Db & Eh2). destruct (mkfs_instance_id m root (cfg_name cfg') h2) as [id|] eqn:Id; [|apply Stop; by etrans].
  unfold load_and_exec. destruct (h_open_kernel k h2 _); [|apply Stop; by etrans]. cbv zeta. case_bool; [apply Stop; by etrans|].
  destruct X1 as (pre & -> & F1). subst h2. rewrite <- app_assoc in Id.
  destruct (h_kexec_load k _ _ initrd (to_int id)) as [[]|e].
  - eexists. split; [|by eapply (arm_started cfg h devices pre path b ht initrd id)]. by rewrite <- !app_assoc.
  - eexists. split; [|apply (arm_not_loaded cfg h devices (pre ++ [AOverlay path b (Ok tt)]) (to_int id) initrd e); apply Forall_app; by split; [|repeat constructor]].
    by rewrite <- !app_assoc.
Qed.

(** What [disarm_run] does before the overlay when everything succeeds. *)
Definition stopping (status : list Z) (id : Z) : list action :=
  (if streq status (str "active") then [AHalt id (Ok tt)] else []) ++
  (if streq status (str "active") || streq status (str "loaded") then [AUnload id (Ok tt)] else []).

(** The ways [disarm_run] can end. *)
Inductive disarmed (cfg : kmorph_config) (h : history) : result unit -> list action -> Prop :=
| disarm_no_instance e : mkfs_instance_id m root (cfg_name cfg) h = Err e -> disarmed cfg h (Err e) []
| disarm_halt_failed id e : disarmed cfg h (Err e) [AHalt id (Err e)]
| disarm_unload_failed id e pre : pre = [] \/ pre = [AHalt id (Ok tt)] -> disarmed cfg h (Err e) (pre ++ [AUnload id (Err e)])
| disarm_not_built id status e : dt_build_instance_remove (cfg_name cfg) = Err e -> disarmed cfg h (Err e) (stopping status id)
| disarm_removed id status path b r ret :
    mkfs_instance_id m root (cfg_name cfg) h = Ok id ->
    status = (match mkfs_instance_status m root (cfg_name cfg) 32 h with Ok s => s | Err _ => str "unknown" end) ->
    dt_build_instance_remove (cfg_name cfg) = Ok b -> (ret = Ok tt -> r = Ok tt) ->
    disarmed cfg h ret (stopping status (to_int id) ++ [AOverlay path b r]).

(** C6: a running instance is removed only once it is stopped.  Whatever the
    kernel answers, [disarm_run] stops at the first refusal, and the overlay
    that removes the instance is written only after the halt of an active
    instance and the unload of an active or loaded one returned 0; it
    returns 0 only if that overlay was applied. *)
Theorem disarm_stops_first cfg h :
  let '(ret, h') := disarm_run m k root cfg h in exists new, h' = h ++ new /\ disarmed cfg h ret new.
Proof.
  unfold disarm_run. destruct (mkfs_instance_id m root (cfg_name cfg) h) as [id|e] eqn:Id.
  2: { exists []. split; [by rewrite app_nil_r|by constructor]. }
  cbv zeta. remember (match mkfs_instance_status _ _ _ _ _ with Ok s => s | Err _ => _ end) as status eqn:St.
  assert (Rm : forall h1, h1 = h ++ stopping status (to_int id) ->
    let '(ret, h') := remove_instance m root cfg h1 in exists new, h' = h ++ new /\ disarmed cfg h ret new).
  { intros h1 ->. unfold remove_instance. destruct (dt_build_instance_remove _) as [b|e] eqn:D; [|by eexists; split; [|constructor]].
    pose proof (apply_overlay_Ok b (h ++ stopping status (to_int id))) as A.
    destruct (mkfs_apply_overlay m root b _) as [[ret tx] h']. destruct A as (r & -> & R).
    eexists. split; [by rewrite <- app_assoc|]. by eapply disarm_removed. }
  unfold stopping in Rm. destruct (streq status (str "active")) eqn:Ac; cbn [orb] in *.
  - destruct (h_halt k h (to_int id)) as [[]|e]; [|by eexists; split; [|constructor]].
    destruct (h_unload k _ (to_int id)) as [[]|e]; [apply Rm; by rewrite <- app_assoc|].
    eexists. rewrite <- app_assoc. split; [done|]. apply (disarm_unload_failed cfg h (to_int id) e [_]). by right.
  - destruct (streq status (str "loaded")); [|apply Rm; by rewrite app_nil_r].
    destruct (h_unload k h (to_int id)) as [[]|e]; [by apply Rm|]. eexists. split; [done|].
    apply (disarm_unload_failed cfg h (to_int id) e []). by left.
Qed.

End Properties.

(** ** The command line *)

(** [word] stands in the line between spaces or its ends. *)
Definition word_of (before line word : list Z) : Prop :=
  exists a t, line = a ++ word ++ t /\
    (before ++ a = [] \/ exists a', before ++ a = a' ++ [32]) /\ (t = [] \/ exists t', t = 32 :: t').

Lemma word_starts l : match rev l with [] => true | c :: _ => c =? 32 end = true <-> l = [] \/ exists a', l = a' ++ [32].
Proof.
  destruct l as [|c a _] using rev_ind; [cbn; split; [by left|done]|]. rewrite rev_unit, Z.eqb_eq. split.
  - intros ->. right. by exists a.
  - intros [E|[a' E]]; [by destruct a|]. by apply app_inj_tail in E as [_ ->].
Qed.

Lemma word_ends word t :
  cstring t -> (cn (word ++ t) (length word) =? 0) || (cn (word ++ t) (length word) =? 32) = true <-> t = [] \/ exists t', t = 32 :: t'.
Proof.
  intros Cs. unfold cn. rewrite drop_app_length. destruct t as [|c t]; cbn [c0].
  - split; [by left|done].
  - apply Forall_cons in Cs as [C _]. rewrite orb_true_iff, !Z.eqb_eq. split; [|intros [?|[t' ?]]; [done|right; congruence]].
    intros [-> | ->]; [lia|]. right. by exists t.
Qed.

(** A word whose first character does not recur cannot overlap itself. *)
Lemma no_overlap (x : Z) (w a t a1 t1 : list Z) :
  x ∉ w -> a ++ (x :: w) ++ t = a1 ++ (x :: w) ++ t1 -> (length a1 < length a)%nat -> exists a2, a = a1 ++ (x :: w) ++ a2 /\ t1 = a2 ++ (x :: w) ++ t.
Proof.
  intros Nx E L. apply app_eq_inv in E as [(d & -> & E)|(d & -> & _)]; [|rewrite length_app in L; lia].
  destruct d as [|y d]; [rewrite app_nil_r in L; lia|]. cbn [app] in E. injection E as <- E.
  apply app_eq_inv in E as [(k & Ew & Et)|(k & -> & ->)]; [|by exists k].
  destruct k as [|y k].
  - rewrite app_nil_r in Ew. subst d. exists []. rewrite app_nil_r. done.
  - exfalso. apply Nx. injection Et as <- _. rewrite Ew. apply elem_of_app. right. by left.
Qed.

Lemma word_loop_iff fuel (before p : list Z) (x : Z) (w : list Z) :
  x ∉ w -> cstring p -> (length p < fuel)%nat -> word_loop fuel before p (x :: w) = true <-> word_of before p (x :: w).
Proof.
  intros Nx. revert before p. induction fuel as [|fuel IH]; intros before p Cs L; [lia|]. cbn [word_loop].
  pose proof (strstr_spec p (x :: w)) as S. destruct (strstr p (x :: w)) as [[a b]|].
  2: { split; [done|]. intros (a & t & E & _). by apply S in E. }
  destruct S as (t & -> & -> & M). apply Forall_app in Cs as [Ca Cb]. apply Forall_app in Cb as [Cw Ct].
  rewrite drop_app_length. pose proof (word_starts (before ++ a)) as Ws. pose proof (word_ends (x :: w) t Ct) as We.
  rewrite !length_app in L. cbn [length] in L.
  destruct (_ && _) eqn:B.
  - apply andb_true_iff in B as [B1 B2]. split; [|done]. intros _. exists a, t. split; [done|]. split; [by apply Ws|by apply We].
  - rewrite IH by (done || lia). split.
    + intros (a2 & t2 & -> & Sa & St). exists (a ++ (x :: w) ++ a2), t2. rewrite <- !app_assoc in *. done.
    + intros (a2 & t2 & E & Sa & St). pose proof (M a2 t2 E) as Le. destruct (decide (length a = length a2)) as [El|Nl].
      * exfalso. apply app_inj_1 in E as [<- E]; [|done]. apply app_inv_head in E as <-.
        apply Ws in Sa. apply We in St. by rewrite Sa, St in B.
      * destruct (no_overlap x w a2 t2 a t Nx (eq_sym E)) as (a3 & -> & ->); [lia|].
        exists a3, t2. rewrite <- !app_assoc in *. done.
Qed.

(** The words of a line are found: no word overlaps itself. *)
Lemma cmdline_has_word_iff (line : list Z) (x : Z) (w : list Z) : x ∉ w -> cstring line -> cmdline_has_word line (x :: w) = true <-> word_of [] line (x :: w).
Proof. intros Nx Cs. apply word_loop_iff; [done..|lia]. Qed.

(** A successor that dumps can read the predecessor's memory.  With a
    dump configured its command line has the word [iomem=relaxed], after the
    configured command line, which is left as it is and is all there is when
    it has that word already; without a dump it is the configured one. *)
Theorem successor_cmdline_relaxed `{AllocOk} cfg :
  cstring (default [] (c_cmdline cfg)) ->
  match c_dump cfg with
  | None => successor_cmdline cfg = c_cmdline cfg
  | Some _ => (exists line, successor_cmdline cfg = Some line /\ word_of [] line DUMP_CMDLINE_PARAM /\
                 default [] (c_cmdline cfg) `prefix_of` line) /\
              (word_of [] (default [] (c_cmdline cfg)) DUMP_CMDLINE_PARAM -> successor_cmdline cfg = c_cmdline cfg)
  end.
Proof.
  intros Cs. assert (Keep : match c_cmdline cfg with Some s => if alloc (zlen s + 1) then Some s else None | None => None end = c_cmdline cfg).
  { destruct (c_cmdline cfg); [|done]. by rewrite alloc_ok. }
  pose proof (cmdline_has_word_iff (default [] (c_cmdline cfg)) (ch "i") (str "omem=relaxed") ltac:(by apply (bool_decide_unpack _)) Cs) as W.
  change (ch "i" :: str "omem=relaxed") with DUMP_CMDLINE_PARAM in W.
  unfold successor_cmdline. cbv zeta. rewrite Keep, alloc_ok. destruct (c_dump cfg) as [d|]; [|done]. cbn [negb orb].
  rewrite (bool_decide_eq_true_2 (is_Some (Some d))) by eauto. cbn [negb orb].
  destruct (cmdline_has_word _ _) eqn:E; cbn [negb orb].
  - split; [|done]. pose proof (proj1 W eq_refl) as Wd. destruct (c_cmdline cfg) as [s|]; [by exists s|].
    exfalso. destruct Wd as (a & t & En & _). cbn in En. by destruct a.
  - split; [|intros Wd; apply W in Wd; discriminate]. eexists. split; [reflexivity|]. split; [|by eexists].
    exists (default [] (c_cmdline cfg) ++ (if c0 (default [] (c_cmdline cfg)) =? 0 then [] else [32])), [].
    rewrite app_nil_r, <- app_assoc. split; [done|]. split; [|by left]. cbn [app]. case_bool; [left|right; by eexists].
    apply Z.eqb_eq in Heqb. apply c0_nil in Heqb; [|done]. by rewrite Heqb.
Qed.

(** ** The initrd *)

Definition config_file (cfg : kmorph_config) : cfile := mk_cfile KMORPH_CONFIG_PATH (default [] (c_text cfg)) 0x1a4.

(** The network file, when there is a snapshot. *)
Definition network_files (k : arm_hooks) (cfg : kmorph_config) (h : history) : list cfile :=
  match h_net_snapshot k with
  | Some snapshot => match snapshot h (c_devices cfg) with Ok (_, text) => [mk_cfile NETSNAP_PATH text 0x1a4] | Err _ => [] end
  | None => []
  end.

Lemma initrd_archive `{Alloc} m k cfg h :
  successor_initrd m k cfg h
  = let? image := sys_read m (default (h_default_initrd k) (c_initrd cfg)) h in
    match archive (config_file cfg :: network_files k cfg h) with
    | (Err e, _) => Err e
    | (Ok _, extra) => let? _ := h_memfd k h in Ok (initrd_bytes image extra)
    end.
Proof.
  unfold successor_initrd. destruct (sys_read m _ h) as [image|]; [|done]. unfold archive. cbn [add_files config_file cf_path cf_data cf_mode].
  destruct (cpio_add_file CPIO_INIT _ _ _) as [[[]|] c1]; [|done]. unfold add_network, network_files.
  destruct (h_net_snapshot k) as [snap|]; [|by cbn; destruct (cpio_finish c1) as [[[]|] ?]].
  destruct (snap h (c_devices cfg)) as [[n text]|]; [|by cbn; destruct (cpio_finish c1) as [[[]|] ?]].
  cbn [add_files cf_path cf_data cf_mode]. destruct (cpio_add_file c1 _ _ _) as [[[]|] c2]; [|done].
  by destruct (cpio_finish c2) as [[[]|] ?].
Qed.

Lemma pad_to_word n : 0 <= n -> Z.land (4 - Z.land n 3) 3 = align4 n - n.
Proof.
  intros N. change 3 with (Z.ones 2). rewrite !Z.land_ones by lia. change (2 ^ 2) with 4. unfold align4.
  Z.to_euclidean_division_equations. lia.
Qed.

(** The text of the configuration and of the snapshot: strings a file can hold. *)
Definition small_texts (k : arm_hooks) (cfg : kmorph_config) (h : history) : Prop :=
  Forall (fun f => zlen (cf_data f) < two32) (config_file cfg :: network_files k cfg h).

Lemma arm_file_ok path data :
  path = KMORPH_CONFIG_PATH \/ path = NETSNAP_PATH -> zlen data < two32 ->
  cfile_ok (mk_cfile path data 0x1a4) /\ zlen (file_entries (mk_cfile path data 0x1a4)) <= 3 /\
  weights (file_entries (mk_cfile path data 0x1a4)) <= 1000 + zlen data.
Proof.
  intros P D. pose proof (zlen_nonneg data).
  assert (E : exists a b c, file_entries (mk_cfile path data 0x1a4) = [(a, 0x41ed, []); (b, 0x41ed, []); (c, 0x81a4, data)] /\
    name_fine a /\ name_fine b /\ name_fine c /\ zlen a + zlen b + zlen c < 200 /\
    cstring path /\ skip_slashes path <> [] /\ zlen (skip_slashes path) < 256).
  { destruct P as [-> | ->]; eexists _, _, _; (split; [reflexivity|]); split_and!; try done; vm_compute; repeat (constructor; try done). }
  destruct E as (a & b & c & E & Na & Nb & Nc & L & Cp & Sp & Lp). rewrite E. split; [|split; [done|]].
  - split; [done|]. split; [done|]. split; [done|]. split; [done|]. rewrite E.
    repeat (apply Forall_cons; split; [split; [done|split; [done|cbn; done || lia]]|]). by apply Forall_nil.
  - unfold weights, weight, NEWC_HEADER. cbn [foldr fst snd]. change (zlen []) with 0. lia.
Qed.

(** C11: the successor boots with its configuration.  The initrd [arm_run]
    hands to the kernel is the configured image, unchanged, followed at a
    4-byte boundary by an archive from which the kernel unpacks
    [/etc/kmorph/kmorph.conf] with exactly the text of the configuration
    and, when a snapshot was taken, [/etc/kmorph/network] with exactly that
    snapshot, in directories that exist. *)
Theorem initrd_carries_config `{AllocOk} m k cfg h image :
  sys_read m (default (h_default_initrd k) (c_initrd cfg)) h = Ok image -> h_memfd k h = Ok tt -> small_texts k cfg h ->
  exists bytes l, successor_initrd m k cfg h = Ok bytes /\ take (length image) bytes = image /\
    unpack (S (length l)) (drop (Z.to_nat (align4 (zlen image))) bytes) = Some l /\
    map ident l = concat (map file_entries (config_file cfg :: network_files k cfg h)).
Proof.
  intros R M T. rewrite initrd_archive, R, M. set (fs := config_file cfg :: network_files k cfg h) in *.
  assert (Ok3 : forall f, f ∈ fs -> cfile_ok f /\ zlen (file_entries f) <= 3 /\ weights (file_entries f) <= 1000 + zlen (cf_data f)).
  { intros f I. unfold small_texts in T. rewrite Forall_forall in T. specialize (T f I). unfold fs in I. apply elem_of_cons in I as [->|I].
    - apply arm_file_ok; [by left|done].
    - unfold network_files in I. destruct (h_net_snapshot k) as [snap|]; [|by apply elem_of_nil in I].
      destruct (snap h (c_devices cfg)) as [[n text]|]; [|by apply elem_of_nil in I]. apply list_elem_of_singleton in I as ->.
      apply arm_file_ok; [by right|done]. }
  assert (Lf : (length fs <= 2)%nat) by (unfold fs, network_files; destruct (h_net_snapshot k) as [snap|]; [destruct (snap h _) as [[? ?]|]|]; cbn; lia).
  assert (Sz : zlen (concat (map file_entries fs)) <= 3 * zlen fs /\ weights (concat (map file_entries fs)) <= zlen fs * (1000 + two32)).
  { clear Lf. unfold small_texts in T. fold fs in T. induction T as [|f l Tf T IH]; [done|]. cbn [map concat]. rewrite zlen_app, zlen_cons.
    destruct (Ok3 f ltac:(by left)) as (_ & A & B). destruct IH as [I1 I2]; [intros g G; apply Ok3; by right|].
    assert (Wa : forall a b, weights (a ++ b) = weights a + weights b).
    { intros a b. induction a as [|t a IHa]; [done|]. change (weights ((t :: a) ++ b)) with (weight t + weights (a ++ b)).
      change (weights (t :: a)) with (weight t + weights a). lia. }
    rewrite Wa. lia. }
  assert (Lz : zlen fs <= 2) by (unfold zlen; lia).
  destruct (archive_unpacks fs) as (c & l & E & U & Ml & _ & _ & _); [apply Forall_forall; intros f I; by apply Ok3|lia|lia|].
  rewrite E. eexists _, l. split; [reflexivity|]. unfold initrd_bytes. split; [apply take_app_length|]. split; [|done].
  pose proof (align4_spec (zlen image) (zlen_nonneg image)) as [A _]. rewrite pad_to_word by apply zlen_nonneg. rewrite app_assoc.
  replace (Z.to_nat (align4 (zlen image))) with (length (image ++ zeros (align4 (zlen image) - zlen image))).
  - by rewrite drop_app_length.
  - pose proof (zlen_app image (zeros (align4 (zlen image) - zlen image))) as Q. rewrite zlen_zeros in Q by lia. unfold zlen in *. lia.
Qed.

(** A machine whose initrd is five bytes, and a snapshot of no interface. *)
Definition demo_hooks : arm_hooks :=
  mk_hooks (fun _ _ => Ok tt) (fun _ _ _ _ => Ok tt) (fun _ _ => Ok tt) (fun _ _ => Ok tt) (fun _ _ => Ok tt)
    [] [] [] [] [] [] [] (str "/boot/initrd") [] [] None None None (Some (fun _ _ => Ok (0, str "# none")))
    (fun _ p => Ok p) (fun _ _ => false) (fun _ _ => Err ENOENT) (fun _ => Ok tt).
Definition demo_image : list Z := [1; 2; 3; 4; 5].
Definition demo_initrd_machine : machine := {|
  mc_files _ := {| file_read _ := Ok demo_image; dir_list _ := Err ENOENT |};
  mc_exists _ _ := false; mc_write _ _ _ := Ok tt; mc_overlay _ _ _ := Ok tt; mc_tree _ _ := Err ENOENT;
  mc_command _ _ := Err ENOENT; mc_set_command _ _ _ := true; mc_fence _ _ := Ok tt; mc_fork _ _ := true;
  mc_alive _ _ _ := true; mc_schedule _ _ := 0%nat; mc_network _ := (0, []); mc_dump _ _ _ := Ok tt |}.
Definition demo_config : kmorph_config := with_text (Some (str "memory = 1G")) config_zero.

Lemma initrd_carries_config_witness :
  exists bytes l, successor_initrd (H := alloc_always) demo_initrd_machine demo_hooks demo_config [] = Ok bytes /\
    take (length demo_image) bytes = demo_image /\
    unpack (S (length l)) (drop (Z.to_nat (align4 (zlen demo_image))) bytes) = Some l /\
    map ident l = concat (map file_entries (config_file demo_config :: network_files demo_hooks demo_config [])).
Proof.
  apply (initrd_carries_config (H := alloc_always) demo_initrd_machine demo_hooks demo_config [] demo_image); [reflexivity..|].
  unfold small_texts. repeat (apply Forall_cons; split; [vm_compute; reflexivity|]). apply Forall_nil. exact I.
Defined.

Definition demo_dumping : kmorph_config := with_dump (Some (str "/dump")) (with_cmdline (Some (str "quiet")) demo_config).

Lemma successor_cmdline_relaxed_witness :
  (exists line, successor_cmdline (H := alloc_always) demo_dumping = Some line /\ word_of [] line DUMP_CMDLINE_PARAM /\
     str "quiet" `prefix_of` line) /\
  (word_of [] (str "quiet") DUMP_CMDLINE_PARAM -> successor_cmdline (H := alloc_always) demo_dumping = Some (str "quiet")).
Proof.
  apply (successor_cmdline_relaxed (H := alloc_always) demo_dumping). vm_compute. repeat (apply Forall_cons; split; [split; reflexivity|]). apply Forall_nil. exact I.
Defined.
