(* ===== verification/Freeze.v ===== *)
(** * kmorph/freeze.c: the filesystems an upgrade freezes

    Which filesystems [/proc/self/mountinfo] names, and freezing them all or
    none. *)

From S2P Require Import Prelude Cstr Scanf Files Fdt Machine.

Definition FREEZE_MAX : nat := 64.

(** [struct freeze_ops]: what the two requests answer. *)
Record freeze_ops : Type := { fo_freeze : history -> list Z -> result unit; fo_thaw : history -> list Z -> result unit }.

Definition COMMA : Z := 44.

(** The [for] loop from [p] on. *)
Fixpoint option_loop (fuel : nat) (p opt : list Z) : bool :=
  match fuel with
  | O => false
  | S fuel =>
      let p := if c0 p =? COMMA then drop 1 p else p in
      if starts opt p && ((cn p (length opt) =? COMMA) || (cn p (length opt) =? 0)) then true
      else match (split_at COMMA p).2 with None => false | Some p => option_loop fuel p opt end
  end.
Definition has_option (opts opt : list Z) : bool := option_loop (S (length opts)) opts opt.

(** The [while] loop; the result is the string written. *)
Fixpoint unescape_loop (s : list Z) : list Z :=
  match s with
  | [] => []
  | c :: t =>
      match t with
      | a :: b :: d :: u =>
          if (c =? 92) && (48 <=? a) && (a <=? 51) && negb (b =? 0) && negb (d =? 0)
          then ((a - 48) * 64 + (b - 48) * 8 + (d - 48)) mod 256 :: unescape_loop u
          else c :: unescape_loop t
      | _ => c :: unescape_loop t
      end
  end.

Section Freeze.
Context `{Alloc}.

Definition unescape (s : list Z) : option (list Z) :=
  if alloc (zlen s + 1) then Some (cstr_of (unescape_loop s)) else None.

(** [%*s] *)
Definition scan_skip (s : list Z) : option (list Z) := '(_, rest) ← scan_word (length s) s; Some rest.

(** The device, mount point, options, source and super block options. *)
Definition scan_mount (line : list Z) : option (list Z * list Z * list Z * list Z * list Z) :=
  '(_, sep) ← strstr line (str " - ");
  s ← scan_skip line;
  s ← scan_skip s;
  '(dev, s) ← scan_word 15 s;
  s ← scan_skip s;
  '(point, s) ← scan_word 1023 s;
  '(opts, _) ← scan_word 511 s;
  '(_, s) ← scan_word 63 (drop 3 sep);
  '(source, s) ← scan_word 511 s;
  '(super, _) ← scan_word 511 s;
  Some (dev, point, opts, source, super).

(** One line: the set and the devices it has seen. *)
Definition collect_line (line : list Z) (paths devs : list (list Z)) : result unit * list (list Z) * list (list Z) :=
  match scan_mount line with
  | None => (Ok tt, paths, devs)
  | Some (dev, point, opts, source, super) =>
      if negb (starts (str "/dev/") source) || has_option opts (str "ro") || has_option super (str "ro") then (Ok tt, paths, devs)
      else if existsb (fun d => streq d dev) devs then (Ok tt, paths, devs)
      else if (length paths =? FREEZE_MAX)%nat then (Err E2BIG, paths, devs)
      else match unescape point with
           | None => (Err ENOMEM, paths, devs)
           | Some path => (Ok tt, paths ++ [path], devs ++ [snprintf [] 16 dev])
           end
  end.

(** The [while] loop over the lines from [p] on. *)
Fixpoint collect_loop (fuel : nat) (p : list Z) (paths devs : list (list Z)) : result unit * list (list Z) :=
  match fuel with
  | O => (Ok tt, paths)
  | S fuel =>
      if c0 p =? 0 then (Ok tt, paths) else
      let '(line, rest) := split_at 10 p in
      match collect_line (snprintf [] 4096 line) paths devs with
      | (Err e, paths, _) => (Err e, paths)
      | (Ok _, paths, devs) => collect_loop fuel (match rest with Some r => drop 1 r | None => [] end) paths devs
      end
  end.

Definition freeze_collect (mountinfo : list Z) : result unit * list (list Z) := collect_loop (length mountinfo) mountinfo [] [].

End Freeze.

Section Ops.
Context (ops : freeze_ops).

(** Thaws the paths in this order. *)
Fixpoint thaw_each (paths : list (list Z)) (h : history) : history :=
  match paths with
  | [] => h
  | p :: paths => thaw_each paths (h ++ [AThaw p (fo_thaw ops h p)])
  end.
Definition thaw_all (set : list (list Z)) (h : history) : history := thaw_each (rev set) h.

(** The paths before [set] are done. *)
Fixpoint freeze_loop (done set : list (list Z)) (h : history) : result unit * history :=
  match set with
  | [] => (Ok tt, h)
  | p :: set =>
      let ret := fo_freeze ops h p in
      let h := h ++ [AFreeze p ret] in
      match ret with
      | Ok _ => freeze_loop (done ++ [p]) set h
      | Err e => if e =? EOPNOTSUPP then freeze_loop (done ++ [p]) set h else (Err e, thaw_all done h)
      end
  end.
Definition freeze_all (set : list (list Z)) (h : history) : result unit * history := freeze_loop [] set h.

End Ops.

(** ** Mount options *)

(** [a,b,c] *)
Definition comma_list (os : list (list Z)) : list Z :=
  match os with [] => [] | o :: os => o ++ concat (map (cons COMMA) os) end.

(** An option: a string without a comma. *)
Definition option_text (o : list Z) : Prop := cstring o /\ COMMA ∉ o.

Lemma comma_tail os : concat (map (cons COMMA) os) = match os with [] => [] | _ => COMMA :: comma_list os end.
Proof. by destruct os. Qed.

(** An option in front of the rest of the list. *)
Lemma option_here opt o os :
  option_text opt -> option_text o -> Forall option_text os ->
  starts opt (comma_list (o :: os)) && ((cn (comma_list (o :: os)) (length opt) =? COMMA) || (cn (comma_list (o :: os)) (length opt) =? 0))
  = bool_decide (opt = o).
Proof.
  intros [Cp Np] [Co No] F. cbn [comma_list]. rewrite comma_tail. set (t := match os with [] => [] | _ => _ end).
  assert (T : t = [] \/ exists u, t = COMMA :: u) by (unfold t; destruct os; eauto).
  apply eq_iff_eq_true. rewrite bool_decide_eq_true, andb_true_iff, orb_true_iff, !Z.eqb_eq, starts_spec. split.
  - intros [[u E] Hc]. apply app_eq_inv in E as [(d & -> & ->)|(d & -> & ->)].
    + destruct d as [|c d]; [by rewrite app_nil_r|]. exfalso. unfold cn in Hc. rewrite <- app_assoc, drop_app_length in Hc. cbn [app c0] in Hc.
      apply Forall_app in Co as [_ Co]. apply Forall_cons in Co as [C _]. destruct Hc as [-> | ->]; [|lia].
      apply No, elem_of_app. right. by left.
    + destruct d as [|c d]; [by rewrite app_nil_r|]. exfalso. destruct T as [T|[v T]]; [done|]. injection T as -> _.
      apply Np, elem_of_app. right. by left.
  - intros ->. split; [eauto|]. unfold cn. rewrite drop_app_length. destruct T as [-> | [u ->]]; [by right|by left].
Qed.

Lemma split_option o os : option_text o -> (split_at COMMA (comma_list (o :: os))).2 = match os with [] => None | _ => Some (COMMA :: comma_list os) end.
Proof.
  intros [_ No]. cbn [comma_list]. rewrite comma_tail. destruct os as [|o' os]; [by rewrite app_nil_r, split_at_none|by rewrite split_at_some].
Qed.

Lemma option_loop_tail fuel opt os :
  option_text opt -> opt <> [] -> Forall option_text os -> (length os < fuel)%nat ->
  option_loop fuel (COMMA :: comma_list os) opt = bool_decide (opt ∈ os).
Proof.
  intros To Ne F. revert fuel. induction F as [|o os O F IH]; intros [|fuel] L; cbn in L; try lia; cbn [option_loop].
  - cbn. destruct opt; [done|]. cbn. by rewrite bool_decide_eq_false_2 by apply not_elem_of_nil.
  - cbv zeta. change (if c0 (COMMA :: comma_list (o :: os)) =? COMMA then drop 1 (COMMA :: comma_list (o :: os)) else _) with (comma_list (o :: os)).
    rewrite option_here, split_option by done.
    case_bool; [apply bool_decide_eq_true in Heqb as ->; symmetry; apply bool_decide_eq_true; by left|].
    apply bool_decide_eq_false in Heqb. destruct os as [|o' os].
    + symmetry. apply bool_decide_eq_false. intros [E|E]%elem_of_cons; [done|by apply elem_of_nil in E].
    + rewrite IH by lia. apply bool_decide_ext. rewrite (elem_of_cons (o' :: os)). naive_solver.
Qed.

(** [has_option] finds exactly the options of the list. *)
Lemma has_option_iff opt os :
  option_text opt -> opt <> [] -> Forall option_text os -> has_option (comma_list os) opt = bool_decide (opt ∈ os).
Proof.
  intros To Ne F. unfold has_option. destruct os as [|o os].
  { cbn. destruct opt; [done|]. cbn. by rewrite bool_decide_eq_false_2 by apply not_elem_of_nil. }
  assert (L : forall l : list (list Z), (length l <= length (concat (map (cons COMMA) l)))%nat).
  { intros l. induction l as [|x l IHl]; [done|]. cbn. rewrite length_app. lia. }
  apply Forall_cons in F as [O F]. destruct o as [|c o].
  - cbn [comma_list app]. rewrite comma_tail. destruct os as [|o' os].
    + cbn. destruct opt; [done|]. cbn. symmetry. apply bool_decide_eq_false. intros [E|E]%elem_of_cons; [done|by apply elem_of_nil in E].
    + rewrite option_loop_tail; [|done..|].
      * apply bool_decide_ext. rewrite (elem_of_cons (o' :: os)). naive_solver.
      * specialize (L (o' :: os)). rewrite comma_tail in L. lia.
  - cbn [option_loop]. assert (C : (c0 (comma_list ((c :: o) :: os)) =? COMMA) = false).
    { apply Z.eqb_neq. intros E. cbn in E. destruct O as [_ O]. apply O. subst c. by left. }
    cbv zeta. rewrite C, option_here, split_option by done.
    case_bool; [apply bool_decide_eq_true in Heqb as ->; symmetry; apply bool_decide_eq_true; by left|]. apply bool_decide_eq_false in Heqb.
    destruct os as [|o' os].
    + symmetry. apply bool_decide_eq_false. intros [E|E]%elem_of_cons; [done|by apply elem_of_nil in E].
    + rewrite option_loop_tail; [|done..|].
      * apply bool_decide_ext. rewrite (elem_of_cons (o' :: os)). naive_solver.
      * cbn [comma_list]. rewrite length_app. specialize (L (o' :: os)). cbn [length] in *. lia.
Qed.

(** ** Lines of mountinfo *)

(** What the kernel writes for a character of a mount point. *)
Definition escape_char (c : Z) : list Z :=
  if bool_decide (c ∈ [32; 9; 10; 92]) then [92; 48 + c / 64; 48 + c / 8 mod 8; 48 + c mod 8] else [c].
Definition escape (s : list Z) : list Z := concat (map escape_char s).

Lemma unescape_escape s : cstring s -> unescape_loop (escape s) = s.
Proof.
  intros Cs. induction Cs as [|c s C Cs IH]; [done|]. unfold escape in *. cbn [map concat]. unfold escape_char at 1. case_bool.
  - apply bool_decide_eq_true in Heqb. set (u := concat (map escape_char s)) in *.
    repeat (apply elem_of_cons in Heqb as [-> |Heqb]; [cbn; by rewrite IH|]). by apply elem_of_nil in Heqb.
  - apply bool_decide_eq_false in Heqb. cbn [app unescape_loop]. set (u := concat (map escape_char s)) in *.
    assert (N : (c =? 92) = false) by (apply Z.eqb_neq; intros ->; apply Heqb; by do 3 right; left).
    destruct u as [|a [|b [|d u]]]; rewrite ?N; cbn [andb]; by rewrite IH.
Qed.

(** A mount as the kernel lists it; the options are lists. *)
Record mount : Type := mk_mount {
  mt_id : list Z;
  mt_parent : list Z;
  mt_dev : list Z;
  mt_root : list Z;
  mt_point : list Z;
  mt_opts : list (list Z);
  mt_tags : list (list Z);
  mt_fstype : list Z;
  mt_source : list Z;
  mt_super : list (list Z) }.

Definition DASH : list Z := str " - ".

(** The words of a line after the first, and of its second part. *)
Definition mount_words (x : mount) : list (list Z) :=
  [mt_parent x; mt_dev x; mt_root x; escape (mt_point x); comma_list (mt_opts x)] ++ mt_tags x.
Definition spaced (ws : list (list Z)) : list Z := concat (map (cons 32) ws).
Definition mount_line (x : mount) : list Z :=
  mt_id x ++ spaced (mount_words x) ++ DASH ++ mt_fstype x ++ spaced [mt_source x; comma_list (mt_super x)].
Definition mountinfo_text (xs : list mount) : list Z := concat (map (fun x => mount_line x ++ [10]) xs).

(** A word of at most [n] characters that is not the separator; one of any
    length. *)
Definition word_ok (n : nat) (w : list Z) : Prop := scannable n w /\ w <> [45] /\ cstring w.
Definition a_word (w : list Z) : Prop := word_ok (length w) w.

(** What the buffers of [freeze_collect] hold of a line. *)
Record fits (x : mount) : Prop := {
  ft_point : (length (escape (mt_point x)) <= 1023)%nat;
  ft_opts : (length (comma_list (mt_opts x)) <= 511)%nat;
  ft_source : (length (mt_source x) <= 511)%nat;
  ft_super : (length (comma_list (mt_super x)) <= 511)%nat;
  ft_line : (length (mount_line x) < 4096)%nat }.

Definition on_device (x : mount) : bool := starts (str "/dev/") (mt_source x).

(** A line the kernel writes.  Only a mount of a device must fit the buffers:
    overlays and the like may have lines of any length. *)
Record mount_ok (x : mount) : Prop := {
  mk_words : Forall a_word (mt_id x :: mount_words x);
  mk_dev : (length (mt_dev x) <= 15)%nat;
  mk_point : cstring (mt_point x);
  mk_opts : Forall option_text (mt_opts x);
  mk_fstype : word_ok 63 (mt_fstype x);
  mk_source : a_word (mt_source x);
  mk_super : Forall option_text (mt_super x) /\ a_word (comma_list (mt_super x));
  mk_fits : on_device x = true -> fits x }.

(** [strstr] passes over words. *)
Lemma strstr_word w s : Forall (fun c => isspace c = false) w -> strstr (w ++ s) DASH = match strstr s DASH with Some (a, b) => Some (w ++ a, b) | None => None end.
Proof.
  intros F. induction F as [|c w C F IH]; [cbn [app]; destruct (strstr s DASH) as [[? ?]|]; reflexivity|]. cbn [app strstr].
  assert (N : starts DASH (c :: w ++ s) = false).
  { destruct (starts _ _) eqn:S; [|done]. apply starts_spec in S as [t E]. injection E as -> _. done. }
  rewrite N, IH. destruct (strstr s DASH) as [[? ?]|]; reflexivity.
Qed.

Lemma strstr_words ws r : Forall a_word ws -> strstr (spaced ws ++ DASH ++ r) DASH = Some (spaced ws, DASH ++ r).
Proof.
  intros F. induction F as [|w ws (S & N & _) F IH].
  - reflexivity.
  - unfold spaced in *. cbn [map concat]. cbn [app]. destruct S as (Ne & _ & Fs). set (t := concat (map (cons 32) ws) ++ DASH ++ r) in *.
    rewrite <- app_assoc. fold t. cbn [strstr]. assert (Ns : starts DASH (32 :: w ++ t) = false).
    { destruct (starts _ _) eqn:St; [|done]. apply starts_spec in St as [u E]. destruct Fs as [|c w C Fs]; [done|]. injection E as -> E.
      destruct Fs as [|c w C' Fs]; [done|]. injection E as -> _. done. }
    rewrite Ns, strstr_word, IH by done. done.
Qed.

Lemma spaced_cons w ws r : spaced (w :: ws) ++ r = [32] ++ w ++ (spaced ws ++ r).
Proof. unfold spaced. cbn [map concat]. by rewrite <- !app_assoc. Qed.

Lemma spaced_space ws r : spaced ws ++ DASH ++ r = [] \/ isspace (c0 (spaced ws ++ DASH ++ r)) = true.
Proof. right. by destruct ws. Qed.

Lemma one_space : spaces [32].
Proof. by repeat constructor. Qed.

Lemma scannable_room n m w : scannable n w -> (length w <= m)%nat -> scannable m w.
Proof. by intros (A & _ & C) L. Qed.

Lemma scan_skip_app a w rest :
  spaces a -> scannable (length w) w -> rest = [] \/ isspace (c0 rest) = true -> scan_skip (a ++ w ++ rest) = Some rest.
Proof.
  intros A W R. unfold scan_skip. rewrite (scan_word_app _ a w rest); [done|done| |done].
  eapply scannable_room; [done|]. rewrite !length_app. lia.
Qed.

Lemma scan_skip_start w rest : scannable (length w) w -> rest = [] \/ isspace (c0 rest) = true -> scan_skip (w ++ rest) = Some rest.
Proof. apply (scan_skip_app []). constructor. Qed.

Lemma scan_mount_line x :
  mount_ok x -> fits x -> scan_mount (mount_line x) = Some (mt_dev x, escape (mt_point x), comma_list (mt_opts x), mt_source x, comma_list (mt_super x)).
Proof.
  intros [W D _ _ F S [_ U] _] [P O Ls Lu _]. apply Forall_cons in W as [(Si & _) W]. pose proof W as Ws.
  unfold mount_words in W. rewrite Forall_app in W. destruct W as [W _]. rewrite !Forall_cons in W. destruct W as ((Sp & _) & (Sd & _) & (Sr & _) & (Se & _) & (So & _) & _).
  destruct F as (Sf & _), S as (Ss & _), U as (Su & _). apply (scannable_room _ 511) in Ss, Su; [|done..]. unfold scan_mount, mount_line. set (tail := mt_fstype x ++ _).
  rewrite strstr_word by apply Si. rewrite strstr_words by done. cbn [mbind option_bind].
  rewrite scan_skip_start by (apply spaced_space || done). cbn [mbind option_bind].
  unfold mount_words. cbn [app]. rewrite spaced_cons, scan_skip_app by (apply spaced_space || apply one_space || assumption). cbn [mbind option_bind].
  rewrite spaced_cons, scan_word_app by (apply spaced_space || apply one_space || by eapply scannable_room). cbn [mbind option_bind].
  rewrite spaced_cons, scan_skip_app by (apply spaced_space || apply one_space || assumption). cbn [mbind option_bind].
  rewrite spaced_cons, scan_word_app by (apply spaced_space || apply one_space || by eapply scannable_room). cbn [mbind option_bind].
  rewrite spaced_cons, scan_word_app by (apply spaced_space || apply one_space || by eapply scannable_room). cbn [mbind option_bind].
  change (drop 3 (DASH ++ tail)) with tail. unfold tail. rewrite (scan_word_start 63 (mt_fstype x)) by (assumption || (right; reflexivity)). cbn [mbind option_bind].
  rewrite <- (app_nil_r (spaced _)), spaced_cons, scan_word_app by (assumption || apply one_space || (right; reflexivity)). cbn [mbind option_bind].
  rewrite spaced_cons, scan_word_app by (assumption || apply one_space || by left). done.
Qed.

Lemma spaced_no_nl ws : Forall a_word ws -> 10 ∉ spaced ws.
Proof.
  intros F. induction F as [|w ws ((_ & _ & Fs) & _) F IH]; [apply not_elem_of_nil|]. unfold spaced in *. cbn [map concat].
  apply not_elem_of_app. split; [|done]. apply not_elem_of_cons. split; [done|]. intros I. rewrite Forall_forall in Fs. by specialize (Fs _ I).
Qed.

Lemma mount_line_no_nl x : mount_ok x -> 10 ∉ mount_line x.
Proof.
  intros [W _ _ _ F S [_ U] _]. apply Forall_cons in W as [I W]. unfold mount_line.
  assert (Nw : forall n w, word_ok n w -> 10 ∉ w).
  { intros n w ((_ & _ & Fs) & _) In. rewrite Forall_forall in Fs. by specialize (Fs _ In). }
  rewrite !not_elem_of_app. split; [by eapply Nw|]. split; [by apply spaced_no_nl|]. split; [by apply (bool_decide_unpack _)|]. split; [by eapply Nw|].
  unfold spaced. cbn [map concat]. rewrite app_nil_r, !not_elem_of_app, !not_elem_of_cons. split; (split; [done|by eapply Nw]).
Qed.

(** *** A mount that is on no device *)

(** What is scanned of a word that may be cut off is a part of it. *)
Lemma scan_chars_prefix n w r k :
  Forall (fun c => isspace c = false) w -> (scan_chars n (take k (w ++ 32 :: r))).1 `prefix_of` w.
Proof.
  intros F. revert n k. induction F as [|c w C F IH]; intros n k.
  - destruct n, k; cbn; apply prefix_nil.
  - destruct n as [|n]; [apply prefix_nil|]. destruct k as [|k]; [apply prefix_nil|]. cbn [app take scan_chars]. rewrite C.
    specialize (IH n k). destruct (scan_chars n _). by apply prefix_cons.
Qed.

Lemma scan_word_prefix n w r k x s :
  Forall (fun c => isspace c = false) w -> w <> [] -> scan_word n (take k (32 :: w ++ 32 :: r)) = Some (x, s) -> x `prefix_of` w.
Proof.
  intros F N. destruct k as [|k]; [by destruct n|]. unfold scan_word. cbn [take skip_space]. change (isspace 32) with true. cbv iota.
  destruct F as [|c w C F]; [done|]. destruct k as [|k]; [by destruct n|]. cbn [app take skip_space]. rewrite C.
  pose proof (scan_chars_prefix n (c :: w) r (S k) ltac:(by constructor)) as P. cbn [app take] in P.
  destruct (scan_chars n _) as [y t]. case_bool; [done|]. by intros [= <- <-].
Qed.

(** The type of a line that may be cut off, and what is left. *)
Lemma scan_type_rest n w r k x s :
  scannable n w -> scan_word n (take k (w ++ 32 :: r)) = Some (x, s) -> exists j, s = take j (32 :: r).
Proof.
  intros W. destruct (Nat.le_gt_cases (length w) k) as [L|L].
  - rewrite take_app_ge by done. destruct (k - length w)%nat as [|j] eqn:J.
    + rewrite take_0, scan_word_start by (done || by left). intros [= <- <-]. by exists 0%nat.
    + cbn [take]. rewrite scan_word_start by (done || by right). intros [= <- <-]. by exists (S j).
  - rewrite take_app_le by lia. destruct (decide (take k w = [])) as [-> | Ne]; [by destruct n|].
    rewrite <- (app_nil_r (take k w)), scan_word_start; [|split; [done|]|by left].
    + intros [= <- <-]. by exists 0%nat.
    + destruct W as (_ & L2 & F). split; [rewrite length_take; lia|by apply Forall_take].
Qed.

(** The first separator of a line is found or cut off. *)
Lemma strstr_take a r k x sep :
  strstr (a ++ DASH ++ r) DASH = Some (a, DASH ++ r) -> strstr (take k (a ++ DASH ++ r)) DASH = Some (x, sep) ->
  exists j, drop 3 sep = take j r.
Proof.
  revert k x. induction a as [|c a IH]; intros k x.
  - intros _. cbn [app]. destruct k as [|[|[|k]]]; [done..|]. change (take _ (DASH ++ r)) with (DASH ++ take k r).
    pose proof (strstr_words [] (take k r) ltac:(constructor)) as W. change (spaced [] ++ DASH ++ take k r) with (DASH ++ take k r) in W. rewrite W. intros [= <- <-]. by exists k.
  - destruct k as [|k]; [done|]. cbn [app take strstr]. destruct (starts DASH (c :: a ++ DASH ++ r)) eqn:S; [done|].
    destruct (strstr (a ++ DASH ++ r) DASH) as [[a' b']|] eqn:E; [|done]. intros [= -> ->].
    assert (S' : starts DASH (c :: take k (a ++ DASH ++ r)) = false).
    { destruct (starts DASH (c :: take k _)) eqn:T; [|done]. apply starts_spec in T as [t T]. apply not_true_iff_false in S. destruct S. apply starts_spec.
      exists (t ++ drop k (a ++ DASH ++ r)). rewrite (app_assoc DASH t), <- T, <- app_comm_cons. by rewrite take_drop. }
    rewrite S'. destruct (strstr (take k _) DASH) as [[a' b']|] eqn:E'; [|done]. intros [= <- <-]. by eapply IH.
Qed.

Lemma mount_line_split x : mount_line x = (mt_id x ++ spaced (mount_words x)) ++ DASH ++ mt_fstype x ++ 32 :: mt_source x ++ 32 :: comma_list (mt_super x).
Proof. unfold mount_line, spaced. cbn [map concat]. by rewrite app_nil_r, <- !app_assoc. Qed.

(** However long the line, its source is not taken for a device. *)
Lemma skip_no_device x k paths devs `{Alloc} :
  mount_ok x -> on_device x = false -> collect_line (take k (mount_line x)) paths devs = (Ok tt, paths, devs).
Proof.
  intros M N. unfold collect_line. destruct (scan_mount _) as [[[[[dev point] opts] source] super]|] eqn:E; [|done].
  enough (starts (str "/dev/") source = false) as -> by done. apply not_true_iff_false. intros S. apply not_true_iff_false in N. destruct N.
  apply starts_spec in S as [t ->]. unfold on_device. apply starts_spec.
  enough (P : str "/dev/" ++ t `prefix_of` mt_source x) by (destruct P as [u ->]; exists (t ++ u); by rewrite app_assoc).
  destruct M as [W _ _ _ (Sf & _) (Ss & _) _ _]. apply Forall_cons in W as [(Si & _) W]. unfold scan_mount in E. rewrite mount_line_split in E.
  change (str " - ") with DASH in E. destruct (strstr (take k _) DASH) as [[y sep]|] eqn:D; [|done]. apply strstr_take in D as [j D].
  2: { rewrite <- app_assoc, strstr_word by apply Si. by rewrite strstr_words. }
  cbn [mbind option_bind] in E. rewrite D in E. clear D.
  repeat (match type of E with
         | scan_skip ?s ≫= _ = _ => destruct (scan_skip s) as [?|]; [|done]
         | scan_word 63 ?s ≫= _ = _ => fail 1
         | scan_word ?n ?s ≫= _ = _ => destruct (scan_word n s) as [[? ?]|]; [|done]
         end; cbn [mbind option_bind] in E).
  destruct (scan_word 63 _) as [[? s]|] eqn:T; [|done]. cbn [mbind option_bind] in E. apply scan_type_rest in T as [i ->]; [|done].
  destruct (scan_word 511 _) as [[so s]|] eqn:T; [|done]. cbn [mbind option_bind] in E. destruct (scan_word 511 s) as [[? ?]|]; [|done].
  injection E as _ _ _ -> _. eapply scan_word_prefix; [| |exact T]; apply Ss.
Qed.

Lemma snprintf_fits n s : (0 < n)%nat -> (length s < n)%nat -> snprintf [] (Z.of_nat n) s = s.
Proof. intros N L. unfold snprintf. destruct (Z.eqb_spec (Z.of_nat n) 0); [lia|]. apply take_ge. lia. Qed.

(** ** What is frozen *)

(** A filesystem on a block device that is mounted writable. *)
Definition freezable (x : mount) : bool :=
  on_device x && bool_decide (str "ro" ∉ mt_opts x) && bool_decide (str "ro" ∉ mt_super x).

(** The first of those on each device not in [seen]. *)
Fixpoint firsts (seen : list (list Z)) (xs : list mount) : list mount :=
  match xs with
  | [] => []
  | x :: xs => if freezable x && bool_decide (mt_dev x ∉ seen) then x :: firsts (seen ++ [mt_dev x]) xs else firsts seen xs
  end.

Lemma ro_option : option_text (str "ro").
Proof. split; [by apply (bool_decide_unpack _)|by apply (bool_decide_unpack _)]. Qed.

(** The line as its buffer holds it. *)
Lemma collect_mount `{AllocOk} x paths devs :
  mount_ok x ->
  collect_line (snprintf [] 4096 (mount_line x)) paths devs
  = if freezable x && bool_decide (mt_dev x ∉ devs)
    then if (length paths =? FREEZE_MAX)%nat then (Err E2BIG, paths, devs) else (Ok tt, paths ++ [mt_point x], devs ++ [mt_dev x])
    else (Ok tt, paths, devs).
Proof.
  intros M. unfold freezable. destruct (on_device x) eqn:Dv; cbn [andb]; [|by apply (skip_no_device x 4095)].
  pose proof (mk_fits x M Dv) as Ft. rewrite (snprintf_fits 4096) by (lia || apply Ft).
  unfold collect_line. rewrite scan_mount_line by done. destruct M as [_ D Cp Fo _ _ [Fu _] _].
  rewrite !has_option_iff by (apply ro_option || done). unfold on_device in Dv. rewrite Dv. cbn [negb orb andb].
  rewrite !bool_decide_not. destruct (bool_decide (str "ro" ∈ mt_opts x)); cbn [negb orb andb]; [done|].
  destruct (bool_decide (str "ro" ∈ mt_super x)); cbn [negb orb andb]; [done|].
  assert (E : existsb (fun d => streq d (mt_dev x)) devs = bool_decide (mt_dev x ∈ devs)).
  { apply eq_iff_eq_true. rewrite existsb_exists, bool_decide_eq_true. unfold streq. split.
    - intros (d & I & Q). apply bool_decide_eq_true in Q as <-. by apply list_elem_of_In.
    - intros I. exists (mt_dev x). split; [by apply list_elem_of_In|by apply bool_decide_eq_true]. }
  rewrite E. destruct (bool_decide (mt_dev x ∈ devs)); cbn [negb]; [done|]. destruct (_ =? _)%nat; [done|].
  unfold unescape. rewrite alloc_ok, unescape_escape, cstr_of_cstring by done. by rewrite (snprintf_fits 16) by lia.
Qed.

Lemma collect_loop_spec `{AllocOk} xs fuel paths devs :
  Forall mount_ok xs -> (length xs <= fuel)%nat -> (length paths <= FREEZE_MAX)%nat ->
  collect_loop fuel (mountinfo_text xs) paths devs
  = (if (length paths + length (firsts devs xs) <=? FREEZE_MAX)%nat then Ok tt else Err E2BIG,
     paths ++ map mt_point (take (FREEZE_MAX - length paths) (firsts devs xs))).
Proof.
  intros F. revert fuel paths devs. induction F as [|x xs M F IH]; intros fuel paths devs L P.
  - cbn [mountinfo_text map concat firsts length]. rewrite Nat.add_0_r, (proj2 (Nat.leb_le _ _)), take_nil, app_nil_r by done. by destruct fuel.
  - destruct fuel as [|fuel]; [cbn in L; lia|]. cbn [collect_loop]. change (mountinfo_text (x :: xs)) with ((mount_line x ++ [10]) ++ mountinfo_text xs).
    rewrite <- app_assoc. cbn [app]. assert (C : (c0 (mount_line x ++ 10 :: mountinfo_text xs) =? 0) = false).
    { destruct M as [W _ _ _ _ _ _ _]. apply Forall_cons in W as [((Ne & _) & _ & Cs) _]. unfold mount_line. destruct Cs as [|c t C Cs]; [done|].
      cbn. apply Z.eqb_neq. lia. }
    rewrite C, split_at_some by (by apply mount_line_no_nl). rewrite collect_mount by done.
    change (drop 1 (10 :: mountinfo_text xs)) with (mountinfo_text xs). cbn [firsts]. cbn in L.
    destruct (freezable x && _); [|by apply IH; [lia|]].
    destruct (Nat.eqb_spec (length paths) FREEZE_MAX) as [E|N].
    + rewrite E, (proj2 (Nat.leb_gt _ _)) by (cbn [length]; lia). by rewrite Nat.sub_diag, take_0, app_nil_r.
    + rewrite IH by (rewrite ?length_app; cbn [length]; lia). rewrite length_app. cbn [length].
      replace (length paths + 1 + length (firsts (devs ++ [mt_dev x]) xs))%nat with (length paths + S (length (firsts (devs ++ [mt_dev x]) xs)))%nat by lia.
      replace (FREEZE_MAX - length paths)%nat with (S (FREEZE_MAX - (length paths + 1))) by lia. cbn [take map]. by rewrite <- app_assoc.
Qed.

(** The last newline makes no difference. *)
Lemma collect_loop_newline `{Alloc} fuel p paths devs : collect_loop fuel (p ++ [10]) paths devs = collect_loop fuel p paths devs.
Proof.
  revert p paths devs. induction fuel as [|fuel IH]; intros p paths devs; [done|]. destruct p as [|c p].
  { cbn. by destruct fuel. }
  cbn [collect_loop]. rewrite c0_app_nil by done. case_bool; [done|]. pose proof (split_at_spec 10 (c :: p)) as S.
  destruct (split_at 10 (c :: p)) as [a [q|]].
  - destruct S as (-> & N & u & ->). rewrite <- app_assoc. cbn [app]. rewrite split_at_some by done.
    destruct (collect_line _ _ _) as [[[]] ?]; [|done]. change (drop 1 (10 :: ?l)) with l. apply IH.
  - destruct S as [-> N]. rewrite split_at_some by done. done.
Qed.

Lemma mount_line_cstring x : mount_ok x -> cstring (mount_line x) /\ mount_line x <> [].
Proof.
  intros [W _ _ _ (_ & _ & F) (_ & _ & S) [_ (_ & _ & U)] _]. apply Forall_cons in W as [((Ne & _) & _ & I) W].
  split; [|unfold mount_line; by destruct (mt_id x)].
  assert (Sp : forall ws, Forall a_word ws -> cstring (spaced ws)).
  { intros ws Fw. induction Fw as [|w ws (_ & _ & C) Fw IH]; [constructor|]. unfold spaced. cbn [map concat]. apply Forall_app. split; [by constructor|exact IH]. }
  rewrite mount_line_split. unfold cstring in *. apply Forall_app. split; [apply Forall_app; split; [done|by apply Sp]|].
  apply Forall_app. split; [by repeat constructor|]. apply Forall_app. split; [done|]. constructor; [done|]. apply Forall_app. split; [done|]. by constructor.
Qed.

(** What [file_read_string] makes of it. *)
Lemma mountinfo_read xs :
  Forall mount_ok xs -> exists p, cstr_of (strip_newlines (mountinfo_text xs)) = p /\ (length xs <= length p)%nat /\
    (mountinfo_text xs = p \/ mountinfo_text xs = p ++ [10]).
Proof.
  intros F. destruct xs as [|x xs _] using rev_ind; [exists []; split; [done|]; split; [done|by left]|].
  assert (E : mountinfo_text (xs ++ [x]) = (mountinfo_text xs ++ mount_line x) ++ [10]).
  { unfold mountinfo_text. rewrite map_app, concat_app. cbn [map concat]. by rewrite app_nil_r, app_assoc. }
  apply Forall_app in F as [F M]. apply Forall_cons in M as [M _]. destruct (mount_line_cstring x M) as [C N].
  assert (Cs : cstring (mountinfo_text xs) /\ (length xs <= length (mountinfo_text xs))%nat).
  { clear E. induction F as [|y xs My F [IH1 IH2]]; [by split; [constructor|]|].
    change (mountinfo_text (y :: xs)) with ((mount_line y ++ [10]) ++ mountinfo_text xs). destruct (mount_line_cstring y My) as [Cy _]. split.
    - apply Forall_app. split; [|done]. apply Forall_app. split; [done|by repeat constructor].
    - rewrite !length_app. cbn [length]. lia. }
  destruct Cs as [Cs L]. exists (mountinfo_text xs ++ mount_line x). split; [|split; [|by right]].
  - rewrite E. unfold strip_newlines. rewrite rev_app_distr. cbn [rev app skip_nl]. change (10 =? 10) with true. cbv iota.
    pose proof (mount_line_no_nl x M) as Nl. rewrite rev_app_distr. destruct (rev (mount_line x)) as [|c l] eqn:Rv.
    { apply (f_equal (@rev Z)) in Rv. rewrite rev_involutive in Rv. done. }
    cbn [app skip_nl]. assert (Hc : (c =? 10) = false).
    { apply Z.eqb_neq. intros ->. apply Nl. apply list_elem_of_In, in_rev. rewrite Rv. by left. }
    rewrite Hc, app_comm_cons, <- Rv, <- rev_app_distr, rev_involutive. apply cstr_of_cstring. by apply Forall_app.
  - rewrite !length_app. cbn [length]. destruct (mount_line x); [done|]. cbn [length]. lia.
Qed.

(** C29: an upgrade freezes the right filesystems.  From a mountinfo as the
    kernel writes it and [file_read_string] reads it, [freeze_collect] takes,
    in mount order, the unescaped mount points of the filesystems on block
    devices (a source under [/dev/]) that are writable (neither the mount
    nor the super block has the option [ro]), each device once, and fails
    with [-E2BIG] exactly when there are more than 64.  Lines of other
    filesystems may be of any length (their type at most 63 characters); one
    of a block device has to fit the buffers of the parser: a longer mount
    point is cut off ([long_point_is_cut]). *)
Theorem freeze_collect_exact `{AllocOk} `{Files} path xs :
  Forall mount_ok xs -> file_read path = Ok (mountinfo_text xs) ->
  exists text, file_read_string path = Ok text /\
    freeze_collect text = (if (length (firsts [] xs) <=? FREEZE_MAX)%nat then Ok tt else Err E2BIG, map mt_point (take FREEZE_MAX (firsts [] xs))).
Proof.
  intros F R. unfold file_read_string. rewrite R. destruct (mountinfo_read xs F) as (p & -> & L & T). exists p. split; [done|].
  unfold freeze_collect. pose proof (collect_loop_spec xs (length p) [] [] F L ltac:(unfold FREEZE_MAX; cbn; lia)) as C.
  destruct T as [T|T]; rewrite T in C; [exact C|]. by rewrite collect_loop_newline in C.
Qed.

(** ** Freezing all or none *)

(** A filesystem that froze, or that cannot be frozen at all. *)
Definition frozen_or_none (r : result unit) : Prop := r = Ok tt \/ r = Err EOPNOTSUPP.

Section All.
Context (ops : freeze_ops).

Lemma thaw_each_spec l h : exists ts, length ts = length l /\ thaw_each ops l h = h ++ zip_with AThaw l ts.
Proof.
  revert h. induction l as [|p l IH]; intros h; cbn [thaw_each]; [exists []; by rewrite app_nil_r|].
  destruct (IH (h ++ [AThaw p (fo_thaw ops h p)])) as (ts & L & E). exists (fo_thaw ops h p :: ts). cbn. rewrite L, E, <- app_assoc. done.
Qed.

Lemma thaw_all_spec l h : exists ts, length ts = length l /\ thaw_all ops l h = h ++ zip_with AThaw (rev l) ts.
Proof. unfold thaw_all. rewrite <- (length_rev l). apply thaw_each_spec. Qed.

Lemma freeze_loop_spec l dn h :
  let '(ret, h') := freeze_loop ops dn l h in
  match ret with
  | Ok _ => exists rs, length rs = length l /\ Forall frozen_or_none rs /\ h' = h ++ zip_with AFreeze l rs
  | Err e => exists a p b rs ts, l = a ++ p :: b /\ length rs = length a /\ Forall frozen_or_none rs /\ length ts = length (dn ++ a) /\
      h' = h ++ zip_with AFreeze a rs ++ AFreeze p (Err e) :: zip_with AThaw (rev (dn ++ a)) ts
  end.
Proof.
  revert dn h. induction l as [|p l IH]; intros dn h; cbn [freeze_loop].
  { exists []. split; [done|]. split; [constructor|by rewrite app_nil_r]. }
  cbv zeta. set (r := fo_freeze ops h p).
  assert (Next : frozen_or_none r ->
    let '(ret, h') := freeze_loop ops (dn ++ [p]) l (h ++ [AFreeze p r]) in
    match ret with
    | Ok _ => exists rs, length rs = length (p :: l) /\ Forall frozen_or_none rs /\ h' = h ++ zip_with AFreeze (p :: l) rs
    | Err e => exists a q b rs ts, p :: l = a ++ q :: b /\ length rs = length a /\ Forall frozen_or_none rs /\ length ts = length (dn ++ a) /\
        h' = h ++ zip_with AFreeze a rs ++ AFreeze q (Err e) :: zip_with AThaw (rev (dn ++ a)) ts
    end).
  { intros R. specialize (IH (dn ++ [p]) (h ++ [AFreeze p r])). destruct (freeze_loop ops _ l _) as [[[]|e] h'].
    - destruct IH as (rs & L & F & ->). exists (r :: rs). cbn. split; [by rewrite L|]. split; [by constructor|by rewrite <- app_assoc].
    - destruct IH as (a & q & b & rs & ts & -> & L & F & Lt & ->). exists (p :: a), q, b, (r :: rs), ts. rewrite <- app_assoc in Lt. cbn [app] in Lt.
      split; [done|]. split; [by cbn; rewrite L|]. split; [by constructor|]. split; [done|]. by rewrite <- !app_assoc. }
  destruct r as [[]|e] eqn:R; [apply Next; by left|]. destruct (Z.eqb_spec e EOPNOTSUPP) as [->|N]; [apply Next; by right|].
  destruct (thaw_all_spec dn (h ++ [AFreeze p (Err e)])) as (ts & L & E). exists [], p, l, [], ts. rewrite app_nil_r, E, <- app_assoc. by repeat split.
Qed.

(** [freeze_all] freezes every path, or fails at the first that refuses and
    thaws those before it, the last first. *)
Lemma freeze_all_spec set h :
  let '(ret, h') := freeze_all ops set h in
  match ret with
  | Ok _ => exists rs, length rs = length set /\ Forall frozen_or_none rs /\ h' = h ++ zip_with AFreeze set rs
  | Err e => exists a p b rs ts, set = a ++ p :: b /\ length rs = length a /\ Forall frozen_or_none rs /\ length ts = length a /\
      h' = h ++ zip_with AFreeze a rs ++ AFreeze p (Err e) :: zip_with AThaw (rev a) ts
  end.
Proof. apply (freeze_loop_spec set [] h). Qed.

End All.

(** A root on a disk, the disk mounted again, a read-only one and [/proc]. *)
Definition demo_mounts : list mount :=
  [mk_mount (str "22") (str "1") (str "8:1") (str "/") (str "/") [str "rw"; str "relatime"] [str "shared:1"] (str "ext4") (str "/dev/sda1") [str "rw"];
   mk_mount (str "23") (str "22") (str "8:1") (str "/a") (str "/my disk") [str "rw"] [] (str "ext4") (str "/dev/sda1") [str "rw"];
   mk_mount (str "24") (str "22") (str "8:2") (str "/") (str "/cd") [str "ro"] [] (str "iso9660") (str "/dev/sr0") [str "ro"];
   mk_mount (str "25") (str "22") (str "8:3") (str "/") (str "/my data") [str "rw"] [] (str "xfs") (str "/dev/sdb1") [str "rw"];
   mk_mount (str "26") (str "22") (str "0:5") (str "/") (str "/proc") [str "rw"] [] (str "proc") (str "proc") [str "rw"]].

Definition overlay_mount : mount :=
  mk_mount (str "27") (str "22") (str "0:40") (str "/") (str "/var/lib/containers/merged") [str "rw"] [] (str "overlay") (str "overlay")
    [str "rw"; str "lowerdir=" ++ replicate 5000 (ch "x")].
Definition demo_files : Files := {| file_read _ := Ok (mountinfo_text (overlay_mount :: demo_mounts)); dir_list _ := Err ENOENT |}.

Lemma freeze_collect_exact_witness :
  exists text, @file_read_string demo_files (str "/proc/self/mountinfo") = Ok text /\
    freeze_collect (H := alloc_always) text = (Ok tt, [str "/"; str "/my data"]).
Proof.
  apply (freeze_collect_exact (H := alloc_always) (H1 := demo_files) (str "/proc/self/mountinfo") (overlay_mount :: demo_mounts)); [|reflexivity].
  repeat (apply Forall_cons; split; [constructor; [..|first [intros D; vm_compute in D; discriminate D|intros _; constructor]]|]); [..|apply Forall_nil; exact I];
    unfold a_word, word_ok, scannable, option_text, cstring; apply (bool_decide_unpack _); vm_compute; exact I.
Defined.

(** A disk mounted where the path takes more than 1023 characters. *)
Definition deep_point : list Z := concat (replicate 8 (str "/" ++ replicate 150 (ch "d"))).
Definition deep_mount : mount :=
  mk_mount (str "28") (str "22") (str "8:5") (str "/") deep_point [str "rw"] [] (str "ext4") (str "/dev/sdc1") [str "rw"].

(** The defect: such a mount point is cut off at 1023 characters, and the
    upgrade goes on to freeze whatever filesystem that other path is on. *)
Lemma long_point_is_cut :
  freeze_collect (H := alloc_always) (mountinfo_text [deep_mount]) = (Ok tt, [take 1023 deep_point]) /\ length deep_point = 1208%nat.
Proof. split; vm_compute; reflexivity. Qed.
