(* ===== verification/Upgrade.v ===== *)
(** * kmorph/upgrade.c, watch.c and client.c: the predecessor's side of a handover

    One request to the successor's daemon, handing it the network identity,
    and the upgrade: freeze the filesystems, ask for the handover, and thaw
    them again if this kernel is still there. *)

From S2P Require Import Prelude Cstr Parse Config Request Netsnap Files Fdt HostTree Machine Mkfs Freeze.

(** What the socket calls of [client_request] answer, and [netsnap_text]. *)
Record client_env : Type := {
  cl_socket : history -> result unit;
  cl_connect : history -> Z -> result unit;
  cl_send : history -> list Z -> result unit;
  cl_recv : history -> Z -> result (list Z);
  cl_netsnap : history -> strlist -> result (Z * list Z) }.

Definition NETSNAP_TEXT_MAX : Z := 16384.
Definition FENCE_WAIT_S : Z := 10.

Section Client.
Context (c : client_env).

(** The reply as a string, in a buffer of [len] bytes. *)
Definition client_request (cid : Z) (request : list Z) (len : Z) (h : history) : result (list Z) * history :=
  match cl_socket c h with
  | Err e => (Err e, h)
  | Ok _ =>
      match cl_connect c h cid with
      | Err e => (Err e, h)
      | Ok _ =>
          match cl_send c h request with
          | Err e => (Err e, h)
          | Ok _ =>
              let ret := match cl_recv c h (len - 1) with
                         | Err e => Err e
                         | Ok [] => Err ECONNRESET
                         | Ok bytes => Ok (cstr_of (take (Z.to_nat (len - 1)) bytes))
                         end in
              (ret, h ++ [ARequest cid request ret])
          end
      end
  end.

(** ** The network identity *)

Definition send_text (id : Z) (text : list Z) (h : history) : result unit * history :=
  let size := 64 + NETSNAP_TEXT_MAX in
  match request_format_network (zlen text) size with
  | Err _ => (Err E2BIG, h)
  | Ok header =>
      if size <=? zlen header + zlen text then (Err E2BIG, h) else
      match client_request id (header ++ text) 128 h with
      | (Err e, h) => (Err e, h)
      | (Ok reply, h) => ((request_parse_network_reply reply [] 96).2, h)
      end
  end.

Definition watch_push (id : Z) (skip : strlist) (h : history) : result unit * history :=
  match cl_netsnap c h skip with Err e => (Err e, h) | Ok (_, text) => send_text id text h end.

(** The variables of [watch_run]. *)
Record watch_state : Type := mk_watch { w_sent : list Z; w_sent_to : Z; w_last_err : Z }.
Definition WATCH_INIT : watch_state := mk_watch [] 0 0.

Context (m : machine) (root : list Z).

(** One round of its [for] loop, up to the wait; 0 or an error. *)
Definition watch_round (cfg : kmorph_config) (w : watch_state) (h : history) : result unit * watch_state * history :=
  let name := default [] (c_name cfg) in
  let '(ret, w, h) :=
    match cl_netsnap c h (c_devices cfg) with
    | Err e => (Err e, w, h)
    | Ok (_, now) =>
        match mkfs_instance_id m root name h with
        | Err _ => (Err ENOENT, w, h)
        | Ok id =>
            if negb (id =? w_sent_to w) || negb (streq now (w_sent w)) then
              match send_text id now h with
              | (Err e, h) => (Err e, w, h)
              | (Ok _, h) => (Ok tt, mk_watch now id (w_last_err w), h)
              end
            else (Ok tt, w, h)
        end
    end in
  (ret, mk_watch (w_sent w) (w_sent_to w) (match ret with Err e => e | Ok _ => 0 end), h).

(** Rounds of the watcher; what happens to the machine while it waits is
    [between]. *)
Fixpoint watch_rounds (cfg : kmorph_config) (between : list (list action)) (w : watch_state) (h : history) : watch_state * history :=
  match between with
  | [] => (w, h)
  | b :: between => let '(_, w, h) := watch_round cfg w (h ++ b) in watch_rounds cfg between w h
  end.

(** [watch_run]: only an armed successor is watched. *)
Definition watch_run (cfg : kmorph_config) (between : list (list action)) (h : history) : result watch_state * history :=
  match mkfs_instance_id m root (default [] (c_name cfg)) h with
  | Err _ => (Err ENOENT, h)
  | Ok _ => let '(w, h) := watch_rounds cfg between WATCH_INIT h in (Ok w, h)
  end.

(** ** The upgrade *)

Context `{Alloc} (ops : freeze_ops).

Definition MOUNTINFO : list Z := str "/proc/self/mountinfo".

(** The paths that are frozen. *)
Definition freeze_filesystems (h : history) : result (list (list Z)) * history :=
  match sys_read_string m MOUNTINFO h with
  | Err e => (Err e, h)
  | Ok mountinfo =>
      match freeze_collect mountinfo with
      | (Err e, _) => (Err e, h)
      | (Ok _, set) =>
          match freeze_all ops set h with
          | (Err e, h) => (Err e, h)
          | (Ok _, h) => (Ok set, h)
          end
      end
  end.

Definition HANDOVER : list Z := str "handover" ++ [10].

Definition ask_handover (id : Z) (h : history) : result unit * history :=
  match client_request id HANDOVER 128 h with
  | (Err e, h) => (Err e, h)
  | (Ok reply, h) =>
      match (request_parse_handover reply [] 96).2 with
      | Err e => (Err e, h)
      | Ok _ => (Err ETIMEDOUT, h ++ [ASleep FENCE_WAIT_S])
      end
  end.

Definition upgrade_run (cfg : kmorph_config) (h : history) : result unit * history :=
  let name := default [] (c_name cfg) in
  match mkfs_instance_id m root name h with
  | Err _ => (Err ENOENT, h)
  | Ok id =>
      match mkfs_other_running m root name 64 h with
      | Ok (Some _) => (Err EBUSY, h)
      | Err e => (Err e, h)
      | Ok None =>
          let '(_, h) := watch_push id (c_devices cfg) h in
          let h := h ++ [ASync] in
          match freeze_filesystems h with
          | (Err e, h) => (Err e, h)
          | (Ok frozen, h) => let '(ret, h) := ask_handover id h in (ret, thaw_all ops frozen h)
          end
      end
  end.

End Client.

(** ** The watcher *)

(** A request that carries a network identity, and what its reply says: the
    successor took it, it refused it, or neither is known. *)
Definition network_request (q : list Z) : list Z := str "network " ++ q.
Definition accepted (reply : list Z) : Prop := (request_parse_network_reply reply [] 96).2 = Ok tt.
Definition refused (r : result (list Z)) : Prop := exists reply, r = Ok reply /\ (request_parse_network_reply reply [] 96).2 = Err EBUSY.
Definition answered (r : result (list Z)) : Prop := (exists reply, r = Ok reply /\ accepted reply) \/ refused r.

(** Every network request of [h] was answered; there was none. *)
Definition heard (h : history) : Prop := forall id q r, ARequest id (network_request q) r ∈ h -> answered r.
Definition no_network (h : history) : Prop := forall id q r, ARequest id (network_request q) r ∉ h.

(** The identity the successor [id] has is [text]: it took a request that
    carries it, a line the daemon reads as a network request for that many
    bytes and those bytes, and refused every one that came later. *)
Definition current (id : Z) (text : list Z) (h : history) : Prop :=
  exists h1 header reply h2, h = h1 ++ ARequest id (header ++ text) (Ok reply) :: h2 /\
    request_parse header = Ok (REQUEST_NETWORK, zlen text) /\ accepted reply /\
    forall q r, ARequest id (network_request q) r ∈ h2 -> refused r.

Lemma current_app id text h h' :
  current id text h -> (forall q r, ARequest id (network_request q) r ∈ h' -> refused r) -> current id text (h ++ h').
Proof.
  intros (h1 & hd & reply & h2 & -> & P & A & R) N. exists h1, hd, reply, (h2 ++ h'). rewrite <- app_assoc. split; [done|].
  split; [done|]. split; [done|]. intros q r I. apply elem_of_app in I as [I|I]; eauto.
Qed.

Lemma heard_app h h' : heard (h ++ h') -> heard h /\ heard h'.
Proof. intros Hd. split; intros id q r I; apply (Hd id q r), elem_of_app; auto. Qed.

Section Watch.
Context (c : client_env) (m : machine) (root : list Z).

Lemma client_request_grows cid request len h :
  let '(ret, h') := client_request c cid request len h in
  (exists e, ret = Err e /\ h' = h) \/ h' = h ++ [ARequest cid request ret].
Proof.
  unfold client_request. destruct (cl_socket c h); [|by left; eexists]. destruct (cl_connect c h cid); [|by left; eexists].
  destruct (cl_send c h request); [|by left; eexists]. by right.
Qed.

(** [send_text] fails before it asks, or asks once and says what the reply says. *)
Lemma send_text_spec id text h :
  let '(ret, h') := send_text c id text h in
  (exists e, ret = Err e /\ h' = h) \/
  exists hd q r, h' = h ++ [ARequest id (hd ++ text) r] /\ hd ++ text = network_request q /\
    request_parse hd = Ok (REQUEST_NETWORK, zlen text) /\
    ret = match r with Err e => Err e | Ok reply => (request_parse_network_reply reply [] 96).2 end.
Proof.
  unfold send_text. cbv zeta. destruct (request_format_network _ _) as [hd|] eqn:F; [|left; by eexists].
  case_bool; [left; by eexists|]. apply Z.leb_gt in Heqb.
  assert (P : request_parse hd = Ok (REQUEST_NETWORK, zlen text)).
  { pose proof (zlen_nonneg text). pose proof (zlen_nonneg hd). unfold NETSNAP_TEXT_MAX in *.
    rewrite (request_network_roundtrip (zlen text) _ _ ltac:(unfold is_u64; lia) F). rewrite (proj2 (Z.leb_le _ _)) by (unfold NETWORK_MAX; lia). done. }
  assert (Hd : exists q, hd ++ text = network_request q) by (apply format_ok in F as ->; rewrite <- app_assoc; by eexists).
  destruct Hd as [q Hd]. pose proof (client_request_grows id (hd ++ text) 128 h) as G.
  destruct (client_request c id (hd ++ text) 128 h) as [[reply|e] h']; destruct G as [(e' & E & ->)| ->]; try discriminate.
  - right. by exists hd, q, (Ok reply).
  - left. by eexists.
  - right. by exists hd, q, (Err e).
Qed.

(** What the watcher remembers as sent is what the successor has. *)
Definition watch_inv (w : watch_state) (h : history) : Prop := w_sent_to w <> 0 -> current (w_sent_to w) (w_sent w) h.

Lemma watch_inv_app w h h' : no_network h' -> watch_inv w h -> watch_inv w (h ++ h').
Proof. intros N I Z. apply current_app; [by apply I|]. intros q r J. by apply N in J. Qed.

(** The round's work once the snapshot and the instance are known. *)
Lemma send_text_current id text w h :
  let '(ret, h') := send_text c id text h in
  exists new, h' = h ++ new /\
    (watch_inv w h -> heard new -> match ret with Ok _ => current id text h' | Err _ => watch_inv w h' end).
Proof.
  pose proof (send_text_spec id text h) as S. destruct (send_text c id text h) as [ret h'].
  destruct S as [(e & -> & ->)|(hd & q & r & -> & Q & P & ->)]; [exists []; by rewrite app_nil_r|].
  eexists. split; [done|]. intros I Hd.
  assert (An : answered r) by (apply (Hd id q r); rewrite Q; by left). destruct An as [(reply & -> & A)|(reply & -> & A)].
  - unfold accepted in A. rewrite A. exists h, hd, reply, []. split; [done|]. split; [done|]. split; [done|]. intros ? ? J. by apply elem_of_nil in J.
  - rewrite A. intros Z. apply current_app; [by apply I|]. intros q' r J. apply list_elem_of_singleton in J. injection J as _ _ ->. by exists reply.
Qed.

Lemma watch_round_ok cfg w h :
  let '(ret, w', h') := watch_round c m root cfg w h in
  exists new, h' = h ++ new /\ (watch_inv w h -> heard new -> watch_inv w' h' /\
    (ret = Ok tt -> exists n text id, cl_netsnap c h (c_devices cfg) = Ok (n, text) /\
       mkfs_instance_id m root (default [] (c_name cfg)) h = Ok id /\ (id <> 0 -> current id text h'))).
Proof.
  unfold watch_round. cbv zeta.
  destruct (cl_netsnap c h (c_devices cfg)) as [[n now]|e] eqn:N; [|exists []; by rewrite app_nil_r].
  destruct (mkfs_instance_id m root _ h) as [id|e] eqn:Id; [|exists []; by rewrite app_nil_r].
  destruct (negb (id =? w_sent_to w) || negb (streq now (w_sent w))) eqn:B.
  - pose proof (send_text_current id now w h) as S. destruct (send_text c id now h) as [[[]|e] h'];
      destruct S as (new & -> & S); exists new; (split; [done|]); intros I Hd; specialize (S I Hd).
    + split; [by intros _|]. intros _. by exists n, now, id.
    + by split.
  - exists []. rewrite app_nil_r. split; [done|]. intros I _. split; [done|]. intros _. exists n, now, id. split; [done|]. split; [done|].
    apply orb_false_iff in B as [B1 B2]. rewrite negb_false_iff in B1, B2. apply Z.eqb_eq in B1. apply bool_decide_eq_true in B2.
    rewrite B1, B2. apply I.
Qed.

Lemma watch_rounds_ok cfg between w h :
  Forall no_network between ->
  let '(w', h') := watch_rounds c m root cfg between w h in
  exists new, h' = h ++ new /\ (watch_inv w h -> heard new -> watch_inv w' h').
Proof.
  intros Nb. revert w h. induction Nb as [|b between N _ IH]; intros w h; [exists []; by rewrite app_nil_r|]. cbn [watch_rounds].
  pose proof (watch_round_ok cfg w (h ++ b)) as R. destruct (watch_round _ _ _ _ _ _) as [[ret w1] h1]. destruct R as (n1 & -> & R).
  specialize (IH w1 ((h ++ b) ++ n1)). destruct (watch_rounds _ _ _ _ _ _ _) as [w2 h2]. destruct IH as (n2 & -> & IH).
  exists (b ++ n1 ++ n2). rewrite <- !app_assoc. split; [done|]. intros I Hd. apply heard_app in Hd as [_ Hd]. apply heard_app in Hd as [H1 H2].
  rewrite <- !app_assoc in IH. apply IH; [|done]. rewrite app_assoc. apply R; [by apply watch_inv_app|done].
Qed.

(** C8: the watcher keeps the successor up to date.  After any number of
    rounds, whatever else happened between them, a round that ends without
    an error leaves the instance that bears the name now with exactly the
    snapshot of that moment: the last network request that instance took,
    in this round or in an earlier one, carries it, and it refused all that
    came later; this also when it was re-armed under another id meanwhile.
    It holds while nobody else sends the successor an identity and no reply
    of the successor is lost: without the second, it fails
    ([lost_reply_leaves_stale]).  An instance of id 0 is exempt: 0 is the
    host kernel's own id and the watcher's mark for nothing sent yet. *)
Theorem watch_keeps_up cfg between last h :
  Forall no_network between -> no_network last ->
  let '(w, h1) := watch_rounds c m root cfg between WATCH_INIT h in
  let '(ret, _, h2) := watch_round c m root cfg w (h1 ++ last) in
  heard (drop (length h) h2) ->
  ret = Ok tt -> exists n text id, cl_netsnap c (h1 ++ last) (c_devices cfg) = Ok (n, text) /\
    mkfs_instance_id m root (default [] (c_name cfg)) (h1 ++ last) = Ok id /\ (id <> 0 -> current id text h2).
Proof.
  intros Nb Nl. pose proof (watch_rounds_ok cfg between WATCH_INIT h Nb) as W. destruct (watch_rounds _ _ _ _ _ _ _) as [w h1].
  destruct W as (n1 & -> & W). pose proof (watch_round_ok cfg w ((h ++ n1) ++ last)) as R.
  destruct (watch_round _ _ _ _ _ _) as [[ret w'] h2]. destruct R as (n2 & -> & R).
  rewrite <- (app_assoc h), <- (app_assoc h), drop_app_length. intros Hd. apply heard_app in Hd as [Hd H2]. apply heard_app in Hd as [H1 _].
  rewrite (app_assoc h (n1 ++ last)), (app_assoc h n1 last). apply R; [|done]. apply watch_inv_app; [done|]. apply W; [by intros []|done].
Qed.

End Watch.

(** *** A lost reply *)

(** A machine whose successor is instance 7.  Its network is A, then B, then
    A again, a [sync] apart each; the reply to B does not arrive when
    [lossy]. *)
Definition armed_machine : machine := {|
  mc_files _ := {| file_read _ := Ok (str "7" ++ [10]); dir_list _ := Err ENOENT |}; mc_exists _ _ := true;
  mc_write _ _ _ := Ok tt; mc_overlay _ _ _ := Ok tt; mc_tree _ _ := Err ENOENT; mc_command _ _ := Err ENOENT; mc_set_command _ _ _ := false;
  mc_fence _ _ := Ok tt; mc_fork _ _ := false; mc_alive _ _ _ := false; mc_schedule _ _ := 0%nat; mc_network _ := (0, []); mc_dump _ _ _ := Ok tt |}.

Definition syncs (h : history) : nat := length (List.filter (fun a => match a with ASync => true | _ => false end) h).
Definition net_A : list Z := str "# A" ++ [10].
Definition net_B : list Z := str "# B" ++ [10].
Definition net_reply : list Z := str "ok network" ++ [10].
Definition changing_client (lossy : bool) : client_env := {|
  cl_socket _ := Ok tt; cl_connect _ _ := Ok tt; cl_send _ _ := Ok tt;
  cl_recv h _ := if lossy && (syncs h =? 1)%nat then Err ETIMEDOUT else Ok net_reply;
  cl_netsnap h _ := Ok (0, if (syncs h =? 1)%nat then net_B else net_A) |}.
Definition network_moves : list action := [ASync].

(** The round after the network changed to B and back. *)
Definition back_again (lossy : bool) : result unit * watch_state * history :=
  let '(w, h) := watch_rounds (changing_client lossy) armed_machine (str "/sys/fs/multikernel") config_zero [[]; network_moves] WATCH_INIT [] in
  watch_round (changing_client lossy) armed_machine (str "/sys/fs/multikernel") config_zero w (h ++ network_moves).

(** The defect: with the reply to B lost, the watcher takes A for the last
    identity the successor has; back to A it sends nothing, and the round
    ends without an error although the last request sent carries B. *)
Lemma lost_reply_leaves_stale :
  back_again true = (Ok tt, mk_watch net_A 7 0,
    [ARequest 7 (str "network 4" ++ [10] ++ net_A) (Ok net_reply); ASync;
     ARequest 7 (str "network 4" ++ [10] ++ net_B) (Err ETIMEDOUT); ASync])
  /\ cl_netsnap (changing_client true) (back_again true).2 (c_devices config_zero) = Ok (0, net_A).
Proof. split; vm_compute; reflexivity. Qed.

(** Without the loss, A is sent again. *)
Definition asked_A : action := ARequest 7 (str "network 4" ++ [10] ++ net_A) (Ok net_reply).
Definition asked_B : action := ARequest 7 (str "network 4" ++ [10] ++ net_B) (Ok net_reply).

Lemma all_heard : heard [asked_A; ASync; asked_B; ASync; asked_A].
Proof.
  assert (An : answered (Ok net_reply)) by (left; exists net_reply; split; vm_compute; reflexivity).
  intros id q r I. repeat (apply elem_of_cons in I as [I|I]; [try discriminate I; by injection I as _ _ ->|]). by apply elem_of_nil in I.
Qed.

Lemma watch_keeps_up_witness : current 7 net_A [asked_A; ASync; asked_B; ASync; asked_A].
Proof.
  assert (Nc : no_network network_moves) by (intros id q r I; apply list_elem_of_singleton in I; discriminate).
  assert (Nn : no_network []) by (intros id q r I; by apply elem_of_nil in I).
  pose proof (watch_keeps_up (changing_client false) armed_machine (str "/sys/fs/multikernel") config_zero [[]; network_moves] network_moves []
    ltac:(by repeat constructor) Nc) as T.
  replace (watch_rounds (changing_client false) armed_machine (str "/sys/fs/multikernel") config_zero [[]; network_moves] WATCH_INIT [])
    with (mk_watch net_B 7 0, [asked_A; ASync; asked_B]) in T by (vm_compute; reflexivity).
  cbv beta iota in T.
  replace (watch_round (changing_client false) armed_machine (str "/sys/fs/multikernel") config_zero (mk_watch net_B 7 0) ([asked_A; ASync; asked_B] ++ network_moves))
    with (@Ok unit tt, mk_watch net_A 7 0, [asked_A; ASync; asked_B; ASync; asked_A]) in T by (vm_compute; reflexivity).
  cbv beta iota in T. destruct (T all_heard eq_refl) as (n & text & id & E1 & E2 & C).
  assert (text = net_A) as -> by (vm_compute in E1; by injection E1 as _ <-).
  assert (id = 7) as -> by (vm_compute in E2; by injection E2 as <-).
  by apply C.
Defined.

(** ** The upgrade *)

(** What asking for the handover leaves in the history. *)
Inductive asked (id : Z) : list action -> Prop :=
| asked_nothing : asked id []
| asked_in_vain r : asked id [ARequest id HANDOVER r]
| asked_accepted reply :
    (request_parse_handover reply [] 96).2 = Ok tt -> asked id [ARequest id HANDOVER (Ok reply); ASleep FENCE_WAIT_S].

Section Upgrade.
Context (c : client_env) (m : machine) (root : list Z) `{Alloc} (ops : freeze_ops).

(** The network identity handed over first, if it could be. *)
Definition pushes (id : Z) (new : list action) : Prop := Forall (fun a => exists q r, a = ARequest id (str "network " ++ q) r) new.

(** The ways [upgrade_run] can go; [set] is what mountinfo names. *)
Inductive upgraded (cfg : kmorph_config) (h : history) : list action -> Prop :=
| up_stopped : upgraded cfg h []
| up_not_frozen id push : pushes id push -> upgraded cfg h (push ++ [ASync])
| up_undone id push text a p b rs e ts :
    pushes id push ->
    sys_read_string m MOUNTINFO (h ++ push ++ [ASync]) = Ok text -> freeze_collect text = (Ok tt, a ++ p :: b) ->
    length rs = length a -> Forall frozen_or_none rs -> length ts = length a ->
    upgraded cfg h (push ++ ASync :: zip_with AFreeze a rs ++ AFreeze p (Err e) :: zip_with AThaw (rev a) ts)
| up_handed id push text set rs ask ts :
    mkfs_instance_id m root (default [] (c_name cfg)) h = Ok id ->
    mkfs_other_running m root (default [] (c_name cfg)) 64 h = Ok None ->
    pushes id push ->
    sys_read_string m MOUNTINFO (h ++ push ++ [ASync]) = Ok text -> freeze_collect text = (Ok tt, set) ->
    length rs = length set -> Forall frozen_or_none rs -> asked id ask -> length ts = length set ->
    upgraded cfg h (push ++ ASync :: zip_with AFreeze set rs ++ ask ++ zip_with AThaw (rev set) ts).

Lemma ask_handover_spec id h :
  let '(ret, h') := ask_handover c id h in exists e ask, ret = Err e /\ h' = h ++ ask /\ asked id ask.
Proof.
  unfold ask_handover. pose proof (client_request_grows c id HANDOVER 128 h) as G.
  destruct (client_request c id HANDOVER 128 h) as [[reply|e] h']; destruct G as [(e' & E & ->)| ->]; try discriminate.
  - destruct (request_parse_handover reply [] 96).2 as [[]|e] eqn:P.
    + eexists _, _. split; [done|]. rewrite <- app_assoc. split; [done|]. by apply asked_accepted.
    + eexists _, _. split; [done|]. split; [done|]. constructor.
  - exists e, []. rewrite app_nil_r. split; [done|]. split; [done|]. constructor.
  - eexists _, _. split; [done|]. split; [done|]. constructor.
Qed.

Lemma upgrade_shape cfg h :
  let '(ret, h') := upgrade_run c m root ops cfg h in exists e new, ret = Err e /\ h' = h ++ new /\ upgraded cfg h new.
Proof.
  assert (Stop : forall e, exists e' new, @Err unit e = Err e' /\ h = h ++ new /\ upgraded cfg h new).
  { intros e. exists e, []. rewrite app_nil_r. split; [done|]. split; [done|constructor]. }
  unfold upgrade_run. destruct (mkfs_instance_id m root _ h) as [id|] eqn:Id; [|apply Stop].
  destruct (mkfs_other_running m root _ 64 h) as [[o|]|] eqn:Or; [apply Stop| |apply Stop].
  assert (W : let '(_, h1) := watch_push c id (c_devices cfg) h in exists push, h1 = h ++ push /\ pushes id push).
  { unfold watch_push. destruct (cl_netsnap c h (c_devices cfg)) as [[n text]|]; [|exists []; rewrite app_nil_r; by split; [|constructor]].
    pose proof (send_text_spec c id text h) as S. destruct (send_text c id text h) as [r h1].
    destruct S as [(e & _ & ->)|(hd & q & r' & -> & Q & _)]; [exists []; rewrite app_nil_r; by split; [|constructor]|].
    eexists. split; [done|]. rewrite Q. constructor; [by eexists _, _|constructor]. }
  destruct (watch_push c id (c_devices cfg) h) as [r h1]. destruct W as (push & -> & P). cbv zeta. rewrite <- app_assoc.
  unfold freeze_filesystems.
  assert (Nf : forall e, exists e' new, @Err unit e = Err e' /\ h ++ push ++ [ASync] = h ++ new /\ upgraded cfg h new).
  { intros e. eexists _, _. split; [done|]. split; [done|]. by eapply up_not_frozen. }
  destruct (sys_read_string m MOUNTINFO _) as [text|] eqn:Rd; [|apply Nf]. destruct (freeze_collect text) as [[[]|] set] eqn:Cl; [|apply Nf].
  pose proof (freeze_all_spec ops set (h ++ push ++ [ASync])) as A.
  destruct (freeze_all ops set (h ++ push ++ [ASync])) as [[[]|e] h2].
  - destruct A as (rs & L & F & ->). pose proof (ask_handover_spec id ((h ++ push ++ [ASync]) ++ zip_with AFreeze set rs)) as K.
    destruct (ask_handover c id _) as [ret h3]. destruct K as (e & ask & -> & -> & K).
    destruct (thaw_all_spec ops set (((h ++ push ++ [ASync]) ++ zip_with AFreeze set rs) ++ ask)) as (ts & Lt & ->).
    exists e. eexists. split; [done|]. split; [|by eapply (up_handed cfg h id push text set rs ask ts)]. by rewrite <- !app_assoc.
  - destruct A as (a & p & b & rs & ts & -> & L & F & Lt & ->). exists e. eexists. split; [done|].
    split; [|by eapply (up_undone cfg h id push text a p b rs e ts)]. by rewrite <- !app_assoc.
Qed.

(** An action that is not in the second part is in the first. *)
Lemma before_back (front back a b : list action) x :
  front ++ back = a ++ x :: b -> x ∉ back -> x ∈ front /\ exists b', b = b' ++ back.
Proof.
  intros E N. apply app_eq_inv in E as [(k & -> & E)|(k & -> & ->)].
  - destruct k as [|y k]; [cbn in E; subst back; exfalso; apply N; by left|]. injection E as <- ->.
    split; [apply elem_of_app; right; by left|by exists k].
  - exfalso. apply N, elem_of_app. right. by left.
Qed.

Lemma thawed_in l ts p : length ts = length l -> p ∈ l -> exists r, AThaw p r ∈ zip_with AThaw (rev l) ts.
Proof.
  intros L I. rewrite <- (length_rev l) in L. apply list_elem_of_In, in_rev, list_elem_of_In, list_elem_of_lookup in I as [i I].
  destruct (lookup_lt_is_Some_2 ts i) as [r R]; [rewrite L; by eapply lookup_lt_Some|].
  exists r. apply list_elem_of_lookup. exists i. rewrite lookup_zip_with, I. cbn. by rewrite R.
Qed.

Lemma not_in_zip_thaw l ts p r : AFreeze p r ∉ zip_with AThaw l ts.
Proof. intros I. apply elem_of_lookup_zip_with in I as (? & ? & ? & ? & _). discriminate. Qed.

Lemma in_zip_freeze l rs p r : AFreeze p r ∈ zip_with AFreeze l rs -> p ∈ l.
Proof.
  intros I. apply elem_of_lookup_zip_with in I as (i & q & s & E & Lk & _). injection E as -> _. by eapply list_elem_of_lookup_2.
Qed.

Lemma in_push id push p r : pushes id push -> AFreeze p r ∉ push.
Proof. intros P I. unfold pushes in P. rewrite Forall_forall in P. destruct (P _ I) as (? & ? & ?). discriminate. Qed.

Lemma upgraded_thaws cfg h new a b p :
  upgraded cfg h new -> new = a ++ AFreeze p (Ok tt) :: b -> exists r, AThaw p r ∈ b.
Proof.
  intros U E. destruct U as [|id push P|id push text a' q b' rs e ts P _ _ L F Lt|id push text set rs ask ts _ _ P _ _ L F K Lt].
  - by destruct a.
  - exfalso. assert (I : AFreeze p (Ok tt) ∈ push ++ [ASync]) by (rewrite E; apply elem_of_app; right; by left).
    apply elem_of_app in I as [I|I]; [by eapply in_push|]. by apply list_elem_of_singleton in I.
  - rewrite (app_comm_cons (zip_with AFreeze a' rs)), !(app_assoc push), cons_middle, app_assoc in E.
    apply before_back in E as [I [b'' ->]]; [|apply not_in_zip_thaw].
    apply elem_of_app in I as [I|I]; [|by apply list_elem_of_singleton in I]. apply elem_of_app in I as [I|I]; [by apply in_push with (id := id) in I|].
    apply elem_of_cons in I as [I|I]; [done|]. destruct (thawed_in a' ts p Lt (in_zip_freeze _ _ _ _ I)) as [r R].
    exists r. apply elem_of_app. by right.
  - rewrite (app_comm_cons (zip_with AFreeze set rs)), !(app_assoc push), app_assoc in E.
    apply before_back in E as [I [b'' ->]]; [|apply not_in_zip_thaw].
    apply elem_of_app in I as [I|I].
    2: { destruct K; repeat (apply elem_of_cons in I as [I|I]; [done|]); by apply elem_of_nil in I. }
    apply elem_of_app in I as [I|I]; [by apply in_push with (id := id) in I|]. apply elem_of_cons in I as [I|I]; [done|].
    destruct (thawed_in set ts p Lt (in_zip_freeze _ _ _ _ I)) as [r R]. exists r. apply elem_of_app. by right.
Qed.

(** C7: an upgrade that fails leaves the machine as it was.  Whatever the
    kernel and the successor answer, [upgrade_run] returns only with an
    error, since the successor that accepts ends this kernel.  The handover
    is asked for only after a [sync] and after every filesystem mountinfo
    names was frozen or cannot be, with no other instance running; every
    filesystem it froze is thawed again before it returns, the last frozen
    first. *)
Theorem upgrade_thaws_what_it_froze cfg h :
  let '(ret, h') := upgrade_run c m root ops cfg h in
  exists e new, ret = Err e /\ h' = h ++ new /\ upgraded cfg h new /\
    forall p a b, new = a ++ AFreeze p (Ok tt) :: b -> exists r, AThaw p r ∈ b.
Proof.
  pose proof (upgrade_shape cfg h) as S. destruct (upgrade_run c m root ops cfg h) as [ret h']. destruct S as (e & new & -> & -> & U).
  exists e, new. split; [done|]. split; [done|]. split; [done|]. intros p a b. by apply upgraded_thaws with (cfg := cfg) (h := h).
Qed.

End Upgrade.
