(* ===== verification/Rtnl.v ===== *)
(** * lib/rtnl.c: rtnetlink messages

    A message is its type, flags, sequence number and the bytes after the
    16-byte header; requests are built in a buffer of 512 bytes, and what the
    socket delivers is a list of datagrams.  Numbers are little-endian. *)

From S2P Require Import Prelude Cstr Fdt Elfcore Cpio.

Definition HDRLEN : Z := 16.
Definition RTNL_REQ_MAX : Z := 512.
Definition NLMSG_ERROR : Z := 2.
Definition NLMSG_DONE : Z := 3.
Definition NLM_F_REQUEST : Z := 0x01.
Definition NLM_F_ACK : Z := 0x04.
Definition NLM_F_DUMP : Z := 0x300.
Definition AF_UNSPEC : Z := 0.
Definition EBADMSG : Z := 74.

(** [nlmsg_len] is 16 and the length of the bytes. *)
Record nlmsg : Type := mk_msg { n_type : Z; n_flags : Z; n_seq : Z; n_data : list Z }.

(** Zeros up to a whole word. *)
Definition padded (d : list Z) : list Z := d ++ zeros (align4 (zlen d) - zlen d).

Definition rtnl_req_init (type flags : Z) (body : list Z) : nlmsg :=
  mk_msg type (Z.lor NLM_F_REQUEST flags) 0 (padded body).

(** [struct rtattr], the data and its padding. *)
Definition attr_bytes (type : Z) (data : list Z) : list Z := le 2 (4 + zlen data) ++ le 2 type ++ padded data.

Definition rtnl_req_attr (r : nlmsg) (type : Z) (data : list Z) : result unit * nlmsg :=
  if RTNL_REQ_MAX <? HDRLEN + zlen (n_data r) + align4 (4 + zlen data) then (Err E2BIG, r)
  else (Ok tt, mk_msg (n_type r) (n_flags r) (n_seq r) (n_data r ++ attr_bytes type data)).

(** The [while] loop at [p]: the data of the attribute. *)
Fixpoint attr_loop (fuel : nat) (p : list Z) (type : Z) : option (list Z) :=
  match fuel with
  | O => None
  | S fuel =>
      if zlen p <? 4 then None else
      let len := le_at 0 2 p in
      if (len <? 4) || (zlen p <? len) then None
      else if le_at 2 2 p =? type then Some (bytes_at 4 (Z.to_nat (len - 4)) p)
      else attr_loop fuel (drop (Z.to_nat (align4 len)) p) type
  end.

Definition rtnl_attr (h : nlmsg) (hdrlen type : Z) : option (list Z) :=
  attr_loop (S (length (n_data h))) (drop (Z.to_nat (align4 hdrlen)) (n_data h)) type.

(** ** The socket *)

(** A signed 32-bit number. *)
Definition int_of (n : Z) : Z := if n <? 2 ^ 31 then n else n - two32.

Section Receive.
Context {S : Type} (cb : option (nlmsg -> S -> result unit * S)).

(** The messages of one datagram: done with a result, or what comes next. *)
Fixpoint receive_msgs (fuel : nat) (seq : Z) (buf : list Z) (st : S) : option (result unit) * S :=
  match fuel with
  | O => (None, st)
  | Datatypes.S fuel =>
      if zlen buf <? HDRLEN then (None, st) else
      let len := le_at 0 4 buf in
      if (len <? HDRLEN) || (zlen buf <? len) then (Some (Err EBADMSG), st) else
      let h := mk_msg (le_at 4 2 buf) (le_at 6 2 buf) (le_at 8 4 buf) (bytes_at HDRLEN (Z.to_nat (len - HDRLEN)) buf) in
      let rest := drop (Z.to_nat (align4 len)) buf in
      if negb (n_seq h =? seq) then receive_msgs fuel seq rest st
      else if n_type h =? NLMSG_DONE then (Some (Ok tt), st)
      else if n_type h =? NLMSG_ERROR then
        let error := int_of (le_at HDRLEN 4 buf) in
        (Some (if error =? 0 then Ok tt else Err (- error)), st)
      else match cb with
           | None => receive_msgs fuel seq rest st
           | Some f => match f h st with
                       | (Err e, st) => (Some (Err e), st)
                       | (Ok _, st) => receive_msgs fuel seq rest st
                       end
           end
  end.

(** The datagrams [recv] delivers, or its error; [None] while it waits. *)
Fixpoint receive (seq : Z) (script : list (result (list Z))) (st : S) : option (result unit) * S :=
  match script with
  | [] => (None, st)
  | Err e :: script => if e =? EINTR then receive seq script st else (Some (Err e), st)
  | Ok buf :: script =>
      match receive_msgs (Datatypes.S (length buf)) seq buf st with
      | (Some r, st) => (Some r, st)
      | (None, st) => receive seq script st
      end
  end.

End Receive.

(** [send_req]: the next sequence number and the request with it. *)
Definition send_req (seq : Z) (sendto : result unit) (r : nlmsg) : result unit * Z * nlmsg :=
  let seq := u32 (seq + 1) in (sendto, seq, mk_msg (n_type r) (n_flags r) seq (n_data r)).

(** [seq] is the counter; [script] is what the socket delivers. *)
Definition rtnl_talk (seq : Z) (sendto : result unit) (script : list (result (list Z))) (r : nlmsg) : option (result unit) * Z * nlmsg :=
  let r := mk_msg (n_type r) (Z.lor (n_flags r) NLM_F_ACK) (n_seq r) (n_data r) in
  let '(ret, seq, r) := send_req seq sendto r in
  match ret with
  | Err e => (Some (Err e), seq, r)
  | Ok _ => ((receive (S := unit) None (n_seq r) script tt).1, seq, r)
  end.

Definition rtnl_dump {S} (cb : nlmsg -> S -> result unit * S) (seq : Z) (sendto : result unit) (script : list (result (list Z)))
    (type : Z) (st : S) : option (result unit) * S * Z :=
  let '(ret, seq, r) := send_req seq sendto (rtnl_req_init type NLM_F_DUMP [AF_UNSPEC]) in
  match ret with
  | Err e => (Some (Err e), st, seq)
  | Ok _ => let '(ret, st) := receive (Some cb) (n_seq r) script st in (ret, st, seq)
  end.

(** ** Attributes *)

Definition attrs_bytes (l : list (Z * list Z)) : list Z := concat (map (fun a => attr_bytes a.1 a.2) l).
Definition attr_ok (a : Z * list Z) : Prop := 0 <= a.1 < 65536 /\ zlen a.2 < 65532.

Lemma padded_length d : zlen (padded d) = align4 (zlen d).
Proof. unfold padded. pose proof (align4_spec (zlen d) (zlen_nonneg d)). rewrite zlen_app, zlen_zeros; lia. Qed.

Lemma zlen_le n x : zlen (le n x) = Z.of_nat n.
Proof. unfold zlen. by rewrite le_length. Qed.

Lemma attr_bytes_length t d : zlen (attr_bytes t d) = align4 (4 + zlen d).
Proof.
  unfold attr_bytes. rewrite !zlen_app, padded_length, !zlen_le.
  rewrite (align4_add 4) by done. lia.
Qed.

Lemma attr_head t d s : attr_ok (t, d) -> le_at 0 2 (attr_bytes t d ++ s) = 4 + zlen d /\ le_at 2 2 (attr_bytes t d ++ s) = t /\
  bytes_at 4 (length d) (attr_bytes t d ++ s) = d.
Proof.
  intros [T D]. cbn [fst snd] in *. pose proof (zlen_nonneg d). unfold attr_bytes. rewrite <- !app_assoc. split; [|split].
  - change (le_val (le 2 (4 + zlen d)) = 4 + zlen d). apply le_val_le. cbn. lia.
  - change (le_val (le 2 t) = t). apply le_val_le. cbn. lia.
  - unfold bytes_at, padded. change (Z.to_nat 4) with (length (le 2 (4 + zlen d) ++ le 2 t)). rewrite app_assoc, drop_app_length, <- app_assoc. apply take_app_length.
Qed.

(** The attribute of a type is the first that was added. *)
Lemma attr_loop_find l fuel type :
  Forall attr_ok l -> (length l < fuel)%nat ->
  attr_loop fuel (attrs_bytes l) type = snd <$> List.find (fun a => a.1 =? type) l.
Proof.
  intros F. revert fuel. induction F as [|[t d] l A F IH]; intros [|fuel] L; cbn in L; try lia; [done|].
  change (attrs_bytes ((t, d) :: l)) with (attr_bytes t d ++ attrs_bytes l). cbn [attr_loop].
  destruct (attr_head t d (attrs_bytes l) A) as (E1 & E2 & E3). pose proof (zlen_nonneg d). pose proof (zlen_nonneg (attrs_bytes l)).
  pose proof (attr_bytes_length t d) as La. pose proof (align4_spec (4 + zlen d) ltac:(lia)) as Al.
  cbv zeta. rewrite E1, E2, zlen_app, La. rewrite (proj2 (Z.ltb_ge _ 4)), (proj2 (Z.ltb_ge (4 + zlen d) 4)), (proj2 (Z.ltb_ge _ (4 + zlen d))) by lia.
  cbn [orb List.find fst]. destruct (t =? type); cbn [fmap option_fmap option_map snd].
  - replace (Z.to_nat (4 + zlen d - 4)) with (length d) by (unfold zlen; lia). by rewrite E3.
  - rewrite <- La. unfold zlen at 1. rewrite Nat2Z.id, drop_app_length. apply IH. lia.
Qed.

(** A request of a fixed header and attributes. *)
Definition message (type flags : Z) (body : list Z) (l : list (Z * list Z)) : nlmsg :=
  mk_msg type (Z.lor NLM_F_REQUEST flags) 0 (padded body ++ attrs_bytes l).

Lemma message_init type flags body : rtnl_req_init type flags body = message type flags body [].
Proof. unfold message, rtnl_req_init. by rewrite app_nil_r. Qed.

Lemma message_attr type flags body l t d :
  HDRLEN + zlen (padded body ++ attrs_bytes l) + align4 (4 + zlen d) <= RTNL_REQ_MAX ->
  (rtnl_req_attr (message type flags body l) t d).2 = message type flags body (l ++ [(t, d)]).
Proof.
  intros L. unfold rtnl_req_attr, message. cbn [n_data n_type n_flags n_seq]. rewrite (proj2 (Z.ltb_ge _ _)) by lia. cbn [snd].
  unfold attrs_bytes. rewrite map_app, concat_app. cbn [map concat fst snd]. by rewrite app_nil_r, app_assoc.
Qed.

Lemma message_found type flags body l t :
  Forall attr_ok l -> let h := message type flags body l in
  take (length body) (n_data h) = body /\ rtnl_attr h (zlen body) t = snd <$> List.find (fun a => a.1 =? t) l.
Proof.
  intros F. cbv zeta. unfold message. cbn [n_data]. split.
  - unfold padded. rewrite <- app_assoc. apply take_app_length.
  - unfold rtnl_attr. cbn [n_data]. rewrite <- padded_length. unfold zlen. rewrite Nat2Z.id, drop_app_length. apply attr_loop_find; [done|].
    rewrite length_app. clear F. induction l as [|a l IH]; [cbn; lia|]. change (attrs_bytes (a :: l)) with (attr_bytes a.1 a.2 ++ attrs_bytes l).
    unfold attr_bytes. rewrite !length_app, !le_length. cbn [length]. lia.
Qed.

(** What a request carries is what a reader finds.  In a message built
    with [rtnl_req_init] and [rtnl_req_attr], as long as it fits, the fixed
    header is at the front and [rtnl_attr] finds for each type the data of
    the first attribute added with it, whatever their lengths, and nothing
    for a type that was not added. *)
Theorem rtnl_attr_found type flags body l t :
  Forall attr_ok l -> let h := message type flags body l in
  take (length body) (n_data h) = body /\ rtnl_attr h (zlen body) t = snd <$> List.find (fun a => a.1 =? t) l.
Proof. apply message_found. Qed.

(** ** Receiving *)

(** A message as the kernel sends it to the port [pid]. *)
Definition msg_header (pid : Z) (h : nlmsg) : list Z :=
  le 4 (HDRLEN + zlen (n_data h)) ++ le 2 (n_type h) ++ le 2 (n_flags h) ++ le 4 (n_seq h) ++ le 4 pid.
Definition msg_bytes (pid : Z) (h : nlmsg) : list Z := msg_header pid h ++ padded (n_data h).
Definition datagram (pid : Z) (l : list nlmsg) : list Z := concat (map (msg_bytes pid) l).

Record msg_ok (h : nlmsg) : Prop := {
  mo_type : 0 <= n_type h < 65536;
  mo_flags : 0 <= n_flags h < 65536;
  mo_seq : is_u32 (n_seq h);
  mo_data : HDRLEN + zlen (n_data h) < two32;
  mo_error : n_type h = NLMSG_ERROR -> 4 <= zlen (n_data h) }.

(** What a reader of the messages one by one does. *)
Fixpoint deliver {S} (cb : option (nlmsg -> S -> result unit * S)) (seq : Z) (l : list nlmsg) (st : S) : option (result unit) * S :=
  match l with
  | [] => (None, st)
  | h :: l =>
      if negb (n_seq h =? seq) then deliver cb seq l st
      else if n_type h =? NLMSG_DONE then (Some (Ok tt), st)
      else if n_type h =? NLMSG_ERROR then
        let error := int_of (le_at 0 4 (n_data h)) in (Some (if error =? 0 then Ok tt else Err (- error)), st)
      else match cb with
           | None => deliver cb seq l st
           | Some f => match f h st with (Err e, st) => (Some (Err e), st) | (Ok _, st) => deliver cb seq l st end
           end
  end.

Lemma msg_header_length pid h : zlen (msg_header pid h) = HDRLEN.
Proof. unfold msg_header. by rewrite !zlen_app, !zlen_le. Qed.

Lemma msg_head pid h s :
  msg_ok h ->
  le_at 0 4 (msg_bytes pid h ++ s) = HDRLEN + zlen (n_data h) /\
  mk_msg (le_at 4 2 (msg_bytes pid h ++ s)) (le_at 6 2 (msg_bytes pid h ++ s)) (le_at 8 4 (msg_bytes pid h ++ s))
    (bytes_at HDRLEN (length (n_data h)) (msg_bytes pid h ++ s)) = h.
Proof.
  intros [T F S D _]. pose proof (zlen_nonneg (n_data h)). unfold HDRLEN in D.
  assert (E : le_at 4 2 (msg_bytes pid h ++ s) = n_type h /\ le_at 6 2 (msg_bytes pid h ++ s) = n_flags h /\ le_at 8 4 (msg_bytes pid h ++ s) = n_seq h).
  { change (le_val (le 2 (n_type h)) = n_type h /\ le_val (le 2 (n_flags h)) = n_flags h /\ le_val (le 4 (n_seq h)) = n_seq h).
    rewrite !le_val_le by (cbn; unfold is_u32 in S; lia). done. }
  destruct E as (-> & -> & ->). split.
  - change (le_val (le 4 (HDRLEN + zlen (n_data h))) = HDRLEN + zlen (n_data h)). apply le_val_le. unfold HDRLEN. cbn. lia.
  - replace (bytes_at HDRLEN (length (n_data h)) (msg_bytes pid h ++ s)) with (n_data h); [by destruct h|].
    unfold msg_bytes, padded. rewrite <- !app_assoc, <- (msg_header_length pid h), <- (Z.add_0_r (zlen (msg_header pid h))), bytes_at_shift by lia.
    unfold bytes_at. change (Z.to_nat 0) with 0%nat. rewrite drop_0. symmetry. apply take_app_length.
Qed.

Lemma msg_bytes_length pid h : zlen (msg_bytes pid h) = align4 (HDRLEN + zlen (n_data h)).
Proof. unfold msg_bytes. rewrite zlen_app, msg_header_length, padded_length. by rewrite (align4_add HDRLEN) by done. Qed.

Lemma msg_error pid h s : msg_ok h -> n_type h = NLMSG_ERROR -> le_at HDRLEN 4 (msg_bytes pid h ++ s) = le_at 0 4 (n_data h).
Proof.
  intros [_ _ _ _ E] T. specialize (E T). unfold msg_bytes, padded.
  rewrite <- !app_assoc, <- (msg_header_length pid h), <- (Z.add_0_r (zlen (msg_header pid h))), le_at_shift by lia.
  unfold le_at, bytes_at. change (Z.to_nat 0) with 0%nat. rewrite !drop_0, take_app_le; [done|]. unfold zlen in E. lia.
Qed.

Lemma receive_msgs_deliver {S} (cb : option (nlmsg -> S -> result unit * S)) pid l fuel seq st :
  Forall msg_ok l -> (length l < fuel)%nat -> receive_msgs cb fuel seq (datagram pid l) st = deliver cb seq l st.
Proof.
  intros F. revert fuel st. induction F as [|h l M F IH]; intros [|fuel] st L; cbn in L; try lia; [done|].
  change (datagram pid (h :: l)) with (msg_bytes pid h ++ datagram pid l). cbn [receive_msgs deliver].
  destruct (msg_head pid h (datagram pid l) M) as [E1 E2]. pose proof (zlen_nonneg (n_data h)). pose proof (zlen_nonneg (datagram pid l)).
  pose proof (align4_spec (HDRLEN + zlen (n_data h)) ltac:(unfold HDRLEN; lia)) as Al. pose proof (msg_bytes_length pid h) as Lm.
  cbv zeta. rewrite E1, zlen_app, Lm, (proj2 (Z.ltb_ge _ HDRLEN)), (proj2 (Z.ltb_ge (HDRLEN + _) HDRLEN)), (proj2 (Z.ltb_ge _ (HDRLEN + _))) by (unfold HDRLEN in *; lia).
  cbn [orb]. replace (Z.to_nat (HDRLEN + zlen (n_data h) - HDRLEN)) with (length (n_data h)) by (unfold HDRLEN, zlen; lia). rewrite E2.
  rewrite <- Lm. unfold zlen at 1 2 3. rewrite Nat2Z.id, drop_app_length.
  destruct (negb (n_seq h =? seq)); [apply IH; lia|]. destruct (n_type h =? NLMSG_DONE); [done|].
  destruct (Z.eqb_spec (n_type h) NLMSG_ERROR) as [T|T]; [by rewrite msg_error|].
  destruct cb as [f|]; [|apply IH; lia]. destruct (f h st) as [[[]|] st']; [apply IH; lia|done].
Qed.

Lemma deliver_app {S} (cb : option (nlmsg -> S -> result unit * S)) seq l l' st :
  deliver cb seq (l ++ l') st = match deliver cb seq l st with (Some r, st) => (Some r, st) | (None, st) => deliver cb seq l' st end.
Proof.
  revert st. induction l as [|h l IH]; intros st; [done|]. cbn [deliver app]. destruct (negb _); [apply IH|].
  destruct (_ =? NLMSG_DONE); [done|]. destruct (_ =? NLMSG_ERROR); [done|]. destruct cb as [f|]; [|apply IH].
  destruct (f h st) as [[[]|] st']; [apply IH|done].
Qed.

Lemma receive_deliver {S} (cb : option (nlmsg -> S -> result unit * S)) pid ds seq st :
  Forall (Forall msg_ok) ds -> receive cb seq (map (fun l => Ok (datagram pid l)) ds) st = deliver cb seq (concat ds) st.
Proof.
  intros F. revert st. induction F as [|l ds M F IH]; intros st; [done|]. cbn [map receive concat]. rewrite deliver_app, receive_msgs_deliver.
  - destruct (deliver cb seq l st) as [[r|] st']; [done|apply IH].
  - done.
  - clear. induction l as [|h l IH]; [cbn; lia|]. change (datagram pid (h :: l)) with (msg_bytes pid h ++ datagram pid l).
    unfold msg_bytes, msg_header. rewrite !length_app, !le_length. cbn [length]. lia.
Qed.

(** A dump sees every object once.  However the kernel packs the messages
    of a dump into datagrams, and whatever messages of other requests lie
    between them, [rtnl_dump] calls the callback on exactly the messages that
    answer it, in order, up to the one that ends the dump or the first the
    callback refuses, and returns 0, the kernel's error or the callback's. *)
Theorem rtnl_dump_exact {S} (cb : nlmsg -> S -> result unit * S) pid ds seq type st :
  Forall (Forall msg_ok) ds ->
  rtnl_dump cb seq (Ok tt) (map (fun l => Ok (datagram pid l)) ds) type st
  = (let '(ret, st) := deliver (Some cb) (u32 (seq + 1)) (concat ds) st in (ret, st, u32 (seq + 1))).
Proof. intros F. unfold rtnl_dump, send_req. cbn [n_seq]. by rewrite receive_deliver. Qed.
