(* ===== verification/Netlink.v ===== *)
(** * lib/netsnap.c: taking the network identity and putting it back

    Reading the interfaces from sysfs and rtnetlink, and the requests that
    give the successor's interfaces what they had. *)

From S2P Require Import Prelude Cstr Scanf Parse Netsnap Files Fdt HostTree Elfcore Cpio Devname Rtnl.

Definition RTM_NEWLINK : Z := 16.
Definition RTM_NEWADDR : Z := 20.
Definition RTM_GETADDR : Z := 22.
Definition RTM_NEWROUTE : Z := 24.
Definition RTM_GETROUTE : Z := 26.
Definition NLM_F_REPLACE : Z := 0x100.
Definition NLM_F_CREATE : Z := 0x400.
Definition IFLA_ADDRESS : Z := 1.
Definition IFLA_IFNAME : Z := 3.
Definition IFLA_MTU : Z := 4.
Definition IFA_ADDRESS : Z := 1.
Definition IFA_LOCAL : Z := 2.
Definition IFA_BROADCAST : Z := 4.
Definition IFA_CACHEINFO : Z := 6.
Definition IFA_FLAGS : Z := 8.
Definition IFA_F_TEMPORARY : Z := 0x01.
Definition IFA_F_NODAD : Z := 0x02.
Definition RTA_DST : Z := 1.
Definition RTA_OIF : Z := 4.
Definition RTA_GATEWAY : Z := 5.
Definition RTA_PRIORITY : Z := 6.
Definition RTA_MULTIPATH : Z := 9.
Definition RTA_TABLE : Z := 15.
Definition RT_TABLE_MAIN : Z := 254.
Definition RTN_UNICAST : Z := 1.
Definition RTPROT_KERNEL : Z := 2.
Definition IFF_UP : Z := 1.
Definition LIFE_FOREVER : Z := 0xffffffff.

(** The fixed headers. *)
Definition ifaddrmsg (family prefixlen flags scope index : Z) : list Z := [family; prefixlen; flags; scope] ++ le 4 index.
Definition rtmsg (family dst_len table protocol scope type : Z) : list Z := [family; dst_len; 0; 0; table; protocol; scope; type] ++ le 4 0.
Definition ifinfomsg (index flags change : Z) : list Z := [AF_UNSPEC; 0] ++ le 2 0 ++ le 4 index ++ le 4 flags ++ le 4 change.
Definition IFADDRMSG : Z := 8.
Definition RTMSG : Z := 12.

(** ** Collecting *)

(** The index of the link, in place of the pointer to it. *)
Fixpoint link_by_index (s : list netsnap_link) (ifindex : Z) : option nat :=
  match s with
  | [] => None
  | l :: s => if l_ifindex l =? ifindex then Some O else S <$> link_by_index s ifindex
  end.

(** A four-byte attribute, or the default. *)
Definition attr_u32 (h : nlmsg) (hdrlen type d : Z) : Z :=
  match rtnl_attr h hdrlen type with Some v => if zlen v =? 4 then le_val v else d | None => d end.
(** An address attribute of the family. *)
Definition attr_ip (h : nlmsg) (hdrlen type family : Z) : option (list Z) :=
  match rtnl_attr h hdrlen type with Some v => if (length v =? addr_len family)%nat then Some v else None | None => None end.

Definition known (family : Z) : bool := (family =? AF_INET) || (family =? AF_INET6).

Definition with_addr (a : netsnap_addr) (l : netsnap_link) : netsnap_link :=
  mk_link (l_pci l) (l_name l) (l_mac l) (l_mtu l) (l_ifindex l) (l_addrs l ++ [a]) (l_routes l).
Definition with_route (r : netsnap_route) (l : netsnap_link) : netsnap_link :=
  mk_link (l_pci l) (l_name l) (l_mac l) (l_mtu l) (l_ifindex l) (l_addrs l) (l_routes l ++ [r]).

(** The lifetimes of an address, from its [ifa_cacheinfo]. *)
Definition cache_until (now life : Z) : Z := if life =? LIFE_FOREVER then 0 else now + life.
Definition cache_lifetimes (h : nlmsg) (now : Z) : Z * Z :=
  match rtnl_attr h IFADDRMSG IFA_CACHEINFO with
  | Some c => if zlen c =? 16 then (cache_until now (le_at 4 4 c), cache_until now (le_at 0 4 c)) else (0, 0)
  | None => (0, 0)
  end.

Definition collect_addr (now : Z) (h : nlmsg) (s : list netsnap_link) : result unit * list netsnap_link :=
  let ifa := n_data h in
  let family := le_at 0 1 ifa in
  match link_by_index s (int_of (le_at 4 4 ifa)) with
  | None => (Ok tt, s)
  | Some i =>
      if negb (n_type h =? RTM_NEWADDR) || negb (le_at 3 1 ifa =? 0) || negb (known family) then (Ok tt, s) else
      let f := attr_u32 h IFADDRMSG IFA_FLAGS (le_at 2 1 ifa) in
      if (family =? AF_INET6) && negb (Z.land f IFA_F_TEMPORARY =? 0) then (Ok tt, s) else
      match attr_ip h IFADDRMSG (if family =? AF_INET then IFA_LOCAL else IFA_ADDRESS) family, s !! i with
      | Some local, Some l =>
          if (length (l_addrs l) =? NETSNAP_MAX_ADDRS)%nat then (Err E2BIG, s) else
          let brd := attr_ip h IFADDRMSG IFA_BROADCAST family in
          let '(valid, preferred) := cache_lifetimes h now in
          let a := mk_addr family (le_at 1 1 ifa) (bool_decide (is_Some brd)) (in16 local) (in16 (default [] brd)) valid preferred in
          (Ok tt, <[i := with_addr a l]> s)
      | _, _ => (Ok tt, s)
      end
  end.

Definition collect_route (h : nlmsg) (s : list netsnap_link) : result unit * list netsnap_link :=
  let rt := n_data h in
  let family := le_at 0 1 rt in
  if negb (n_type h =? RTM_NEWROUTE) || negb (le_at 7 1 rt =? RTN_UNICAST) || (le_at 5 1 rt =? RTPROT_KERNEL)
     || negb (le_at 2 1 rt =? 0) || negb (known family) || bool_decide (is_Some (rtnl_attr h RTMSG RTA_MULTIPATH)) then (Ok tt, s) else
  let tab := attr_u32 h RTMSG RTA_TABLE (le_at 4 1 rt) in
  match rtnl_attr h RTMSG RTA_OIF with
  | None => (Ok tt, s)
  | Some oif =>
      if negb (tab =? RT_TABLE_MAIN) || negb (zlen oif =? 4) then (Ok tt, s) else
      match link_by_index s (int_of (le_val oif)) with
      | None => (Ok tt, s)
      | Some i =>
          match s !! i with
          | None => (Ok tt, s)
          | Some l =>
              if (length (l_routes l) =? NETSNAP_MAX_ROUTES)%nat then (Err E2BIG, s) else
              let gw := attr_ip h RTMSG RTA_GATEWAY family in
              let r := mk_route family (le_at 1 1 rt) (le_at 5 1 rt) (le_at 6 1 rt) (bool_decide (is_Some gw))
                         (in16 (default [] (attr_ip h RTMSG RTA_DST family))) (in16 (default [] gw)) (attr_u32 h RTMSG RTA_PRIORITY 0) in
              (Ok tt, <[i := with_route r l]> s)
          end
      end
  end.

(** ** The interfaces of the machine *)

Definition DEVNAME_CLASS_ROOT : list Z := str "/sys/class".
Definition DEVNAME_USB_ROOT : list Z := str "/sys/bus/usb/devices".
Definition IFNAMSIZ : Z := 16.

Definition strlist_contains (l : strlist) (s : list Z) : bool := existsb (fun x => streq x s) l.

(** [%x:%x:%x:%x:%x:%x] *)
Definition scan_mac_text (s : list Z) : option (list Z) :=
  '(b, s) ← scan_hex s;
  '(m, _) ← scan_mac 5 s;
  Some (b :: m).

Section Sysfs.
Context `{Files} (exists_ : list Z -> bool) (realpath : list Z -> result (list Z)).

Definition net_attr (class_net name attr : list Z) : list Z := snprintf [] PATH_MAX (class_net ++ slash ++ name ++ slash ++ attr).

Definition read_link (class_net name : list Z) : result netsnap_link :=
  match last_slash (snprintf [] PATH_MAX class_net) with
  | None => Err ENODEV
  | Some (class_root, _) =>
      if IFNAMSIZ <=? zlen name then Err ENODEV else
      match devname_resolve exists_ realpath class_root DEVNAME_USB_ROOT name 16 with
      | Err _ => Err ENODEV
      | Ok pci =>
          let? s := file_read_string (net_attr class_net name (str "address")) in
          match scan_mac_text s with
          | None => Err EINVAL
          | Some m =>
              let mtu := match file_read_string (net_attr class_net name (str "mtu")) with
                         | Ok s => u32 (strtoull 10 s).1.1 | Err _ => 0 end in
              let ifindex := match file_read_string (net_attr class_net name (str "ifindex")) with
                             | Ok s => int_of (u32 (strtoll s).1) | Err _ => 0 end in
              Ok (mk_link pci name (map (fun b => b mod 256) m) mtu ifindex [] [])
          end
      end
  end.

(** The [while] loop over the directory. *)
Fixpoint read_links (class_net : list Z) (skip : strlist) (entries : list (list Z)) (s : list netsnap_link) : list netsnap_link :=
  match entries with
  | [] => s
  | e :: entries =>
      if (NETSNAP_MAX_LINKS <=? length s)%nat then s
      else if c0 e =? ch "." then read_links class_net skip entries s
      else match read_link class_net e with
           | Err _ => read_links class_net skip entries s
           | Ok l => read_links class_net skip entries (if strlist_contains skip (l_pci l) then s else s ++ [l])
           end
  end.

(** What the socket does: [rtnl_open], and for each dump [sendto] and the datagrams. *)
Record rtnl_sock : Type := {
  rk_open : result unit;
  rk_seq : Z;
  rk_addr : result unit * list (result (list Z));
  rk_route : result unit * list (result (list Z)) }.

(** [None] while the kernel has not answered. *)
Definition netsnap_collect (k : rtnl_sock) (now : Z) (class_net : list Z) (skip : strlist) : option (result unit) * list netsnap_link :=
  match dir_list class_net with
  | Err e => (Some (Err e), [])
  | Ok entries =>
      let s := read_links class_net skip entries [] in
      if (length s =? 0)%nat then (Some (Ok tt), s) else
      match rk_open k with
      | Err e => (Some (Err e), s)
      | Ok _ =>
          match rtnl_dump (collect_addr now) (rk_seq k) (rk_addr k).1 (rk_addr k).2 RTM_GETADDR s with
          | (Some (Ok _), s, seq) =>
              let '(ret, s, _) := rtnl_dump collect_route seq (rk_route k).1 (rk_route k).2 RTM_GETROUTE s in (ret, s)
          | (ret, s, _) => (ret, s)
          end
      end
  end.

(** The number of links and the text. *)
Definition netsnap_text `{Inet} (k : rtnl_sock) (now : Z) (skip : strlist) (len : Z) : option (result (Z * list Z)) :=
  match netsnap_collect k now (str "/sys/class/net") skip with
  | (None, _) => None
  | (Some (Err e), _) => Some (Err e)
  | (Some (Ok _), s) => Some (let? text := netsnap_format s len in Ok (zlen s, text))
  end.

(** The name of the first interface on the function. *)
Definition netdev_on (pci : list Z) (len : Z) : result (list Z) :=
  match dir_list (DEVNAME_CLASS_ROOT ++ str "/net") with
  | Err _ => Err ENOENT
  | Ok entries =>
      let on e := negb (c0 e =? ch ".") &&
        match devname_resolve exists_ realpath DEVNAME_CLASS_ROOT DEVNAME_USB_ROOT e 16 with Ok found => streq found pci | Err _ => false end in
      match List.find on entries with Some e => Ok (snprintf [] len e) | None => Err ENOENT end
  end.

End Sysfs.

Definition FIND_TIMEOUT_MS : Z := 3000.
Definition FIND_POLL_MS : Z := 10.

(** [on] is [netdev_on] after so many milliseconds; [index] is
    [if_nametoindex] with its error. *)
Fixpoint find_loop (fuel : nat) (waited : Z) (on : Z -> result (list Z)) (index : list Z -> result Z) : result (list Z * Z) :=
  match fuel with
  | O => Err ETIMEDOUT
  | S fuel =>
      if FIND_TIMEOUT_MS <? waited then Err ETIMEDOUT else
      match on waited with
      | Ok name => let? i := index name in Ok (name, i)
      | Err _ => find_loop fuel (waited + FIND_POLL_MS) on index
      end
  end.
Definition find_netdev (on : Z -> result (list Z)) (index : list Z -> result Z) : result (list Z * Z) := find_loop 302 0 on index.

(** ** Restoring *)

(** What was sent, with the answers. *)
Definition talks : Type := list (nlmsg * result unit).

(** [struct netsnap_env] *)
Record netsnap_env : Type := {
  ne_find : talks -> list Z -> result (list Z * Z);
  ne_talk : talks -> nlmsg -> result unit;
  ne_now : talks -> Z }.

(** [rtnl_req_attr] without its result. *)
Definition put_attr (type : Z) (data : list Z) (r : nlmsg) : nlmsg := (rtnl_req_attr r type data).2.

Definition life_left (until now : Z) : Z := if until =? 0 then LIFE_FOREVER else if now <? until then u32 (until - now) else 0.

Section Restore.
Context (env : netsnap_env).

Definition talk (r : nlmsg) (t : talks) : result unit * talks :=
  let ret := ne_talk env t r in (ret, t ++ [(r, ret)]).

Definition link_request (l : netsnap_link) (ifindex : Z) (cur : list Z) : nlmsg :=
  let r := rtnl_req_init RTM_NEWLINK 0 (ifinfomsg ifindex 0 0) in
  let r := put_attr IFLA_ADDRESS (l_mac l) r in
  let r := if l_mtu l =? 0 then r else put_attr IFLA_MTU (le 4 (l_mtu l)) r in
  if streq cur (l_name l) then r else put_attr IFLA_IFNAME (l_name l ++ [0]) r.

Definition restore_link (l : netsnap_link) (ifindex : Z) (cur : list Z) (t : talks) : result unit * talks :=
  let '(_, t) := talk (link_request l ifindex cur) t in
  talk (rtnl_req_init RTM_NEWLINK 0 (ifinfomsg ifindex IFF_UP IFF_UP)) t.

Definition addr_request (a : netsnap_addr) (ifindex valid preferred : Z) : nlmsg :=
  let n := addr_len (a_family a) in
  let r := rtnl_req_init RTM_NEWADDR (Z.lor NLM_F_CREATE NLM_F_REPLACE) (ifaddrmsg (a_family a) (a_prefix a) IFA_F_NODAD 0 ifindex) in
  let r := put_attr IFA_LOCAL (take n (a_addr a)) r in
  let r := put_attr IFA_ADDRESS (take n (a_addr a)) r in
  let r := if a_has_brd a then put_attr IFA_BROADCAST (take n (a_brd a)) r else r in
  let r := put_attr IFA_FLAGS (le 4 IFA_F_NODAD) r in
  put_attr IFA_CACHEINFO (le 4 preferred ++ le 4 valid ++ le 4 0 ++ le 4 0) r.

Definition restore_addr (a : netsnap_addr) (ifindex : Z) (t : talks) : result unit * talks :=
  let now := ne_now env t in
  let valid := life_left (a_valid_until a) now in
  let preferred := life_left (a_preferred_until a) now in
  if valid =? 0 then (Err ETIME, t) else
  talk (addr_request a ifindex valid (if valid <? preferred then valid else preferred)) t.

Definition route_request (r : netsnap_route) (ifindex : Z) : nlmsg :=
  let n := addr_len (r_family r) in
  let q := rtnl_req_init RTM_NEWROUTE (Z.lor NLM_F_CREATE NLM_F_REPLACE)
             (rtmsg (r_family r) (r_dst_len r) RT_TABLE_MAIN (r_protocol r) (r_scope r) RTN_UNICAST) in
  let q := if r_dst_len r =? 0 then q else put_attr RTA_DST (take n (r_dst r)) q in
  let q := if r_has_gw r then put_attr RTA_GATEWAY (take n (r_gw r)) q else q in
  let q := put_attr RTA_OIF (le 4 ifindex) q in
  if r_metric r =? 0 then q else put_attr RTA_PRIORITY (le 4 (r_metric r)) q.

Definition restore_route (r : netsnap_route) (ifindex : Z) (t : talks) : result unit * talks := talk (route_request r ifindex) t.

(** One pass of the outer loop. *)
Fixpoint restore_pass (has_gw : bool) (rs : list netsnap_route) (ifindex : Z) (t : talks) : talks :=
  match rs with
  | [] => t
  | r :: rs => restore_pass has_gw rs ifindex (if Bool.eqb (r_has_gw r) has_gw then (restore_route r ifindex t).2 else t)
  end.
Definition restore_routes (l : netsnap_link) (ifindex : Z) (t : talks) : talks :=
  restore_pass true (l_routes l) ifindex (restore_pass false (l_routes l) ifindex t).

Fixpoint restore_addrs (l : list netsnap_addr) (ifindex : Z) (t : talks) : talks :=
  match l with [] => t | a :: l => restore_addrs l ifindex (restore_addr a ifindex t).2 end.

(** One link: whether it came up. *)
Definition apply_link (l : netsnap_link) (t : talks) : bool * talks :=
  match ne_find env t (l_pci l) with
  | Err _ => (false, t)
  | Ok (cur, ifindex) =>
      match restore_link l ifindex cur t with
      | (Err _, t) => (false, t)
      | (Ok _, t) => (true, restore_routes l ifindex (restore_addrs (l_addrs l) ifindex t))
      end
  end.

(** How many came up, and which. *)
Fixpoint netsnap_apply (s : list netsnap_link) (t : talks) : Z * list bool * talks :=
  match s with
  | [] => (0, [], t)
  | l :: s =>
      let '(up, t) := apply_link l t in
      let '(n, restored, t) := netsnap_apply s t in
      ((if up then n + 1 else n), up :: restored, t)
  end.

End Restore.

(** ** Requests as messages *)

Definition small (a : Z * list Z) : Prop := 0 <= a.1 < 16 /\ zlen a.2 <= 16.

Lemma attrs_small l : Forall small l -> zlen (attrs_bytes l) <= 20 * zlen l.
Proof.
  intros F. induction F as [|[t d] l [_ S] F IH]; [done|]. change (attrs_bytes ((t, d) :: l)) with (attr_bytes t d ++ attrs_bytes l).
  rewrite zlen_app, zlen_cons, attr_bytes_length. cbn [snd] in S. pose proof (zlen_nonneg d).
  rewrite (align4_add 4) by done. assert (align4 (zlen d) <= align4 16) by (unfold align4; apply Z.mul_le_mono_nonneg_r; [lia|]; apply Z.div_le_mono; lia).
  change (align4 16) with 16 in *. lia.
Qed.

Lemma put_attr_message t d type flags body l :
  small (t, d) -> Forall small l -> zlen l <= 8 -> zlen body <= 16 ->
  put_attr t d (message type flags body l) = message type flags body (l ++ [(t, d)]).
Proof.
  intros [_ S] F L B. apply message_attr. cbn [snd] in S. pose proof (attrs_small l F). pose proof (zlen_nonneg d). pose proof (zlen_nonneg body).
  rewrite zlen_app, padded_length, (align4_add 4) by done. unfold HDRLEN, RTNL_REQ_MAX.
  pose proof (align4_spec (zlen d) ltac:(lia)). pose proof (align4_spec (zlen body) ltac:(lia)). lia.
Qed.

Lemma small_ok l : Forall small l -> Forall attr_ok l.
Proof. intros F. eapply Forall_impl; [exact F|]. intros [t d] [A B]. cbn [fst snd] in *. unfold attr_ok. cbn [fst snd]. lia. Qed.

(** The attributes of the two requests. *)
Definition addr_attrs (a : netsnap_addr) (valid preferred : Z) : list (Z * list Z) :=
  let n := addr_len (a_family a) in
  [(IFA_LOCAL, take n (a_addr a)); (IFA_ADDRESS, take n (a_addr a))]
  ++ (if a_has_brd a then [(IFA_BROADCAST, take n (a_brd a))] else [])
  ++ [(IFA_FLAGS, le 4 IFA_F_NODAD); (IFA_CACHEINFO, le 4 preferred ++ le 4 valid ++ le 4 0 ++ le 4 0)].
Definition route_attrs (r : netsnap_route) (ifindex : Z) : list (Z * list Z) :=
  let n := addr_len (r_family r) in
  (if r_dst_len r =? 0 then [] else [(RTA_DST, take n (r_dst r))]) ++ (if r_has_gw r then [(RTA_GATEWAY, take n (r_gw r))] else [])
  ++ [(RTA_OIF, le 4 ifindex)] ++ (if r_metric r =? 0 then [] else [(RTA_PRIORITY, le 4 (r_metric r))]).

Lemma addr_len_le family : (addr_len family <= 16)%nat.
Proof. unfold addr_len. case_bool; lia. Qed.

Lemma small_ip t family a : 0 <= t < 16 -> small (t, take (addr_len family) a).
Proof. intros T. split; [done|]. cbn [snd]. unfold zlen. rewrite length_take. pose proof (addr_len_le family). lia. Qed.

Lemma small_le t n x : 0 <= t < 16 -> (n <= 16)%nat -> small (t, le n x).
Proof. intros T N. split; [done|]. cbn [snd]. rewrite zlen_le. lia. Qed.

Lemma small_cache v p : small (IFA_CACHEINFO, le 4 p ++ le 4 v ++ le 4 0 ++ le 4 0).
Proof. split; [done|]. cbn [snd]. rewrite !zlen_app, !zlen_le. lia. Qed.

Ltac smalls :=
  repeat (apply Forall_cons; split); try apply Forall_nil_2; first [apply small_ip; done | apply small_cache | apply small_le; [done|lia] | idtac].

Lemma addr_attrs_small a v p : Forall small (addr_attrs a v p).
Proof. unfold addr_attrs. destruct (a_has_brd a); cbn [app]; smalls. Qed.

Lemma route_attrs_small r i : Forall small (route_attrs r i).
Proof. unfold route_attrs. destruct (r_dst_len r =? 0), (r_has_gw r), (r_metric r =? 0); cbn [app]; smalls. Qed.

Lemma addr_request_message a i v p :
  addr_request a i v p = message RTM_NEWADDR (Z.lor NLM_F_CREATE NLM_F_REPLACE) (ifaddrmsg (a_family a) (a_prefix a) IFA_F_NODAD 0 i) (addr_attrs a v p).
Proof.
  unfold addr_request, addr_attrs. cbv zeta. rewrite message_init. destruct (a_has_brd a); cbn [app];
    repeat (rewrite put_attr_message; [cbn [app]|first [apply small_ip; done | apply small_cache | apply small_le; [done|lia]]|smalls|done|done]); reflexivity.
Qed.

Lemma route_request_message r i :
  route_request r i = message RTM_NEWROUTE (Z.lor NLM_F_CREATE NLM_F_REPLACE)
    (rtmsg (r_family r) (r_dst_len r) RT_TABLE_MAIN (r_protocol r) (r_scope r) RTN_UNICAST) (route_attrs r i).
Proof.
  unfold route_request, route_attrs. cbv zeta. rewrite message_init. destruct (r_dst_len r =? 0), (r_has_gw r), (r_metric r =? 0); cbn [app];
    repeat (rewrite put_attr_message; [cbn [app]|first [apply small_ip; done | apply small_le; [done|lia]]|smalls|done|done]); reflexivity.
Qed.

(** ** What a request says is what a reader collects *)

Lemma body_attr type flags body l hdrlen t :
  zlen body = hdrlen -> Forall small l -> rtnl_attr (message type flags body l) hdrlen t = snd <$> List.find (fun a => a.1 =? t) l.
Proof. intros <- F. apply message_found. by apply small_ok. Qed.

Lemma ip_taken family a : ip_bytes family a -> length (take (addr_len family) a) = addr_len family /\ in16 (take (addr_len family) a) = a.
Proof. intros (b & -> & L & _). by rewrite take_in16. Qed.

Lemma int_of_small n : 0 <= n < 2 ^ 31 -> int_of n = n.
Proof. intros N. unfold int_of. by rewrite (proj2 (Z.ltb_lt _ _)) by lia. Qed.

Lemma known_ok family : known_family family -> known family = true /\ 0 <= family < 256.
Proof. intros [-> | ->]; by split. Qed.

Lemma ifaddr_fields type flags family prefix fl scope i l :
  is_u32 i -> let d := n_data (message type flags (ifaddrmsg family prefix fl scope i) l) in
  le_at 0 1 d = family /\ le_at 1 1 d = prefix /\ le_at 2 1 d = fl /\ le_at 3 1 d = scope /\ le_at 4 4 d = i.
Proof.
  intros I. cbv zeta.
  change (family + 256 * 0 = family /\ prefix + 256 * 0 = prefix /\ fl + 256 * 0 = fl /\ scope + 256 * 0 = scope /\ le_val (le 4 i) = i).
  rewrite le_val_le by (cbn; unfold is_u32 in I; lia). lia.
Qed.

Lemma rtm_fields type flags family dst_len table protocol scope ty l :
  let d := n_data (message type flags (rtmsg family dst_len table protocol scope ty) l) in
  le_at 0 1 d = family /\ le_at 1 1 d = dst_len /\ le_at 2 1 d = 0 /\ le_at 4 1 d = table /\ le_at 5 1 d = protocol /\ le_at 6 1 d = scope /\ le_at 7 1 d = ty.
Proof.
  cbv zeta. change (family + 256 * 0 = family /\ dst_len + 256 * 0 = dst_len /\ 0 = 0 /\ table + 256 * 0 = table /\ protocol + 256 * 0 = protocol /\
    scope + 256 * 0 = scope /\ ty + 256 * 0 = ty). lia.
Qed.

(** The attributes a reader of the address request finds. *)
Lemma addr_found a i v p :
  let h := addr_request a i v p in let n := addr_len (a_family a) in
  rtnl_attr h IFADDRMSG IFA_FLAGS = Some (le 4 IFA_F_NODAD) /\ rtnl_attr h IFADDRMSG IFA_LOCAL = Some (take n (a_addr a)) /\
  rtnl_attr h IFADDRMSG IFA_ADDRESS = Some (take n (a_addr a)) /\
  rtnl_attr h IFADDRMSG IFA_BROADCAST = (if a_has_brd a then Some (take n (a_brd a)) else None) /\
  rtnl_attr h IFADDRMSG IFA_CACHEINFO = Some (le 4 p ++ le 4 v ++ le 4 0 ++ le 4 0).
Proof.
  cbv zeta. rewrite addr_request_message, !body_attr by (done || apply addr_attrs_small). unfold addr_attrs. by destruct (a_has_brd a).
Qed.

Lemma cache_found a i v p now : is_u32 v -> is_u32 p -> cache_lifetimes (addr_request a i v p) now = (cache_until now v, cache_until now p).
Proof.
  intros V Q. unfold cache_lifetimes. destruct (addr_found a i v p) as (_ & _ & _ & _ & ->). rewrite !zlen_app, !zlen_le. cbn [Z.of_nat Z.add Z.eqb].
  change (le_at 4 4 (le 4 p ++ le 4 v ++ le 4 0 ++ le 4 0)) with (le_val (le 4 v)). change (le_at 0 4 (le 4 p ++ le 4 v ++ le 4 0 ++ le 4 0)) with (le_val (le 4 p)).
  rewrite !le_val_le by (cbn; unfold is_u32 in *; lia). done.
Qed.

Lemma collect_addr_request now a i v p s k l :
  addr_ok a -> 0 <= i < 2 ^ 31 -> is_u32 v -> is_u32 p -> link_by_index s i = Some k -> s !! k = Some l -> (length (l_addrs l) < NETSNAP_MAX_ADDRS)%nat ->
  collect_addr now (addr_request a i v p) s
  = (Ok tt, <[k := with_addr (mk_addr (a_family a) (a_prefix a) (a_has_brd a) (a_addr a) (a_brd a) (cache_until now v) (cache_until now p)) l]> s).
Proof.
  intros [F P A B _] I V Q K Sk L. destruct (known_ok _ F) as [Kn Fb]. destruct (ip_taken _ _ A) as [La Ea].
  unfold collect_addr. cbv zeta. destruct (addr_found a i v p) as (Af & Al & Aa & Ab & _).
  assert (D : exists f, n_data (addr_request a i v p) = n_data (message RTM_NEWADDR f (ifaddrmsg (a_family a) (a_prefix a) IFA_F_NODAD 0 i) (addr_attrs a v p)) /\
    n_type (addr_request a i v p) = RTM_NEWADDR) by (rewrite addr_request_message; by eexists).
  destruct D as (f & D & T). rewrite D, T. destruct (ifaddr_fields RTM_NEWADDR f (a_family a) (a_prefix a) IFA_F_NODAD 0 i (addr_attrs a v p)) as (-> & -> & -> & -> & ->);
    [unfold is_u32; lia|].
  rewrite int_of_small, K, Kn by done. cbn [negb orb Z.eqb]. change (negb (RTM_NEWADDR =? RTM_NEWADDR) || negb (0 =? 0) || negb true) with false. cbv iota.
  unfold attr_u32. rewrite Af, zlen_le. change (if Z.of_nat 4 =? 4 then le_val (le 4 IFA_F_NODAD) else IFA_F_NODAD) with 2.
  change (negb (Z.land 2 IFA_F_TEMPORARY =? 0)) with false. rewrite andb_false_r.
  assert (Loc : attr_ip (addr_request a i v p) IFADDRMSG (if a_family a =? AF_INET then IFA_LOCAL else IFA_ADDRESS) (a_family a) = Some (take (addr_len (a_family a)) (a_addr a))).
  { unfold attr_ip. destruct (a_family a =? AF_INET); rewrite ?Al, ?Aa, La, Nat.eqb_refl; done. }
  rewrite Loc, Sk, (proj2 (Nat.eqb_neq _ _)) by lia. rewrite cache_found by done. rewrite Ea.
  unfold attr_ip. rewrite Ab. destruct (a_has_brd a).
  - destruct (ip_taken _ _ B) as [Lb Eb]. rewrite Lb, Nat.eqb_refl. change (default [] (Some ?x)) with x. rewrite Eb, bool_decide_eq_true_2 by eauto. done.
  - rewrite bool_decide_eq_false_2 by (by intros []). change (default [] None) with (@nil Z). by rewrite B.
Qed.

(** A route the predecessor's kernel did not make by itself; a default route
    has no destination. *)
Definition route_kept (r : netsnap_route) : Prop :=
  route_ok r /\ r_protocol r <> RTPROT_KERNEL /\ (r_dst_len r = 0 -> r_dst r = in16 []).

Lemma route_found r i :
  let h := route_request r i in let n := addr_len (r_family r) in
  rtnl_attr h RTMSG RTA_MULTIPATH = None /\ rtnl_attr h RTMSG RTA_TABLE = None /\ rtnl_attr h RTMSG RTA_OIF = Some (le 4 i) /\
  rtnl_attr h RTMSG RTA_DST = (if r_dst_len r =? 0 then None else Some (take n (r_dst r))) /\
  rtnl_attr h RTMSG RTA_GATEWAY = (if r_has_gw r then Some (take n (r_gw r)) else None) /\
  rtnl_attr h RTMSG RTA_PRIORITY = (if r_metric r =? 0 then None else Some (le 4 (r_metric r))).
Proof.
  cbv zeta. rewrite route_request_message, !body_attr by (done || apply route_attrs_small). unfold route_attrs.
  by destruct (r_dst_len r =? 0), (r_has_gw r), (r_metric r =? 0).
Qed.

Lemma collect_route_request r i s k l :
  route_kept r -> 0 <= i < 2 ^ 31 -> link_by_index s i = Some k -> s !! k = Some l -> (length (l_routes l) < NETSNAP_MAX_ROUTES)%nat ->
  collect_route (route_request r i) s = (Ok tt, <[k := with_route r l]> s).
Proof.
  intros ([F P D G [Bp Bs] M] & Np & D0) I K Sk L. destruct (known_ok _ F) as [Kn Fb]. unfold collect_route. cbv zeta.
  destruct (route_found r i) as (Am & At & Ao & Ad & Ag & Ap).
  assert (E : exists f, n_data (route_request r i) = n_data (message RTM_NEWROUTE f (rtmsg (r_family r) (r_dst_len r) RT_TABLE_MAIN (r_protocol r) (r_scope r) RTN_UNICAST) (route_attrs r i)) /\
    n_type (route_request r i) = RTM_NEWROUTE) by (rewrite route_request_message; by eexists).
  destruct E as (f & E & T). rewrite E, T.
  destruct (rtm_fields RTM_NEWROUTE f (r_family r) (r_dst_len r) RT_TABLE_MAIN (r_protocol r) (r_scope r) RTN_UNICAST (route_attrs r i)) as (-> & -> & -> & -> & -> & -> & ->).
  rewrite Am, Kn, (proj2 (Z.eqb_neq _ _) Np). rewrite (bool_decide_eq_false_2 (is_Some None)) by (by intros []).
  change (negb (RTM_NEWROUTE =? RTM_NEWROUTE) || negb (RTN_UNICAST =? RTN_UNICAST) || false || negb (0 =? 0) || negb true || false) with false. cbv iota.
  unfold attr_u32. rewrite At, Ao, zlen_le. change (negb (RT_TABLE_MAIN =? RT_TABLE_MAIN) || negb (Z.of_nat 4 =? 4)) with false. cbv iota.
  rewrite le_val_le by (cbn; lia). rewrite int_of_small, K, Sk, (proj2 (Nat.eqb_neq _ _)) by (done || lia).
  assert (Dst : in16 (default [] (attr_ip (route_request r i) RTMSG RTA_DST (r_family r))) = r_dst r).
  { unfold attr_ip. rewrite Ad. destruct (Z.eqb_spec (r_dst_len r) 0) as [Z|Z]; [by rewrite D0|].
    destruct (ip_taken _ _ D) as [-> Ed]. by rewrite Nat.eqb_refl. }
  assert (Gw : attr_ip (route_request r i) RTMSG RTA_GATEWAY (r_family r) = (if r_has_gw r then Some (take (addr_len (r_family r)) (r_gw r)) else None)).
  { unfold attr_ip. rewrite Ag. destruct (r_has_gw r); [|done]. destruct (ip_taken _ _ G) as [-> _]. by rewrite Nat.eqb_refl. }
  assert (Me : match rtnl_attr (route_request r i) RTMSG RTA_PRIORITY with Some v => if zlen v =? 4 then le_val v else 0 | None => 0 end = r_metric r).
  { rewrite Ap. destruct (Z.eqb_spec (r_metric r) 0) as [Z|Z]; [done|]. rewrite zlen_le. cbn [Z.of_nat Z.eqb]. apply le_val_le. cbn. lia. }
  rewrite Dst, Gw, Me. do 3 f_equal. destruct (r_has_gw r) eqn:Hg.
  - destruct (ip_taken _ _ G) as [_ Eg]. change (default [] (Some ?x)) with x. rewrite Eg, bool_decide_eq_true_2 by eauto. rewrite <- Hg. by destruct r.
  - change (default [] None) with (@nil Z). rewrite <- G, bool_decide_eq_false_2 by (by intros []). rewrite <- Hg. by destruct r.
Qed.

(** ** A snapshot put back is the snapshot *)

(** An address that has not run out: its lifetimes fit the kernel's 32 bits
    and the preferred one does not exceed the other. *)
Definition alive (now : Z) (a : netsnap_addr) : Prop :=
  0 < now /\
  if a_valid_until a =? 0 then a_preferred_until a = 0 \/ now <= a_preferred_until a < now + LIFE_FOREVER
  else now < a_valid_until a < now + LIFE_FOREVER /\ now <= a_preferred_until a <= a_valid_until a.

(** The lifetimes [restore_addr] asks for. *)
Definition asked_valid (now : Z) (a : netsnap_addr) : Z := life_left (a_valid_until a) now.
Definition asked_preferred (now : Z) (a : netsnap_addr) : Z :=
  let p := life_left (a_preferred_until a) now in if asked_valid now a <? p then asked_valid now a else p.

Lemma alive_asked now a :
  alive now a -> asked_valid now a <> 0 /\ is_u32 (asked_valid now a) /\ is_u32 (asked_preferred now a) /\
  cache_until now (asked_valid now a) = a_valid_until a /\ cache_until now (asked_preferred now a) = a_preferred_until a.
Proof.
  intros [N A]. unfold asked_preferred, asked_valid, cache_until, life_left, LIFE_FOREVER, is_u32 in *. cbv zeta.
  destruct (Z.eqb_spec (a_valid_until a) 0) as [V|V].
  - destruct (Z.eqb_spec (a_preferred_until a) 0) as [P|P]; [by rewrite V, P|]. destruct A as [A|A]; [done|].
    destruct (Z.ltb_spec now (a_preferred_until a)) as [L|L].
    + rewrite u32_small by lia. repeat case_bool; b2p; lia.
    + repeat case_bool; b2p; lia.
  - destruct A as [A B]. rewrite (proj2 (Z.ltb_lt now (a_valid_until a))) by lia. rewrite (proj2 (Z.eqb_neq (a_preferred_until a) 0)) by lia.
    rewrite (u32_small (a_valid_until a - now)) by lia. destruct (Z.ltb_spec now (a_preferred_until a)) as [L|L].
    + rewrite u32_small by lia. repeat case_bool; b2p; lia.
    + repeat case_bool; b2p; lia.
Qed.

(** Hands each message to the collector until it refuses one. *)
Fixpoint collect_msgs (f : nlmsg -> list netsnap_link -> result unit * list netsnap_link) (l : list nlmsg) (s : list netsnap_link) : result unit * list netsnap_link :=
  match l with
  | [] => (Ok tt, s)
  | h :: l => match f h s with (Err e, s) => (Err e, s) | (Ok _, s) => collect_msgs f l s end
  end.

Lemma collect_msgs_app f l l' s :
  collect_msgs f (l ++ l') s = match collect_msgs f l s with (Err e, s) => (Err e, s) | (Ok _, s) => collect_msgs f l' s end.
Proof. revert s. induction l as [|h l IH]; intros s; [done|]. cbn. destruct (f h s) as [[[]|] s']; [apply IH|done]. Qed.

Lemma collect_msgs_other f l s : Forall (fun h => f h s = (Ok tt, s)) l -> collect_msgs f l s = (Ok tt, s).
Proof. intros F. induction F as [|h l E F IH]; [done|]. cbn. by rewrite E. Qed.

Lemma collect_addr_other now h s : n_type h <> RTM_NEWADDR -> collect_addr now h s = (Ok tt, s).
Proof. intros T. unfold collect_addr. cbv zeta. destruct (link_by_index _ _); [|done]. by rewrite (proj2 (Z.eqb_neq _ _) T). Qed.

Lemma collect_route_other h s : n_type h <> RTM_NEWROUTE -> collect_route h s = (Ok tt, s).
Proof. intros T. unfold collect_route. cbv zeta. by rewrite (proj2 (Z.eqb_neq _ _) T). Qed.

Lemma put_attr_type t d r : n_type (put_attr t d r) = n_type r.
Proof. unfold put_attr, rtnl_req_attr. by case_bool. Qed.

Lemma link_request_type l i cur : n_type (link_request l i cur) = RTM_NEWLINK.
Proof. unfold link_request. cbv zeta. do 2 case_bool; by rewrite ?put_attr_type. Qed.

Lemma link_by_index_insert s i k l l' : link_by_index s i = Some k -> s !! k = Some l -> l_ifindex l' = l_ifindex l -> link_by_index (<[k := l']> s) i = Some k.
Proof.
  revert k. induction s as [|x s IH]; intros k; [done|]. cbn [link_by_index]. destruct (Z.eqb_spec (l_ifindex x) i) as [E|E].
  - intros [= <-] [= <-] El. cbn. rewrite El. by rewrite (proj2 (Z.eqb_eq _ _) E).
  - destruct (link_by_index s i) as [j|] eqn:J; [|done]. intros [= <-] Sk El. change (<[S j:=l']> (x :: s)) with (x :: <[j:=l']> s). cbn [link_by_index].
    rewrite (proj2 (Z.eqb_neq _ _) E).
    exact (f_equal (fmap S) (IH j eq_refl Sk El)).
Qed.

Definition with_addrs (l : netsnap_link) (a : list netsnap_addr) : netsnap_link :=
  mk_link (l_pci l) (l_name l) (l_mac l) (l_mtu l) (l_ifindex l) (l_addrs l ++ a) (l_routes l).
Definition with_routes (l : netsnap_link) (r : list netsnap_route) : netsnap_link :=
  mk_link (l_pci l) (l_name l) (l_mac l) (l_mtu l) (l_ifindex l) (l_addrs l) (l_routes l ++ r).

Lemma collect_addrs now i addrs s k l :
  Forall addr_ok addrs -> Forall (alive now) addrs -> 0 <= i < 2 ^ 31 -> link_by_index s i = Some k -> s !! k = Some l ->
  (length (l_addrs l) + length addrs <= NETSNAP_MAX_ADDRS)%nat ->
  collect_msgs (collect_addr now) (map (fun a => addr_request a i (asked_valid now a) (asked_preferred now a)) addrs) s
  = (Ok tt, <[k := with_addrs l addrs]> s).
Proof.
  intros F A I. revert s l. induction F as [|a addrs O F IH]; intros s l K Sk L.
  { cbn. f_equal. symmetry. apply list_insert_id. rewrite Sk. f_equal. unfold with_addrs. rewrite app_nil_r. by destruct l. }
  apply Forall_cons in A as [A As]. destruct (alive_asked now a A) as (_ & Uv & Up & Ev & Ep). cbn [map collect_msgs]. cbn [length] in L.
  rewrite (collect_addr_request now a i _ _ s k l) by (done || lia). rewrite Ev, Ep.
  replace (mk_addr (a_family a) (a_prefix a) (a_has_brd a) (a_addr a) (a_brd a) (a_valid_until a) (a_preferred_until a)) with a by (by destruct a).
  rewrite (IH As (<[k := with_addr a l]> s) (with_addr a l)).
  - rewrite list_insert_insert. unfold with_addrs, with_addr. cbn. rewrite <- app_assoc. by case_decide.
  - by eapply link_by_index_insert.
  - apply list_lookup_insert_eq. by eapply lookup_lt_Some.
  - cbn. rewrite length_app. cbn [length]. lia.
Qed.

Lemma collect_routes i rs s k l :
  Forall route_kept rs -> 0 <= i < 2 ^ 31 -> link_by_index s i = Some k -> s !! k = Some l ->
  (length (l_routes l) + length rs <= NETSNAP_MAX_ROUTES)%nat ->
  collect_msgs collect_route (map (fun r => route_request r i) rs) s = (Ok tt, <[k := with_routes l rs]> s).
Proof.
  intros F I. revert s l. induction F as [|r rs O F IH]; intros s l K Sk L.
  { cbn. f_equal. symmetry. apply list_insert_id. rewrite Sk. f_equal. unfold with_routes. rewrite app_nil_r. by destruct l. }
  cbn [map collect_msgs]. cbn [length] in L. rewrite (collect_route_request r i s k l) by (done || lia).
  rewrite (IH (<[k := with_route r l]> s) (with_route r l)).
  - rewrite list_insert_insert. unfold with_routes, with_route. cbn. rewrite <- app_assoc. by case_decide.
  - by eapply link_by_index_insert.
  - apply list_lookup_insert_eq. by eapply lookup_lt_Some.
  - cbn. rewrite length_app. cbn [length]. lia.
Qed.

Section PutBack.
Context (env : netsnap_env) (now : Z).
Hypothesis kernel_takes : forall t r, ne_talk env t r = Ok tt.
Hypothesis one_moment : forall t, ne_now env t = now.

(** A request that was answered with 0. *)
Definition taken (r : nlmsg) : nlmsg * result unit := (r, Ok tt).
Definition addr_requests (i : Z) (l : list netsnap_addr) : list nlmsg :=
  map (fun a => addr_request a i (asked_valid now a) (asked_preferred now a)) l.

Lemma talk_taken r t : talk env r t = (Ok tt, t ++ [taken r]).
Proof. unfold talk. by rewrite kernel_takes. Qed.

Lemma restore_addrs_sent i l t : Forall (alive now) l -> restore_addrs env l i t = t ++ map taken (addr_requests i l).
Proof.
  intros F. revert t. induction F as [|a l A F IH]; intros t; [by rewrite app_nil_r|]. cbn [restore_addrs]. unfold restore_addr. cbv zeta.
  rewrite one_moment. destruct (alive_asked now a A) as (V & _). fold (asked_valid now a). rewrite (proj2 (Z.eqb_neq _ _) V), talk_taken. cbn [snd].
  rewrite IH, <- app_assoc. done.
Qed.

Lemma restore_pass_sent b i rs t :
  restore_pass env b rs i t = t ++ map taken (map (fun r => route_request r i) (List.filter (fun r => Bool.eqb (r_has_gw r) b) rs)).
Proof.
  revert t. induction rs as [|r rs IH]; intros t; cbn [restore_pass List.filter]; [by rewrite app_nil_r|].
  destruct (Bool.eqb (r_has_gw r) b); [|apply IH]. unfold restore_route. rewrite talk_taken, IH. cbn [snd map]. by rewrite <- app_assoc.
Qed.

(** The routes in the order they are put back: the ones a gateway needs first. *)
Definition route_order (rs : list netsnap_route) : list netsnap_route :=
  List.filter (fun r => Bool.eqb (r_has_gw r) false) rs ++ List.filter (fun r => Bool.eqb (r_has_gw r) true) rs.

Lemma apply_link_sent l t cur i :
  ne_find env t (l_pci l) = Ok (cur, i) -> Forall (alive now) (l_addrs l) ->
  apply_link env l t = (true, t ++ map taken ([link_request l i cur; rtnl_req_init RTM_NEWLINK 0 (ifinfomsg i IFF_UP IFF_UP)]
    ++ addr_requests i (l_addrs l) ++ map (fun r => route_request r i) (route_order (l_routes l)))).
Proof.
  intros Fd A. unfold apply_link. rewrite Fd. unfold restore_link. rewrite talk_taken, talk_taken. unfold restore_routes.
  rewrite !restore_pass_sent, restore_addrs_sent by done. unfold route_order. rewrite !map_app. cbn [map]. by rewrite <- !app_assoc.
Qed.

Lemma route_order_perm rs : route_order rs ≡ₚ rs.
Proof.
  unfold route_order. induction rs as [|r rs IH]; [done|]. cbn [List.filter]. destruct (r_has_gw r); cbn [Bool.eqb app]; [|by rewrite IH].
  rewrite <- Permutation_middle. by rewrite IH.
Qed.

(** C9: the successor's interfaces get what the predecessor's had.  With a
    kernel that takes the requests, [netsnap_apply] sends for a link whose
    interface it finds, in this order, its name, MAC and MTU, the request
    that brings it up, every address that has not run out and the routes,
    those without a gateway before those a gateway needs them for.  Read the
    way the predecessor collects a snapshot, these requests say exactly the
    link's addresses, with the same lifetimes, and its routes, and say
    nothing of any other link. *)
Theorem restored_as_collected l t cur i s k l0 :
  link_ok l -> Forall (alive now) (l_addrs l) -> Forall route_kept (l_routes l) ->
  ne_find env t (l_pci l) = Ok (cur, i) -> 0 <= i < 2 ^ 31 ->
  link_by_index s i = Some k -> s !! k = Some l0 -> l_addrs l0 = [] -> l_routes l0 = [] ->
  exists sent routes, netsnap_apply env [l] t = (1, [true], t ++ map taken sent) /\ routes ≡ₚ l_routes l /\
    collect_msgs (collect_addr now) sent s = (Ok tt, <[k := with_addrs l0 (l_addrs l)]> s) /\
    collect_msgs collect_route sent s = (Ok tt, <[k := with_routes l0 routes]> s).
Proof.
  intros [_ _ _ _ [La Fa] [Lr _]] A R Fd I K Sk Ea Er. eexists _, (route_order (l_routes l)). split; [|split; [apply route_order_perm|]].
  { cbn [netsnap_apply]. rewrite (apply_link_sent l t cur i Fd A). reflexivity. }
  set (heads := [link_request l i cur; rtnl_req_init RTM_NEWLINK 0 (ifinfomsg i IFF_UP IFF_UP)]).
  assert (H1 : forall s', collect_msgs (collect_addr now) heads s' = (Ok tt, s')).
  { intros s'. apply collect_msgs_other. apply Forall_cons; split; [apply collect_addr_other; by rewrite link_request_type|].
    apply Forall_cons; split; [by apply collect_addr_other|by apply Forall_nil]. }
  assert (H2 : forall s', collect_msgs collect_route heads s' = (Ok tt, s')).
  { intros s'. apply collect_msgs_other. apply Forall_cons; split; [apply collect_route_other; by rewrite link_request_type|].
    apply Forall_cons; split; [by apply collect_route_other|by apply Forall_nil]. }
  assert (H3 : forall s' l, collect_msgs (collect_addr now) (map (fun r => route_request r i) l) s' = (Ok tt, s')).
  { intros s' rs. apply collect_msgs_other, Forall_map, Forall_true. intros r. apply collect_addr_other. rewrite route_request_message. done. }
  assert (H4 : forall s' l, collect_msgs collect_route (addr_requests i l) s' = (Ok tt, s')).
  { intros s' al. apply collect_msgs_other, Forall_map, Forall_true. intros a. apply collect_route_other. rewrite addr_request_message. done. }
  rewrite !collect_msgs_app, H1, H2. cbv iota beta. split.
  - rewrite collect_msgs_app. unfold addr_requests. rewrite (collect_addrs now i (l_addrs l) s k l0) by (done || (rewrite Ea; cbn; lia)). apply H3.
  - rewrite collect_msgs_app, H4. apply collect_routes; [|done..|rewrite Er, (Permutation_length (route_order_perm _)); cbn; lia].
    apply Forall_forall. intros r In. rewrite Forall_forall in R. apply R. by rewrite <- (route_order_perm (l_routes l)).
Qed.

End PutBack.

(** ** Collecting over the socket *)

(** The datagrams answer the dump [seq] with the messages [ms], among any
    others, and end it. *)
Record answers (seq : Z) (ds : list (list nlmsg)) (ms : list nlmsg) : Prop := {
  an_ok : Forall (Forall msg_ok) ds;
  an_done : exists d rest, List.filter (fun h => n_seq h =? seq) (concat ds) = ms ++ d :: rest /\ n_type d = NLMSG_DONE;
  an_objects : Forall (fun h => n_type h <> NLMSG_DONE /\ n_type h <> NLMSG_ERROR) ms }.

Lemma deliver_filter {S} (cb : option (nlmsg -> S -> result unit * S)) seq l st :
  deliver cb seq l st = deliver cb seq (List.filter (fun h => n_seq h =? seq) l) st.
Proof.
  revert st. induction l as [|h l IH]; intros st; [done|]. cbn [deliver List.filter]. destruct (n_seq h =? seq) eqn:E; cbn [negb]; [|apply IH].
  cbn [deliver]. rewrite E. cbn [negb]. destruct (_ =? NLMSG_DONE); [done|]. destruct (_ =? NLMSG_ERROR); [done|]. destruct cb as [f|]; [|apply IH].
  destruct (f h st) as [[[]|] st']; [apply IH|done].
Qed.

Lemma deliver_collect f seq ds ms s : answers seq ds ms ->
  deliver (Some f) seq (concat ds) s = (let '(r, s') := collect_msgs f ms s in (Some r, s')).
Proof.
  intros [_ (d & rest & E & D) O]. rewrite deliver_filter, E.
  assert (Sq : Forall (fun h => n_seq h = seq) (ms ++ d :: rest)).
  { rewrite <- E. apply Forall_forall. intros h I. apply list_elem_of_In, List.filter_In in I as [_ I]. by apply Z.eqb_eq. }
  clear E. revert s. induction O as [|h ms [T1 T2] O IH]; intros s; apply Forall_cons in Sq as [Q Sq]; cbn [deliver app collect_msgs]; rewrite Q, Z.eqb_refl; cbn [negb].
  - by rewrite D.
  - rewrite (proj2 (Z.eqb_neq _ _) T1), (proj2 (Z.eqb_neq _ _) T2). destruct (f h s) as [[[]|] s']; [by apply IH|done].
Qed.

(** C10: a snapshot is what the kernel says of the interfaces.  With the
    interfaces read from sysfs, and dumps of addresses and routes that end
    with the kernel's done message in whatever datagrams, [netsnap_collect]
    hands every address to [collect_addr] and then every route to
    [collect_route], in the order of the dumps, and returns their first error
    or 0. *)
Theorem netsnap_collect_exact `{Files} exists_ realpath k now class_net skip entries pid da dr ma mr :
  dir_list class_net = Ok entries -> rk_open k = Ok tt -> (rk_addr k).1 = Ok tt -> (rk_route k).1 = Ok tt ->
  (rk_addr k).2 = map (fun l => Ok (datagram pid l)) da -> (rk_route k).2 = map (fun l => Ok (datagram pid l)) dr ->
  answers (u32 (rk_seq k + 1)) da ma -> answers (u32 (u32 (rk_seq k + 1) + 1)) dr mr ->
  let s0 := read_links exists_ realpath class_net skip entries [] in s0 <> [] ->
  netsnap_collect exists_ realpath k now class_net skip
  = match collect_msgs (collect_addr now) ma s0 with
    | (Err e, s) => (Some (Err e), s)
    | (Ok _, s) => let '(r, s) := collect_msgs collect_route mr s in (Some r, s)
    end.
Proof.
  intros Dl Op Sa Sr Ba Br Aa Ar s0 Ne. unfold netsnap_collect. rewrite Dl. cbv zeta. fold s0.
  assert (L : (length s0 =? 0)%nat = false) by (by destruct s0). rewrite L, Op, Sa, Sr, Ba, Br.
  unfold rtnl_dump, send_req. cbn [n_seq]. rewrite receive_deliver by apply Aa. rewrite (deliver_collect _ _ _ _ _ Aa).
  destruct (collect_msgs (collect_addr now) ma s0) as [[[]|e] s1]; [|done].
  rewrite receive_deliver by apply Ar. rewrite (deliver_collect _ _ _ _ _ Ar). by destruct (collect_msgs collect_route mr s1).
Qed.

(** ** Waiting for an interface *)

Lemma find_loop_spec fuel n on index :
  Z.of_nat fuel = 302 - Z.of_nat n -> (n <= 301)%nat ->
  (exists k name, (n <= k <= 300)%nat /\ on (10 * Z.of_nat k) = Ok name /\ (forall j, (n <= j < k)%nat -> exists e, on (10 * Z.of_nat j) = Err e) /\
     find_loop fuel (10 * Z.of_nat n) on index = (let? i := index name in Ok (name, i))) \/
  ((forall j, (n <= j <= 300)%nat -> exists e, on (10 * Z.of_nat j) = Err e) /\ find_loop fuel (10 * Z.of_nat n) on index = Err ETIMEDOUT).
Proof.
  revert n. induction fuel as [|fuel IH]; intros n F N; [lia|]. cbn [find_loop]. unfold FIND_TIMEOUT_MS, FIND_POLL_MS.
  destruct (Z.ltb_spec 3000 (10 * Z.of_nat n)) as [L|L]; [right; split; [intros j J; lia|done]|].
  destruct (on (10 * Z.of_nat n)) as [name|e] eqn:O.
  - left. exists n, name. split; [lia|]. split; [done|]. split; [intros j J; lia|done].
  - replace (10 * Z.of_nat n + 10) with (10 * Z.of_nat (S n)) by lia. destruct (IH (S n)) as [(k & name & K & Ok_ & Before & E)|[All E]]; [lia|lia| |].
    + left. exists k, name. split; [lia|]. split; [done|]. split; [|done]. intros j J. destruct (decide (j = n)) as [->|]; [by exists e|apply Before; lia].
    + right. split; [|done]. intros j J. destruct (decide (j = n)) as [->|]; [by exists e|apply All; lia].
Qed.

(** The wait ends: with the interface at the first poll that finds it, at
    most three seconds in, else with [-ETIMEDOUT]. *)
Lemma find_netdev_ends on index :
  (exists k name, (k <= 300)%nat /\ on (10 * Z.of_nat k) = Ok name /\ (forall j, (j < k)%nat -> exists e, on (10 * Z.of_nat j) = Err e) /\
     find_netdev on index = (let? i := index name in Ok (name, i))) \/
  ((forall j, (j <= 300)%nat -> exists e, on (10 * Z.of_nat j) = Err e) /\ find_netdev on index = Err ETIMEDOUT).
Proof.
  destruct (find_loop_spec 302 0 on index ltac:(lia) ltac:(lia)) as [(k & name & K & O & B & E)|[A E]]; [left|right].
  - exists k, name. split; [lia|]. split; [done|]. split; [|done]. intros j J. apply B. lia.
  - split; [|done]. intros j J. apply A. lia.
Qed.

(** ** An interface put back *)

Definition demo_link : netsnap_link :=
  mk_link (str "0000:03:00.0") (str "eth0") [82; 84; 0; 18; 52; 86] 1500 3
     [mk_addr AF_INET 24 true (in16 [10; 0; 0; 5]) (in16 [10; 0; 0; 255]) 0 0;
      mk_addr AF_INET 16 false (in16 [10; 1; 0; 5]) (in16 []) 2000 1500]
     [mk_route AF_INET 0 3 0 true (in16 []) (in16 [10; 0; 0; 1]) 100; mk_route AF_INET 24 3 253 false (in16 [10; 0; 0; 0]) (in16 []) 0].
Definition demo_net_env : netsnap_env :=
  {| ne_find _ _ := Ok (str "eth1", 7); ne_talk _ _ := Ok tt; ne_now _ := 1000 |}.
Definition demo_found : list netsnap_link := [mk_link (str "0000:03:00.0") (str "eth1") [82; 84; 0; 18; 52; 86] 1500 7 [] []].

Lemma ip_bytes_check family b a :
  a = in16 b -> (length b =? addr_len family)%nat && forallb (fun x => (0 <=? x) && (x <? 256)) b = true -> ip_bytes family a.
Proof.
  intros -> E. apply andb_true_iff in E as [L F]. exists b. split; [done|]. split; [by apply Nat.eqb_eq|]. rewrite Forall_forall. intros x X.
  rewrite forallb_forall in F. apply list_elem_of_In, F in X. unfold is_byte. b2p. lia.
Qed.

Lemma demo_link_ok : link_ok demo_link.
Proof.
  constructor.
  - split_and!; [done|cbn; lia|by repeat constructor].
  - split_and!; [done|cbn; lia|by repeat constructor].
  - split; [done|]. unfold is_byte. cbn. repeat constructor; lia.
  - cbn. lia.
  - split; [cbn; unfold NETSNAP_MAX_ADDRS; lia|]. apply Forall_cons; split; [|apply Forall_cons; split; [|by apply Forall_nil]];
      (constructor; [by left|cbn; lia|by eapply ip_bytes_check|first [reflexivity|by eapply ip_bytes_check]|by vm_compute]).
  - split; [cbn; unfold NETSNAP_MAX_ROUTES; lia|]. apply Forall_cons; split; [|apply Forall_cons; split; [|by apply Forall_nil]].
    + constructor; [by left|cbn; lia|by apply (ip_bytes_check AF_INET [0; 0; 0; 0])|by eapply ip_bytes_check|by vm_compute|by vm_compute].
    + constructor; [by left|cbn; lia|by eapply ip_bytes_check|reflexivity|by vm_compute|by vm_compute].
Qed.

Lemma restored_as_collected_witness :
  exists sent routes, netsnap_apply demo_net_env [demo_link] [] = (1, [true], [] ++ map taken sent) /\ routes ≡ₚ l_routes demo_link /\
    collect_msgs (collect_addr 1000) sent demo_found = (Ok tt, [with_addrs (List.hd demo_link demo_found) (l_addrs demo_link)]) /\
    collect_msgs collect_route sent demo_found = (Ok tt, [with_routes (List.hd demo_link demo_found) routes]).
Proof.
  apply (restored_as_collected demo_net_env 1000 (fun _ _ => eq_refl) (fun _ => eq_refl) demo_link [] (str "eth1") 7 demo_found 0);
    [apply demo_link_ok| | |reflexivity|lia|reflexivity|reflexivity|reflexivity|reflexivity].
  - apply Forall_cons. split; [|apply Forall_cons; split; [|by apply Forall_nil]]; (split; [lia|]); cbn; unfold LIFE_FOREVER; lia.
  - destruct demo_link_ok as [_ _ _ _ _ [_ R]]. apply Forall_cons in R as [R1 R]. apply Forall_cons in R as [R2 _].
    apply Forall_cons. split; [|apply Forall_cons; split; [|by apply Forall_nil]]; (split; [done|]); split; done.
Defined.

(** One address over the socket, with a message of another request before it. *)
Definition demo_addr_msg (seq : Z) : nlmsg := mk_msg RTM_NEWADDR 2 seq (n_data (addr_request (List.hd (mk_addr 0 0 false [] [] 0 0) (l_addrs demo_link)) 7 LIFE_FOREVER LIFE_FOREVER)).
Definition demo_done (seq : Z) : nlmsg := mk_msg NLMSG_DONE 2 seq [0; 0; 0; 0].
Definition demo_dump_a : list (list nlmsg) := [[demo_addr_msg 9; demo_addr_msg 1]; [demo_done 1]].
Definition demo_dump_r : list (list nlmsg) := [[demo_done 2]].
Definition demo_sock : rtnl_sock :=
  {| rk_open := Ok tt; rk_seq := 0; rk_addr := (Ok tt, map (fun l => Ok (datagram 5 l)) demo_dump_a); rk_route := (Ok tt, map (fun l => Ok (datagram 5 l)) demo_dump_r) |}.
Definition demo_net_files : Files := {|
  file_read p := if streq p (str "/sys/class/net/eth1/address") then Ok (str "52:54:00:12:34:56") else
                 if streq p (str "/sys/class/net/eth1/ifindex") then Ok (str "7") else Err ENOENT;
  dir_list _ := Ok [str "."; str ".."; str "eth1"; str "lo"] |}.
Definition demo_net_has (p : list Z) : bool := streq p (str "/sys/class/net/eth1").
Definition demo_net_real (p : list Z) : result (list Z) := Ok (str "/sys/devices/pci0000:00/0000:03:00.0/net/eth1").

Lemma demo_msg_ok seq : is_u32 seq -> msg_ok (demo_addr_msg seq) /\ msg_ok (demo_done seq).
Proof. intros S. split; constructor; try done; vm_compute; try done; by split. Qed.

Lemma netsnap_collect_exact_witness :
  netsnap_collect (H := demo_net_files) demo_net_has demo_net_real demo_sock 1000 (str "/sys/class/net") []
  = (Some (Ok tt), [mk_link (str "0000:03:00.0") (str "eth1") [82; 84; 0; 18; 52; 86] 0 7 [mk_addr AF_INET 24 true (in16 [10; 0; 0; 5]) (in16 [10; 0; 0; 255]) 0 0] []]).
Proof.
  assert (U : is_u32 9 /\ is_u32 1 /\ is_u32 2) by (unfold is_u32; lia). destruct U as (U9 & U1 & U2).
  rewrite (netsnap_collect_exact (H := demo_net_files) demo_net_has demo_net_real demo_sock 1000 (str "/sys/class/net") []
    [str "."; str ".."; str "eth1"; str "lo"] 5 demo_dump_a demo_dump_r [demo_addr_msg 1] []); try reflexivity.
  - split; [|exists (demo_done 1), []; by split|by repeat constructor].
    apply Forall_cons; split; [|apply Forall_cons; split; [|by apply Forall_nil]];
      repeat (apply Forall_cons; split; [by apply demo_msg_ok|]); by apply Forall_nil.
  - split; [|exists (demo_done 2), []; by split|by constructor].
    apply Forall_cons; split; [|by apply Forall_nil]. apply Forall_cons; split; [by apply demo_msg_ok|]. by apply Forall_nil.
  - vm_compute. discriminate.
Defined.
