(* ===== verification/Vmlinux.v ===== *)
(** * lib/vmlinux.c and lib/elf.c: the kernel image

    Finding the compressed kernel in a bzImage, the size of the ELF image in
    what the decompressor wrote, and whether a program needs an interpreter.
    A function that reads a buffer at an offset it computed returns [None]
    when the offset is outside. *)

From S2P Require Import Prelude Cstr Files Fdt Elfcore.

Definition BZ_SETUP_SECTS : Z := 0x1f1.
Definition BZ_HEADER_MAGIC : Z := 0x202.
Definition BZ_VERSION : Z := 0x206.
Definition BZ_PAYLOAD_OFFSET : Z := 0x248.
Definition BZ_PAYLOAD_LENGTH : Z := 0x24c.
Definition BZ_HEADER_END : Z := 0x250.
Definition BZ_MIN_VERSION : Z := 0x0208.
Definition ARM64_IMAGE_MAGIC_OFFSET : Z := 0x38.
Definition PT_INTERP : Z := 3.
Definition HEAD_MAX : nat := Z.to_nat 65536.

Definition vmlinux_is_bzimage (image : list Z) : bool :=
  (BZ_HEADER_END <=? zlen image) && bool_decide (bytes_at BZ_HEADER_MAGIC 4 image = str "HdrS").

(** The payload's offset and length. *)
Definition vmlinux_locate_payload (image : list Z) : result (Z * Z) :=
  if negb (vmlinux_is_bzimage image) || (le_at BZ_VERSION 2 image <? BZ_MIN_VERSION) then Err EINVAL else
  let sects := le_at BZ_SETUP_SECTS 1 image in
  let setup_sects := if sects =? 0 then 4 else sects in
  let start := (setup_sects + 1) * 512 + le_at BZ_PAYLOAD_OFFSET 4 image in
  let payload_len := le_at BZ_PAYLOAD_LENGTH 4 image in
  if (zlen image <? start) || (zlen image - start <? payload_len) then Err EINVAL else Ok (start, payload_len).

Definition vmlinux_is_arm64_image (image : list Z) : bool :=
  (ARM64_IMAGE_MAGIC_OFFSET + 4 <=? zlen image) && bool_decide (bytes_at ARM64_IMAGE_MAGIC_OFFSET 4 image = str "ARM" ++ [0x64]).

Definition decompressors : list (list Z * list Z) :=
  [([0x1f; 0x8b], str "gzip"); ([0xfd] ++ str "7zXZ" ++ [0], str "xz"); ([0x28; 0xb5; 0x2f; 0xfd], str "zstd");
   ([0x02; 0x21; 0x4c; 0x18], str "lz4"); ([0x04; 0x22; 0x4d; 0x18], str "lz4"); ([0x5d; 0x00], str "lzma")].

Definition vmlinux_decompressor (payload : list Z) : option (list Z) :=
  snd <$> List.find (fun d => starts d.1 payload) decompressors.

(** ** ELF headers *)

Definition ELFMAG : list Z := [0x7f; 0x45; 0x4c; 0x46].
Definition is_elf64 (s : list Z) : bool :=
  negb ((zlen s <? EHDR) || negb (bool_decide (take 4 s = ELFMAG)) || negb (le_at 4 1 s =? 2)).

Definition e_phoff (s : list Z) : Z := le_at 32 8 s.
Definition e_shoff (s : list Z) : Z := le_at 40 8 s.
Definition e_phentsize (s : list Z) : Z := le_at 54 2 s.
Definition e_phnum (s : list Z) : Z := le_at 56 2 s.
Definition e_shentsize (s : list Z) : Z := le_at 58 2 s.
Definition e_shnum (s : list Z) : Z := le_at 60 2 s.

(** The [for] loop from [i] on, [n] rounds.  A pointer is the buffer's and an
    offset modulo 2^64; the loop reads the fields up to [p_filesz]. *)
Fixpoint elf_size_loop (n : nat) (i end_ : Z) (elf : list Z) : option Z :=
  match n with
  | O => Some end_
  | S n =>
      if zlen elf <? u64 (e_phoff elf + (i + 1) * PHDR) then Some 0 else
      let off := u64 (e_phoff elf + i * e_phentsize elf) in
      if zlen elf <? off + 40 then None else
      let ph := read_phdr off elf in
      let e := u64 (p_offset ph + p_filesz ph) in
      elf_size_loop n (i + 1) (if end_ <? e then e else end_) elf
  end.

Definition vmlinux_elf_size (elf : list Z) : option Z :=
  if negb (is_elf64 elf) then Some 0 else
  let ph_end := u64 (e_phoff elf + e_phentsize elf * e_phnum elf) in
  let end_ := if EHDR <? ph_end then ph_end else EHDR in
  let sh_end := u64 (e_shoff elf + e_shentsize elf * e_shnum elf) in
  let end_ := if end_ <? sh_end then sh_end else end_ in
  elf_size_loop (Z.to_nat (e_phnum elf)) 0 end_ elf.

(** The [for] loop of [elf_needs_interp] reads [p_type]. *)
Fixpoint interp_loop (n : nat) (i : Z) (buf : list Z) : option bool :=
  match n with
  | O => Some false
  | S n =>
      let off := u64 (e_phoff buf + i * PHDR) in
      if zlen buf <? off + 4 then None
      else if le_at off 4 buf =? PT_INTERP then Some true else interp_loop n (i + 1) buf
  end.

Definition elf_needs_interp (buf : list Z) : option (result bool) :=
  if negb (is_elf64 buf) || negb (e_phentsize buf =? PHDR) || (zlen buf <? u64 (e_phoff buf + e_phnum buf * PHDR)) then Some (Err ENOEXEC)
  else Ok <$> interp_loop (Z.to_nat (e_phnum buf)) 0 buf.

(** ** Opening a kernel *)

(** What the program needs of the system: the two memory files, starting a
    process, and what a program run with an argument vector on some input
    comes to: its exit status, none if it was killed, and what it wrote, or
    the error of [waitpid]. *)
Record vmlinux_env : Type := {
  ve_payload_file : result unit;
  ve_writes : list write_step;
  ve_output_file : result unit;
  ve_fork : result unit;
  ve_run : list (list Z) -> list Z -> result (option Z * list Z);
  ve_truncate : result unit;
  ve_open : list Z -> result unit }.

Section Open.
Context `{Files} (v : vmlinux_env).

(** The [while] loop of [memfd_with]: what the file holds when all is
    written.  Once [ve_writes] is used up a [write] takes all that is left;
    an interrupted one is an error. *)
Fixpoint memfd_loop (script : list write_step) (data held : list Z) : result (list Z) :=
  match data with
  | [] => Ok held
  | _ =>
      match script with
      | [] => Ok (held ++ data)
      | WriteErr e :: _ => Err e
      | WriteIntr :: _ => Err EINTR
      | WriteCount n :: script => memfd_loop script (drop n data) (held ++ take n data)
      end
  end.
Definition memfd_with (data : list Z) : result (list Z) :=
  let? _ := ve_payload_file v in memfd_loop (ve_writes v) data [].

(** The argument vector of the child. *)
Definition decompress_argv (tool : list Z) : list (list Z) :=
  if streq tool (str "lzma") then [str "xz"; str "--format=lzma"; str "-dc"] else [tool; str "-dc"].

Definition run_decompressor (tool payload : list Z) : result (list Z) :=
  let? _ := ve_fork v in
  let? status := ve_run v (decompress_argv tool) payload in
  match status with
  | (None, _) => Err ENOEXEC
  | (Some code, out) => if code =? 127 then Err ENOEXEC else Ok out
  end.

(** [trim_to_elf] on a file that holds [out]: what it holds then. *)
Definition trim_to_elf (out : list Z) : option (result (list Z)) :=
  if zlen out =? 0 then Some (Err EINVAL) else
  match vmlinux_elf_size (take HEAD_MAX out) with
  | None => None
  | Some elf_len =>
      if (elf_len =? 0) || (zlen out <? elf_len) then Some (Err EINVAL)
      else if elf_len <? zlen out then
        match ve_truncate v with Err e => Some (Err e) | Ok _ => Some (Ok (take (Z.to_nat elf_len) out)) end
      else Some (Ok out)
  end.

Definition extract_vmlinux (image : list Z) : option (result (list Z)) :=
  match vmlinux_locate_payload image with
  | Err e => Some (Err e)
  | Ok (off, plen) =>
      let payload := bytes_at off (Z.to_nat plen) image in
      match vmlinux_decompressor payload with
      | None => Some (Err EOPNOTSUPP)
      | Some tool =>
          match memfd_with payload, ve_output_file v with
          | Err e, _ => Some (Err e)
          | Ok _, Err e => Some (Err e)
          | Ok held, Ok _ =>
              match run_decompressor tool held with
              | Err e => Some (Err e)
              | Ok out => trim_to_elf out
              end
          end
      end
  end.

(** What the descriptor reads. *)
Definition vmlinux_open (path : list Z) : option (result (list Z)) :=
  match file_read path with
  | Err e => Some (Err e)
  | Ok image =>
      if vmlinux_is_bzimage image then extract_vmlinux image else
      match vmlinux_elf_size image with
      | None => None
      | Some n =>
          if negb (n =? 0) || vmlinux_is_arm64_image image
          then Some (let? _ := ve_open v path in Ok image) else Some (Err EINVAL)
      end
  end.

End Open.

(** ** The size of the image *)

Definition bytes (s : list Z) : Prop := Forall (fun b => 0 <= b < 256) s.

Lemma bytes_check s : forallb (fun b => (0 <=? b) && (b <? 256)) s = true -> bytes s.
Proof. intros F. apply Forall_forall. intros b B%list_elem_of_In. rewrite forallb_forall in F. apply F in B. b2p. lia. Qed.

Lemma le_val_range s : bytes s -> 0 <= le_val s < 256 ^ zlen s.
Proof.
  intros B. induction B as [|b s X B IH]; [by vm_compute|]. cbn [le_val]. rewrite zlen_cons, Z.pow_add_r by (pose proof (zlen_nonneg s); lia).
  change (256 ^ 1) with 256. lia.
Qed.

Lemma le_at_range off n s : bytes s -> 0 <= le_at off n s < 256 ^ Z.of_nat n.
Proof.
  intros B. unfold le_at, bytes_at. assert (T : bytes (take n (drop (Z.to_nat off) s))) by (by apply Forall_take, Forall_drop).
  pose proof (le_val_range _ T) as R. split; [lia|]. eapply Z.lt_le_trans; [apply R|]. apply Z.pow_le_mono_r; [lia|].
  unfold zlen. rewrite length_take. lia.
Qed.

(** Where a segment ends in the file. *)
Definition seg_end (p : phdr) : Z := p_offset p + p_filesz p.

(** The program headers. *)
Definition elf_phdrs (s : list Z) : list phdr := read_phdrs (Z.to_nat (e_phnum s)) (e_phoff s) PHDR s.

(** An ELF64 file whose program headers are in the buffer and whose offsets
    do not wrap around. *)
Record elf_sane (s : list Z) : Prop := {
  es_bytes : bytes s;
  es_len : zlen s < 2 ^ 63;
  es_magic : is_elf64 s = true;
  es_phent : e_phentsize s = PHDR;
  es_phdrs : e_phoff s + e_phnum s * PHDR <= zlen s;
  es_sections : e_shoff s + e_shentsize s * e_shnum s < two64;
  es_segments : Forall (fun p => seg_end p < two64) (elf_phdrs s) }.

(** The end of the last thing in the file. *)
Definition elf_extent (s : list Z) : Z :=
  foldl Z.max (Z.max (Z.max EHDR (e_phoff s + e_phentsize s * e_phnum s)) (e_shoff s + e_shentsize s * e_shnum s)) (map seg_end (elf_phdrs s)).

Lemma max_if a b : (if a <? b then b else a) = Z.max a b.
Proof. case_bool; b2p; lia. Qed.

Lemma elf_size_loop_max s n i end_ :
  bytes s -> zlen s < 2 ^ 63 -> e_phentsize s = PHDR -> 0 <= i -> e_phoff s + (i + Z.of_nat n) * PHDR <= zlen s ->
  Forall (fun p => seg_end p < two64) (read_phdrs n (e_phoff s + i * PHDR) PHDR s) ->
  elf_size_loop n i end_ s = Some (foldl Z.max end_ (map seg_end (read_phdrs n (e_phoff s + i * PHDR) PHDR s))).
Proof.
  intros B Lz E. pose proof (le_at_range 32 8 s B) as Rp. change (256 ^ Z.of_nat 8) with two64 in Rp. fold (e_phoff s) in Rp.
  revert i end_. induction n as [|n IH]; intros i end_ I L F; [done|]. cbn [elf_size_loop read_phdrs map foldl] in *. apply Forall_cons in F as [S F].
  unfold PHDR in *. rewrite E, !u64_small by lia. rewrite !(proj2 (Z.ltb_ge (zlen s) _)) by lia. cbv zeta. unfold seg_end at 1 in S.
  assert (Ps : 0 <= p_offset (read_phdr (e_phoff s + i * 56) s) + p_filesz (read_phdr (e_phoff s + i * 56) s)).
  { cbn. pose proof (le_at_range (e_phoff s + i * 56 + 8) 8 s B). pose proof (le_at_range (e_phoff s + i * 56 + 32) 8 s B). lia. }
  rewrite (u64_small (_ + _)) by lia. rewrite max_if. replace (e_phoff s + i * 56 + 56) with (e_phoff s + (i + 1) * 56) in * by lia.
  rewrite IH by (done || lia). done.
Qed.

Lemma elf_size_extent s : elf_sane s -> vmlinux_elf_size s = Some (elf_extent s).
Proof.
  intros [B L M E P S F]. unfold vmlinux_elf_size, elf_extent. rewrite M. cbn [negb]. cbv zeta.
  pose proof (le_at_range 32 8 s B) as Rp. pose proof (le_at_range 56 2 s B) as Rn. pose proof (le_at_range 40 8 s B) as Rs.
  pose proof (le_at_range 58 2 s B) as Re. pose proof (le_at_range 60 2 s B) as Rm.
  fold (e_phoff s) in Rp. fold (e_phnum s) in Rn. fold (e_shoff s) in Rs. fold (e_shentsize s) in Re. fold (e_shnum s) in Rm.
  rewrite E in *. unfold PHDR in *. rewrite (u64_small (e_phoff s + 56 * e_phnum s)), (u64_small (e_shoff s + _)) by nia. rewrite !max_if.
  unfold elf_phdrs in *. set (m := Z.max _ _).
  pose proof (elf_size_loop_max s (Z.to_nat (e_phnum s)) 0 m B L E ltac:(lia)) as Q.
  replace (e_phoff s + 0 * PHDR) with (e_phoff s) in Q by lia. apply Q; [unfold PHDR; lia|done].
Qed.

Lemma foldl_max_spec l m : m <= foldl Z.max m l /\ (forall x, x ∈ l -> x <= foldl Z.max m l) /\ (foldl Z.max m l = m \/ foldl Z.max m l ∈ l).
Proof.
  revert m. induction l as [|x l IH]; intros m; [split; [done|]; split; [by intros x ?%elem_of_nil|by left]|]. cbn [foldl].
  destruct (IH (Z.max m x)) as (A & B & C). split; [lia|]. split.
  - intros y [-> |Y]%elem_of_cons; [lia|by apply B].
  - destruct C as [C|C]; [|right; by right]. destruct (Z.max_spec m x) as [[? Q]|[? Q]]; rewrite Q in *; [right; rewrite C; by left|by left].
Qed.

(** The size covers the headers, both tables and every segment, and nothing
    beyond the last of them. *)
Lemma elf_extent_covers s :
  EHDR <= elf_extent s /\ e_phoff s + e_phentsize s * e_phnum s <= elf_extent s /\ e_shoff s + e_shentsize s * e_shnum s <= elf_extent s /\
  (forall p, p ∈ elf_phdrs s -> seg_end p <= elf_extent s) /\
  (elf_extent s = EHDR \/ elf_extent s = e_phoff s + e_phentsize s * e_phnum s \/ elf_extent s = e_shoff s + e_shentsize s * e_shnum s \/
   exists p, p ∈ elf_phdrs s /\ elf_extent s = seg_end p).
Proof.
  unfold elf_extent. destruct (foldl_max_spec (map seg_end (elf_phdrs s))
    (Z.max (Z.max EHDR (e_phoff s + e_phentsize s * e_phnum s)) (e_shoff s + e_shentsize s * e_shnum s))) as (A & B & C).
  split; [lia|]. split; [lia|]. split; [lia|]. split.
  - intros p P. apply B, list_elem_of_fmap. by exists p.
  - destruct C as [C|C]; [rewrite C; lia|]. apply list_elem_of_fmap in C as (p & E & P). do 3 right. by exists p.
Qed.

(** A [write] that took some of the bytes. *)
Definition wrote (s : write_step) : Prop := match s with WriteCount _ => True | _ => False end.

Lemma memfd_loop_whole script data held : Forall wrote script -> memfd_loop script data held = Ok (held ++ data).
Proof.
  intros F. revert data held. induction F as [|s script W _ IH]; intros data held; (destruct data as [|c data]; cbn [memfd_loop]; [by rewrite app_nil_r|]); [done|].
  destruct s as [n| |e]; [|done..]. by rewrite IH, <- app_assoc, take_drop.
Qed.

Lemma memfd_with_whole v data : ve_payload_file v = Ok tt -> Forall wrote (ve_writes v) -> memfd_with v data = Ok data.
Proof. intros P W. unfold memfd_with. by rewrite P, memfd_loop_whole. Qed.

(** C15: the loader gets the kernel and nothing else.  Opening a bzImage whose
    payload a known tool decompresses to an ELF file, whatever its exit
    status but that of a missing program, gives the bytes of that
    output up to the end of the last header, section table or segment: the
    relocations a relocatable kernel appends are cut off, and nothing of the
    image is. *)
Theorem vmlinux_open_extracts `{Files} v path image off plen tool status out :
  file_read path = Ok image -> vmlinux_locate_payload image = Ok (off, plen) ->
  vmlinux_decompressor (bytes_at off (Z.to_nat plen) image) = Some tool ->
  ve_payload_file v = Ok tt -> Forall wrote (ve_writes v) -> ve_output_file v = Ok tt -> ve_truncate v = Ok tt ->
  ve_fork v = Ok tt -> ve_run v (decompress_argv tool) (bytes_at off (Z.to_nat plen) image) = Ok (Some status, out) -> status <> 127 ->
  let head := take HEAD_MAX out in elf_sane head -> elf_extent head <= zlen out ->
  vmlinux_open v path = Some (Ok (take (Z.to_nat (elf_extent head)) out)) /\
  (forall p, p ∈ elf_phdrs head -> seg_end p <= elf_extent head) /\
  off + plen <= zlen image.
Proof.
  intros Rd Lo De Fp Fw Fo Ft Fk Ou St head Sn Ex. pose proof (elf_extent_covers head) as (Lb & _ & _ & Cov & _).
  assert (Bz : vmlinux_is_bzimage image = true /\ off + plen <= zlen image).
  { unfold vmlinux_locate_payload in Lo. destruct (vmlinux_is_bzimage image); [|done]. cbn [negb orb] in Lo. destruct (_ <? _); [done|].
    destruct ((_ <? _) || _) eqn:E in Lo; [done|]. injection Lo as <- <-. apply orb_false_iff in E as [E1 E2]. b2p. split; [done|lia]. }
  destruct Bz as [Bz In]. split; [|done]. unfold vmlinux_open. rewrite Rd, Bz. unfold extract_vmlinux. rewrite Lo. cbv zeta. rewrite De, memfd_with_whole, Fo by done. unfold run_decompressor. rewrite Fk, Ou, (proj2 (Z.eqb_neq _ _) St).
  unfold trim_to_elf. unfold EHDR in Lb. rewrite (proj2 (Z.eqb_neq (zlen out) 0)) by lia. fold head. rewrite elf_size_extent by done.
  rewrite (proj2 (Z.eqb_neq (elf_extent head) 0)), (proj2 (Z.ltb_ge (zlen out) _)) by lia. cbn [orb]. rewrite Ft. case_bool; [done|]. b2p.
  rewrite take_ge; [done|]. unfold zlen in *. lia.
Qed.

(** ** Headers nobody checked *)

Lemma elf_size_loop_in s n i end_ :
  bytes s -> zlen s < 2 ^ 63 -> e_phentsize s = PHDR -> 0 <= i -> e_phoff s + (i + Z.of_nat n) * PHDR <= zlen s -> elf_size_loop n i end_ s <> None.
Proof.
  intros B Lz E. pose proof (le_at_range 32 8 s B) as Rp. fold (e_phoff s) in Rp. unfold PHDR in *.
  revert i end_. induction n as [|n IH]; intros i end_ I L; [done|]. cbn [elf_size_loop]. unfold PHDR. rewrite E, !u64_small by lia.
  rewrite !(proj2 (Z.ltb_ge (zlen s) _)) by lia. apply IH; lia.
Qed.

Lemma interp_loop_in s n i :
  bytes s -> zlen s < 2 ^ 63 -> 0 <= i -> e_phoff s + (i + Z.of_nat n) * PHDR <= zlen s -> interp_loop n i s <> None.
Proof.
  intros B Lz. pose proof (le_at_range 32 8 s B) as Rp. fold (e_phoff s) in Rp. unfold PHDR in *.
  revert i. induction n as [|n IH]; intros i I L; [done|]. cbn [interp_loop]. unfold PHDR. rewrite u64_small by lia. cbv zeta.
  rewrite (proj2 (Z.ltb_ge (zlen s) _)) by lia. case_bool; [done|]. apply IH; lia.
Qed.

(** A header with the given offset, entry size and count. *)
Definition crafted (phoff phentsize phnum : Z) (rest : nat) : list Z :=
  ELFMAG ++ [2; 1; 1; 0] ++ zeros 8 ++ le 2 2 ++ le 2 62 ++ le 4 1 ++ le 8 0 ++ le 8 phoff ++ le 8 0 ++ le 4 0 ++
  le 2 EHDR ++ le 2 phentsize ++ le 2 phnum ++ le 2 64 ++ le 2 0 ++ le 2 0 ++ replicate rest 0.

(** C16: the two readers of program headers can be led outside the file.
    [vmlinux_elf_size] checks each header with the size of [Elf64_Phdr] but
    steps by the file's [e_phentsize], and neither it nor
    [elf_needs_interp] notices when [e_phoff] makes the sum wrap around: on
    such files, of the right magic and long enough for the header, each
    reads a program header outside the buffer.  When [e_phentsize] is the
    right size and the table lies in the file, neither does. *)
Theorem elf_readers_bounds :
  (exists elf, bytes elf /\ is_elf64 elf = true /\ e_phoff elf + e_phnum elf * PHDR <= zlen elf /\ vmlinux_elf_size elf = None) /\
  (exists elf, bytes elf /\ is_elf64 elf = true /\ e_phentsize elf = PHDR /\ vmlinux_elf_size elf = None /\ elf_needs_interp elf = None) /\
  (forall elf, bytes elf -> zlen elf < 2 ^ 63 -> e_phentsize elf = PHDR -> e_phoff elf + e_phnum elf * PHDR <= zlen elf ->
     vmlinux_elf_size elf <> None /\ elf_needs_interp elf <> None).
Proof.
  split; [|split].
  - exists (crafted 64 65535 2 112). split; [by apply bytes_check; vm_compute|]. split; [by vm_compute|]. split; [by vm_compute|by vm_compute].
  - exists (crafted (two64 - 56) 56 1 0). split; [by apply bytes_check; vm_compute|]. by vm_compute.
  - intros elf B L E P. pose proof (le_at_range 56 2 elf B) as Rn. fold (e_phnum elf) in Rn.
    assert (Pn : e_phoff elf + (0 + Z.of_nat (Z.to_nat (e_phnum elf))) * PHDR <= zlen elf) by (rewrite Z2Nat.id; lia). split.
    + unfold vmlinux_elf_size. destruct (is_elf64 elf); [|done]. cbn [negb]. cbv zeta. apply elf_size_loop_in; (done || lia).
    + unfold elf_needs_interp. destruct (_ || _ || _); [done|]. pose proof (interp_loop_in elf (Z.to_nat (e_phnum elf)) 0 B L ltac:(lia) Pn) as Q.
      by destruct (interp_loop _ _ _).
Qed.

(** A bzImage with a gzip payload, and a tool that writes a small ELF file
    with a segment, followed by relocations. *)
Definition demo_elf : list Z :=
  ELFMAG ++ [2; 1; 1; 0] ++ zeros 8 ++ le 2 2 ++ le 2 62 ++ le 4 1 ++ le 8 0 ++ le 8 64 ++ le 8 0 ++ le 4 0 ++
  le 2 EHDR ++ le 2 PHDR ++ le 2 1 ++ le 2 64 ++ le 2 0 ++ le 2 0 ++ phdr_bytes (mk_phdr PT_LOAD 7 120 0 0 8 8 1) ++ [1; 2; 3; 4; 5; 6; 7; 8].
Definition demo_bzimage : list Z :=
  replicate (Z.to_nat BZ_SETUP_SECTS) 0 ++ [1] ++ replicate 16 0 ++ str "HdrS" ++ le 2 0x20f ++ replicate 64 0 ++ le 4 0 ++ le 4 5 ++ replicate 432 0 ++ [0x1f; 0x8b; 9; 9; 9; 7].
Definition demo_vmlinux_env : vmlinux_env := {|
  ve_payload_file := Ok tt; ve_writes := [WriteCount 2; WriteCount 1]; ve_output_file := Ok tt; ve_fork := Ok tt; ve_run _ _ := Ok (Some 2, demo_elf ++ [0xaa; 0xbb]); ve_truncate := Ok tt; ve_open _ := Ok tt |}.
Definition demo_vmlinux_files : Files := {| file_read _ := Ok demo_bzimage; dir_list _ := Err ENOENT |}.

Lemma vmlinux_open_extracts_witness :
  vmlinux_open (H := demo_vmlinux_files) demo_vmlinux_env (str "/boot/vmlinuz") = Some (Ok demo_elf).
Proof.
  destruct (vmlinux_open_extracts (H := demo_vmlinux_files) demo_vmlinux_env (str "/boot/vmlinuz") demo_bzimage 1024 5 (str "gzip") 2 (demo_elf ++ [0xaa; 0xbb])
    ltac:(vm_compute; reflexivity) ltac:(vm_compute; reflexivity) ltac:(vm_compute; reflexivity) eq_refl ltac:(by repeat constructor) eq_refl eq_refl eq_refl eq_refl ltac:(discriminate)) as [E _].
  - constructor; [|vm_compute; reflexivity|vm_compute; reflexivity|vm_compute; reflexivity|vm_compute; discriminate|vm_compute; reflexivity|].
    + apply bytes_check. vm_compute. reflexivity.
    + replace (elf_phdrs _) with [mk_phdr PT_LOAD 7 120 0 0 8 8 1] by (vm_compute; reflexivity). apply Forall_cons. split; [reflexivity|by apply Forall_nil].
  - vm_compute. discriminate.
  - etrans; [exact E|]. vm_compute. reflexivity.
Defined.
