(* ===== verification/Image.v ===== *)
(** * kmorph/image.c: building the successor's image

    The archive with the daemon as [/init] and the console's login program,
    and writing it where the next arming finds it. *)

From S2P Require Import Prelude Cstr Config Files Fdt HostTree Elfcore Cpio Vmlinux.

Definition ENAMETOOLONG : Z := 36.
Definition MODE_EXEC : Z := 0x1ed.

Section Build.
Context `{Alloc} `{Files}.

(** [None] when [elf_needs_interp] reads outside the file. *)
Definition add_static (c : cpio) (source dest : list Z) : option (result unit * cpio) :=
  match file_read source with
  | Err e => Some (Err e, c)
  | Ok elf =>
      match elf_needs_interp elf with
      | None => None
      | Some (Ok false) => Some (cpio_add_file c dest elf MODE_EXEC)
      | Some _ => Some (Err EINVAL, c)
      end
  end.

Definition image_build (cfg : kmorph_config) (kmorphd_path : list Z) : option (result unit * cpio) :=
  let login := default [] (c_console_login cfg) in
  match add_static CPIO_INIT kmorphd_path (str "init") with
  | Some (Ok _, c) =>
      match c_console cfg with
      | Some _ =>
          match add_static c login login with
          | Some (Ok _, c) => Some (cpio_finish c)
          | r => r
          end
      | None => Some (cpio_finish c)
      end
  | r => r
  end.

End Build.

(** ** Writing it *)

Inductive image_action : Type :=
| IMkdir (path : list Z) (ret : result unit)
| IWrite (path data : list Z) (ret : result unit)
| IRename (from to : list Z) (ret : result unit)
| IUnlink (path : list Z).

(** What the calls answer after those before; [mkdir] of a directory that
    exists counts as done. *)
Record image_env : Type := {
  ie_mkdir : list image_action -> list Z -> result unit;
  ie_write : list image_action -> list Z -> list Z -> result unit;
  ie_rename : list image_action -> list Z -> list Z -> result unit }.

(** What stands before each slash of [rest]. *)
Fixpoint slash_prefixes (before rest : list Z) : list (list Z) :=
  match rest with
  | [] => []
  | c :: rest => (if c =? ch "/" then [before] else []) ++ slash_prefixes (before ++ [c]) rest
  end.

Section Write.
Context (env : image_env).

Fixpoint mkdir_each (dirs : list (list Z)) (t : list image_action) : result unit * list image_action :=
  match dirs with
  | [] => (Ok tt, t)
  | d :: dirs =>
      let r := ie_mkdir env t d in
      let t := t ++ [IMkdir d r] in
      match r with Err e => (Err e, t) | Ok _ => mkdir_each dirs t end
  end.

Definition mkdir_parents (path : list Z) (t : list image_action) : result unit * list image_action :=
  if PATH_MAX <=? zlen path then (Err ENAMETOOLONG, t) else mkdir_each (slash_prefixes (take 1 path) (drop 1 path)) t.

Definition image_write (c : cpio) (path : list Z) (t : list image_action) : result unit * list image_action :=
  match mkdir_parents path t with
  | (Err e, t) => (Err e, t)
  | (Ok _, t) =>
      let tmp := path ++ str ".tmp" in
      if PATH_MAX <=? zlen tmp then (Err ENAMETOOLONG, t) else
      let r := ie_write env t tmp (cp_data c) in
      let t := t ++ [IWrite tmp (cp_data c) r] in
      let '(r, t) := match r with
                     | Ok _ => let r := ie_rename env t tmp path in (r, t ++ [IRename tmp path r])
                     | Err e => (Err e, t)
                     end in
      match r with Ok _ => (Ok tt, t) | Err e => (Err e, t ++ [IUnlink tmp]) end
  end.

(** ** kmorph/arm.c: an image older than what it was built from *)

Section Stale.
Context `{Files} (stat lstat : list Z -> option Z).

(** The lines [strtok_r] gives: the first that changed after [built]. *)
Fixpoint stale_line (fuel : nat) (built : Z) (p : list Z) : option (list Z) :=
  match fuel with
  | O => None
  | S fuel =>
      match skip_nl p with
      | [] => None
      | p =>
          let '(line, next) := split_at 10 p in
          if match lstat line with Some t => built <? t | None => false end then Some line
          else stale_line fuel built (match next with Some n => drop 1 n | None => [] end)
      end
  end.

Definition arm_stale_source (image : list Z) (len : Z) : option (list Z) :=
  if PATH_MAX <=? zlen (image ++ str ".files") then None else
  match stat image, file_read_string (image ++ str ".files") with
  | Some built, Ok text => snprintf [] len <$> stale_line (S (length text)) built text
  | _, _ => None
  end.

(** The paths of a manifest, one to a line. *)
Fixpoint manifest (l : list (list Z)) : list Z := match l with [] => [] | x :: l => x ++ 10 :: manifest l end.

(** The first path of the manifest that changed since, if any did. *)
Lemma stale_line_first fuel built l :
  Forall (fun x => x <> [] /\ 10 ∉ x) l -> (length (manifest l) < fuel)%nat ->
  stale_line fuel built (manifest l) = List.find (fun x => match lstat x with Some t => built <? t | None => false end) l.
Proof.
  intros F. revert fuel. induction F as [|x l [N1 N2] F IH]; intros fuel L; (destruct fuel as [|fuel]; [lia|]); [done|].
  cbn [stale_line manifest List.find]. destruct x as [|c x]; [done|]. assert (c <> 10) by (intros ->; apply N2; by left).
  assert (E : skip_nl ((c :: x) ++ 10 :: manifest l) = (c :: x) ++ 10 :: manifest l) by (cbn; by rewrite (proj2 (Z.eqb_neq c 10))).
  rewrite E. change ((c :: x) ++ 10 :: manifest l) with (c :: x ++ 10 :: manifest l). cbv iota. rewrite (split_at_some 10 (c :: x) (manifest l) N2 : split_at 10 (c :: x ++ 10 :: manifest l) = _).
  destruct (match lstat (c :: x) with Some _ => _ | None => _ end); [done|]. rewrite skipn_cons, drop_0. apply IH.
  cbn [manifest] in L. rewrite length_app in L. cbn in L. lia.
Qed.

End Stale.

(** ** Properties *)

Definition is_mkdir (a : image_action) : Prop := match a with IMkdir _ _ => True | _ => False end.

(** The ways [image_write] can end. *)
Inductive written_image (data path : list Z) : result unit -> list image_action -> Prop :=
| wi_nothing e pre : Forall is_mkdir pre -> written_image data path (Err e) pre
| wi_undone e pre r : Forall is_mkdir pre -> r = [] \/ r = [IRename (path ++ str ".tmp") path (Err e)] ->
    written_image data path (Err e) (pre ++ [IWrite (path ++ str ".tmp") data (match r with [] => Err e | _ => Ok tt end)] ++ r ++ [IUnlink (path ++ str ".tmp")])
| wi_done pre : Forall is_mkdir pre ->
    written_image data path (Ok tt) (pre ++ [IWrite (path ++ str ".tmp") data (Ok tt); IRename (path ++ str ".tmp") path (Ok tt)]).

Lemma mkdir_each_shape dirs t : exists new, (mkdir_each dirs t).2 = t ++ new /\ Forall is_mkdir new.
Proof.
  revert t. induction dirs as [|d dirs IH]; intros t; cbn [mkdir_each]; [exists []; by rewrite app_nil_r|]. cbv zeta.
  destruct (ie_mkdir env t d) as [[]|e].
  - destruct (IH (t ++ [IMkdir d (Ok tt)])) as (new & E & F). exists (IMkdir d (Ok tt) :: new). rewrite E, <- app_assoc. split; [done|by constructor].
  - exists [IMkdir d (Err e)]. split; [done|by repeat constructor].
Qed.

(** C14: the image is replaced whole or not at all.  [image_write] touches the
    image's own path only by renaming over it a file it had written whole;
    when anything fails it returns the error without renaming, and removes
    the temporary file if it had got as far as writing it. *)
Theorem image_write_atomic c path t :
  let '(ret, t') := image_write c path t in exists new, t' = t ++ new /\ written_image (cp_data c) path ret new.
Proof.
  unfold image_write. assert (M : exists new, (mkdir_parents path t).2 = t ++ new /\ Forall is_mkdir new).
  { unfold mkdir_parents. case_bool; [exists []; by rewrite app_nil_r|apply mkdir_each_shape]. }
  destruct (mkdir_parents path t) as [[[]|e] t1]; destruct M as (pre & E & F); cbn [snd] in E; subst t1; [|exists pre; split; [done|by constructor]].
  cbv zeta. case_bool; [exists pre; split; [done|by constructor]|].
  destruct (ie_write env _ _ _) as [[]|e]; [destruct (ie_rename env _ _ _) as [[]|e]|].
  - eexists. split; [|by apply (wi_done _ _ pre)]. by rewrite <- !app_assoc.
  - eexists. split; [|apply (wi_undone _ _ e pre [IRename (path ++ str ".tmp") path (Err e)]); [done|by right]]. by rewrite <- !app_assoc.
  - eexists. split; [|apply (wi_undone _ _ e pre []); [done|by left]]. by rewrite <- !app_assoc.
Qed.

End Write.

(** ** What the image holds *)

(** A program without an interpreter. *)
Definition static (elf : list Z) : Prop := elf_needs_interp elf = Some (Ok false).

(** The files of the image: the daemon, and the login program of a console. *)
Definition image_files (cfg : kmorph_config) (kmorphd login : list Z) : list cfile :=
  mk_cfile (str "init") kmorphd MODE_EXEC ::
  match c_console cfg with Some _ => [mk_cfile (default [] (c_console_login cfg)) login MODE_EXEC] | None => [] end.

(** C13: the image boots the daemon.  When the daemon and, with a console, the
    login program are static ELF files, [image_build] makes an archive from
    which the kernel unpacks exactly [/init] with the daemon's bytes and the
    login program under its own path, executable, with the directories above
    it; a daemon that needs an interpreter, which the image would not have,
    is refused. *)
Theorem image_boots `{AllocOk} `{Files} cfg kmorphd_path kmorphd login :
  file_read kmorphd_path = Ok kmorphd ->
  (is_Some (c_console cfg) -> file_read (default [] (c_console_login cfg)) = Ok login /\ static login) ->
  Forall cfile_ok (image_files cfg kmorphd login) -> weights (concat (map file_entries (image_files cfg kmorphd login))) <= 2 ^ 60 - 200 ->
  zlen (concat (map file_entries (image_files cfg kmorphd login))) < 2 ^ 31 - 1 ->
  (static kmorphd -> exists c l, image_build cfg kmorphd_path = Some (Ok tt, c) /\ unpack (S (length l)) (cp_data c) = Some l /\
     map ident l = concat (map file_entries (image_files cfg kmorphd login))) /\
  (elf_needs_interp kmorphd = Some (Ok true) -> image_build cfg kmorphd_path = Some (Err EINVAL, CPIO_INIT)).
Proof.
  intros Rk Rl F W N. split; [|intros I; unfold image_build, add_static; by rewrite Rk, I].
  intros Sk. destruct (archive_unpacks (image_files cfg kmorphd login) F N W) as (c & l & A & U & M & _).
  exists c, l. split; [|done]. unfold archive, image_files in A. cbn [add_files cf_path cf_data cf_mode] in A.
  unfold image_build, add_static. unfold static in Sk. rewrite Rk, Sk.
  destruct (cpio_add_file CPIO_INIT _ _ _) as [[[]|e] c1]; [|discriminate]. destruct (c_console cfg) as [tty|].
  - destruct Rl as [Rl Sl]; [done|]. unfold static in Sl. cbv zeta. rewrite Rl, Sl. cbn [add_files cf_path cf_data cf_mode] in A.
    destruct (cpio_add_file c1 _ _ _) as [[[]|e] c2]; [|discriminate]. by rewrite A.
  - cbn [add_files] in A. by rewrite A.
Qed.

(** A daemon that is a header and one loaded segment. *)
Definition demo_static_files : Files := {| file_read _ := Ok demo_elf; dir_list _ := Err ENOENT |}.
Definition demo_image_config : kmorph_config := with_console_login (Some (str "/bin/login")) (with_console (Some (str "ttyS0")) config_zero).

Lemma image_boots_witness :
  exists c l, image_build (H := alloc_always) (H0 := demo_static_files) demo_image_config (str "/usr/sbin/kmorphd") = Some (Ok tt, c) /\
    unpack (S (length l)) (cp_data c) = Some l /\ map ident l = concat (map file_entries (image_files demo_image_config demo_elf demo_elf)).
Proof.
  apply (image_boots (H := alloc_always) (H1 := demo_static_files) demo_image_config (str "/usr/sbin/kmorphd") demo_elf demo_elf);
    [reflexivity|split; [reflexivity|vm_compute; reflexivity]| | |vm_compute; reflexivity|vm_compute; reflexivity].
  - repeat (apply Forall_cons; split; [apply cfile_okb_ok; vm_compute; reflexivity|]). by apply Forall_nil.
  - vm_compute. discriminate.
Defined.
