(* ===== verification/Standby.v ===== *)
(** * kmorphd/standby.c and kmorphd/init.c: the successor's root

    The mounts an init does first, and moving into the standby image: its
    root under a writable layer, the pseudo filesystems moved into it, and
    everything put back when it cannot become the root. *)

From stdpp Require Import gmap.
From S2P Require Import Prelude Cstr Netsnap Files Fdt.
#[local] Open Scope Z_scope.

Definition MS_RDONLY : Z := 1.
Definition MS_NOSUID : Z := 2.
Definition MS_NODEV : Z := 4.
Definition MS_NOEXEC : Z := 8.
Definition MS_MOVE : Z := 8192.

Definition STANDBY_IMAGE : list Z := str "/standby.erofs".
Definition STANDBY_ROOT : list Z := str "/standby".
Definition STANDBY_LAYERS : list Z := str "/run/kmorph/root".
Definition STANDBY_INIT : list Z := str "/sbin/init".
Definition STANDBY_CONFIG : list Z := str "/run/kmorph/kmorph.conf".
Definition NETWORK_FILE : list Z := str "/etc/kmorph/network".

(** The calls, with what they returned. *)
Inductive scall : Type :=
| SMount (src target : list Z) (type : option (list Z)) (flags : Z) (data : option (list Z)) (ret : result unit)
| SUmount (target : list Z) (ret : result unit)
| SMkdir (path : list Z) (ret : result unit)
| SCopy (from to : list Z) (ret : result unit)
| SChdir (path : list Z) (ret : result unit)
| SChroot (path : list Z) (ret : result unit)
| SWrite (path text : list Z) (ret : result unit)
| SFork (ret : result Z)
| SExec (path : list Z) (errno : Z)
| SIdle.

Definition calls : Type := list scall.

(** [struct standby_env]; [exec] only returns with an error. *)
Record standby_env : Type := {
  sb_mount : calls -> list Z -> list Z -> option (list Z) -> Z -> option (list Z) -> result unit;
  sb_umount : calls -> list Z -> result unit;
  sb_mkdir : calls -> list Z -> result unit;
  sb_copy : calls -> list Z -> list Z -> result unit;
  sb_chdir : calls -> list Z -> result unit;
  sb_chroot : calls -> list Z -> result unit;
  sb_write : calls -> list Z -> list Z -> result unit;
  sb_fork : calls -> result Z;
  sb_exec : calls -> list Z -> Z }.

Section Standby.
Context (env : standby_env).

Definition do_mount (src target : list Z) (type : option (list Z)) (flags : Z) (data : option (list Z)) (t : calls) : result unit * calls :=
  let r := sb_mount env t src target type flags data in (r, t ++ [SMount src target type flags data r]).
Definition do_umount (target : list Z) (t : calls) : calls := t ++ [SUmount target (sb_umount env t target)].
Definition do_mkdir (path : list Z) (t : calls) : result unit * calls := let r := sb_mkdir env t path in (r, t ++ [SMkdir path r]).
Definition do_copy (from to : list Z) (t : calls) : result unit * calls := let r := sb_copy env t from to in (r, t ++ [SCopy from to r]).
Definition do_chdir (path : list Z) (t : calls) : result unit * calls := let r := sb_chdir env t path in (r, t ++ [SChdir path r]).
Definition do_chroot (path : list Z) (t : calls) : result unit * calls := let r := sb_chroot env t path in (r, t ++ [SChroot path r]).
Definition do_write (path text : list Z) (t : calls) : calls := t ++ [SWrite path text (sb_write env t path text)].

Definition pseudo_fs : list (list Z) := [str "/proc"; str "/sys"; str "/dev"; str "/run"].

Definition moved_path (fs : list Z) : list Z := snprintf [] 64 (STANDBY_ROOT ++ fs).

(** Those of [moved], the last first. *)
Fixpoint back_each (moved : list (list Z)) (t : calls) : calls :=
  match moved with
  | [] => t
  | fs :: moved => back_each moved (do_mount (moved_path fs) fs None MS_MOVE None t).2
  end.
Definition move_back (moved : list (list Z)) (t : calls) : calls := back_each (rev moved) t.

Fixpoint move_loop (moved rest : list (list Z)) (t : calls) : result unit * calls :=
  match rest with
  | [] => (Ok tt, t)
  | fs :: rest =>
      match do_mount fs (moved_path fs) None MS_MOVE None t with
      | (Err e, t) => (Err e, move_back moved t)
      | (Ok _, t) => move_loop (moved ++ [fs]) rest t
      end
  end.
Definition move_pseudo_fs (t : calls) : result unit * calls := move_loop [] pseudo_fs t.

Definition DOT : list Z := str ".".
Definition ROOT : list Z := str "/".

Definition make_root (t : calls) : result unit * calls :=
  let '(ret, t) := do_chdir STANDBY_ROOT t in
  let '(ret, t) := match ret with Ok _ => do_mount DOT ROOT None MS_MOVE None t | Err e => (Err e, t) end in
  match ret with
  | Err e => let '(_, t) := do_chdir ROOT t in (Err e, t)
  | Ok _ =>
      let '(ret, t) := do_chroot DOT t in
      match ret with Ok _ => do_chdir ROOT t | Err e => (Err e, t) end
  end.

Definition layer_dirs : list (list Z) :=
  [str "/run/kmorph"; STANDBY_LAYERS; STANDBY_LAYERS ++ str "/image"; STANDBY_LAYERS ++ str "/upper"; STANDBY_LAYERS ++ str "/work"; STANDBY_ROOT].
Definition LAYER_IMAGE : list Z := STANDBY_LAYERS ++ str "/image".
Definition OVERLAY_DATA : list Z :=
  str "lowerdir=" ++ STANDBY_LAYERS ++ str "/image,upperdir=" ++ STANDBY_LAYERS ++ str "/upper,workdir=" ++ STANDBY_LAYERS ++ str "/work".

Fixpoint mkdir_layers (dirs : list (list Z)) (t : calls) : result unit * calls :=
  match dirs with
  | [] => (Ok tt, t)
  | d :: dirs => match do_mkdir d t with (Err e, t) => (Err e, t) | (Ok _, t) => mkdir_layers dirs t end
  end.

Definition mount_root (t : calls) : result unit * calls :=
  match mkdir_layers layer_dirs t with
  | (Err e, t) => (Err e, t)
  | (Ok _, t) =>
      match do_mount STANDBY_IMAGE LAYER_IMAGE (Some (str "erofs")) MS_RDONLY None t with
      | (Err e, t) => (Err e, t)
      | (Ok _, t) =>
          match do_mount (str "overlay") STANDBY_ROOT (Some (str "overlay")) 0 (Some OVERLAY_DATA) t with
          | (Err e, t) => (Err e, do_umount LAYER_IMAGE t)
          | (Ok _, t) => (Ok tt, t)
          end
      end
  end.

Definition allow_nonlocal_bind (t : calls) : calls :=
  do_write (str "/proc/sys/net/ipv6/ip_nonlocal_bind") (str "1") (do_write (str "/proc/sys/net/ipv4/ip_nonlocal_bind") (str "1") t).

(** The labels at the end of [standby_enter]. *)
Definition unmount_all (t : calls) : calls := do_umount LAYER_IMAGE (do_umount STANDBY_ROOT t).

(** [Ok 0] in the child, [Ok 1] when the fork failed. *)
Definition standby_enter (config_path : list Z) (t : calls) : result Z * calls :=
  match mount_root t with
  | (Err e, t) => (Err e, t)
  | (Ok _, t) =>
      match do_copy config_path STANDBY_CONFIG t with
      | (Err e, t) => (Err e, unmount_all t)
      | (Ok _, t) =>
          let '(_, t) := do_copy NETWORK_FILE STANDBY_NETWORK t in
          match move_pseudo_fs t with
          | (Err e, t) => (Err e, unmount_all t)
          | (Ok _, t) =>
              match make_root t with
              | (Err e, t) => (Err e, unmount_all (move_back pseudo_fs t))
              | (Ok _, t) =>
                  let t := allow_nonlocal_bind t in
                  let pid := sb_fork env t in
                  let t := t ++ [SFork pid] in
                  match pid with
                  | Err _ => (Ok 1, t)
                  | Ok pid =>
                      if pid =? 0 then (Ok 0, t) else
                      let e := sb_exec env t STANDBY_INIT in (Err e, t ++ [SExec STANDBY_INIT e; SIdle])
                  end
              end
          end
      end
  end.

End Standby.

(** ** kmorphd/init.c *)

(** Type, target, flags and data. *)
Definition init_fs : list (list Z * list Z * Z * option (list Z)) :=
  [(str "proc", str "/proc", Z.lor (Z.lor MS_NOSUID MS_NODEV) MS_NOEXEC, None);
   (str "sysfs", str "/sys", Z.lor (Z.lor MS_NOSUID MS_NODEV) MS_NOEXEC, None);
   (str "devtmpfs", str "/dev", MS_NOSUID, None);
   (str "tmpfs", str "/run", Z.lor MS_NOSUID MS_NODEV, Some (str "mode=755"))].

(** 0 is no error yet. *)
Fixpoint init_mounts (env : standby_env) (fs : list (list Z * list Z * Z * option (list Z))) (first : Z) (t : calls) : Z * calls :=
  match fs with
  | [] => (first, t)
  | (type, target, flags, data) :: fs =>
      let '(ret, t) := do_mkdir env target t in
      let '(ret, t) := match ret with Ok _ => do_mount env type target (Some type) flags data t | Err e => (Err e, t) end in
      init_mounts env fs (match ret with Err e => if first =? 0 then e else first | Ok _ => first end) t
  end.
Definition init_mount_filesystems (env : standby_env) (t : calls) : Z * calls := init_mounts env init_fs 0 t.

(** [waitpid(-1, NULL, WNOHANG)] with the children that have exited and
    whether others live. *)
Definition waitpid_any (exited : list Z) (living : bool) : Z * list Z :=
  match exited with
  | pid :: exited => (pid, exited)
  | [] => (if living then 0 else -1, [])
  end.
Fixpoint reap_loop (fuel : nat) (exited : list Z) (living : bool) : option (list Z) :=
  match fuel with
  | O => None
  | S fuel => let '(ret, exited) := waitpid_any exited living in if 0 <? ret then reap_loop fuel exited living else Some exited
  end.
(** The children left to wait for. *)
Definition init_reap (exited : list Z) (living : bool) : option (list Z) := reap_loop (S (length exited)) exited living.

(** One signal for many children leaves none behind. *)
Lemma init_reap_all exited living : Forall (fun pid => 0 < pid) exited -> init_reap exited living = Some [].
Proof.
  unfold init_reap. induction 1 as [|pid exited P _ IH]; [by destruct living|]. cbn [length reap_loop waitpid_any] in *.
  rewrite (proj2 (Z.ltb_lt _ _) P). exact IH.
Qed.

Definition call_error (c : scall) : option Z :=
  match c with SMkdir _ (Err e) | SMount _ _ _ _ _ (Err e) => Some e | _ => None end.
Definition made (c : scall) : option (list Z) := match c with SMkdir d _ => Some d | _ => None end.

(** Every filesystem is tried, whatever failed before it, and the first error
    is the one returned. *)
Lemma init_mounts_all env fs first t :
  (forall t d e, sb_mkdir env t d = Err e -> e <> 0) -> (forall t s d ty fl da e, sb_mount env t s d ty fl da = Err e -> e <> 0) ->
  exists new, (init_mounts env fs first t).2 = t ++ new /\ omap made new = map (fun x => x.1.1.2) fs /\
    (init_mounts env fs first t).1 = if first =? 0 then default 0 (head (omap call_error new)) else first.
Proof.
  intros Hd Hm. revert first t. induction fs as [|[[[type target] flags] data] fs IH]; intros first t; cbn [init_mounts].
  { exists []. rewrite app_nil_r. split; [done|]. split; [done|]. cbn. destruct (first =? 0) eqn:F; [by apply Z.eqb_eq in F|done]. }
  unfold do_mkdir, do_mount. destruct (sb_mkdir env t target) as [[]|e] eqn:D;
    [destruct (sb_mount env _ type target _ flags data) as [[]|e] eqn:M|]; cbn zeta; (edestruct IH as (new & -> & A & ->); eexists; rewrite <- !app_assoc; split; [done|];
      split; [cbn; by rewrite A|]); cbn [omap list_omap call_error app head default]; [done| |]; destruct (first =? 0) eqn:F; cbn; try done; rewrite ?F; try done;
    by rewrite (proj2 (Z.eqb_neq _ _)) by eauto.
Qed.

(** ** Mounts put back *)

(** What is mounted where, after a call: [move] takes a mount to another
    place, [umount] removes it. *)
Abbreviation table := (gmap (list Z) (list Z)).
Definition mounts_step (T : table) (c : scall) : table :=
  match c with
  | SMount src target _ flags _ (Ok _) =>
      if flags =? MS_MOVE then match T !! src with Some x => <[target := x]> (delete src T) | None => T end
      else <[target := src]> T
  | SUmount target (Ok _) => delete target T
  | _ => T
  end.
Definition mounts (T : table) (cs : calls) : table := foldl mounts_step T cs.

(** The calls leave every mount where it was. *)
Definition undone (T : table) (cs : calls) : Prop := mounts T cs = T.

Lemma mounts_app T a b : mounts T (a ++ b) = mounts (mounts T a) b.
Proof. apply foldl_app. Qed.

Lemma undone_app T a b : undone T a -> undone T b -> undone T (a ++ b).
Proof. unfold undone. intros A B. by rewrite mounts_app, A. Qed.

Lemma undone_nil T : undone T [].
Proof. done. Qed.

(** A call that mounts nothing. *)
Definition neutral (c : scall) : Prop := match c with SMount _ _ _ _ _ (Ok _) | SUmount _ (Ok _) => False | _ => True end.

Lemma undone_neutral T l : Forall neutral l -> undone T l.
Proof.
  unfold undone. intros F. induction F as [|c l N F IH]; [done|]. cbn. replace (mounts_step T c) with T; [done|].
  destruct c as [? ? ? ? ? []|? []| | | | | | | |]; done.
Qed.

Definition mv (fs : list Z) : scall := SMount fs (moved_path fs) None MS_MOVE None (Ok tt).
Definition back (fs : list Z) : scall := SMount (moved_path fs) fs None MS_MOVE None (Ok tt).

Lemma undone_move T fs mid x :
  T !! fs = Some x -> T !! moved_path fs = None -> undone (mounts_step T (mv fs)) mid -> undone T (mv fs :: mid ++ [back fs]).
Proof.
  unfold undone. intros A B M. change (mounts T (mv fs :: mid ++ [back fs])) with (mounts (mounts_step T (mv fs)) (mid ++ [back fs])).
  rewrite mounts_app, M. assert (E : mounts_step T (mv fs) = <[moved_path fs := x]> (delete fs T)) by (unfold mv, mounts_step; by rewrite Z.eqb_refl, A).
  rewrite E. change (mounts_step (<[moved_path fs := x]> (delete fs T)) (back fs) = T). unfold back, mounts_step. rewrite Z.eqb_refl, lookup_insert_eq.
  rewrite delete_insert_id by (rewrite lookup_delete_ne by congruence; done). by apply insert_delete_id.
Qed.

Lemma undone_mount T src target type flags data mid :
  flags <> MS_MOVE -> T !! target = None -> undone (<[target := src]> T) mid ->
  undone T (SMount src target type flags data (Ok tt) :: mid ++ [SUmount target (Ok tt)]).
Proof.
  unfold undone. intros F N M. cbn [mounts foldl mounts_step]. rewrite (proj2 (Z.eqb_neq _ _) F). change (foldl mounts_step) with mounts.
  rewrite mounts_app, M. by apply delete_insert_id.
Qed.

(** Each filesystem is mounted and its place in the image is free, when its
    turn comes. *)
Fixpoint ready (T : table) (l : list (list Z)) : Prop :=
  match l with
  | [] => True
  | fs :: l => is_Some (T !! fs) /\ T !! moved_path fs = None /\ ready (mounts_step T (mv fs)) l
  end.

Lemma ready_app T a b : ready T (a ++ b) -> ready T a.
Proof. revert T. induction a as [|fs a IH]; intros T; [done|]. cbn. intros (S & N & R). split; [done|]. split; [done|]. by apply IH. Qed.

Lemma ready_all T l :
  NoDup l -> NoDup (map moved_path l) -> (forall x y, x ∈ l -> y ∈ l -> moved_path x <> y) ->
  Forall (fun fs => is_Some (T !! fs) /\ T !! moved_path fs = None) l -> ready T l.
Proof.
  revert T. induction l as [|fs l IH]; intros T Nl Nm D F; [done|]. apply NoDup_cons in Nl as [Nf Nl]. apply NoDup_cons in Nm as [Nfm Nm].
  apply Forall_cons in F as [[S N] F]. cbn [ready]. split; [done|]. split; [done|]. apply IH; [done|done| |].
  { intros x y X Y. apply D; by right. }
  destruct S as [v S]. unfold mv, mounts_step. rewrite Z.eqb_refl, S. rewrite Forall_forall in *. intros y Y. destruct (F y Y) as [[w W] Ny].
  assert (y <> fs) by congruence. assert (moved_path fs <> y) by (apply D; [by left|by right]).
  assert (moved_path fs <> moved_path y) by (intros E; apply Nfm; rewrite E; apply list_elem_of_fmap; by exists y).
  assert (fs <> moved_path y) by (intros E; apply (D y fs); [by right|by left|done]).
  rewrite !lookup_insert_ne, !lookup_delete_ne by done. split; [by exists w|done].
Qed.

Lemma undone_moves T l mid :
  ready T l -> undone (mounts T (map mv l)) mid -> undone T (map mv l ++ mid ++ map back (rev l)).
Proof.
  revert T. induction l as [|fs l IH]; intros T; cbn [map rev app ready]; [intros _ M; by rewrite app_nil_r|]. intros ([x S] & N & R) M.
  rewrite map_app. cbn [map]. rewrite (app_assoc mid), (app_assoc (map mv l)). apply (undone_move T fs _ x); [done|done|]. by apply IH.
Qed.

(** The calls that put things back returned 0. *)
Definition undo_ok (c : scall) : Prop :=
  match c with
  | SUmount _ r => r = Ok tt
  | SMount src _ _ flags _ r => flags = MS_MOVE -> src ∈ map moved_path pseudo_fs -> r = Ok tt
  | _ => True
  end.

(** The image was moved onto the root directory. *)
Definition became_root (cs : calls) : Prop := SMount DOT ROOT None MS_MOVE None (Ok tt) ∈ cs.

Section PutBack.
Context (env : standby_env).

Lemma back_each_new l t :
  (forall fs, fs ∈ l -> fs ∈ pseudo_fs) -> exists new, back_each env l t = t ++ new /\ (Forall undo_ok new -> new = map back l).
Proof.
  revert t. induction l as [|fs l IH]; intros t I; cbn [back_each]; [exists []; by rewrite app_nil_r|]. unfold do_mount. cbn [snd].
  set (r := sb_mount env t _ _ _ _ _). destruct (IH (t ++ [SMount (moved_path fs) fs None MS_MOVE None r])) as (new & E & U); [intros x X; apply I; by right|].
  rewrite E. eexists. rewrite <- app_assoc. split; [done|]. intros F. apply Forall_app in F as [F Fn]. apply Forall_cons in F as [F _].
  rewrite (U Fn). cbn. unfold back. rewrite F; [done|done|]. apply list_elem_of_fmap. exists fs. split; [done|]. apply I. by left.
Qed.

Lemma move_back_new l t :
  (forall fs, fs ∈ l -> fs ∈ pseudo_fs) -> exists new, move_back env l t = t ++ new /\ (Forall undo_ok new -> new = map back (rev l)).
Proof. intros I. apply back_each_new. intros fs F. apply I. apply list_elem_of_In, in_rev. by apply list_elem_of_In. Qed.

Lemma move_loop_new dn rest t :
  dn ++ rest = pseudo_fs ->
  let '(ret, t') := move_loop env dn rest t in
  exists new, t' = t ++ new /\
    match ret with
    | Ok _ => new = map mv rest
    | Err e => Forall undo_ok new -> exists a fs b, rest = a ++ fs :: b /\
        new = map mv a ++ [SMount fs (moved_path fs) None MS_MOVE None (Err e)] ++ map back (rev (dn ++ a))
    end.
Proof.
  revert dn t. induction rest as [|fs rest IH]; intros dn t E; cbn [move_loop]; [exists []; by rewrite app_nil_r|]. unfold do_mount.
  destruct (sb_mount env t _ _ _ _ _) as [[]|e].
  - specialize (IH (dn ++ [fs]) (t ++ [mv fs])). rewrite <- app_assoc in IH. specialize (IH E). change (SMount fs _ _ _ _ (Ok tt)) with (mv fs).
    destruct (move_loop env _ _ _) as [[[]|e] t']; destruct IH as (new & -> & N).
    + exists (mv fs :: new). rewrite <- app_assoc. split; [done|]. by rewrite N.
    + exists (mv fs :: new). rewrite <- app_assoc. split; [done|]. intros F. apply Forall_cons in F as [_ F]. destruct (N F) as (a & f & b & -> & ->).
      exists (fs :: a), f, b. split; [done|]. rewrite <- app_assoc. done.
  - destruct (move_back_new dn (t ++ [SMount fs (moved_path fs) None MS_MOVE None (Err e)])) as (new & -> & N).
    { intros x X. rewrite <- E. apply elem_of_app. by left. }
    eexists. rewrite <- app_assoc. split; [done|]. intros F. apply Forall_app in F as [_ F]. exists [], fs, rest. rewrite app_nil_r, (N F). done.
Qed.

Lemma mkdir_layers_new dirs t : exists new, (mkdir_layers env dirs t).2 = t ++ new /\ Forall neutral new.
Proof.
  revert t. induction dirs as [|d dirs IH]; intros t; cbn [mkdir_layers]; [exists []; by rewrite app_nil_r|]. unfold do_mkdir.
  destruct (sb_mkdir env t d) as [[]|e]; [|eexists; split; [done|by repeat constructor]].
  destruct (IH (t ++ [SMkdir d (Ok tt)])) as (new & -> & F). eexists. rewrite <- app_assoc. split; [done|]. by constructor.
Qed.

Definition m_image : scall := SMount STANDBY_IMAGE LAYER_IMAGE (Some (str "erofs")) MS_RDONLY None (Ok tt).
Definition m_overlay (r : result unit) : scall := SMount (str "overlay") STANDBY_ROOT (Some (str "overlay")) 0 (Some OVERLAY_DATA) r.

Lemma mount_root_new t :
  let '(ret, t') := mount_root env t in
  exists dirs rest, t' = t ++ dirs ++ rest /\ Forall neutral dirs /\
    match ret with
    | Ok _ => rest = [m_image; m_overlay (Ok tt)]
    | Err e => Forall neutral rest \/ exists r, rest = [m_image; m_overlay (Err e); SUmount LAYER_IMAGE r]
    end.
Proof.
  unfold mount_root. destruct (mkdir_layers_new layer_dirs t) as (dirs & E & F). destruct (mkdir_layers env layer_dirs t) as [[[]|e] t1]; cbn [snd] in E; subst t1.
  2: { exists dirs, []. rewrite app_nil_r. split; [done|]. split; [done|]. by left. }
  unfold do_mount. destruct (sb_mount env (t ++ dirs) _ _ _ _ _) as [[]|e].
  2: { eexists dirs, _. rewrite <- app_assoc. split; [done|]. split; [done|]. left. by repeat constructor. }
  destruct (sb_mount env _ _ _ _ _ _) as [[]|e]; (eexists dirs, _; unfold do_umount; rewrite <- !app_assoc; split; [done|]; split; [done|]).
  - done.
  - right. by eexists.
Qed.

Lemma make_root_new t :
  let '(ret, t') := make_root env t in
  exists new, t' = t ++ new /\ match ret with Ok _ => became_root new | Err _ => became_root new \/ Forall neutral new end.
Proof.
  unfold make_root, do_chdir, do_mount, do_chroot. destruct (sb_chdir env t STANDBY_ROOT) as [[]|e].
  2: { eexists. rewrite <- app_assoc. split; [done|]. right. by repeat constructor. }
  destruct (sb_mount env _ _ _ _ _ _) as [[]|e].
  2: { eexists. rewrite <- !app_assoc. split; [done|]. right. by repeat constructor. }
  destruct (sb_chroot env _ _) as [[]|e].
  - destruct (sb_chdir env _ ROOT) as [[]|e]; (eexists; rewrite <- !app_assoc; split; [done|]); [|left]; right; left; done.
  - eexists. rewrite <- !app_assoc. split; [done|]. left. right. by left.
Qed.

(** Where the machine is when [standby_enter] starts. *)
Record standby_start (T : table) : Prop := {
  ss_pseudo : Forall (fun fs => is_Some (T !! fs) /\ T !! moved_path fs = None) pseudo_fs;
  ss_image : T !! LAYER_IMAGE = None;
  ss_root : T !! STANDBY_ROOT = None }.

Lemma inner_undone T mid :
  standby_start T ->
  undone (<[STANDBY_ROOT := str "overlay"]> (<[LAYER_IMAGE := STANDBY_IMAGE]> T)) mid ->
  undone T (m_image :: (m_overlay (Ok tt) :: mid ++ [SUmount STANDBY_ROOT (Ok tt)]) ++ [SUmount LAYER_IMAGE (Ok tt)]).
Proof.
  intros [_ I R] M. apply undone_mount; [done|done|]. apply undone_mount; [done| |done]. by rewrite lookup_insert_ne by done.
Qed.

Lemma inner_ready T : standby_start T -> ready (<[STANDBY_ROOT := str "overlay"]> (<[LAYER_IMAGE := STANDBY_IMAGE]> T)) pseudo_fs.
Proof.
  intros [P _ _]. apply ready_all; [by apply (bool_decide_unpack _)|by apply (bool_decide_unpack _)| |].
  - intros x y X Y. unfold pseudo_fs in X, Y. repeat (apply elem_of_cons in X as [-> |X]; [repeat (apply elem_of_cons in Y as [-> |Y]; [done|]); by apply elem_of_nil in Y|]).
    by apply elem_of_nil in X.
  - eapply Forall_impl; [|exact (fun fs H => H)]. apply Forall_forall. intros fs F. rewrite Forall_forall in P. specialize (P fs F).
    unfold pseudo_fs in F. repeat (apply elem_of_cons in F as [-> |F]; [by rewrite !lookup_insert_ne by done|]). by apply elem_of_nil in F.
Qed.

Lemma put_back T dirs mid r1 r2 :
  standby_start T -> Forall neutral dirs -> undone (<[STANDBY_ROOT := str "overlay"]> (<[LAYER_IMAGE := STANDBY_IMAGE]> T)) mid ->
  undo_ok (SUmount STANDBY_ROOT r1) -> undo_ok (SUmount LAYER_IMAGE r2) ->
  undone T (dirs ++ [m_image; m_overlay (Ok tt)] ++ mid ++ [SUmount STANDBY_ROOT r1; SUmount LAYER_IMAGE r2]).
Proof.
  intros S F M -> ->. apply undone_app; [by apply undone_neutral|]. pose proof (inner_undone T mid S M) as I. cbn [app] in *. by rewrite <- app_assoc in I.
Qed.

(** What the calls after the copies did, when the machine goes back to where
    it was. *)
Lemma middle_undone T copies l mid :
  Forall neutral copies -> ready T l -> Forall neutral mid -> undone T (copies ++ map mv l ++ mid ++ map back (rev l)).
Proof. intros C R M. apply undone_app; [by apply undone_neutral|]. apply undone_moves; [done|]. by apply undone_neutral. Qed.

(** C20: a standby image that cannot become the root leaves no trace.  Whatever
    call fails, if [standby_enter] returns an error without having moved the
    image onto the root directory, and the calls that put things back
    succeed, then the image, its overlay and the pseudo filesystems are
    mounted exactly where they were before.  The code asks this of no other
    error: once the image is on the root directory nothing is undone. *)
Theorem standby_put_back config_path t :
  let '(ret, t') := standby_enter env config_path t in
  exists new, t' = t ++ new /\
    forall e T, ret = Err e -> standby_start T -> Forall undo_ok new -> ~ became_root new -> mounts T new = T.
Proof.
  unfold standby_enter. pose proof (mount_root_new t) as M. destruct (mount_root env t) as [[[]|e] t1]; destruct M as (dirs & rest & -> & Fd & M).
  2: { exists (dirs ++ rest). split; [done|]. intros e' T _ [_ I R] U _. apply undone_app; [by apply undone_neutral|]. destruct M as [M|[r ->]]; [by apply undone_neutral|].
       apply Forall_app in U as [_ U]. rewrite !Forall_cons in U. destruct U as (_ & _ & -> & _). apply (undone_mount T _ _ _ _ _ [m_overlay (Err e)]); [done|done|].
       by apply undone_neutral; repeat constructor. }
  subst rest. unfold do_copy. destruct (sb_copy env _ config_path _) as [[]|e].
  2: { eexists. unfold unmount_all, do_umount. rewrite <- !app_assoc. split; [done|]. intros e' T _ S U _.
       rewrite !Forall_app, !Forall_cons in U. destruct U as (_ & _ & _ & (U1 & _) & U2 & _).
       apply (put_back T dirs [SCopy _ _ _]); [done|done|by apply undone_neutral; repeat constructor|done|done]. }
  set (c1 := SCopy config_path STANDBY_CONFIG (Ok tt)). set (c2 := SCopy NETWORK_FILE STANDBY_NETWORK _).
  assert (C : Forall neutral [c1; c2]) by (repeat constructor).
  set (t1 := _ ++ [c2]). unfold move_pseudo_fs. pose proof (move_loop_new [] pseudo_fs t1 eq_refl) as M. unfold t1 in M |- *.
  destruct (move_loop env [] pseudo_fs _) as [[[]|e] t2]; destruct M as (new & -> & M).
  2: { eexists. unfold unmount_all, do_umount. rewrite <- !app_assoc. split; [done|]. intros e' T _ S U _. rewrite !Forall_app, !Forall_cons in U.
       destruct U as (_ & _ & _ & _ & U & (U1 & _) & U2 & _). destruct (M U) as (a & fs & b & E & ->).
       apply (put_back T dirs ([c1; c2] ++ map mv a ++ [_] ++ map back (rev a))); [done|done| |done|done].
       apply middle_undone; [done| |by repeat constructor]. apply (ready_app _ a (fs :: b)). rewrite <- E. by apply inner_ready. }
  subst new. pose proof (make_root_new ((((t ++ dirs ++ [m_image; m_overlay (Ok tt)]) ++ [c1]) ++ [c2]) ++ map mv pseudo_fs)) as M.
  destruct (make_root env _) as [[[]|e] t3]; destruct M as (new & -> & M).
  2: { destruct (move_back_new pseudo_fs (((((t ++ dirs ++ [m_image; m_overlay (Ok tt)]) ++ [c1]) ++ [c2]) ++ map mv pseudo_fs) ++ new) (fun _ H => H)) as (nb & -> & B).
       eexists. unfold unmount_all, do_umount. rewrite <- !app_assoc. split; [done|]. intros e' T _ S U NB. destruct M as [M|M].
       { destruct NB. unfold became_root in *. rewrite !elem_of_app. tauto. }
       rewrite !Forall_app, !Forall_cons in U. destruct U as (_ & _ & _ & _ & _ & _ & U & (U1 & _) & U2 & _). specialize (B U). subst nb.
       refine (eq_ind _ (fun l => undone T l) (put_back T dirs ([c1; c2] ++ map mv pseudo_fs ++ new ++ map back (rev pseudo_fs)) _ _ S Fd _ U1 U2) _ _).
       2: { by rewrite <- !app_assoc. }
       apply middle_undone; [done|by apply inner_ready|done]. }
  unfold allow_nonlocal_bind, do_write. destruct (sb_fork env _) as [pid|e]; [destruct (pid =? 0)|]; (eexists; rewrite <- !app_assoc; split; [done|]); try done.
  intros e' T _ _ _ NB. destruct NB. unfold became_root in *. rewrite !elem_of_app. tauto.
Qed.

End PutBack.

(** A machine that does everything but move the image onto its root. *)
Definition no_root : standby_env := {|
  sb_mount := fun _ src _ _ _ _ => if streq src DOT then Err EINVAL else Ok tt; sb_umount := fun _ _ => Ok tt; sb_mkdir := fun _ _ => Ok tt;
  sb_copy := fun _ _ _ => Ok tt; sb_chdir := fun _ _ => Ok tt; sb_chroot := fun _ _ => Ok tt; sb_write := fun _ _ _ => Ok tt;
  sb_fork := fun _ => Ok 0; sb_exec := fun _ _ => ENOENT |}.

Definition booted : table := list_to_map (map (fun x => (x.1.1.2, x.1.1.1)) init_fs).

Lemma standby_put_back_witness :
  exists new, standby_enter no_root (str "/etc/kmorph/kmorph.conf") [] = (Err EINVAL, new) /\ mounts booted new = booted.
Proof.
  pose proof (standby_put_back no_root (str "/etc/kmorph/kmorph.conf") []) as P.
  destruct (standby_enter no_root (str "/etc/kmorph/kmorph.conf") []) as [r new] eqn:E. vm_compute in E. injection E as <- <-.
  destruct P as (new & En & P). rewrite app_nil_l in En. subst new. eexists. split; [reflexivity|].
  apply (P EINVAL booted); [reflexivity| | |].
  - split; [|reflexivity|reflexivity]. repeat (apply Forall_cons; split; [split; [eexists; reflexivity|reflexivity]|]). apply Forall_nil_2.
  - repeat (apply Forall_cons; split; [first [exact I | reflexivity | intros _ _; reflexivity | intros ?; discriminate |
      intros _ H; exfalso; revert H; apply (bool_decide_unpack (~ _)); vm_compute; exact I]|]). apply Forall_nil_2.
  - unfold became_root. intros H. repeat (apply elem_of_cons in H as [H|H]; [vm_compute in H; discriminate|]). by apply elem_of_nil in H.
Defined.
