(* ===== verification/Sockets.v ===== *)
(** * The descriptors kmorph opens

    lib/vsock.c, the sockets of lib/probe.c, lib/rtnl.c and kmorph/client.c,
    the listener and the timer of kmorphd/main.c, and the ioctls of
    kmorph/freeze.c and kmorphd/console.c, as the system calls they make.
    The kernel is an oracle that answers each call from everything asked of
    it before; the trace keeps every call with its answer. *)

From S2P Require Import Prelude Cstr Cpio Elfcore.

Definition AF_NETLINK : Z := 16.
Definition AF_VSOCK : Z := 40.
Definition SOL_SOCKET : Z := 1.
Definition SO_ERROR : Z := 4.
Definition SO_RCVTIMEO : Z := 20.
Definition SOCK_STREAM : Z := 1.
Definition SOCK_RAW : Z := 3.
Definition SOCK_NONBLOCK : Z := 0x800.
Definition SOCK_CLOEXEC : Z := 0x80000.
Definition NETLINK_ROUTE : Z := 0.
Definition VSOCK_CID_ANY : Z := 0xffffffff.
Definition VSOCK_SO_CONNECT_TIMEOUT_OLD : Z := 6.
Definition VSOCK_SO_TRANSPORT : Z := 9.
Definition VSOCK_TRANSPORT_MULTIKERNEL : Z := 1.
Definition PROBE_CID_PREDECESSOR : Z := 0.
Definition PROBE_PORT : Z := 1.
Definition KMORPH_VSOCK_PORT : Z := 27501.
Definition EINPROGRESS : Z := 115.

Inductive saddr : Type := VSOCK (cid port : Z) | NETLINK (groups : Z).

Inductive sysc : Type :=
| CSocket (domain type protocol : Z)
| CSetsockopt (fd level name : Z) (value : list Z)
| CGetsockopt (fd level name : Z)
| CConnect (fd : Z) (addr : saddr)
| CBind (fd : Z) (addr : saddr)
| CListen (fd backlog : Z)
| CSend (fd : Z) (data : list Z)
| CRecv (fd len : Z)
| CTimerCreate
| CTimerSet (fd sec nsec : Z)
| COpen (path : list Z) (flags : Z)
| CIoctl (fd request : Z)
| CGetSerial (fd : Z)
| CSetSerial (fd irq : Z)
| CSleep (seconds : Z)
| CClose (fd : Z).

(** What a call returned, with the bytes it filled in. *)
Definition answer : Type := result (Z * list Z).
Definition trace : Type := list (sysc * answer).

(** A program of system calls. *)
Definition prog (A : Type) : Type := trace -> A * trace.
#[export] Instance prog_ret : MRet prog := fun A x t => (x, t).
#[export] Instance prog_bind : MBind prog := fun A B q p t => let '(x, t) := p t in q x t.

Section Calls.
Context (k : trace -> sysc -> answer).

Definition call (c : sysc) : prog answer := fun t => let a := k t c in (a, t ++ [(c, a)]).

(** [close(fd)], then the error. *)
Definition close_with {A} (fd : Z) (r : result A) : prog (result A) := _ ← call (CClose fd); mret r.

(** ** lib/vsock.c *)

Definition transport : list Z := le 4 VSOCK_TRANSPORT_MULTIKERNEL.

Definition vsock_multikernel_socket (flags : Z) : prog (result Z) :=
  r ← call (CSocket AF_VSOCK (Z.lor (Z.lor SOCK_STREAM SOCK_CLOEXEC) flags) 0);
  match r with
  | Err e => mret (Err e)
  | Ok (fd, _) =>
      r ← call (CSetsockopt fd AF_VSOCK VSOCK_SO_TRANSPORT transport);
      match r with Err e => close_with fd (Err e) | Ok _ => mret (Ok fd) end
  end.

(** ** lib/probe.c *)

Definition probe_start (cid port : Z) : prog (result Z) :=
  r ← vsock_multikernel_socket SOCK_NONBLOCK;
  match r with
  | Err e => mret (Err e)
  | Ok fd =>
      r ← call (CConnect fd (VSOCK cid port));
      match r with
      | Err e => if e =? EINPROGRESS then mret (Ok fd) else close_with fd (Err e)
      | Ok _ => mret (Ok fd)
      end
  end.

(** The error of the connection, 0 when there is none. *)
Definition probe_finish (fd : Z) : prog Z :=
  r ← call (CGetsockopt fd SOL_SOCKET SO_ERROR);
  _ ← call (CClose fd);
  mret (match r with Err e => e | Ok (_, value) => le_at 0 4 value end).

(** ** kmorphd/main.c *)

Definition open_listener : prog (result Z) :=
  r ← vsock_multikernel_socket SOCK_NONBLOCK;
  match r with
  | Err e => mret (Err e)
  | Ok fd =>
      r ← call (CBind fd (VSOCK VSOCK_CID_ANY KMORPH_VSOCK_PORT));
      match r with
      | Err e => close_with fd (Err e)
      | Ok _ =>
          r ← call (CListen fd 4);
          match r with Err e => close_with fd (Err e) | Ok _ => mret (Ok fd) end
      end
  end.

Definition open_timer_fd (interval_ms : Z) : prog (result Z) :=
  r ← call CTimerCreate;
  match r with
  | Err e => mret (Err e)
  | Ok (fd, _) =>
      r ← call (CTimerSet fd (interval_ms / 1000) ((interval_ms mod 1000) * 1000000));
      match r with Err e => close_with fd (Err e) | Ok _ => mret (Ok fd) end
  end.

(** ** lib/rtnl.c *)

Definition rtnl_open_groups (groups : Z) : prog (result Z) :=
  r ← call (CSocket AF_NETLINK (Z.lor SOCK_RAW SOCK_CLOEXEC) NETLINK_ROUTE);
  match r with
  | Err e => mret (Err e)
  | Ok (fd, _) =>
      r ← call (CBind fd (NETLINK groups));
      match r with Err e => close_with fd (Err e) | Ok _ => mret (Ok fd) end
  end.

Definition rtnl_open : prog (result Z) := rtnl_open_groups 0.

(** ** kmorph/client.c *)

(** [struct timeval] *)
Definition timeval (ms : Z) : list Z := le 8 (ms / 1000) ++ le 8 ((ms mod 1000) * 1000).

(** [client_request] with its system calls: the bytes of the reply. *)
Definition client_exchange (cid : Z) (request : list Z) (timeout_ms len : Z) : prog (result (list Z)) :=
  r ← vsock_multikernel_socket 0;
  match r with
  | Err e => mret (Err e)
  | Ok fd =>
      _ ← call (CSetsockopt fd AF_VSOCK VSOCK_SO_CONNECT_TIMEOUT_OLD (timeval timeout_ms));
      _ ← call (CSetsockopt fd SOL_SOCKET SO_RCVTIMEO (timeval timeout_ms));
      r ← call (CConnect fd (VSOCK cid KMORPH_VSOCK_PORT));
      match r with
      | Err e => close_with fd (Err e)
      | Ok _ =>
          r ← call (CSend fd request);
          match r with
          | Err e => close_with fd (Err e)
          | Ok _ =>
              r ← call (CRecv fd (len - 1));
              match r with
              | Err e => close_with fd (Err e)
              | Ok (n, bytes) => if n <=? 0 then close_with fd (Err ECONNRESET) else close_with fd (Ok (take (Z.to_nat n) bytes))
              end
          end
      end
  end.

(** ** kmorph/freeze.c and kmorphd/console.c *)

Definition O_RDWR : Z := 2.
Definition O_NOCTTY : Z := 0x100.
Definition O_NONBLOCK : Z := 0x800.
Definition O_DIRECTORY : Z := 0x10000.
Definition O_CLOEXEC : Z := 0x80000.

Definition fs_ioctl (path : list Z) (req : Z) : prog (result unit) :=
  r ← call (COpen path (Z.lor O_DIRECTORY O_CLOEXEC));
  match r with
  | Err e => mret (Err e)
  | Ok (fd, _) =>
      r ← call (CIoctl fd req);
      close_with fd (match r with Err e => Err e | Ok _ => Ok tt end)
  end.

(** [TIOCGSERIAL] gives the interrupt line of the port. *)
Definition console_poll_mode (tty : list Z) : prog (result unit) :=
  r ← call (COpen (snprintf [] 64 (str "/dev/" ++ tty)) (Z.lor (Z.lor (Z.lor O_RDWR O_NOCTTY) O_NONBLOCK) O_CLOEXEC));
  match r with
  | Err e => mret (Err e)
  | Ok (fd, _) =>
      r ← call (CGetSerial fd);
      match r with
      | Err e => close_with fd (Err e)
      | Ok (irq, _) =>
          if irq =? 0 then close_with fd (Ok tt) else
          r ← call (CSetSerial fd 0);
          close_with fd (match r with Err e => Err e | Ok _ => Ok tt end)
      end
  end.

(** ** kmorph/watch.c *)

(** [GROUPS]: links, and addresses and routes of both families. *)
Definition GROUPS : Z := Z.lor (Z.lor (Z.lor (Z.lor 0x1 0x10) 0x40) 0x100) 0x400.

(** After [tries] rounds, if it is not there before. *)
Fixpoint open_events (tries : nat) : prog (option Z) :=
  match tries with
  | O => mret None
  | S tries =>
      r ← rtnl_open_groups GROUPS;
      match r with
      | Ok fd => mret (Some fd)
      | Err _ => _ ← call (CSleep 1); open_events tries
      end
  end.

End Calls.

Definition SETTLE_MS : Z := 100.
Definition SETTLE_MAX_MS : Z := 1000.

(** Over what each [poll] says: how many polls were made and how long they
    waited at most.  The messages are read and dropped in between. *)
Fixpoint settle (polls : list bool) (settled waited : Z) : Z :=
  if settled <? SETTLE_MAX_MS then
    match polls with
    | true :: polls => settle polls (settled + SETTLE_MS) (waited + SETTLE_MS)
    | _ => waited + SETTLE_MS
    end
  else waited.
Definition wait_change (polls : list bool) (timeout_ms : Z) : Z :=
  match polls with true :: polls => settle polls 0 timeout_ms | _ => timeout_ms end.

(** A burst of changes delays the next snapshot by a second at most. *)
Lemma wait_change_bounded polls timeout_ms : timeout_ms <= wait_change polls timeout_ms <= timeout_ms + SETTLE_MAX_MS.
Proof.
  unfold wait_change, SETTLE_MAX_MS. destruct polls as [|[] polls]; try lia.
  assert (G : forall settled waited i, settled = i * SETTLE_MS -> 0 <= i <= 10 -> waited <= settle polls settled waited <= waited + (SETTLE_MAX_MS - settled)).
  { induction polls as [|b polls IH]; intros settled waited i E I; cbn [settle]; unfold SETTLE_MS, SETTLE_MAX_MS in *; case_bool; b2p; try lia.
    destruct b; [|lia]. specialize (IH (settled + 100) (waited + 100) (i + 1) ltac:(lia) ltac:(lia)). lia. }
  specialize (G 0 timeout_ms 0 eq_refl ltac:(lia)). unfold SETTLE_MAX_MS in G. lia.
Qed.

(** ** The descriptors open after a trace *)

Fixpoint remove_fd (fd : Z) (l : list Z) : list Z :=
  match l with [] => [] | x :: l => if x =? fd then l else x :: remove_fd fd l end.

Definition fds_step (l : list Z) (e : sysc * answer) : list Z :=
  match e with
  | ((CSocket _ _ _ | CTimerCreate | COpen _ _), Ok (fd, _)) => fd :: l
  | (CClose fd, _) => remove_fd fd l
  | _ => l
  end.
Definition opened (t : trace) : list Z := foldl fds_step [] t.

(** The option that puts a socket on the transport. *)
Definition is_transport (level name : Z) (value : list Z) : bool :=
  (level =? AF_VSOCK) && (name =? VSOCK_SO_TRANSPORT) && bool_decide (value = transport).
#[global] Arguments is_transport : simpl never.
#[global] Arguments transport : simpl never.
#[global] Arguments timeval : simpl never.
Create Rewrite HintDb sockets.

Lemma is_transport_yes : is_transport AF_VSOCK VSOCK_SO_TRANSPORT transport = true.
Proof. by vm_compute. Qed.
Lemma is_transport_connect v : is_transport AF_VSOCK VSOCK_SO_CONNECT_TIMEOUT_OLD v = false.
Proof. done. Qed.
Lemma is_transport_receive v : is_transport SOL_SOCKET SO_RCVTIMEO v = false.
Proof. done. Qed.
#[local] Hint Rewrite is_transport_yes is_transport_connect is_transport_receive Z.eqb_refl : sockets.

(** A vsock socket is used only once it is on the multikernel transport:
    [ready] are the sockets that are. *)
Definition transport_step (st : bool * list Z) (e : sysc * answer) : bool * list Z :=
  let '(good, ready) := st in
  match e with
  | (CSocket _ _ _, Ok (fd, _)) => (good, List.filter (fun x => negb (x =? fd)) ready)
  | (CSetsockopt fd level name value, Ok _) =>
      if is_transport level name value then (good, fd :: ready) else st
  | ((CConnect fd (VSOCK _ _) | CBind fd (VSOCK _ _) | CListen fd _ | CSend fd _ | CRecv fd _), _) => (good && existsb (Z.eqb fd) ready, ready)
  | _ => st
  end.
Definition on_transport (t : trace) : bool := (foldl transport_step (true, []) t).1.

(** The calls of [p] use vsock sockets on the transport only, and leave the
    descriptors [after] names open. *)
Definition disciplined {A} (p : prog A) (after : A -> list Z -> list Z) : Prop :=
  forall t, let '(r, t') := p t in exists new, t' = t ++ new /\ on_transport new = true /\ opened t' = after r (opened t).

(** A new descriptor on success, none on failure. *)
Definition opens (r : result Z) (l : list Z) : list Z := match r with Ok fd => fd :: l | Err _ => l end.
Definition keeps {A} (r : A) (l : list Z) : list Z := l.

Lemma opened_app t new : opened (t ++ new) = foldl fds_step (opened t) new.
Proof. apply foldl_app. Qed.

(** Every answer the program looked at, then the trace it left. *)
Ltac answered :=
  match goal with |- context [match ?k ?t ?c with Ok _ => _ | Err _ => _ end] => destruct (k t c) as [[? ?]|?]; cbn end.
Ltac answers := repeat first [answered | match goal with |- context [if ?b then _ else _] => destruct b eqn:?; cbn end].
Ltac the_trace :=
  eexists; rewrite <- ?app_assoc; split; [reflexivity|]; unfold on_transport; rewrite opened_app;
  repeat (progress (cbn; try answered; autorewrite with sockets)); split; reflexivity.
Ltac discipline := intros; cbv [disciplined mbind prog_bind mret prog_ret close_with call]; intros ?; cbn; answers; the_trace.

(** More sockets on the transport never make a trace worse. *)
Definition below (a b : bool * list Z) : Prop := (a.1 = true -> b.1 = true) /\ forall fd, fd ∈ a.2 -> fd ∈ b.2.

Lemma existsb_in fd l : existsb (Z.eqb fd) l = true <-> fd ∈ l.
Proof.
  rewrite existsb_exists. split.
  - intros (x & I & E). apply Z.eqb_eq in E as ->. by apply list_elem_of_In.
  - intros I. exists fd. split; [by apply list_elem_of_In|apply Z.eqb_refl].
Qed.

Lemma filter_in (p : Z -> bool) fd l : fd ∈ List.filter p l <-> fd ∈ l /\ p fd = true.
Proof. by rewrite !list_elem_of_In, filter_In. Qed.

Lemma transport_step_below a b e : below a b -> below (transport_step a e) (transport_step b e).
Proof.
  destruct a as [ga ra], b as [gb rb]. intros [G R]. cbn [fst snd] in *.
  assert (U : forall fd, below (ga && existsb (Z.eqb fd) ra, ra) (gb && existsb (Z.eqb fd) rb, rb)).
  { intros fd. split; cbn [fst snd]; [|done]. rewrite !andb_true_iff, !existsb_in. intros [A B]. eauto. }
  destruct e as [c [[fd bs]|err]]; destruct c; try destruct addr; cbn [transport_step]; try apply U; try (by split); try case_bool; (split; [done|]); cbn [snd]; intros x.
  - rewrite !filter_in. intros [I E]. eauto.
  - rewrite !elem_of_cons. intros [I|I]; eauto.
  - apply R.
Qed.

Lemma on_transport_app a b : on_transport a = true -> on_transport b = true -> on_transport (a ++ b) = true.
Proof.
  unfold on_transport. rewrite foldl_app. intros A B.
  assert (M : forall s t, below s t -> below (foldl transport_step s b) (foldl transport_step t b)).
  { clear A B. induction b as [|e b IH]; intros s t L; [done|]. cbn [foldl]. by apply IH, transport_step_below. }
  apply (M (true, []) (foldl transport_step (true, []) a)); [|done]. split; [done|]. intros fd I. by apply elem_of_nil in I.
Qed.

Section Discipline.
Context (k : trace -> sysc -> answer).

Lemma vsock_disciplined flags : disciplined (vsock_multikernel_socket k flags) opens.
Proof. unfold vsock_multikernel_socket. discipline. Qed.

Lemma probe_start_disciplined cid port : disciplined (probe_start k cid port) opens.
Proof. unfold probe_start, vsock_multikernel_socket. discipline. Qed.

Lemma probe_finish_disciplined fd : disciplined (probe_finish k fd) (fun _ => remove_fd fd).
Proof. unfold probe_finish. discipline. Qed.

Lemma listener_disciplined : disciplined (open_listener k) opens.
Proof. unfold open_listener, vsock_multikernel_socket. discipline. Qed.

Lemma timer_disciplined ms : disciplined (open_timer_fd k ms) opens.
Proof. unfold open_timer_fd. discipline. Qed.

Lemma rtnl_disciplined groups : disciplined (rtnl_open_groups k groups) opens.
Proof. unfold rtnl_open_groups. discipline. Qed.

Lemma client_disciplined cid request ms len : disciplined (client_exchange k cid request ms len) keeps.
Proof. unfold client_exchange, vsock_multikernel_socket. discipline. Qed.

Lemma fs_ioctl_disciplined path req : disciplined (fs_ioctl k path req) keeps.
Proof. unfold fs_ioctl. discipline. Qed.

Lemma poll_mode_disciplined tty : disciplined (console_poll_mode k tty) keeps.
Proof. unfold console_poll_mode. discipline. Qed.

Definition opens_some (r : option Z) (l : list Z) : list Z := match r with Some fd => fd :: l | None => l end.

(** The attempts that failed leave nothing open. *)
Lemma events_disciplined tries : disciplined (open_events k tries) opens_some.
Proof.
  induction tries as [|tries IH]; cbn [open_events].
  { intros t. exists []. by rewrite app_nil_r. }
  intros t. pose proof (rtnl_disciplined GROUPS t) as R. cbv [mbind prog_bind mret prog_ret]. destruct (rtnl_open_groups k GROUPS t) as [[fd|e] t'].
  - exact R.
  - destruct R as (a & -> & A1 & A2). unfold call. cbv zeta. set (s := (CSleep 1, _)). specialize (IH ((t ++ a) ++ [s])).
    destruct (open_events k tries _) as [r t'']. destruct IH as (c & -> & B1 & B2). exists (a ++ [s] ++ c). rewrite !app_assoc. split; [done|]. split.
    + apply on_transport_app; [|done]. apply on_transport_app; [done|]. by destruct (k (t ++ a) (CSleep 1)) as [[]|].
    + rewrite B2, opened_app, A2. unfold s. cbn. by destruct (k (t ++ a) (CSleep 1)) as [[]|].
Qed.

(** C37: the functions below keep the descriptors straight.  Whatever the
    kernel answers, [probe_start], [open_listener], [open_timer],
    [rtnl_open_groups] and [open_events], however often it tries, leave
    exactly the descriptor they return open, and none when they fail;
    [probe_finish] closes the probe it is given; [client_request],
    [fs_ioctl] and [console_poll_mode] close what they opened on every path.
    In all of them no vsock socket is connected, bound, listened on or
    written to before it is on the multikernel transport, where only the
    other kernel can answer.  It is not a claim on the rest of the program:
    accepted connections, files, dumps and images are not covered, and a
    daemon that goes to the background leaves its first descriptor of
    /dev/kmsg open. *)
Theorem descriptors_disciplined :
  (forall cid port, disciplined (probe_start k cid port) opens) /\
  (forall fd, disciplined (probe_finish k fd) (fun _ => remove_fd fd)) /\
  disciplined (open_listener k) opens /\
  (forall ms, disciplined (open_timer_fd k ms) opens) /\
  (forall groups, disciplined (rtnl_open_groups k groups) opens) /\
  (forall tries, disciplined (open_events k tries) opens_some) /\
  (forall cid request ms len, disciplined (client_exchange k cid request ms len) keeps) /\
  (forall path req, disciplined (fs_ioctl k path req) keeps) /\
  (forall tty, disciplined (console_poll_mode k tty) keeps).
Proof.
  split_and!; auto using probe_start_disciplined, probe_finish_disciplined, listener_disciplined, timer_disciplined, rtnl_disciplined, events_disciplined,
    client_disciplined, fs_ioctl_disciplined, poll_mode_disciplined.
Qed.

End Discipline.
