(* ===== verification/Console.v ===== *)
(** * kmorphd/console.c: the console after a takeover

    The line settings, the child that becomes the login program and the
    supervisor that keeps starting it. *)

From S2P Require Import Prelude Cstr Cpio Elfcore Sockets.

(** [struct termios], with the flags and the control characters of Linux. *)
Record termios : Type := mk_termios {
  t_iflag : Z;
  t_oflag : Z;
  t_cflag : Z;
  t_lflag : Z;
  t_cc : list Z }.

Definition NCCS : nat := 32.
Definition VINTR : nat := 0.
Definition VERASE : nat := 2.
Definition VKILL : nat := 3.
Definition VEOF : nat := 4.
Definition VMIN : nat := 6.
Definition CBAUD : Z := 0x100f.
Definition CS8 : Z := 0x30.
Definition CSTOPB : Z := 0x40.
Definition CREAD : Z := 0x80.
Definition PARENB : Z := 0x100.
Definition HUPCL : Z := 0x400.
Definition CLOCAL : Z := 0x800.
Definition ICRNL : Z := 0x100.
Definition OPOST : Z := 1.
Definition ONLCR : Z := 4.
Definition ISIG : Z := 1.
Definition ICANON : Z := 2.
Definition ECHO : Z := 8.
Definition ECHOE : Z := 0x10.
Definition ECHOK : Z := 0x20.
Definition IEXTEN : Z := 0x8000.

(** The rates and their codes. *)
Definition speeds : list (Z * Z) :=
  [(9600, 0xd); (19200, 0xe); (38400, 0xf); (57600, 0x1001); (115200, 0x1002); (230400, 0x1003)].

(** [cfsetispeed] and [cfsetospeed] put the code into [c_cflag]. *)
Definition console_line_attrs (baud : Z) : result termios :=
  match List.find (fun s => s.1 =? baud) speeds with
  | None => Err EINVAL
  | Some (_, code) =>
      Ok (mk_termios ICRNL (Z.lor OPOST ONLCR) (Z.lor code (Z.lor (Z.lor (Z.lor CS8 CREAD) HUPCL) CLOCAL))
            (Z.lor (Z.lor (Z.lor (Z.lor (Z.lor ISIG ICANON) ECHO) ECHOE) ECHOK) IEXTEN)
            (<[VMIN := 1]> (<[VEOF := 4]> (<[VKILL := 21]> (<[VERASE := 127]> (<[VINTR := 3]> (replicate NCCS 0)))))))
  end.

(** ** The login program *)

Inductive login_step : Type :=
| LSetsid
| LOpen (path : list Z) (ret : result Z)
| LAttrs (fd : Z) (t : termios)
| LControl (fd : Z)
| LDup (fd to : Z)
| LClose (fd : Z)
| LTerm (term : list Z)
| LExec (path : list Z)
| LExit (code : Z).

(** What the child does, given what [open] answers and whether the program
    can be executed: it ends in the program or in an exit. *)
Definition run_login (tty : list Z) (baud : Z) (login : list Z) (opened : result Z) (executable : bool) : list login_step :=
  let path := snprintf [] 64 (str "/dev/" ++ tty) in
  [LSetsid; LOpen path opened] ++
  match opened with
  | Err _ => [LExit 1]
  | Ok fd =>
      (match console_line_attrs baud with Ok t => [LAttrs fd t] | Err _ => [] end) ++
      [LControl fd; LDup fd 0; LDup fd 1; LDup fd 2] ++
      (if 2 <? fd then [LClose fd] else []) ++
      [LTerm (str "vt100"); LExec login] ++
      (if executable then [] else [LExit 127])
  end.

(** How one turn of the supervisor goes. *)
Inductive login_end : Type := ForkFailed | WaitFailed | Exited (code : Z) | Killed.

(** Its exit status, none while it runs, and how often the program was
    started. *)
Fixpoint supervise (turns : list login_end) (started : nat) : option Z * nat :=
  match turns with
  | [] => (None, started)
  | ForkFailed :: _ => (Some 1, started)
  | WaitFailed :: _ => (Some 1, S started)
  | Exited code :: turns => if code =? 127 then (Some 127, S started) else supervise turns (S started)
  | Killed :: turns => supervise turns (S started)
  end.

Section Start.
Context (k : trace -> sysc -> answer) (fork : result Z).

Definition console_start_supervisor : result Z := fork.

(** The supervisor's pid; the line is driven by polling if it can be. *)
Definition console_start (tty : list Z) : prog (result Z) :=
  _ ← console_poll_mode k tty; mret console_start_supervisor.

End Start.

(** ** The console works *)

(** 8 data bits, no parity, one stop bit, no modem control, at the rate. *)
Definition line_8n1 (t : termios) (code : Z) : Prop :=
  Z.land (t_cflag t) CBAUD = code /\ Z.land (t_cflag t) CS8 = CS8 /\ Z.land (t_cflag t) PARENB = 0 /\
  Z.land (t_cflag t) CSTOPB = 0 /\ Z.land (t_cflag t) CLOCAL = CLOCAL /\ Z.land (t_lflag t) ICANON = ICANON.

Lemma console_line_attrs_8n1 baud :
  match console_line_attrs baud with
  | Ok t => exists code, (baud, code) ∈ speeds /\ line_8n1 t code
  | Err e => e = EINVAL /\ baud ∉ map fst speeds
  end.
Proof.
  unfold console_line_attrs. destruct (List.find _ speeds) as [[rate code]|] eqn:F.
  - apply List.find_some in F as [I E]. cbn in E. b2p. subst rate. exists code. apply list_elem_of_In in I. split; [done|].
    unfold speeds in I. repeat (apply elem_of_cons in I as [I|I]; [injection I as _ ->; by repeat split|]). by apply elem_of_nil in I.
  - split; [done|]. intros I. apply list_elem_of_fmap in I as ([r c] & -> & I). apply list_elem_of_In in I.
    pose proof (List.find_none _ _ F _ I) as Q. cbn in Q. by rewrite Z.eqb_refl in Q.
Qed.

Definition turn_over (e : login_end) : Prop := match e with Killed => True | Exited code => code <> 127 | _ => False end.

(** The login program is started again however it ended, unless it could not
    be executed at all. *)
Lemma supervise_restarts turns n : Forall turn_over turns -> supervise turns n = (None, n + length turns)%nat.
Proof.
  intros F. revert n. induction F as [|e turns T F IH]; intros n; cbn; [f_equal; lia|].
  destruct e as [| |code|]; try done; [cbn in T; rewrite (proj2 (Z.eqb_neq _ _) T)|]; rewrite IH; f_equal; lia.
Qed.

(** A line switched to polling has no interrupt: none was set, or the kernel
    took the 0. *)
Lemma poll_mode_polls k tty t :
  let '(r, t') := console_poll_mode k tty t in
  r = Ok tt -> exists fd, (exists b, (CGetSerial fd, Ok (0, b)) ∈ t') \/ (exists a, (CSetSerial fd 0, Ok a) ∈ t').
Proof.
  unfold console_poll_mode. cbv [mbind prog_bind mret prog_ret close_with call]. destruct (k t _) as [[fd ?]|?]; [|done].
  destruct (k _ (CGetSerial fd)) as [[irq ?]|?]; [|done]. destruct (irq =? 0) eqn:I.
  - intros _. b2p. subst irq. exists fd. left. eexists. rewrite !elem_of_app. left. right. by left.
  - destruct (k _ (CSetSerial fd 0)) as [a|?]; [|done]. intros _. exists fd. right. exists a. rewrite !elem_of_app. left. right. by left.
Qed.
