(* ===== verification/Syscalls.v ===== *)
(** * lib/mksys.c and lib/log.c: the system calls and the log

    The flag word [kexec_file_load] takes and the multikernel commands of
    [reboot], and the lines the log writes to standard error and to the
    kernel log. *)

From S2P Require Import Prelude Cstr Fdt.

Definition MK_REBOOT_MAGIC1 : Z := 0xfee1dead.
Definition MK_REBOOT_MAGIC2 : Z := 672274793.
Definition MK_REBOOT_CMD_EXEC : Z := 0x4d4b4c49.
Definition MK_REBOOT_CMD_HALT : Z := 0x4d4b4c48.
Definition MK_REBOOT_CMD_HALT_FORCE : Z := 0x4d4b4c46.
Definition MK_KEXEC_FILE_UNLOAD : Z := 0x1.
Definition MK_KEXEC_FILE_NO_INITRAMFS : Z := 0x4.
Definition MK_KEXEC_FILE_MK_ID_MASK : Z := 0x7fff0000.
Definition MK_KEXEC_FILE_MK_ID_SHIFT : Z := 16.
Definition MK_KEXEC_FILE_MULTIKERNEL : Z := 0x80000000.

(** [mk_id] is an [int]; the conversion to [unsigned long] and the shift wrap. *)
Definition mksys_kexec_flags (mk_id : Z) (has_initrd : bool) : Z :=
  let flags := Z.lor MK_KEXEC_FILE_MULTIKERNEL (Z.land (u64 (Z.shiftl (u64 mk_id) MK_KEXEC_FILE_MK_ID_SHIFT)) MK_KEXEC_FILE_MK_ID_MASK) in
  if has_initrd then flags else Z.lor flags MK_KEXEC_FILE_NO_INITRAMFS.

Definition mksys_kexec_unload_flags (mk_id : Z) : Z := Z.lor (mksys_kexec_flags mk_id true) MK_KEXEC_FILE_UNLOAD.

Inductive mkcall : Type :=
| KexecFileLoad (kernel_fd initrd_fd len : Z) (cmdline : option (list Z)) (flags : Z)
| Reboot (magic1 magic2 cmd mk_id : Z).

Definition kexec_file_load (kernel_fd initrd_fd : Z) (cmdline : option (list Z)) (flags : Z) : mkcall :=
  KexecFileLoad kernel_fd initrd_fd (match cmdline with Some c => zlen c + 1 | None => 0 end) cmdline flags.

Definition mksys_kexec_load (kernel_fd initrd_fd : Z) (cmdline : option (list Z)) (mk_id : Z) : mkcall :=
  kexec_file_load kernel_fd initrd_fd cmdline (mksys_kexec_flags mk_id (0 <=? initrd_fd)).
Definition mksys_kexec_unload (mk_id : Z) : mkcall := kexec_file_load (-1) (-1) None (mksys_kexec_unload_flags mk_id).

Definition mksys_reboot (cmd mk_id : Z) : mkcall := Reboot MK_REBOOT_MAGIC1 MK_REBOOT_MAGIC2 cmd mk_id.
Definition mksys_exec (mk_id : Z) : mkcall := mksys_reboot MK_REBOOT_CMD_EXEC mk_id.
Definition mksys_halt (mk_id : Z) : mkcall := mksys_reboot MK_REBOOT_CMD_HALT mk_id.
Definition mksys_fence (mk_id : Z) : mkcall := mksys_reboot MK_REBOOT_CMD_HALT_FORCE mk_id.

(** ** The log *)

Definition KMSG_INFO : Z := 6.
Definition KMSG_WARNING : Z := 4.
Definition KMSG_ERR : Z := 3.
Definition MSG_MAX : Z := 1024.
Definition LINE_MAX : Z := 1200.

(** The static variables. *)
Record log_state : Type := log_init { log_ident : list Z; log_stderr_fd : Z; log_kmsg_fd : Z }.

(** [open] of [/dev/kmsg] gave [fd]. *)
Definition log_open_kmsg (fd : Z) (l : log_state) : log_state := log_init (log_ident l) (log_stderr_fd l) fd.

(** [write_all] of the first [n] bytes of a buffer that holds [line]; [None]
    reads past its end. *)
Definition write_line (line : list Z) (n : Z) : option (list Z) :=
  if LINE_MAX <? n then None else Some (take (Z.to_nat n) line).

Definition log_one (fd : Z) (text : list Z) : option (list (Z * list Z)) :=
  if fd <? 0 then Some [] else
  line ← write_line (snprintf [] LINE_MAX text ++ [0]) (zlen text);
  Some [(fd, line)].

(** What is written to which descriptor, for a message [text]. *)
Definition log_line (l : log_state) (priority : Z) (level text : list Z) : option (list (Z * list Z)) :=
  let msg := snprintf [] MSG_MAX text in
  let body := log_ident l ++ str ": " ++ level ++ msg ++ [10] in
  a ← log_one (log_stderr_fd l) body;
  b ← log_one (log_kmsg_fd l) (str "<" ++ dec_int priority ++ str ">" ++ body);
  Some (a ++ b).

Definition log_info (l : log_state) (text : list Z) := log_line l KMSG_INFO [] text.
Definition log_warn (l : log_state) (text : list Z) := log_line l KMSG_WARNING (str "warning: ") text.
Definition log_err (l : log_state) (text : list Z) := log_line l KMSG_ERR (str "error: ") text.

(** The loop of [write_all]: what the descriptor takes of the line, over what
    each [write] returns. *)
Fixpoint log_write_all (script : list Z) (s : list Z) : list Z :=
  match s, script with
  | [], _ | _, [] => []
  | _, n :: script => if n <=? 0 then [] else take (Z.to_nat n) s ++ log_write_all script (drop (Z.to_nat n) s)
  end.

(** A log that takes less than the line gets a prefix of it. *)
Lemma log_write_all_prefix script s : exists rest, s = log_write_all script s ++ rest.
Proof.
  revert s. induction script as [|n script IH]; intros s; [exists s; by destruct s|]. destruct s as [|c s]; [by exists []|]. cbn [log_write_all].
  case_bool; [by exists (c :: s)|]. destruct (IH (drop (Z.to_nat n) (c :: s))) as (rest & E). exists rest. rewrite <- app_assoc, <- E. by rewrite take_drop.
Qed.

(** ** What the kernel reads out of the flags *)

Definition flags_id (flags : Z) : Z := Z.shiftr (Z.land flags MK_KEXEC_FILE_MK_ID_MASK) MK_KEXEC_FILE_MK_ID_SHIFT.
Definition flag_set (flags flag : Z) : bool := negb (Z.land flags flag =? 0).

Lemma mask_bits n : 0 <= n -> Z.testbit MK_KEXEC_FILE_MK_ID_MASK n = (16 <=? n) && (n <? 31).
Proof.
  intros N. change MK_KEXEC_FILE_MK_ID_MASK with (Z.shiftl (Z.ones 15) 16). rewrite Z.shiftl_spec by done.
  destruct (Z.leb_spec 16 n); [|rewrite Z.testbit_neg_r by lia; done]. rewrite Z.testbit_ones by lia.
  destruct (Z.leb_spec 0 (n - 16)), (Z.ltb_spec (n - 16) 15), (Z.ltb_spec n 31); (done || lia).
Qed.

Lemma id_field mk_id n :
  0 <= n -> Z.testbit (Z.land (u64 (Z.shiftl (u64 mk_id) 16)) MK_KEXEC_FILE_MK_ID_MASK) n = (16 <=? n) && (n <? 31) && Z.testbit mk_id (n - 16).
Proof.
  intros N. rewrite Z.land_spec, mask_bits by done. destruct (Z.leb_spec 16 n), (Z.ltb_spec n 31); cbn [andb]; rewrite ?andb_false_r, ?andb_true_r; try done.
  unfold u64. change two64 with (2 ^ 64). rewrite Z.mod_pow2_bits_low, Z.shiftl_spec, Z.mod_pow2_bits_low by lia. done.
Qed.

Lemma flags_bits mk_id has_initrd n :
  0 <= n -> Z.testbit (mksys_kexec_flags mk_id has_initrd) n =
    (n =? 31) || ((16 <=? n) && (n <? 31) && Z.testbit mk_id (n - 16)) || (negb has_initrd && (n =? 2)).
Proof.
  intros N. assert (P : forall i, 0 <= i -> Z.testbit (2 ^ i) n = (n =? i)) by (intros i I; rewrite Z.pow2_bits_eqb by done; apply Z.eqb_sym).
  unfold mksys_kexec_flags, MK_KEXEC_FILE_MK_ID_SHIFT. cbv zeta. change MK_KEXEC_FILE_MULTIKERNEL with (2 ^ 31). change MK_KEXEC_FILE_NO_INITRAMFS with (2 ^ 2).
  destruct has_initrd; rewrite !Z.lor_spec, id_field, !P by lia; cbn [negb andb]; by rewrite ?orb_false_r.
Qed.

Lemma flag_set_bit flags i : 0 <= i -> flag_set flags (2 ^ i) = Z.testbit flags i.
Proof.
  intros I. unfold flag_set. destruct (Z.testbit flags i) eqn:B.
  - apply negb_true_iff, Z.eqb_neq. intros E. assert (Q : Z.testbit (Z.land flags (2 ^ i)) i = true) by (by rewrite Z.land_spec, B, Z.pow2_bits_true).
    rewrite E in Q. by rewrite Z.bits_0 in Q.
  - apply negb_false_iff, Z.eqb_eq. apply Z.bits_inj_0. intros n. rewrite Z.land_spec. destruct (Z.eqb_spec i n) as [<-|Ne]; [by rewrite B|].
    rewrite Z.pow2_bits_false by done. apply andb_false_r.
Qed.

Lemma flags_id_lor flags i : 0 <= i < 16 -> flags_id (Z.lor flags (2 ^ i)) = flags_id flags.
Proof.
  intros I. unfold flags_id, MK_KEXEC_FILE_MK_ID_SHIFT. apply Z.bits_inj'. intros n N. rewrite !Z.shiftr_spec, !Z.land_spec, Z.lor_spec by done.
  rewrite Z.pow2_bits_false by lia. by rewrite orb_false_r.
Qed.

Lemma flags_id_mod mk_id has_initrd : flags_id (mksys_kexec_flags mk_id has_initrd) = mk_id mod 2 ^ 15.
Proof.
  unfold flags_id, MK_KEXEC_FILE_MK_ID_SHIFT. apply Z.bits_inj'. intros n N.
  rewrite Z.shiftr_spec, Z.land_spec, flags_bits, mask_bits, Z.testbit_mod_pow2 by lia.
  replace (n + 16 - 16) with n by lia. destruct (Z.ltb_spec n 15), (Z.ltb_spec (n + 16) 31), (Z.leb_spec 16 (n + 16)); try lia; cbn [andb]; rewrite ?andb_false_r; try done.
  rewrite (proj2 (Z.eqb_neq (n + 16) 31)), (proj2 (Z.eqb_neq (n + 16) 2)) by lia. cbn. by rewrite andb_true_r, andb_false_r, orb_false_r.
Qed.

(** A kernel is loaded and unloaded under its own id.  The flag word of a
    load names the multikernel loader and not the unloader, and says that
    there is no initramfs exactly when none is given; that of an unload is
    the word with only the unload bit added.  Both carry the id modulo 2^15,
    and so the id the caller gave exactly when it is below 2^15: the field
    has no room for more, and nothing reports an id that does not fit. *)
Theorem kexec_flags_exact mk_id has_initrd :
  let load := mksys_kexec_flags mk_id has_initrd in let unload := mksys_kexec_unload_flags mk_id in
  flag_set load MK_KEXEC_FILE_MULTIKERNEL = true /\ flag_set load MK_KEXEC_FILE_UNLOAD = false /\
  flag_set load MK_KEXEC_FILE_NO_INITRAMFS = negb has_initrd /\
  flag_set unload MK_KEXEC_FILE_MULTIKERNEL = true /\ flag_set unload MK_KEXEC_FILE_UNLOAD = true /\ flag_set unload MK_KEXEC_FILE_NO_INITRAMFS = false /\
  flags_id load = mk_id mod 2 ^ 15 /\ flags_id unload = mk_id mod 2 ^ 15 /\
  (flags_id load = mk_id <-> 0 <= mk_id < 2 ^ 15).
Proof.
  cbv zeta. unfold mksys_kexec_unload_flags. change MK_KEXEC_FILE_MULTIKERNEL with (2 ^ 31). change MK_KEXEC_FILE_NO_INITRAMFS with (2 ^ 2).
  change MK_KEXEC_FILE_UNLOAD with (2 ^ 0). rewrite !flag_set_bit, !Z.lor_spec, !flags_bits, flags_id_lor, !flags_id_mod by lia.
  rewrite !Z.pow2_bits_eqb by lia. split_and!; try done.
  - by destruct has_initrd.
  - by destruct has_initrd.
  - split; [intros <-; apply Z.mod_pos_bound; lia|intros R; by apply Z.mod_small].
Qed.

Lemma snprintf_whole len s : zlen s < len -> snprintf [] len s = s.
Proof. intros L. unfold snprintf, zlen in *. case_bool; b2p; [lia|]. by rewrite take_ge by lia. Qed.

Lemma log_one_whole fd text : zlen text < LINE_MAX -> log_one fd text = Some (if fd <? 0 then [] else [(fd, text)]).
Proof.
  intros L. unfold log_one. rewrite snprintf_whole by done. case_bool; [done|]. unfold write_line. rewrite (proj2 (Z.ltb_ge LINE_MAX _)) by lia.
  unfold zlen. by rewrite Nat2Z.id, take_app_length.
Qed.

(** A log line is never cut and never overruns its buffer.  A message is
    cut to 1023 characters; with a program name of up to 150 characters the
    line built around it then fits the 1200 bytes it is built in, with the
    kernel log's priority too, so that the count [snprintf] returns, which
    [write_all] trusts, is the length of what the buffer holds, and each
    open log gets the whole line with its newline. *)
Theorem log_line_whole l priority level text :
  zlen (log_ident l) <= 150 -> 0 <= priority < 10 -> zlen level <= 9 ->
  let line := log_ident l ++ str ": " ++ level ++ take 1023 text ++ [10] in
  log_line l priority level text =
  Some ((if log_stderr_fd l <? 0 then [] else [(log_stderr_fd l, line)]) ++
        (if log_kmsg_fd l <? 0 then [] else [(log_kmsg_fd l, str "<" ++ dec priority ++ str ">" ++ line)])).
Proof.
  intros I P L line. unfold log_line. change (snprintf [] MSG_MAX text) with (take 1023 text). fold line.
  assert (T : zlen line <= 1200 - 15).
  { unfold line, zlen in *. rewrite !length_app, length_take. change (length (str ": ")) with 2%nat. cbn [length]. lia. }
  assert (D : dec_int priority = dec priority) by (unfold dec_int; by rewrite (proj2 (Z.ltb_ge _ _)) by lia).
  pose proof (dec_length 1 priority ltac:(lia) ltac:(lia)) as Q.
  assert (K : zlen (str "<" ++ dec priority ++ str ">" ++ line) < LINE_MAX).
  { unfold zlen, LINE_MAX in *. rewrite !length_app. change (length (str "<")) with 1%nat. change (length (str ">")) with 1%nat. lia. }
  rewrite D, (log_one_whole _ line), (log_one_whole _ _ K) by (unfold LINE_MAX; lia). done.
Qed.

Lemma log_line_whole_witness :
  log_err (log_open_kmsg 4 (log_init (str "kmorphd") 2 (-1))) (replicate 2000 (ch "x")) =
  Some [(2, str "kmorphd: error: " ++ replicate 1023 (ch "x") ++ [10]); (4, str "<3>kmorphd: error: " ++ replicate 1023 (ch "x") ++ [10])].
Proof.
  unfold log_err. rewrite (log_line_whole (log_open_kmsg 4 (log_init (str "kmorphd") 2 (-1))) KMSG_ERR (str "error: ") (replicate 2000 (ch "x"))).
  - vm_compute. reflexivity.
  - vm_compute. discriminate.
  - unfold KMSG_ERR. lia.
  - vm_compute. discriminate.
Defined.
