(* ===== verification/Startup.v ===== *)
(** * kmorphd/main.c: starting the daemon

    What [main] does before the event loop: as init the first mounts and the
    standby image, then the configuration, the background process, the
    network identity found on disk, the operations and the descriptors. *)

From S2P Require Import Prelude Takeover Cstr Parse Config Scanf Request Netsnap Files Fdt HostTree Machine Mkfs Devtree Ops Daemon Vigil Rtnl Standby.

Definition KMORPH_CONFIG_PATH : list Z := str "/etc/kmorph/kmorph.conf".
Definition DEVTREE_ROOT : list Z := str "/proc/device-tree".
Definition MKFS_ROOT : list Z := str "/sys/fs/multikernel".
Definition IOMEM_PATH : list Z := str "/proc/iomem".
Definition DUMP_MEM_PATH : list Z := str "/dev/mem".
Definition MEMORY_BLOCK_SIZE_PATH : list Z := str "/sys/devices/system/memory/block_size_bytes".
Definition PCI_BUS_ROOT : list Z := str "/sys/bus/pci".
Definition POOL_CLAIM_PATH : list Z := str "/run/kmorph/pool-memory".
Definition NET_RESTORED_PATH : list Z := str "/run/kmorph/network-restored".

(** ** lib/config.c *)

(** [strerror] is the C library's. *)
Definition config_load `{Alloc} `{Files} (strerror : Z -> list Z) (path err0 : list Z) (errlen : Z) : kmorph_config * list Z * result unit :=
  match file_read_string path with
  | Err e => (config_zero, snprintf err0 errlen (path ++ str ": " ++ strerror e), Err e)
  | Ok text => config_parse strerror text err0 errlen
  end.

(** ** The network identity *)

Definition network_paths : list (list Z) := [STANDBY_NETWORK; NETWORK_FILE].

Fixpoint load_each `{Inet} `{Files} (paths : list (list Z)) : option netsnap :=
  match paths with
  | [] => None
  | path :: paths =>
      match file_read_string path with
      | Err _ => load_each paths
      | Ok text =>
          match netsnap_parse text with
          | Err _ => None
          | Ok snap => if bool_decide (snap = []) then None else Some snap
          end
      end
  end.
Definition load_network `{Inet} `{Files} : option netsnap := load_each network_paths.

(** ** Setting the daemon up *)

(** [stat] of a directory, [access], the mount of the multikernel filesystem,
    and the descriptors. *)
Record setup_env : Type := {
  se_isdir : list Z -> bool;
  se_exists : list Z -> bool;
  se_mount : result unit;
  se_epoll : result Z;
  se_timer : Z -> result Z;
  se_signals : bool -> result Z;
  se_listener : result Z;
  se_epoll_add : Z -> result unit }.

Definition devtree_has_host_tree (s : setup_env) (root : list Z) : bool := se_isdir s (prop_path root HOST_TREE_REL).

Definition mkfs_mount (s : setup_env) (root : list Z) : result unit :=
  if se_exists s (mkfs_path root (str "device_tree")) then Ok tt else se_mount s.

Section Setup.
Context `{Alloc} `{Inet} (m : machine) (s : setup_env).

Definition setup_ops_env (cfg : kmorph_config) (network : option netsnap) : ops_env :=
  mk_env DEVTREE_ROOT MKFS_ROOT IOMEM_PATH DUMP_MEM_PATH MEMORY_BLOCK_SIZE_PATH (c_dump cfg) PCI_BUS_ROOT (c_reset_devices cfg) network true
    (Some NET_RESTORED_PATH) (c_memory cfg) (Some POOL_CLAIM_PATH).

(** [errno] after the four calls: the error of the last that failed. *)
Definition last_errno (l : list (result Z)) : Z := foldl (fun e r => match r with Err e' => e' | Ok _ => e end) 0 l.

(** The descriptors in the order they are watched; a listener is optional. *)
Definition watch_fds (timer signal : Z) (listen : result Z) : result unit :=
  let? _ := se_epoll_add s timer in
  let? _ := se_epoll_add s signal in
  match listen with Ok fd => se_epoll_add s fd | Err _ => Ok tt end.

Definition fd_of (r : result Z) : Z := match r with Ok fd => fd | Err e => - e end.

Definition daemon_setup (cfg : kmorph_config) (init : bool) (ready_fd : Z) (h : history) : result (ops * (takeover * daemon)) :=
  let network := load_network (H0 := mc_files m h) in
  if negb (devtree_has_host_tree s DEVTREE_ROOT) then Err ENOENT else
  let? _ := mkfs_mount s MKFS_ROOT in
  let? o := ops_init m (setup_ops_env cfg network) h in
  let timer := se_timer s (c_probe_interval_ms cfg) in
  let signal := se_signals s init in
  let listen := se_listener s in
  match se_epoll s, timer, signal with
  | Ok _, Ok timer_fd, Ok signal_fd =>
      let? _ := watch_fds timer_fd signal_fd listen in
      Ok (o, daemon_start cfg init timer_fd signal_fd (fd_of listen) ready_fd network)
  | epoll, _, _ => Err (last_errno [epoll; timer; signal; listen])
  end.

End Setup.

(** ** The background *)

(** Over what each [read] of the pipe returns; [None] while it waits. *)
Fixpoint wait_for_takeover (reads : list (result Z)) : option Z :=
  match reads with
  | [] => None
  | Err e :: reads => if e =? EINTR then wait_for_takeover reads else Some 1
  | Ok n :: _ => Some (if n =? 1 then 0 else 1)
  end.

Record process_env : Type := {
  p_pid : Z;
  p_pipe : result (Z * Z);
  p_fork : result Z;
  p_reads : list (result Z) }.

(** The process goes on with a descriptor to report to, or exits; none while
    it waits for the takeover. *)
Inductive going : Type := GoOn (ready_fd : Z) | Exit (code : Z) | Wait.

Definition daemonize (p : process_env) (wait : bool) : going :=
  match (if wait then p_pipe p else Ok (-1, -1)) with
  | Err _ => Exit 1
  | Ok (_, ready) =>
      match p_fork p with
      | Err _ => Exit 1
      | Ok pid =>
          if 0 <? pid then
            if wait then match wait_for_takeover (p_reads p) with Some code => Exit code | None => Wait end else Exit 0
          else GoOn ready
      end
  end.

(** ** main *)

Inductive kopt : Type := OptConfig (path : list Z) | OptForeground | OptWait | OptUnknown.

(** The options as [getopt_long] gives them: configuration path, foreground
    and wait, or a usage error. *)
Fixpoint read_options (opts : list kopt) (config : list Z) (foreground wait : bool) : option (list Z * bool * bool) :=
  match opts with
  | [] => Some (config, foreground, wait)
  | OptConfig path :: opts => read_options opts path foreground wait
  | OptForeground :: opts => read_options opts config true wait
  | OptWait :: opts => read_options opts config foreground true
  | OptUnknown :: _ => None
  end.

Inductive outcome : Type :=
| Exits (code : Z)
| Waits
| Idles
| Runs (config_path : list Z) (o : ops) (t : takeover) (d : daemon).

(** What the standby image makes of the process: the configuration it reads,
    whether it is init and whether it stays in the foreground; none if it
    idles as an init that could not be executed. *)
Definition enter_standby (env : standby_env) (present init : bool) (config : list Z) (foreground : bool) (c : calls)
    : option (list Z * bool * bool) * calls :=
  if init && present then
    match standby_enter env config c with
    | (Ok r, c) => (Some (STANDBY_CONFIG, negb (r =? 0), foreground || (r =? 0)), c)
    | (Err _, c) => (match last c with Some SIdle => None | _ => Some (config, true, foreground) end, c)
    end
  else (Some (config, init, foreground), c).

Section Main.
Context `{Alloc} `{Inet} (m : machine) (s : setup_env) (senv : standby_env) (p : process_env) (strerror : Z -> list Z).

(** A missing file is an empty one. *)
Definition load_config (path : list Z) (h : history) : result kmorph_config :=
  let '(cfg, err, ret) := config_load (H0 := mc_files m h) strerror path [] 128 in
  let '(cfg, ret) := match ret with
                     | Err e => if e =? ENOENT then let '(cfg, _, ret) := config_parse strerror [] err 128 in (cfg, ret) else (cfg, Err e)
                     | Ok _ => (cfg, Ok tt)
                     end in
  match ret with Err e => Err e | Ok _ => Ok cfg end.

(** [extra] says that there are words after the options; [after] is what the
    mounts leave of the machine. *)
Definition kmorphd_main (opts : list kopt) (extra : bool) (after : calls -> history) : outcome * calls :=
  match read_options opts KMORPH_CONFIG_PATH false false with
  | None => (Exits 2, [])
  | Some (config, foreground, wait) =>
      if extra || (foreground && wait) then (Exits 2, []) else
      let init := p_pid p =? 1 in
      let '(_, c) := if init then init_mount_filesystems senv [] else (0, []) in
      match enter_standby senv (se_exists s STANDBY_IMAGE) init config foreground c with
      | (None, c) => (Idles, c)
      | (Some (config, init, foreground), c) =>
          let h := after c in
          match load_config config h with
          | Err _ => (Exits 1, c)
          | Ok cfg =>
              match (if negb foreground && negb init then daemonize p wait else GoOn (-1)) with
              | Exit code => (Exits code, c)
              | Wait => (Waits, c)
              | GoOn ready =>
                  match daemon_setup m s cfg init ready h with
                  | Err _ => (Exits 1, c)
                  | Ok (o, (t, d)) => (Runs config o t d, c)
                  end
              end
          end
      end
  end.

End Main.

(** ** Text that went through a file *)

Lemma skip_nl_last s : skip_nl s = [] \/ exists c t, skip_nl s = c :: t /\ c <> 10.
Proof. induction s as [|c s IH]; [by left|]. cbn. case_bool; [done|]. b2p. right. by exists c, s. Qed.

Lemma skip_nl_idem s : skip_nl (skip_nl s) = skip_nl s.
Proof. destruct (skip_nl_last s) as [-> |(c & t & -> & N)]; [done|]. cbn. by rewrite (proj2 (Z.eqb_neq _ _) N). Qed.

Lemma strip_newlines_idem s : strip_newlines (strip_newlines s) = strip_newlines s.
Proof. unfold strip_newlines. by rewrite rev_involutive, skip_nl_idem. Qed.

Lemma skip_nl_app s : exists n, s = replicate n 10 ++ skip_nl s.
Proof.
  induction s as [|c s (n & IH)]; [by exists 0%nat|]. cbn [skip_nl]. case_bool; [|by exists 0%nat]. b2p. subst c. exists (S n). cbn. by rewrite <- IH.
Qed.

Lemma strip_newlines_app s : exists n, s = strip_newlines s ++ replicate n 10.
Proof.
  destruct (skip_nl_app (rev s)) as (n & E). exists n. unfold strip_newlines. transitivity (rev (rev s)); [by rewrite rev_involutive|]. rewrite E at 1.
  rewrite rev_app_distr.  f_equal. rewrite rev_alt. apply reverse_replicate.
Qed.

(** A newline at the end of a snapshot says nothing. *)
Lemma netsnap_lines_newline `{Inet} f f' p s :
  (length p <= f)%nat -> (length p <= f')%nat -> netsnap_lines (S f) (p ++ [10]) s = netsnap_lines f' p s.
Proof.
  revert f' p s. induction f as [|f IH]; intros f' p s L L'.
  { apply Nat.le_0_r, length_zero_iff_nil in L as ->. destruct f'; done. }
  destruct p as [|c p]; [by destruct f'|]. destruct f' as [|f']; [cbn in L'; lia|].
  cbn [netsnap_lines app]. change (c :: p ++ [10]) with ((c :: p) ++ [10]).
  pose proof (split_at_spec 10 (c :: p)) as Sp. destruct (split_at 10 (c :: p)) as [a [b|]]; cycle 1.
  - destruct Sp as [-> Na]. rewrite split_at_some by done. cbn [drop].
    destruct (c0 _ =? 0); [by destruct f'|]. destruct (parse_line _ _); [|done]. by destruct f'.
  - destruct Sp as (E & Na & u & ->). rewrite E, <- app_assoc, <- app_comm_cons, split_at_some by done. cbn [drop].
    assert (Lu : (length u <= f)%nat /\ (length u <= f')%nat) by (apply (f_equal length) in E; rewrite length_app in E; cbn in *; lia).
    destruct Lu as [Lu Lu']. rewrite !drop_0.
    destruct (c0 _ =? 0); [by apply (IH f' u)|]. destruct (parse_line _ _) as [s'|]; [|done]. by apply (IH f' u).
Qed.

Lemma netsnap_parse_newlines `{Inet} p n : netsnap_parse (p ++ replicate n 10) = netsnap_parse p.
Proof.
  induction n as [|n IH]; [by rewrite app_nil_r|]. rewrite replicate_S_end, app_assoc. etrans; [|exact IH]. unfold netsnap_parse.
  rewrite length_app, Nat.add_comm. by apply netsnap_lines_newline.
Qed.

Lemma netsnap_parse_strip `{Inet} text : netsnap_parse (strip_newlines text) = netsnap_parse text.
Proof. destruct (strip_newlines_app text) as (n & E). rewrite E at 2. symmetry. apply netsnap_parse_newlines. Qed.

Lemma cstring_strip s : cstring s -> cstring (strip_newlines s).
Proof. intros C. destruct (strip_newlines_app s) as (n & E). unfold cstring in *. rewrite E in C. by apply Forall_app in C as [C _]. Qed.

Lemma strip_cstring s : cstring s -> cstr_of (strip_newlines s) = strip_newlines s.
Proof. intros C. by apply cstr_of_cstring, cstring_strip. Qed.

Lemma read_string_of `{Files} path s : cstring s -> file_read path = Ok s -> file_read_string path = Ok (strip_newlines s).
Proof. intros C E. unfold file_read_string. rewrite E. by rewrite strip_cstring. Qed.

(** ** The identity outlives the daemon *)

(** What is left of a snapshot that names no interface. *)
Definition worth (s : netsnap) : option netsnap := if bool_decide (s = []) then None else Some s.

(** The last identity written to a file: where, what, and what came of it. *)
Definition save_of (e : effect) : option (list Z * list Z * Z) := match e with XSaveNetwork path text ret => Some (path, text, ret) | _ => None end.
Definition last_save (tr : list effect) : option (list Z * list Z * Z) := last (omap save_of tr).

(** It is the identity the daemon holds. *)
Definition keeping `{Inet} (d : daemon) : Prop :=
  match last_save (d_trace d) with
  | None => True
  | Some (path, text, _) => path = STANDBY_NETWORK /\ netsnap_parse text = Ok (d_network d) /\ d_has_network d = true
  end.

Lemma last_save_same tr es : Forall (fun e => save_of e = None) es -> last_save (tr ++ es) = last_save tr.
Proof.
  intros F. unfold last_save. rewrite omap_app. replace (omap save_of es) with (@nil (list Z * list Z * Z)); [by rewrite app_nil_r|].
  induction F as [|e es E F IH]; [done|]. cbn. by rewrite E.
Qed.

Lemma keeping_same `{Inet} d d' es :
  d_trace d' = d_trace d ++ es -> Forall (fun e => save_of e = None) es -> d_network d' = d_network d -> d_has_network d' = d_has_network d ->
  keeping d -> keeping d'.
Proof. intros E F N Hn. unfold keeping. by rewrite E, last_save_same, N, Hn. Qed.

Definition keeps `{Inet} (d d' : daemon) : Prop := keeping d -> keeping d'.
#[local] Instance keeps_refl `{Inet} : Reflexive keeps.
Proof. intros d K. exact K. Qed.
#[local] Instance keeps_trans `{Inet} : Transitive keeps.
Proof. intros x y z A B K. by apply B, A. Qed.

Lemma loop_keeping `{Inet} k t d ready : keeping d -> keeping (daemon_run k t d ready).2.
Proof.
  apply (run_framed k keeps); unfold keeps.
  - intros e x E. apply (keeping_same _ _ [e]); [done| |done..]. constructor; [by destruct e|constructor].
  - intros x y E _ _ N Hn. apply (keeping_same _ _ []); rewrite ?app_nil_r; done.
  - intros t' x. destruct (write_state_plain k t' (emit (XCall (CState TK_TAKEN_OVER) None) x)) as (C & _ & es & Es & Fs).
    set (y := write_state_file k t' _) in *. assert (Ny : d_network y = d_network x /\ d_has_network y = d_has_network x).
    { split; [change (d_network (core y) = d_network (core x))|change (d_has_network (core y) = d_has_network (core x))]; by rewrite C. }
    destruct Ny as [N Hn]. assert (F : Forall (fun e => save_of e = None) es) by (eapply Forall_impl; [exact Fs|]; by intros []).
    unfold report_taken_over. destruct (_ <? 0).
    + apply (keeping_same _ _ (XCall (CState TK_TAKEN_OVER) None :: es)); [rewrite Es; cbn; by rewrite <- app_assoc|by constructor|done..].
    + apply (keeping_same _ _ (XCall (CState TK_TAKEN_OVER) None :: es ++ [XReport (d_ready_fd y) (k_report k (d_trace y)); XClose (d_ready_fd y)]));
        [cbn; rewrite Es; cbn; by rewrite <- !app_assoc| |done..]. constructor; [done|]. apply Forall_app. split; [done|by repeat constructor].
  - intros x. by apply (keeping_same _ _ []); rewrite ?app_nil_r.
  - intros x _. apply (keeping_same _ _ [XClose (d_probe_fd x)]); [done|by repeat constructor|done..].
  - intros tr x _ _. by apply (keeping_same _ _ []); rewrite ?app_nil_r.
  - intros tr fd x _ _ _. apply (keeping_same _ _ [XClose fd]); [done|by repeat constructor|done..].
  - intros t' x text len. unfold answer_network. destruct (2 <=? _); [done|]. destruct (netsnap_parse text) as [next|] eqn:P; [|done]. intros _.
    unfold keeping, last_save. cbn [snd d_trace emit d_with_trace d_with_has_network d_with_network d_network d_has_network]. rewrite omap_app. cbn [omap list_omap save_of].
    by rewrite last_snoc.
Qed.

(** C36: a restarted daemon has the identity the last one took.  If the last
    identity the daemon took in its life was written without error, and the
    file it was written to holds that text, a daemon that starts then loads
    the very snapshot the first one holds, whatever the predecessor's arm
    left in /etc. *)
Theorem network_survives_restart `{Inet} k cfg init timer signal listen ready_fd net ready files path text :
  let '(t, d) := daemon_life k cfg init timer signal listen ready_fd net ready in
  last_save (d_trace d) = Some (path, text, 0) -> cstring text -> @file_read files path = Ok text ->
  d_has_network d = true /\ load_network (H0 := files) = worth (d_network d).
Proof.
  unfold daemon_life, daemon_start. set (t0 := takeover_init _ _). set (d0 := mk_daemon _ _ _ _ _ _ _ _ _ _ _ _ _ _ _ _).
  pose proof (loop_keeping k t0 d0 ready I) as K. destruct (daemon_run k t0 d0 ready) as [t d]. cbn [snd] in K. intros L C R. unfold keeping in K. rewrite L in K.
  destruct K as (-> & P & Hn). split; [done|]. unfold load_network, network_paths. cbn [load_each]. rewrite (read_string_of (H := files) _ text) by done.
  by rewrite netsnap_parse_strip, P.
Qed.

Lemma config_parse_text `{Alloc} strerror text err len cfg err' : config_parse strerror text err len = (cfg, err', Ok tt) -> c_text cfg = Some text.
Proof.
  unfold config_parse. destruct (negb _); [done|]. destruct (negb (bool_decide (is_Some (strdup text)))); [done|].
  destruct (config_lines _ _ _ _ _ _ _) as [[c er] ret]. destruct (is_ok ret && _ && _); [done|]. destruct ret as [[]|e]; [|done].
  unfold strdup. destruct (alloc _); cbn; [|done]. by intros [= <- _].
Qed.

(** C12: the successor runs on the configuration it was armed with.  What
    [kmorph] parsed it keeps as text; a daemon that finds exactly that text
    at its own path, as the initrd and the standby image carry it, loads
    the same configuration, every field of it and the text to forward. *)
Theorem config_forwarded `{Alloc} strerror path path' err len cfg err' here there text :
  @file_read here path = Ok text -> cstring text ->
  config_load (H0 := here) strerror path err len = (cfg, err', Ok tt) ->
  c_text cfg = Some (strip_newlines text) /\
  (@file_read there path' = Ok (default [] (c_text cfg)) -> config_load (H0 := there) strerror path' err len = (cfg, err', Ok tt)).
Proof.
  intros R C L. unfold config_load in L. rewrite (read_string_of (H := here) _ text) in L by done.
  assert (T : c_text cfg = Some (strip_newlines text)) by (by eapply config_parse_text).
  split; [done|]. rewrite T. cbn. intros R'. unfold config_load. rewrite (read_string_of (H := there) _ (strip_newlines text)); [|by apply cstring_strip|done].
  by rewrite strip_newlines_idem.
Qed.

(** ** What main runs *)

Lemma wait_for_takeover_code reads code : wait_for_takeover reads = Some code -> code = 0 \/ code = 1.
Proof. induction reads as [|[n|e] reads IH]; cbn; [done| |]; [case_bool; intros [= <-]; auto|case_bool; [done|]; intros [= <-]; auto]. Qed.

Lemma daemonize_code p wait code : daemonize p wait = Exit code -> code = 0 \/ code = 1.
Proof.
  unfold daemonize. destruct (if wait then _ else _) as [[? ?]|?]; [|intros [= <-]; auto]. destruct (p_fork p); [|intros [= <-]; auto].
  case_bool; [|done]. destruct wait; [|intros [= <-]; auto]. destruct (wait_for_takeover _) eqn:W; [|done]. intros [= <-]. by eapply wait_for_takeover_code.
Qed.

Lemma ops_init_env `{Alloc} m env h o : ops_init m env h = Ok o -> o_env o = env.
Proof.
  unfold ops_init. destruct (devtree_read_self _); [|done]. cbn. destruct (host_tree_read _); [|done]. cbn. destruct (list_foreign _ _ _ _); [|done].
  cbn. destruct (devtree_read_iommus _); [|done]. by intros [= <-].
Qed.

(** The standby image leaves a process its own place, or makes it the child
    of an init that runs from the image. *)
Lemma enter_standby_cases env present init config foreground c :
  match enter_standby env present init config foreground c with
  | (None, c') => last c' = Some SIdle
  | (Some (config', init', foreground'), c') =>
      (init' = init /\ (config' = config \/ config' = STANDBY_CONFIG) /\ foreground' = foreground) \/
      (init = true /\ init' = false /\ config' = STANDBY_CONFIG /\ foreground' = true /\ SFork (Ok 0) ∈ c')
  end.
Proof.
  unfold enter_standby. destruct init; [|by left; auto]. destruct present; [|by left; auto]. cbn [andb].
  destruct (standby_enter env config c) as [[r|e] c'] eqn:E.
  - destruct (Z.eqb_spec r 0) as [-> |N]; cbn [negb]; [|rewrite orb_false_r; left; auto]. right. rewrite orb_true_r. split_and!; try done.
    revert E. unfold standby_enter. destruct (mount_root env c) as [[]  c1]; [|done]. destruct (do_copy env config _ c1) as [[] c2]; [|done].
    destruct (do_copy env NETWORK_FILE _ c2) as [? c3]. destruct (move_pseudo_fs env c3) as [[] c4]; [|done]. destruct (make_root env c4) as [[] c5]; [|done].
    cbv zeta. destruct (sb_fork env _) as [pid|]; [|done]. destruct (Z.eqb_spec pid 0) as [-> |]; [|done]. intros [= <-].
    apply elem_of_app. right. by left.
  - destruct (last c') as [[]|] eqn:L; auto.
Qed.

Section Runs.
Context `{Alloc} `{Inet} (m : machine) (s : setup_env) (senv : standby_env) (p : process_env) (strerror : Z -> list Z).

Lemma daemon_setup_ok cfg init ready h o t d :
  daemon_setup m s cfg init ready h = Ok (o, (t, d)) ->
  devtree_has_host_tree s DEVTREE_ROOT = true /\ mkfs_mount s MKFS_ROOT = Ok tt /\ ops_init m (o_env o) h = Ok o /\
  t = takeover_init (c_probe_timeouts cfg) (c_fence_retries cfg) /\ d_cfg d = cfg /\ d_init d = init /\ d_ready_fd d = ready /\
  o_env o = setup_ops_env cfg (load_network (H0 := mc_files m h)) /\ d_dump_path d = c_dump cfg /\
  load_network (H0 := mc_files m h) = (if d_has_network d then Some (d_network d) else None).
Proof.
  unfold daemon_setup. cbv zeta. generalize (@load_network H0 (mc_files m h)) as net. intros net. destruct (devtree_has_host_tree s _); [|done]. cbn [negb]. destruct (mkfs_mount s _) as [[]|]; [|done].
  cbn. destruct (ops_init m _ h) as [o'|] eqn:O; [|done]. cbn. destruct (se_epoll s); [|done]. destruct (se_timer s _); [|done]. destruct (se_signals s _); [|done].
  destruct (watch_fds s _ _ _); [|done]. cbn. intros [= <- <- <-]. pose proof (ops_init_env _ _ _ _ O) as E. rewrite E, O. split_and!; try done. cbn.
  by destruct net.
Qed.

(** C19: [main] runs an armed daemon or says why not.  The daemon it runs has
    the configuration of the file it settled on, the machine unfenced and
    armed, and a host tree to take over from; its operations were initialised
    with the program's paths, the dump, the device resets and the memory of
    that configuration and the network identity found in /run or, failing
    that, /etc, and daemon and operations start with the same dump and the
    same identity; it is init only as process 1, and
    process 1 runs a daemon that is not init only as the child forked from
    an init in the standby image.  Process 1 never goes to the background:
    it never exits with success or waits for a takeover, and an init that
    idles is one whose image could not be executed. *)
Theorem kmorphd_main_sound opts extra after :
  match kmorphd_main m s senv p strerror opts extra after with
  | (Runs config o t d, c) =>
      load_config m strerror config (after c) = Ok (d_cfg d) /\
      t = takeover_init (c_probe_timeouts (d_cfg d)) (c_fence_retries (d_cfg d)) /\
      devtree_has_host_tree s DEVTREE_ROOT = true /\ ops_init m (o_env o) (after c) = Ok o /\
      o_env o = setup_ops_env (d_cfg d) (load_network (H0 := mc_files m (after c))) /\ d_dump_path d = c_dump (d_cfg d) /\
      load_network (H0 := mc_files m (after c)) = (if d_has_network d then Some (d_network d) else None) /\
      (d_init d = true -> p_pid p = 1) /\
      (p_pid p = 1 -> d_init d = false -> config = STANDBY_CONFIG /\ SFork (Ok 0) ∈ c)
  | (Exits code, _) => code ∈ [0; 1; 2] /\ (code = 0 -> p_pid p <> 1)
  | (Waits, _) => p_pid p <> 1
  | (Idles, c) => p_pid p = 1 /\ last c = Some SIdle
  end.
Proof.
  unfold kmorphd_main. destruct (read_options _ _ _ _) as [[[config foreground] wait]|]; [|split; [set_solver|done]].
  destruct (extra || _); [split; [set_solver|done]|]. destruct (if p_pid p =? 1 then _ else _) as [r0 c0].
  pose proof (enter_standby_cases senv (se_exists s STANDBY_IMAGE) (p_pid p =? 1) config foreground c0) as E.
  destruct (enter_standby _ _ _ _ _ _) as [[[[config' init'] fg']|] c] eqn:En; cycle 1.
  { split; [|done]. unfold enter_standby in En. destruct (Z.eqb_spec (p_pid p) 1); [done|by injection En]. }
  destruct (load_config m strerror config' (after c)) as [cfg|e] eqn:L; [|split; [set_solver|done]].
  assert (Bg : forall (b : bool), b = negb fg' && negb init' -> b = true -> p_pid p <> 1).
  { intros b -> B. destruct E as [(-> & _ & ->)|(_ & -> & _ & -> & _)]; [|done]. destruct (Z.eqb_spec (p_pid p) 1); [|done]. by rewrite andb_false_r in B. }
  destruct (if negb fg' && negb init' then _ else _) as [ready|code|] eqn:D.
  - destruct (daemon_setup m s cfg init' ready (after c)) as [[o [t d]]|] eqn:S; [|split; [set_solver|done]].
    apply daemon_setup_ok in S as (Ht & _ & O & -> & Ec & Ei & _ & Ee & Ed & Ne). rewrite Ec, Ei. split_and!; try done.
    + intros ->. destruct E as [(I & _)|(_ & I & _)]; [by apply Z.eqb_eq|done].
    + intros P1 ->. destruct E as [(I & _)|(_ & _ & -> & _ & F)]; [rewrite P1 in I; done|done].
  - destruct (negb fg' && negb init') eqn:B; [|done]. apply daemonize_code in D. specialize (Bg _ eq_refl eq_refl). split; [|done]. set_solver.
  - destruct (negb fg' && negb init') eqn:B; [|done]. by apply (Bg true).
Qed.

End Runs.

(** ** Witnesses *)

Definition kept_files (path text : list Z) : Files := {| file_read p := if streq p path then Ok text else Err ENOENT; dir_list _ := Err ENOENT |}.

Definition demo_identity : list Z := str "link 0000:03:00.0 eth0 52:54:00:12:34:56 1500" ++ [10; 10].

(** A predecessor that hands its identity over. *)
Definition kernel_identity : kernel := {|
  k_now := fun _ => 0; k_fence := fun _ => 0; k_adopt := fun _ => 0; k_preserve := fun _ => 0;
  k_reap := fun _ => 0; k_timer_read := fun _ => 8; k_probe_start := fun _ => 7; k_epoll_add := fun _ => 0; k_probe_finish := fun _ => 0; k_accept := fun _ => 9;
  k_recv := fun _ => [RecvData (str "network " ++ dec (zlen demo_identity) ++ [10] ++ demo_identity)];
  k_report := fun _ => 1; k_file_write := fun _ => 0; k_signal := fun _ => None |}.

Lemma network_survives_restart_witness :
  let d := (@daemon_life PlainInet.inet kernel_identity default_config false 3 4 5 (-1) None [5]).2 in
  d_has_network d = true /\ @load_network PlainInet.inet (kept_files STANDBY_NETWORK demo_identity) = worth (d_network d).
Proof.
  pose proof (@network_survives_restart PlainInet.inet kernel_identity default_config false 3 4 5 (-1) None [5]
    (kept_files STANDBY_NETWORK demo_identity) STANDBY_NETWORK demo_identity) as N.
  cbv zeta. destruct (daemon_life kernel_identity default_config false 3 4 5 (-1) None [5]) as [t d] eqn:E. apply N.
  - transitivity (last_save (d_trace (@daemon_life PlainInet.inet kernel_identity default_config false 3 4 5 (-1) None [5]).2)); [by rewrite E|].
    vm_compute. reflexivity.
  - apply (bool_decide_unpack _). vm_compute. exact I.
  - vm_compute. reflexivity.
Defined.

Definition demo_conf : list Z := str "name = two" ++ [10] ++ str "memory = 1G" ++ [10].

Lemma config_forwarded_witness :
  exists cfg, config_load (H := alloc_always) (H0 := kept_files KMORPH_CONFIG_PATH demo_conf) (fun _ => []) KMORPH_CONFIG_PATH [] 128 = (cfg, [], Ok tt) /\
    config_load (H := alloc_always) (H0 := kept_files STANDBY_CONFIG (default [] (c_text cfg))) (fun _ => []) STANDBY_CONFIG [] 128 = (cfg, [], Ok tt).
Proof.
  eexists. split; [vm_compute; reflexivity|].
  refine (proj2 (config_forwarded (H := alloc_always) (fun _ => []) KMORPH_CONFIG_PATH STANDBY_CONFIG [] 128 _ []
    (kept_files KMORPH_CONFIG_PATH demo_conf) (kept_files STANDBY_CONFIG _) demo_conf _ _ _) _).
  - vm_compute. reflexivity.
  - apply (bool_decide_unpack _). vm_compute. exact I.
  - vm_compute. reflexivity.
  - vm_compute. reflexivity.
Defined.
