(* ===== verification/Process.v ===== *)
(** * kmorphd/main.c: the process behind the daemon

    What [daemonize], [open_signals] and the calls of [main] around them do
    to the process itself: its descriptor table, in which a new descriptor is
    the lowest that is free, the session, and which signals are blocked,
    ignored or read from a descriptor.  The pipe to a waiting parent is
    followed through the fork into both processes.

    Shown: a process started with its standard descriptors open leaves the
    daemon with /dev/null on all three, where that can be opened, and the
    only write end of the pipe, and a parent that waits exits by what the
    daemon reported over its whole life; a process started without them
    may lose the pipe, and its parent exits at once; every signal the descriptor can report is one the loop
    means to handle, and none of them ends an init. *)

From S2P Require Import Prelude Cstr Config Netsnap Takeover Daemon Vigil Syscalls Startup.

(** ** Processes *)

(** What a descriptor refers to. *)
Inductive file : Type := Null | Kmsg | PipeRead | PipeWrite | Signals (mask : list Z) | Other (n : Z).
#[export] Instance file_eq_dec : EqDecision file.
Proof. solve_decision. Defined.

Abbreviation fdtable := (gmap Z file) (only parsing).

Record process : Type := mk_process {
  pr_fds : fdtable;
  pr_session_leader : bool;
  pr_cwd : list Z;
  pr_blocked : list Z;
  pr_ignored : list Z;
  pr_ready_fd : Z;
  pr_log : log_state }.

Definition with_fds (t : fdtable) (p : process) : process :=
  mk_process t (pr_session_leader p) (pr_cwd p) (pr_blocked p) (pr_ignored p) (pr_ready_fd p) (pr_log p).
Definition with_ready (fd : Z) (p : process) : process :=
  mk_process (pr_fds p) (pr_session_leader p) (pr_cwd p) (pr_blocked p) (pr_ignored p) fd (pr_log p).
Definition with_log (l : log_state) (p : process) : process :=
  mk_process (pr_fds p) (pr_session_leader p) (pr_cwd p) (pr_blocked p) (pr_ignored p) (pr_ready_fd p) l.

(** ** System calls on the table *)

Fixpoint lowest_from (fuel : nat) (i : Z) (t : fdtable) : Z :=
  match fuel with
  | O => i
  | S fuel => match t !! i with Some _ => lowest_from fuel (i + 1) t | None => i end
  end.
(** The lowest free descriptor; a table of [n] leaves one among the first [n + 1]. *)
Definition lowest (t : fdtable) : Z := lowest_from (size t) 0 t.

Definition fd_open (f : file) (t : fdtable) : Z * fdtable := (lowest t, <[lowest t := f]> t).
Definition fd_close (fd : Z) (t : fdtable) : fdtable := delete fd t.
(** [EBADF] changes nothing. *)
Definition fd_dup2 (old new : Z) (t : fdtable) : fdtable := match t !! old with Some f => <[new := f]> t | None => t end.

(** Which calls the kernel refuses. *)
Record refusals : Type := { no_pipe : bool; no_fork : bool; no_chdir : bool; no_null : bool; no_kmsg : bool; no_mask : bool; no_signalfd : bool }.

Section Background.
Context (e : refusals).

(** [log_open_kmsg]: the static descriptor is overwritten, not closed. *)
Definition open_kmsg (p : process) : process :=
  if no_kmsg e then with_log (log_open_kmsg (-1) (pr_log p)) p
  else let '(fd, t) := fd_open Kmsg (pr_fds p) in with_log (log_open_kmsg fd (pr_log p)) (with_fds t p).

(** [main], before the configuration. *)
Definition main_log (p : process) : process := open_kmsg (with_log (log_init (str "kmorphd") 2 (-1)) p).

(** The child of [daemonize], with the pipe's ends. *)
Definition redirect_stdio (t : fdtable) : fdtable :=
  if no_null e then t else
  let '(null, t) := fd_open Null t in
  fd_close null (fd_dup2 null 2 (fd_dup2 null 1 (fd_dup2 null 0 t))).

Definition daemonize_child (pipe : option (Z * Z)) (p : process) : process :=
  let p := match pipe with Some (r, w) => with_ready w (with_fds (fd_close r (pr_fds p)) p) | None => p end in
  let p := mk_process (pr_fds p) true (if no_chdir e then pr_cwd p else str "/") (pr_blocked p) (pr_ignored p) (pr_ready_fd p) (pr_log p) in
  let p := with_fds (redirect_stdio (pr_fds p)) p in
  open_kmsg (with_log (log_init (str "kmorphd") (-1) (-1)) p).

(** Two processes, or the error exit before there are two. *)
Inductive forked : Type := NoChild | Forked (parent child : process).

Definition daemonize_fds (wait : bool) (p : process) : forked :=
  if wait && no_pipe e then NoChild else
  let '(pipe, t) :=
    if wait then let '(r, t) := fd_open PipeRead (pr_fds p) in let '(w, t) := fd_open PipeWrite t in (Some (r, w), t) else (None, pr_fds p) in
  let p := with_fds t p in
  if no_fork e then NoChild else
  Forked (match pipe with Some (_, w) => with_fds (fd_close w t) p | None => p end) (daemonize_child pipe p).

(** ** Signals *)

Definition SIGINT : Z := 2.
Definition SIGPIPE : Z := 13.
Definition SIGTERM : Z := 15.

(** [sigprocmask]'s error leaves the mask, [signalfd]'s does not. *)
Definition open_signals (init : bool) (p : process) : option Z * process :=
  let mask := [SIGTERM; SIGINT] ++ (if init then [SIGCHLD] else []) in
  if no_mask e then (None, p) else
  let p := mk_process (pr_fds p) (pr_session_leader p) (pr_cwd p) (pr_blocked p ++ mask) (pr_ignored p) (pr_ready_fd p) (pr_log p) in
  if no_signalfd e then (None, p) else
  let '(fd, t) := fd_open (Signals mask) (pr_fds p) in (Some fd, with_fds t p).

(** [signal(SIGPIPE, SIG_IGN)] *)
Definition ignore_sigpipe (p : process) : process :=
  mk_process (pr_fds p) (pr_session_leader p) (pr_cwd p) (pr_blocked p) (pr_ignored p ++ [SIGPIPE]) (pr_ready_fd p) (pr_log p).

End Background.

(** What becomes of a signal sent to a process: it waits for a descriptor to
    report it, is dropped, or has its default effect. *)
Inductive fate : Type := Pending | Dropped | Default.
Definition sent (s : Z) (p : process) : fate :=
  if bool_decide (s ∈ pr_blocked p) then Pending else if bool_decide (s ∈ pr_ignored p) then Dropped else Default.

(** ** The lowest free descriptor *)

Lemma lowest_from_spec fuel i t :
  i <= lowest_from fuel i t <= i + Z.of_nat fuel /\
  (forall j, i <= j < lowest_from fuel i t -> is_Some (t !! j)) /\
  (t !! lowest_from fuel i t = None \/ lowest_from fuel i t = i + Z.of_nat fuel).
Proof.
  revert i. induction fuel as [|fuel IH]; intros i; cbn [lowest_from]; [split_and!; [lia..|right; lia]|].
  destruct (t !! i) eqn:E; [|split_and!; [lia..|by left]]. destruct (IH (i + 1)) as (R & B & L). split_and!; [lia..| |].
  - intros j J. destruct (decide (j = i)) as [-> |N]; [by eexists|]. apply B. lia.
  - destruct L as [L|L]; [by left|right; lia].
Qed.

(** A table of [n] descriptors cannot hold the first [n + 1]. *)
Lemma full_prefix (t : fdtable) n : (forall j, 0 <= j < n -> is_Some (t !! j)) -> n <= Z.of_nat (size t).
Proof.
  intros F. destruct (Z.le_gt_cases n 0); [lia|]. rewrite <- size_dom.
  assert (S : list_to_set (seqZ 0 n) ⊆ dom t).
  { intros j J. apply elem_of_list_to_set, elem_of_seqZ in J. apply elem_of_dom, F. lia. }
  apply subseteq_size in S. rewrite size_list_to_set, length_seqZ in S by apply NoDup_seqZ. lia.
Qed.

Lemma lowest_spec t : 0 <= lowest t /\ t !! lowest t = None /\ forall j, 0 <= j < lowest t -> is_Some (t !! j).
Proof.
  destruct (lowest_from_spec (size t) 0 t) as (R & B & L). fold (lowest t) in *. split_and!; [lia| |done].
  destruct L as [L|L]; [done|]. destruct (t !! lowest t) eqn:E; [|done]. exfalso.
  assert (lowest t + 1 <= Z.of_nat (size t)); [|lia]. apply full_prefix. intros j J.
  destruct (decide (j = lowest t)) as [-> |N]; [by eexists|]. apply B. lia.
Qed.

(** With 0, 1 and 2 open, what is opened comes above them. *)
Definition stdio_open (t : fdtable) : Prop := forall fd, 0 <= fd <= 2 -> is_Some (t !! fd).

Lemma lowest_above t : stdio_open t -> 2 < lowest t.
Proof.
  intros S. destruct (lowest_spec t) as (P & N & _). destruct (Z.le_gt_cases (lowest t) 2); [|lia].
  destruct (S (lowest t) ltac:(lia)) as [f F]. congruence.
Qed.

Lemma stdio_insert t fd f : stdio_open t -> stdio_open (<[fd := f]> t).
Proof. intros S i I. destruct (decide (fd = i)) as [-> |N]; [by rewrite lookup_insert_eq|rewrite lookup_insert_ne by done; by apply S]. Qed.
Lemma stdio_delete t fd : 2 < fd -> stdio_open t -> stdio_open (delete fd t).
Proof. intros F S i I. rewrite lookup_delete_ne by lia. by apply S. Qed.

Lemma redirect_open e t : stdio_open t -> redirect_stdio e t = if no_null e then t else <[2 := Null]> (<[1 := Null]> (<[0 := Null]> t)).
Proof.
  intros S. unfold redirect_stdio, fd_open, fd_close, fd_dup2. destruct (no_null e); [done|].
  pose proof (lowest_above t S) as L. destruct (lowest_spec t) as (_ & N & _).
  repeat (rewrite lookup_insert_eq || rewrite lookup_insert_ne by lia). rewrite !delete_insert_ne, delete_insert_id by (done || lia). done.
Qed.

(** ** The daemon in the background *)

Definition pipe_free (t : fdtable) : Prop := forall fd, t !! fd <> Some PipeRead /\ t !! fd <> Some PipeWrite.

(** A read of the pipe ends once nobody holds its write end. *)
Definition pipe_ended (ps : list process) : Prop := forall p fd, p ∈ ps -> pr_fds p !! fd <> Some PipeWrite.
Definition holds_write (t : fdtable) : bool := existsb (fun x => bool_decide (x.2 = PipeWrite)) (map_to_list t).
Definition writers (ps : list process) : bool := existsb (fun p => holds_write (pr_fds p)) ps.

Lemma holds_write_spec t : holds_write t = true <-> exists fd, t !! fd = Some PipeWrite.
Proof.
  unfold holds_write. rewrite existsb_exists. split.
  - intros ([fd x] & I & E). apply bool_decide_eq_true in E. cbn in E. subst x. exists fd. by apply elem_of_map_to_list, list_elem_of_In.
  - intros [fd E]. exists (fd, PipeWrite). split; [by apply list_elem_of_In, elem_of_map_to_list|by apply bool_decide_eq_true].
Qed.

Lemma writers_spec ps : writers ps = false <-> pipe_ended ps.
Proof.
  unfold pipe_ended. rewrite <- not_true_iff_false. unfold writers. rewrite existsb_exists. setoid_rewrite holds_write_spec. split.
  - intros N p fd I E. apply N. exists p. split; [by apply list_elem_of_In|eauto].
  - intros N (p & I & fd & E). apply list_elem_of_In in I. by apply (N p fd).
Qed.

Lemma open_kmsg_fds e p fd f :
  f <> Kmsg -> pr_fds (open_kmsg e p) !! fd = Some f <-> pr_fds p !! fd = Some f.
Proof.
  intros N. unfold open_kmsg. destruct (no_kmsg e); [done|]. cbn. destruct (lowest_spec (pr_fds p)) as (_ & L & _).
  destruct (decide (fd = lowest (pr_fds p))) as [-> |D]; [rewrite lookup_insert_eq, L; naive_solver|by rewrite lookup_insert_ne].
Qed.

(** What the redirection leaves of the other descriptors. *)
Lemma redirect_fds e t fd f :
  stdio_open t -> f <> Null -> redirect_stdio e t !! fd = Some f <-> t !! fd = Some f /\ (no_null e = false -> ~ 0 <= fd <= 2).
Proof.
  intros S N. rewrite redirect_open by done. destruct (no_null e); [naive_solver|].
  destruct (decide (0 <= fd <= 2)) as [D|D].
  - assert (fd = 0 \/ fd = 1 \/ fd = 2) as [-> | [-> | ->]] by lia; repeat (rewrite lookup_insert_eq || rewrite lookup_insert_ne by lia); naive_solver.
  - rewrite !lookup_insert_ne by lia. naive_solver.
Qed.

(** The two ends, both above the standard descriptors. *)
Lemma pipe_ends t : stdio_open t ->
  let r := lowest t in let w := lowest (<[r := PipeRead]> t) in
  2 < r /\ 2 < w /\ w <> r /\ t !! r = None /\ t !! w = None /\ delete r (<[w := PipeWrite]> (<[r := PipeRead]> t)) = <[w := PipeWrite]> t.
Proof.
  intros S. cbv zeta. pose proof (lowest_above t S) as R. destruct (lowest_spec t) as (_ & Fr & _).
  pose proof (lowest_above _ (stdio_insert t (lowest t) PipeRead S)) as W. destruct (lowest_spec (<[lowest t := PipeRead]> t)) as (_ & Fw & _).
  apply lookup_insert_None in Fw as [Fw D]. split_and!; [done..|].
  by rewrite delete_insert_ne, delete_insert_id by done.
Qed.

(** The table [daemonize]'s child starts from. *)
Definition child_fds (wait : bool) (t : fdtable) : fdtable := if wait then <[lowest (<[lowest t := PipeRead]> t) := PipeWrite]> t else t.

Lemma child_fds_stdio wait t : stdio_open t -> stdio_open (child_fds wait t).
Proof. intros S. destruct wait; [by apply stdio_insert|done]. Qed.

Lemma daemonize_fds_child e wait p parent child :
  stdio_open (pr_fds p) -> daemonize_fds e wait p = Forked parent child ->
  child = open_kmsg e (mk_process (redirect_stdio e (child_fds wait (pr_fds p))) true (if no_chdir e then pr_cwd p else str "/") (pr_blocked p) (pr_ignored p)
    (if wait then lowest (<[lowest (pr_fds p) := PipeRead]> (pr_fds p)) else pr_ready_fd p) (log_init (str "kmorphd") (-1) (-1))) /\
  pr_fds parent = if wait then <[lowest (pr_fds p) := PipeRead]> (pr_fds p) else pr_fds p.
Proof.
  intros S. pose proof (pipe_ends _ S) as (_ & _ & D & _ & Fw & E). unfold daemonize_fds, fd_open. destruct wait; cbn [andb].
  - destruct (no_pipe e); [done|]. destruct (no_fork e); [done|]. intros [= <- <-]. cbn [with_fds pr_fds fd_close daemonize_child with_ready]. split.
    + unfold daemonize_child, child_fds, fd_close. cbn [with_fds pr_fds with_ready with_log pr_cwd pr_blocked pr_ignored pr_ready_fd pr_log]. by rewrite E.
    + unfold fd_close. rewrite delete_insert_id; [done|]. by rewrite lookup_insert_ne by done.
  - destruct (no_fork e); [done|]. by intros [= <- <-].
Qed.

(** Nobody but the child of a waiting parent can write to the pipe. *)
Lemma child_pipe e wait p parent child fd f :
  stdio_open (pr_fds p) -> pipe_free (pr_fds p) -> daemonize_fds e wait p = Forked parent child -> f = PipeRead \/ f = PipeWrite ->
  pr_fds child !! fd = Some f <-> wait = true /\ f = PipeWrite /\ fd = pr_ready_fd child.
Proof.
  intros S F D N. destruct (daemonize_fds_child e wait p parent child S D) as [-> _].
  assert (Rd : forall q, pr_ready_fd (open_kmsg e q) = pr_ready_fd q) by (intros q; unfold open_kmsg, fd_open; by destruct (no_kmsg e)).
  rewrite open_kmsg_fds, Rd by naive_solver. cbn [pr_fds pr_ready_fd]. rewrite redirect_fds by (try apply child_fds_stdio; naive_solver).
  pose proof (pipe_ends _ S) as (_ & W & _ & _ & Fw & _). specialize (F fd) as [F1 F2]. destruct wait; cbn [child_fds]; [|naive_solver].
  set (w := lowest (<[_ := PipeRead]> _)) in *. destruct (decide (fd = w)) as [-> |X].
  - rewrite lookup_insert_eq. split; [intros [[= <-] _]; naive_solver|]. intros (_ & -> & _). split; [done|]. lia.
  - rewrite lookup_insert_ne by done. naive_solver.
Qed.

(** The write end is the child's, above the standard descriptors, and nobody
    else's. *)
Lemma background_facts e wait p parent child :
  stdio_open (pr_fds p) -> pipe_free (pr_fds p) -> daemonize_fds e wait p = Forked parent child -> wait = true ->
  2 < pr_ready_fd child /\ (forall fd, pr_fds parent !! fd <> Some PipeWrite) /\ (forall fd, pr_fds child !! fd = Some PipeWrite <-> fd = pr_ready_fd child).
Proof.
  intros S F D ->. pose proof (fun fd => child_pipe e true p parent child fd PipeWrite S F D (or_intror eq_refl)) as P.
  destruct (daemonize_fds_child e true p parent child S D) as [E Ep]. pose proof (pipe_ends _ S) as (R & W & _ & Fr & Fw & _). split_and!.
  - rewrite E. unfold open_kmsg, fd_open. by destruct (no_kmsg e).
  - intros fd. rewrite Ep. destruct (decide (fd = lowest (pr_fds p))) as [-> |X]; [by rewrite lookup_insert_eq|]. rewrite lookup_insert_ne by done. apply F.
  - intros fd. rewrite P. tauto.
Qed.

(** C22: behind a daemon in the background.  A process that has its standard
    descriptors open and goes to the background leaves a session leader whose
    standard descriptors all are /dev/null when that can be opened; whose
    other descriptors are those it had, the kernel log and, for a parent that
    waits, one write end of the pipe.  That is the only write end in either
    process: the parent's read does not end while the daemon keeps
    [ready_fd], and ends once it is closed. *)
Theorem background_process e wait p parent child :
  stdio_open (pr_fds p) -> pipe_free (pr_fds p) -> daemonize_fds e wait p = Forked parent child ->
  pr_session_leader child = true /\
  (no_null e = false -> forall fd, 0 <= fd <= 2 -> pr_fds child !! fd = Some Null) /\
  (forall fd, 2 < fd -> fd <> log_kmsg_fd (pr_log child) -> (wait = true -> fd <> pr_ready_fd child) -> pr_fds child !! fd = pr_fds p !! fd) /\
  (wait = true -> (exists fd, pr_fds parent !! fd = Some PipeRead) /\ 2 < pr_ready_fd child /\
    ~ pipe_ended [parent; child] /\ pipe_ended [parent; with_fds (fd_close (pr_ready_fd child) (pr_fds child)) child]).
Proof.
  intros S F D. destruct (daemonize_fds_child e wait p parent child S D) as [E Ep]. pose proof (pipe_ends _ S) as (R & W & _ & Fr & Fw & _).
  split_and!.
  - rewrite E. unfold open_kmsg, fd_open. by destruct (no_kmsg e).
  - intros N fd I. rewrite E. apply open_kmsg_fds; [done|]. cbn [pr_fds]. rewrite redirect_open, N by by apply child_fds_stdio.
    assert (fd = 0 \/ fd = 1 \/ fd = 2) as [-> | [-> | ->]] by lia; by repeat (rewrite lookup_insert_eq || rewrite lookup_insert_ne by lia).
  - intros fd I K C. revert K C. rewrite E. unfold open_kmsg, fd_open. set (t := redirect_stdio e _).
    assert (T : (wait = true -> fd <> lowest (<[lowest (pr_fds p):=PipeRead]> (pr_fds p))) -> t !! fd = pr_fds p !! fd).
    { intros C. unfold t. rewrite redirect_open by by apply child_fds_stdio. assert (X : child_fds wait (pr_fds p) !! fd = pr_fds p !! fd)
        by (destruct wait; [apply lookup_insert_ne; intros <-; by apply C|done]). destruct (no_null e); [done|]. by rewrite !lookup_insert_ne by lia. }
    destruct (no_kmsg e); cbn [pr_fds pr_ready_fd pr_log with_fds with_log log_kmsg_fd log_open_kmsg]; intros K C.
    + apply T. intros ->. by apply C.
    + rewrite lookup_insert_ne by (intros <-; by apply K). apply T. intros ->. by apply C.
  - intros ->. destruct (background_facts e true p parent child S F D eq_refl) as (Rd & Pp & Pc). split_and!; [|done|..].
    + exists (lowest (pr_fds p)). rewrite Ep. apply lookup_insert_eq.
    + intros Q. apply (Q child (pr_ready_fd child)); [set_solver|]. by apply Pc.
    + intros q fd Q. apply elem_of_cons in Q as [-> | Q%list_elem_of_singleton]; [apply Pp|].
      subst q. cbn [pr_fds with_fds]. unfold fd_close. intros X. apply lookup_delete_Some in X as [X Y]. by apply Pc in Y as ->.
Qed.

Definition willing : refusals := {| no_pipe := false; no_fork := false; no_chdir := false; no_null := false; no_kmsg := false; no_mask := false; no_signalfd := false |}.
Definition started (t : fdtable) : process := mk_process t false (str "/root") [] [] (-1) (log_init (str "kmorph") 2 (-1)).
Definition terminal : fdtable := {[0 := Other 0; 1 := Other 1; 2 := Other 2]}.

Lemma terminal_stdio : stdio_open (pr_fds (main_log willing (started terminal))).
Proof. intros fd I. assert (fd = 0 \/ fd = 1 \/ fd = 2) as [-> | [-> | ->]] by lia; by eexists. Qed.
Lemma terminal_pipe_free : pipe_free (pr_fds (main_log willing (started terminal))).
Proof.
  intros fd. split; intros X; apply elem_of_map_to_list in X; vm_compute in X;
    repeat (apply elem_of_cons in X as [X|X]; [discriminate X|]); by apply elem_of_nil in X.
Qed.

Lemma background_process_witness :
  exists parent child, daemonize_fds willing true (main_log willing (started terminal)) = Forked parent child /\
    ~ pipe_ended [parent; child] /\ pipe_ended [parent; with_fds (fd_close (pr_ready_fd child) (pr_fds child)) child].
Proof.
  eexists _, _. split; [reflexivity|].
  match goal with |- ~ pipe_ended [?a; ?b] /\ _ => pose proof (background_process willing true (main_log willing (started terminal)) a b terminal_stdio terminal_pipe_free eq_refl) as B end.
  destruct B as (_ & _ & _ & B). destruct (B eq_refl) as (_ & _ & X & Y). split; [exact X|exact Y].
Defined.

(** With all three standard descriptors closed the pipe lands among them and
    the redirection replaces its write end: a parent that waits reads the end
    of the pipe and exits with 1 while the daemon runs on. *)
Lemma closed_stdio_wait :
  exists parent child, daemonize_fds willing true (main_log willing (started ∅)) = Forked parent child /\
    pr_fds child !! pr_ready_fd child = Some Null /\ pipe_ended [parent; child] /\ wait_for_takeover [Ok 0] = Some 1.
Proof.
  eexists _, _. split; [reflexivity|]. split; [reflexivity|]. split; [|reflexivity].
  intros q fd Q X. apply elem_of_map_to_list in X.
  apply elem_of_cons in Q as [-> | Q%list_elem_of_singleton]; [|subst q]; vm_compute in X;
    repeat (apply elem_of_cons in X as [X|X]; [discriminate X|]); by apply elem_of_nil in X.
Qed.

(** The kernel log is open twice in the background: the descriptor [main]
    opened is forgotten, not closed. *)
Lemma kmsg_open_twice :
  exists parent child, daemonize_fds willing false (main_log willing (started terminal)) = Forked parent child /\
    log_kmsg_fd (pr_log child) = 4 /\ pr_fds child !! 3 = Some Kmsg /\ pr_fds child !! 4 = Some Kmsg.
Proof. eexists _, _. split; [reflexivity|]. by vm_compute. Qed.

(** [Startup.daemonize] on the answers of this table goes on with the same
    descriptor. *)
Lemma daemonize_goes_on e wait p parent child env :
  stdio_open (pr_fds p) -> pr_ready_fd p = -1 -> daemonize_fds e wait p = Forked parent child ->
  p_pipe env = Ok (lowest (pr_fds p), lowest (<[lowest (pr_fds p) := PipeRead]> (pr_fds p))) -> p_fork env = Ok 0 ->
  Startup.daemonize env wait = GoOn (pr_ready_fd child).
Proof.
  intros S R D P F. destruct (daemonize_fds_child e wait p parent child S D) as [-> _]. unfold daemonize.
  assert (X : forall q, pr_ready_fd (open_kmsg e q) = pr_ready_fd q) by (intros q; unfold open_kmsg, fd_open; by destruct (no_kmsg e)).
  rewrite X, P, F. destruct wait; [done|]. by rewrite <- R.
Qed.

(** ** The parent that waits *)

Definition report_of (e : effect) : option (Z * Z) := match e with XReport fd ret => Some (fd, ret) | _ => None end.
Definition reports (tr : list effect) : list (Z * Z) := omap report_of tr.

(** [kmorphd] was told that its one byte was written. *)
Definition reported (tr : list effect) : bool := existsb (fun x => x.2 =? 1) (reports tr).

(** What the daemon's calls close of its table; a descriptor it opens is
    never the pipe's. *)
Definition replay (tr : list effect) (t : fdtable) : fdtable := foldl (fun t e => match e with XClose fd => fd_close fd t | _ => t end) t tr.

(** What a [read] of the pipe returns; none while it blocks. *)
Definition pipe_read (written open : bool) : option (result Z) := if written then Some (Ok 1) else if open then None else Some (Ok 0).

(** A new descriptor is not one that is open. *)
Definition fresh_fds (k : kernel) (fd : Z) : Prop := forall tr, XClose fd ∉ tr -> k_probe_start k tr <> fd /\ k_accept k tr <> fd.

Lemma overs_app a b : overs (a ++ b) = (overs a + overs b)%nat.
Proof. unfold overs. by rewrite List.filter_app, length_app. Qed.

Lemma replay_lookup tr t fd f : replay tr t !! fd = Some f <-> t !! fd = Some f /\ XClose fd ∉ tr.
Proof.
  revert t. induction tr as [|e tr IH]; intros t; [cbn; split; [intros E; split; [done|apply not_elem_of_nil]|tauto]|].
  change (replay (e :: tr) t) with (replay tr (match e with XClose fd => fd_close fd t | _ => t end)). rewrite IH, not_elem_of_cons.
  destruct e; try (split; [intros [A B]; split; [done|split; [discriminate|done]]|tauto]).
  unfold fd_close. rewrite lookup_delete_Some. split; [intros ((N & E) & B); split; [done|split; [congruence|done]]|intros (E & N & B); split; [split; [congruence|done]|done]].
Qed.

Section Told.
Context `{Inet} (k : kernel) (r0 : Z).
Hypothesis r0_open : 0 <= r0.
Hypothesis fresh : fresh_fds k r0.

(** The pipe's write end is open and unused until the machine is taken over;
    then it was written to once and closed. *)
Definition told (d : daemon) : Prop :=
  (overs (calls (d_trace d)) = 0%nat /\ d_ready_fd d = r0 /\ reports (d_trace d) = [] /\ (XClose r0 ∉ d_trace d) /\ d_probe_fd d <> r0) \/
  ((0 < overs (calls (d_trace d)))%nat /\ d_ready_fd d = -1 /\ (exists ret, reports (d_trace d) = [(r0, ret)]) /\ (XClose r0 ∈ d_trace d)).
Definition tells (d d' : daemon) : Prop := told d -> told d'.

#[local] Instance tells_refl : Reflexive tells.
Proof using Type. intros d T. exact T. Qed.
#[local] Instance tells_trans : Transitive tells.
Proof using Type. intros x y z A B T. by apply B, A. Qed.

(** More effects that announce, report and close nothing of the pipe. *)
Lemma told_same d d' es :
  d_trace d' = d_trace d ++ es -> overs (calls es) = 0%nat -> reports es = [] -> (XClose r0 ∉ d_trace d -> XClose r0 ∉ es) ->
  d_ready_fd d' = d_ready_fd d -> (XClose r0 ∉ d_trace d -> d_probe_fd d <> r0 -> d_probe_fd d' <> r0) -> tells d d'.
Proof using Type.
  intros E O Rp N Rd P [(T1 & T2 & T3 & T4 & T5)|(T1 & T2 & (ret & T3) & T4)]; [left|right];
    unfold calls, reports in *; rewrite E, !omap_app, overs_app, O, Rp, Rd, ?T3, app_nil_r, Nat.add_0_r, ?elem_of_app; split_and!; eauto.
  intros [I|I]; [done|by apply N].
Qed.

Lemma not_elem_one (e x : effect) : x <> e -> x ∉ [e].
Proof using Type. intros N I. by apply list_elem_of_singleton in I. Qed.

Lemma loop_told t d ready : told d -> told (daemon_run k t d ready).2.
Proof using r0_open fresh.
  apply (run_framed k tells).
  - intros e x E. apply (told_same _ _ [e]); [done|by destruct e as [|[| | | |[]] | | | | | | | | | | | | | | |]|by destruct e| |done..].
    intros _. apply not_elem_one. by intros <-.
  - intros x y E Ep Er _ _. apply (told_same _ _ []); rewrite ?app_nil_r, ?Ep; done || (intros _; apply not_elem_of_nil).
  - intros t' x T. destruct (write_state_plain k t' (emit (XCall (CState TK_TAKEN_OVER) None) x)) as (_ & Rd & es & Es & Fs).
    set (y := write_state_file k t' _) in *. change (d_ready_fd y = d_ready_fd x) in Rd.
    assert (Q : calls es = [] /\ reports es = []).
    { unfold calls, reports. clear Es. induction Fs as [|e es E Fs [I1 I2]]; [done|]. destruct e; done. }
    destruct Q as [Q1 Q2]. unfold report_taken_over. rewrite Rd. cbn [emit d_with_trace d_trace] in Es. destruct T as [(T1 & T2 & T3 & T4 & T5)|(T1 & T2 & (ret & T3) & T4)].
    + rewrite T2, (proj2 (Z.ltb_ge _ _) r0_open). right. unfold calls, reports in *. cbn [emit d_with_trace d_with_ready_fd d_trace d_ready_fd].
      rewrite Es, !omap_app, !overs_app, T1, T3, Q1, Q2. cbn. split_and!; [lia|done|by eexists|]. rewrite !elem_of_app. right. by left.
    + rewrite T2. cbn [Z.ltb Z.compare]. right. unfold calls, reports in *. rewrite Es, !omap_app, !overs_app, T3, Q1, Q2. cbn.
      split_and!; [lia|lia|by eexists|]. rewrite !elem_of_app. auto.
  - intros x. apply (told_same _ _ []); rewrite ?app_nil_r; try done; [intros _; apply not_elem_of_nil|]. intros _ _. cbn. lia.
  - intros x P [T|T]; [|refine (told_same _ _ [XClose (d_probe_fd x)] _ _ _ _ _ _ (or_intror T)); try done; [destruct T as (_ & _ & _ & T); by intros []|intros _ _; cbn; lia]].
    refine (told_same _ _ [XClose (d_probe_fd x)] _ _ _ _ _ _ (or_introl T)); try done; [|intros _ _; cbn; lia]. intros _. apply not_elem_one. destruct T as (_ & _ & _ & _ & T). congruence.
  - intros tr x (es & Es) P. apply (told_same _ _ []); rewrite ?app_nil_r; try done; [intros _; apply not_elem_of_nil|]. intros N _. cbn. apply fresh. intros I. apply N. rewrite Es. apply elem_of_app. by left.
  - intros tr fd x (es & Es) F P. apply (told_same _ _ [XClose fd]); try done. intros N. apply not_elem_one. intros [= E].
    destruct (fresh tr) as [F1 F2]; [intros I; apply N; rewrite Es; apply elem_of_app; by left|]. destruct F; congruence.
  - intros t' x text len. unfold answer_network. destruct (2 <=? _); [done|]. destruct (netsnap_parse text) as [next|]; [|done]. cbn [snd].
    apply (told_same _ _ [XSaveNetwork STANDBY_NETWORK text (k_file_write k (d_trace (d_with_has_network true (d_with_network next x))))]); try done. intros _. by apply not_elem_one.
Qed.

End Told.

(** C21: [kmorphd --wait] tells its caller the truth.  A process that has its
    standard descriptors open goes to the background with [--wait]; the
    daemon runs for any while, on a kernel that gives out no descriptor that
    is still open, and is then still there or not ([alive]).  The process
    that waits, interrupted any number of times, goes on waiting while the
    daemon runs and has not taken the machine over; it exits with 0 once it
    has, unless the write of the one byte failed; and it exits with 1 when
    that failed or the daemon ended before. *)
Theorem wait_exits_on_takeover `{Inet} e p parent child k cfg init timer signal listen net ready n alive :
  stdio_open (pr_fds p) -> pipe_free (pr_fds p) -> daemonize_fds e true p = Forked parent child ->
  fresh_fds k (pr_ready_fd child) -> fds ready ->
  let '(t, d) := daemon_life k cfg init timer signal listen (pr_ready_fd child) net ready in
  let world := parent :: (if alive : bool then [with_fds (replay (d_trace d) (pr_fds child)) child] else []) in
  wait_for_takeover (replicate n (Err EINTR) ++ option_list (pipe_read (reported (d_trace d)) (writers world)))
  = if decide (tk_state t = TK_TAKEN_OVER) then Some (if reported (d_trace d) then 0 else 1) else if alive then None else Some 1.
Proof.
  intros S Fr D Fk F. assert (W : forall l, wait_for_takeover (replicate n (Err EINTR) ++ l) = wait_for_takeover l) by (intros l; by induction n).
  destruct (background_facts e true p parent child S Fr D eq_refl) as (R & Pp & Pc). set (r0 := pr_ready_fd child) in *.
  pose proof (life_ok k cfg init timer signal listen r0 net ready F) as L. cbv zeta in L.
  assert (T : told r0 (daemon_life k cfg init timer signal listen r0 net ready).2).
  { unfold daemon_life, daemon_start. apply loop_told; [lia|done|]. left. cbn. split_and!; [done..|apply not_elem_of_nil|lia]. }
  destruct (daemon_life _ _ _ _ _ _ _ _ _) as [t d]. cbn [fst snd] in *. cbv zeta. rewrite W.
  destruct L as [[P _] _ _ _ _]. assert (O : overs (calls (d_trace d)) = if decide (tk_state t = TK_TAKEN_OVER) then 1%nat else 0%nat).
  { rewrite (path_overs _ _ _ P) by done. by destruct (tk_state t). }
  set (world := parent :: _). unfold pipe_read. destruct T as [(T1 & _ & T3 & T4 & _)|(T1 & _ & (ret & T3) & T4)]; (case_decide; [|try lia]); try lia.
  - replace (writers world) with alive; [unfold reported; rewrite T3; by destruct alive|]. unfold world. destruct alive; symmetry.
    + apply not_false_iff_true. rewrite writers_spec. intros Q. apply (Q (with_fds (replay (d_trace d) (pr_fds child)) child) r0); [set_solver|]. cbn. apply replay_lookup. split; [by apply Pc|done].
    + apply writers_spec. intros q fd I. apply list_elem_of_singleton in I as ->. apply Pp.
  - replace (writers world) with false; [by destruct (reported (d_trace d))|]. symmetry. apply writers_spec. unfold world. intros q fd Q.
    apply elem_of_cons in Q as [-> | Q]; [apply Pp|]. destruct alive; [|by apply elem_of_nil in Q]. apply list_elem_of_singleton in Q as ->.
    cbn. intros X. apply replay_lookup in X as [X Y]. by apply Pc in X as ->.
Qed.

Definition waiting_parent : process := match daemonize_fds willing true (main_log willing (started terminal)) with Forked a _ => a | NoChild => started ∅ end.
Definition daemon_child : process := match daemonize_fds willing true (main_log willing (started terminal)) with Forked _ b => b | NoChild => started ∅ end.

Lemma wait_exits_on_takeover_witness :
  daemonize_fds willing true (main_log willing (started terminal)) = Forked waiting_parent daemon_child /\
  let '(t, d) := @daemon_life PlainInet.inet kernel_fine default_config false 30 40 50 (pr_ready_fd daemon_child) None (replicate 6 30) in
  let world := waiting_parent :: (if true then [with_fds (replay (d_trace d) (pr_fds daemon_child)) daemon_child] else []) in
  wait_for_takeover (replicate 2 (Err EINTR) ++ option_list (pipe_read (reported (d_trace d)) (writers world)))
  = if decide (tk_state t = TK_TAKEN_OVER) then Some (if reported (d_trace d) then 0 else 1) else if true then None else Some 1.
Proof.
  assert (D : daemonize_fds willing true (main_log willing (started terminal)) = Forked waiting_parent daemon_child) by (vm_compute; reflexivity).
  split; [exact D|]. assert (Fr : fresh_fds kernel_fine (pr_ready_fd daemon_child)) by (intros tr _; split; vm_compute; discriminate).
  assert (Fd : fds (replicate 6 30)) by (apply Forall_replicate; lia).
  exact (@wait_exits_on_takeover PlainInet.inet willing (main_log willing (started terminal)) waiting_parent daemon_child kernel_fine default_config false 30 40 50 None
    (replicate 6 30) 2 true terminal_stdio terminal_pipe_free D Fr Fd).
Defined.

(** ** Signals *)

(** A broken pipe is dropped; the termination signals wait for the
    descriptor; and a signal the descriptor reports ends the loop of an
    ordinary daemon and never that of an init. *)
Lemma signals_wired `{Inet} e init p fd p' :
  open_signals e init (ignore_sigpipe p) = (Some fd, p') ->
  (SIGPIPE ∉ pr_blocked p -> sent SIGPIPE p' = Dropped) /\
  exists mask, pr_fds p' !! fd = Some (Signals mask) /\ SIGTERM ∈ mask /\ SIGINT ∈ mask /\ (forall s, s ∈ mask -> sent s p' = Pending) /\
  forall k t d s, s ∈ mask -> d_init d = init -> fd = d_signal_fd d -> fd ∉ [d_timer_fd d; d_probe_fd d; d_listen_fd d] ->
    k_signal k (d_trace d) = Some s -> (dispatch k t d fd).2 = init.
Proof.
  unfold open_signals, fd_open. destruct (no_mask e); [done|]. destruct (no_signalfd e); [done|]. intros [= <- <-]. set (mask := _ :: _ :: _). split.
  - intros B. unfold sent, ignore_sigpipe. cbn [pr_blocked pr_ignored with_fds]. rewrite bool_decide_false, bool_decide_true; [done|set_solver|].
    unfold mask, SIGPIPE, SIGTERM, SIGINT, SIGCHLD in *. rewrite elem_of_app. intros [X|X]; [done|]. destruct init; set_solver.
  - exists mask. split; [cbn; by rewrite lookup_insert_eq|]. split_and!; [set_solver..| |].
    + intros s I. unfold sent. cbn [pr_blocked with_fds]. rewrite bool_decide_true; [done|]. set_solver.
    + intros k t d s I Ei -> N K. rewrite !not_elem_of_cons in N. destruct N as (N1 & N2 & N3 & _). unfold dispatch.
      rewrite !(proj2 (Z.eqb_neq _ _)), Z.eqb_refl, K by done. cbn [d_init emit]. unfold mask, SIGTERM, SIGINT in I.
      destruct (Z.eqb_spec s SIGCHLD) as [-> |C]; [cbn; destruct init; [done|]; unfold SIGCHLD in I; set_solver|].
      change (d_init (emit (XSignal (Some s)) d)) with (d_init d). rewrite Ei. by destruct init.
Qed.
