(* ===== verification/Command.v ===== *)
(** * kmorph/main.c: the operator's command

    The verbs of [kmorph], the path of the daemon beside the command, and
    the report of the successor's state. *)

From S2P Require Import Prelude Takeover Cstr Parse Config Scanf Request Netsnap Files Fdt HostTree Cpio Machine Mkfs Daemon Freeze Upgrade Arm Image Startup.

Definition KMORPH_INITRD_PATH : list Z := str "/var/lib/kmorph/successor.img".
Definition STATUS_REQUEST : list Z := str "status" ++ [10].

Section Status.
Context (c : client_env) (m : machine) (root : list Z) (strerror : Z -> list Z).

Definition ask_daemon (cid : Z) (h : history) : result status_reply * history :=
  match client_request c cid STATUS_REQUEST 128 h with
  | (Err e, h) => (Err e, h)
  | (Ok line, h) => (request_parse_status line, h)
  end.

(** What is printed, and the exit code. *)
Definition status_run (cfg : kmorph_config) (h : history) : Z * list (list Z) * history :=
  let name := default [] (c_name cfg) in
  match mkfs_instance_id m root name h with
  | Err _ => (1, [str "successor: not armed"], h)
  | Ok id =>
      let status := match mkfs_instance_status m root name 32 h with Ok s => s | Err _ => str "unknown" end in
      let successor := str "successor: " ++ status ++ str " (instance " ++ name ++ str ", id " ++ dec id ++ str ")" in
      match ask_daemon id h with
      | (Err e, h) => (1, [successor; str "kmorphd: unreachable (" ++ strerror e ++ str ")"], h)
      | (Ok reply, h) =>
          (0, [successor; str "kmorphd: " ++ state reply ++ str " predecessor=" ++ predecessor reply ++ str " last_probe=" ++
                          dec (last_probe_ms reply) ++ str "ms error=" ++ dec_int (Request.last_error reply)], h)
      end
  end.

End Status.

(** ** The daemon's path *)

(** [KMORPHD_PATH] is set by the build; [exe] is what [readlink] gave. *)
Definition kmorphd_path (KMORPHD_PATH : list Z) (exe : result (list Z)) (len : Z) : list Z :=
  match exe with
  | Err _ | Ok [] => KMORPHD_PATH
  | Ok exe =>
      match split_at (ch "/") (rev (cstr_of exe)) with
      | (_, None) => KMORPHD_PATH
      | (_, Some rest) =>
          let dir := rev (drop 1 rest) in
          if len <? zlen dir + 9 then KMORPHD_PATH else dir ++ str "/kmorphd"
      end
  end.

(** ** The verbs *)

Section Init.
Context `{Alloc} `{Files} (i : image_env) (KMORPHD_PATH : list Z) (exe : result (list Z)).

Definition init_run (cfg : kmorph_config) (t : list image_action) : option (result unit * list image_action) :=
  match image_build cfg (kmorphd_path KMORPHD_PATH exe PATH_MAX) with
  | None => None
  | Some (Err e, _) => Some (Err e, t)
  | Some (Ok _, image) => Some (image_write i image KMORPH_INITRD_PATH t)
  end.

End Init.

Section Main.
Context `{Alloc} (m : machine) (s : setup_env) (k : arm_hooks) (c : client_env) (ops : freeze_ops) (i : image_env)
  (KMORPHD_PATH : list Z) (exe : result (list Z)) (strerror : Z -> list Z).

(** What is left of a run: the exit code, [None] while it watches or when
    [init] reads outside a file, what was printed, what was done to the
    machine, and what to the image. *)
Definition run : Type := option Z * list (list Z) * history * list image_action.

Definition exit_code {A} (r : result A) : Z := match r with Ok _ => 0 | Err _ => 1 end.

(** [rounds] are the changes of the machine while [watch] waits. *)
Definition kmorph_verb (cfg : kmorph_config) (verb : list Z) (rounds : list (list action)) (h : history) : run :=
  if streq verb (str "init") then
    match init_run (H0 := mc_files m h) i KMORPHD_PATH exe cfg [] with
    | None => (None, [], h, [])
    | Some (r, t) => (Some (exit_code r), [], h, t)
    end
  else if streq verb (str "arm") then let '(r, h) := arm_run m k MKFS_ROOT cfg h in (Some (exit_code r), [], h, [])
  else if streq verb (str "disarm") then let '(r, h) := disarm_run m k MKFS_ROOT cfg h in (Some (exit_code r), [], h, [])
  else if streq verb (str "status") then
    let '(code, out, h) := status_run c m MKFS_ROOT strerror cfg h in (Some (if code =? 0 then 0 else 1), out, h, [])
  else if streq verb (str "upgrade") then let '(r, h) := upgrade_run c m MKFS_ROOT ops cfg h in (Some (exit_code r), [], h, [])
  else if streq verb (str "watch") then
    match watch_run c m MKFS_ROOT cfg rounds h with
    | (Ok _, h) => (None, [], h, [])
    | (Err _, h) => (Some 1, [], h, [])
    end
  else (Some 2, [], h, []).

(** The options, then exactly one word. *)
Definition kmorph_main (opts : list kopt) (words : list (list Z)) (rounds : list (list action)) (h : history) : run :=
  match read_options (map (fun o => match o with OptConfig p => OptConfig p | _ => OptUnknown end) opts) Startup.KMORPH_CONFIG_PATH false false, words with
  | Some (config, _, _), [verb] =>
      match config_load (H0 := mc_files m h) strerror config [] 128 with
      | (_, _, Err _) => (Some 1, [], h, [])
      | (cfg, _, Ok _) =>
          match mkfs_mount s MKFS_ROOT with
          | Err _ => (Some 1, [], h, [])
          | Ok _ => kmorph_verb cfg verb rounds h
          end
      end
  | _, _ => (Some 2, [], h, [])
  end.

End Main.

(** ** The daemon is the one beside the command *)

Lemma kmorphd_path_beside D dir base len :
  cstring (dir ++ str "/" ++ base) -> ch "/" ∉ base -> zlen dir + 9 <= len -> kmorphd_path D (Ok (dir ++ str "/" ++ base)) len = dir ++ str "/kmorphd".
Proof.
  intros C N L. unfold kmorphd_path. destruct (dir ++ str "/" ++ base) as [|x r] eqn:E; [by destruct dir|]. rewrite <- E in *. rewrite cstr_of_cstring by done.
  change (str "/" ++ base) with (ch "/" :: base). rewrite rev_app_distr. cbn [rev]. rewrite <- app_assoc. cbn [app].
  rewrite split_at_some by (rewrite list_elem_of_In, <- in_rev, <- list_elem_of_In; done). rewrite skipn_cons, drop_0, rev_involutive. by rewrite (proj2 (Z.ltb_ge _ _)) by lia.
Qed.

(** ** What status says *)

Lemma state_name_scannable s : scannable 15 (field16 (str (takeover_state_name s))) /\ field16 (str (takeover_state_name s)) = str (takeover_state_name s).
Proof. destruct s; (split; [|reflexivity]); split_and!; try (vm_compute; discriminate); try (vm_compute; lia); by repeat constructor. Qed.

Lemma result_name_scannable (b : bool) r :
  let n := if b then str "handed-over" else probe_result_name r in scannable 15 (field16 n) /\ field16 n = n.
Proof. destruct b, r; (split; [|reflexivity]); split_and!; try (vm_compute; discriminate); try (vm_compute; lia); by repeat constructor. Qed.

Lemma format_fits len x text : format len x = Ok text -> text = x /\ zlen text < len.
Proof. unfold format. destruct (Z.leb_spec len (Z.of_nat (length x))); [done|]. intros [= <-]. by unfold zlen. Qed.

Section Reported.
Context `{Inet} (k : kernel) (t : takeover) (d : daemon) (c : client_env) (m : machine) (root : list Z) (strerror : Z -> list Z).

(** The reply the daemon fills in. *)
Definition reply_with (ms : Z) : status_reply :=
  {| state := str (takeover_state_name (tk_state t));
     predecessor := if d_handed_over d then str "handed-over" else probe_result_name (d_last_result d);
     last_probe_ms := ms; Request.last_error := Takeover.last_error t |}.

Lemma fill_status_reply fd :
  exists ms d1, is_u64 ms /\ fill_status k t (emit (XRecv fd) d) = (reply_with ms, d1) /\ (exists e, last (d_trace d1) = Some e /\ forall x, e <> XSend fd x) /\ core d1 = core d.
Proof.
  unfold fill_status, reply_with. destruct (state_name_scannable (tk_state t)) as [_ ->].
  destruct (result_name_scannable (d_handed_over d) (d_last_result d)) as [_ E]. destruct (_ =? 0); cbn [now_ms].
  - eexists 0, _. split; [done|]. split; [by rewrite <- E|]. split; [|done]. eexists. cbn. rewrite last_snoc. split; [reflexivity|done].
  - eexists _, _. split; [apply u64_range|]. split; [by rewrite <- E|]. split; [|done]. eexists. cbn. rewrite last_snoc. split; [reflexivity|done].
Qed.

Lemma reply_cstring ms text :
  is_u64 ms -> - 2 ^ 31 <= Takeover.last_error t < 2 ^ 31 -> request_format_status (reply_with ms) 128 = Ok text -> cstring text /\ text <> [] /\ zlen text <= 127.
Proof.
  intros M E F. apply format_fits in F as [F L]. split; [|split; [by subst text|lia]]. rewrite F. clear L F.
  cbn [reply_with state predecessor last_probe_ms Request.last_error]. rewrite !cstring_app. split_and!; try (by repeat constructor).
  - destruct (tk_state t); by repeat constructor.
  - destruct (d_handed_over d), (d_last_result d); by repeat constructor.
  - by apply dec_cstring.
  - unfold dec_int. case_bool; b2p; [constructor; [done|]|]; (apply dec_cstring; lia).
Qed.

(** The daemon reads the request of the client and sends its reply. *)
Lemma status_answer fd :
  k_recv k (d_trace d) = [RecvData STATUS_REQUEST] ->
  let '(r, d1) := fill_status k t (emit (XRecv fd) d) in
  answer_request k t d fd = (false, match request_format_status r 128 with Ok text => if bool_decide (text = []) then d1 else emit (XSend fd text) d1 | Err _ => d1 end).
Proof.
  intros R. unfold answer_request. cbv zeta. rewrite R.
  replace (read_request [RecvData STATUS_REQUEST] (REQUEST_LINE_MAX + Daemon.NETSNAP_TEXT_MAX)) with (Ok (7, REQUEST_STATUS, 0, STATUS_REQUEST) : result _) by (vm_compute; reflexivity).
  by destruct (fill_status k t _) as [r d1].
Qed.

(** [kmorph status] reports the daemon as it is.  With an armed successor
    whose daemon answers the request, and a client that receives that
    answer, the command exits with 0 and prints the state the machine is in,
    what the last probe said of the predecessor, or that it handed over, and
    the error of the last operation; the daemon is left as it was. *)
Theorem status_reports_daemon fd cfg h id text :
  k_recv k (d_trace d) = [RecvData STATUS_REQUEST] -> last (d_trace (answer_request k t d fd).2) = Some (XSend fd text) ->
  - 2 ^ 31 <= Takeover.last_error t < 2 ^ 31 ->
  mkfs_instance_id m root (default [] (c_name cfg)) h = Ok id ->
  cl_socket c h = Ok tt -> cl_connect c h id = Ok tt -> cl_send c h STATUS_REQUEST = Ok tt -> cl_recv c h 127 = Ok text ->
  exists successor ms h',
    status_run c m root strerror cfg h =
    (0, [successor; str "kmorphd: " ++ str (takeover_state_name (tk_state t)) ++ str " predecessor=" ++
                    (if d_handed_over d then str "handed-over" else probe_result_name (d_last_result d)) ++ str " last_probe=" ++ dec ms ++
                    str "ms error=" ++ dec_int (Takeover.last_error t)], h') /\
    core (answer_request k t d fd).2 = core d.
Proof.
  intros Rv Ls Le Id So Co Se Re. pose proof (status_answer fd Rv) as A. destruct (fill_status_reply fd) as (ms & d1 & M & F & (e & Le1 & Ne) & C).
  rewrite F in A. rewrite A in *. cbn [snd] in *. destruct (request_format_status (reply_with ms) 128) as [line|] eqn:Fm; cycle 1.
  { rewrite Ls in Le1. by destruct (Ne text); injection Le1. }
  destruct (reply_cstring ms line M Le Fm) as (Cs & Nn & Ln). rewrite bool_decide_eq_false_2 in * by done. cbn [emit d_with_trace d_trace] in Ls.
  rewrite last_snoc in Ls. injection Ls as ->.
  assert (P : request_parse_status text = Ok (reply_with ms)).
  { destruct (state_name_scannable (tk_state t)) as [S1 E1]. destruct (result_name_scannable (d_handed_over d) (d_last_result d)) as [S2 E2].
    rewrite E1 in S1. rewrite E2 in S2. by apply (request_status_roundtrip (reply_with ms) 128). }
  assert (Q : client_request c id STATUS_REQUEST 128 h = (Ok text, h ++ [ARequest id STATUS_REQUEST (Ok text)])).
  { unfold client_request. rewrite So, Co, Se. change (128 - 1) with 127. rewrite Re. destruct text as [|x text]; [done|].
    rewrite take_ge by (unfold zlen in Ln; lia). by rewrite cstr_of_cstring. }
  eexists _, ms, _. split; [|by rewrite core_emit]. unfold status_run. rewrite Id. unfold ask_daemon. rewrite Q, P. reflexivity.
Qed.

End Reported.

(** ** Witness *)

Definition kernel_asked : kernel := {|
  k_now := fun _ => 0; k_fence := fun _ => 0; k_adopt := fun _ => 0; k_preserve := fun _ => 0;
  k_reap := fun _ => 0; k_timer_read := fun _ => 8; k_probe_start := fun _ => 7;
  k_epoll_add := fun _ => 0; k_probe_finish := fun _ => ECONNRESET; k_accept := fun _ => 9;
  k_recv := fun _ => [RecvData STATUS_REQUEST]; k_report := fun _ => 1; k_file_write := fun _ => 0; k_signal := fun _ => None |}.

Definition asked_text : list Z := str "ok ARMED predecessor=error last_probe=0ms error=0" ++ [10].
Definition asking_client : client_env := {|
  cl_socket _ := Ok tt; cl_connect _ _ := Ok tt; cl_send _ _ := Ok tt; cl_recv _ _ := Ok asked_text; cl_netsnap _ _ := Err ENOENT |}.
Definition asked_machine : machine := {|
  mc_files _ := {| file_read _ := Ok (str "7" ++ [10]); dir_list _ := Err ENOENT |}; mc_exists _ _ := true;
  mc_write _ _ _ := Ok tt; mc_overlay _ _ _ := Ok tt; mc_tree _ _ := Err ENOENT; mc_command _ _ := Err ENOENT; mc_set_command _ _ _ := false;
  mc_fence _ _ := Ok tt; mc_fork _ _ := false; mc_alive _ _ _ := false; mc_schedule _ _ := 0%nat; mc_network _ := (0, []); mc_dump _ _ _ := Ok tt |}.

Lemma status_reports_daemon_witness :
  exists successor ms h',
    status_run asking_client asked_machine MKFS_ROOT (fun _ => []) default_config [] =
    (0, [successor; str "kmorphd: ARMED predecessor=error last_probe=" ++ dec ms ++ str "ms error=0"], h').
Proof.
  destruct (@status_reports_daemon PlainInet.inet kernel_asked (takeover_init 3 3) (@daemon_start default_config false 3 4 5 (-1) None).2
    asking_client asked_machine MKFS_ROOT (fun _ => []) 9 default_config [] 7 asked_text) as (successor & ms & h' & E & _).
  - reflexivity.
  - vm_compute. reflexivity.
  - cbn. lia.
  - vm_compute. reflexivity.
  - reflexivity.
  - reflexivity.
  - reflexivity.
  - reflexivity.
  - exists successor, ms, h'. exact E.
Defined.
